(* ===== verification/_CoqProject ===== *)
-Q . S2P
Prelude.v
GtpTables.v
GtpHeader.v
Text.v
Signals.v
Logger.v
GenUtils.v
GtpFields.v
Pcap.v
Monitor.v
Counting.v
Untunnel.v
GtpWalk.v
GtpMessage.v
DecodeGtp.v
GtpImsiEua.v
GtpAddr.v
UsecTstamp.v
GtpUntunnel.v
PcapStats.v
ChunkPcap.v
Config.v
Sys.v
Wp.v
Locks.v
Discipline.v
Tcp.v
Session.v
Handler.v
Evolve.v
Threads.v
ClientConn.v
Server.v
LiveCapture.v
FileCapture.v
Merger.v
Client.v
Supervision.v
Critical.v
System.v
Running.v
Sharing.v
Merging.v
Contention.v
Distributing.v
Connections.v
Accept.v
Delivery.v
Main.v
