(* ===== verification/Prelude.v ===== *)
(** * The packet distributor and merger, verified

    The programs of this repository distribute captured packets from probes and
    merge them again.  [pcapdistributer] captures from an interface or a
    directory of files and sends every packet to all clients connected to its
    port; [pcapmerger] connects to several distributers, optionally removes the
    GTP tunnel from each packet, and writes all packets to one file.  Around
    them are seven small tools that read one capture file: [decodegtp],
    [gtpimsieua], [gtpaddr], [gtpuntunnel], [usectstamp], [pcapfilestats] and
    [chunkpcapfile].  Paths below are relative to [src/src] or [src/include].

    ** Parts and files

    Foundations:
    - [Prelude]: faulting computations ([res]: a read or write outside an object,
      a null pointer, a closed handle, a division by zero and a string past its array
      are values [Fault _]), integers of a fixed width, octet buffers, automation.
    - [Text]: C strings in character arrays and the [printf] conversions used.
    - [Logger]: [logger.h], what one call of [write_to_syslog] does.
    - [Signals]: what the main programs do with signals.
    - [Pcap]: the packet headers of libpcap, and [pcap_loop] on a list of packets.

    GTP ([gtp/], [gtpv1*.h]):
    - [GtpTables]: the tables of [gtpv1_message_types.c] and
      [gtpv1_information_elements.c], every assignment in source order.
    - [GtpHeader]: [gtpv1_get_header] of [gtpv1.c], and a reference parser.
    - [GtpFields]: IMSI, TEID and End User Address of the three field headers.
    - [GtpWalk], [GtpMessage]: the walk over the information elements that
      [decodegtp.c] and [gtpimsieua.c] share; encoded messages and packets.

    Tools ([filterprograms/]): [DecodeGtp], [GtpImsiEua], [GtpAddr],
    [GtpUntunnel], [UsecTstamp], [PcapStats], [ChunkPcap], one file each: the
    packet handler with its static variables, and [main].

    Utilities: [GenUtils] ([genutils.c]), [Config] ([config.c], over a JSON
    library given by the class [Json] with the documented laws [JsonLaws]),
    [Monitor] ([monitor.h]) and [Counting] (its functions cut at every access to a
    counter, and threads that interleave them), [Untunnel] ([pcapsession_untunnel.c]), [Tcp]
    ([tcp.c]).

    Sessions ([pcapsession/]):
    - [Sys]: the session record of [pcapsession.h], the world (session list,
      clients, threads, supervisor's data, trace of calls) and a state monad.
      Every call to the operating system or libpcap is an event of the trace,
      answered by an environment ([Env]) from the calls made so far, so theorems
      hold for every behaviour of the outside.
    - [Wp]: weakest preconditions, [local] reasoning about code that works on one
      session, and the tactics [wp_step] and [local_step].
    - [Session]: [pcapsession.c], and the life cycle of a session as an
      automaton ([lifecycle]).  What it asks of the [stopper] pointers is the
      class [StoppersSpec].
    - [Handler]: what the modules share.  [Server], [ClientConn], [LiveCapture],
      [FileCapture], [Merger], [Client]: the six modules, with [open], [run],
      [stop] and the packet handlers.  A [run] function is cut at the calls it
      can block in ([point]).
    - [Evolve]: what threads and [open] functions may change; [Threads]: what a
      visit of the supervisor does to the threads.
    - [Supervision]: the modules' [stop] functions implement [StoppersSpec], and
      the theorems about supervision.
    - [System]: sessions, threads, packets, supervisor and shutdown as one step
      relation, with its invariant.  [Running]: when the turn of a thread goes
      through.
    - [Connections]: the connection list as an invariant of that system, and what
      follows for packets and for the turns of threads; [Accept]: from a client's connect to a live connection;
      [Delivery]: from the capture loop of the distributer, over the connection,
      to the capture loop of the merger.
    - [Locks]: code cut at accesses, calls and mutex operations, and threads that
      interleave between them; [Discipline]: a program logic for such threads.
      [Critical]: packet handlers, the supervisor's output and the stop of a
      session as such code; [Sharing]: the discipline of the session table;
      [Merging] and [Contention]: the threads of a running merger and what their
      mutexes achieve; [Distributing]: the threads of a distributer.
    - [Main]: [pcapmerger.cpp] and [pcapdistributer.cpp], whose phases are runs of
      that system.

    ** What the theorems show

    - Invariants of the whole: reachable states are well formed, each thread is
      the only one of a busy session; the listed connections are those of the
      running connections, each in its own slot; the supervision loop never gets
      stuck; a thread's turn faults exactly for the causes of [can_run]
      ([threads_run_unless]); a captured packet is taken up without a fault and
      faults later only when the connection it waits for is stopped under it
      ([packets_fault_only_when_stopped], [stopped_while_waiting_faults]);
      shutdown ends from every reachable state in two turns of an undisturbed
      supervisor when the descriptors are open.  [supervision_follows_lifecycle]
      refines a turn of the loop to the life-cycle automaton.
    - The programs: the merger comes to exactly the configured settings, the
      phases of both programs run in the system.
    - The data path: an accepted connection goes live in the first unused slot,
      and a full table ends the server; what the distributer captures is dumped by
      a merger connected to it, in order and once ([captured_packets_are_merged]);
      within that, a captured packet reaches exactly the live connections, the
      merger dumps what its clients receive, in order and once, a file capture
      iterates as configured, untunnelling leaves the carried packet.  A monitor
      accounts for all packets but those counted between its report and its
      clearing, as long as no addition is interrupted by another write
      ([monitor_accounting]).
    - The mutexes: in every interleaving, access by access, the handlers of the
      merger take effect one at a time in some order of the packets
      ([merging_is_atomic]), a dumper is used by one thread at a time, nothing deadlocks as long as output
      to a stream is no cancellation point, and when it is one a cancelled client
      stops the merger for good.
    - GTP: [gtpv1_get_header] finds the header of every encapsulation and agrees
      with a checked parser up to the two subtractions that wrap; the walk visits
      the encoded elements, and ends unless it meets one that advances by nothing;
      an IMSI of fifteen digits is read back and shorter ones are not; the tables
      are as declared.
    - The tools: the line [decodegtp] prints, the pairing of [gtpimsieua] and its
      table as a map whose entries last 300 seconds, the effect of [gtpaddr], [usectstamp],
      [pcapfilestats] and [chunkpcapfile] on a whole capture.
    - Where the code does something else than its comments say or its callers
      need, a theorem states what it does: reads outside the capture, sockets
      that are lost, servers and captures that cannot be restarted, a shutdown
      that never ends while an interface is lost, a configuration without servers,
      two sessions opened at once in one slot, a connection stopped under a packet,
      the error text of a handle that is closed already, additions lost to a report,
      a column of [decodegtp] under the wrong title, log messages without their
      header.

    ** Bounds and fuel

    Loops over arrays are structural recursions on the remaining length (128
    sessions, 64 servers, the elements of the configuration).  The walk over the
    information elements has fuel; [ie_walk_terminates] gives the number of turns
    that is enough and says when none is.
    [strip_char_from_string] takes one turn more than the array has characters,
    which [strip_char_from_string_spec] shows to be enough; [print_servers] has 65
    turns because slot 64 is already outside its arrays.  The thread of a file
    capture and the supervision loop are run for a number of turns that the
    theorem quantifies over or computes.  Integers are kept at the width of the
    source where they can wrap: the length tests of the header, lengths after
    untunnelling, [short] results, [size_t] counts, the [long long] counters of
    monitors (whose overflow C leaves undefined and the model wraps).  [sprintf]
    onto its own argument, which C leaves undefined too, appends ([sprintf_onto]).

    ** Granularity and what is not modelled

    A step of [System] is one visit of the supervisor, one call of an [open]
    function, or a thread up to its next point: a call it can block in, or, when it
    handles a packet, the lock of the [pcap_mutex] of the connection or merger the
    packet goes to.  The steps of different threads interleave freely between
    these, so a connection or a merger can be stopped between the tests of its
    state and the dump; without interruption the pieces are the handlers
    ([packet_handler_cut], [merger_handler_cut]).  While a client is at the lock of its merger it has
    [merge_mutex], and no other client takes up a packet.  Cancelling a thread
    takes effect where it is: in its blocking call, in the [poll] before the lock
    of a connection, and at the lock of a merger, where the real thread would still
    dump its packet and end in a later call; that run is one of the system as well.
    Sleeping is the absence of a step.

    Inside a step, [Critical] cuts the code that runs at the same time: the packet
    handlers, the supervisor's flush and report, and the stops of clients,
    connections and the merger, at every access to the session table, every call
    and every mutex operation; there a cancelled thread may end in any call that
    is a cancellation point.  There an increment or report of a monitor is one
    access, as is each of the pieces a [stop] function consists of; [Counting] cuts
    increments and reports at every read and write of a counter.  Theorems over all
    interleavings have a supervisor that visits sessions and stops clients; the
    rest of its turn, and [open] functions, are steps of [System] only.  For a
    second [open] between the scan and the claim of
    [pcapsession_handling_get_new], [racing_opens_share_a_slot] states the outcome
    on its own.  Code is finite, so these runs need no fuel
    ([fstep_terminates]).

    The calls that log and error texts have no effect on the state and are left
    out of the modules; [write_to_syslog] itself is modelled, for the conversions
    the messages use.  libpcap, json-c, the resolver, the operating system and the
    licence test (a class whose code is not in the repository) are
    parameters.  The examples, the vendored headers of the build and the
    packaging are not part of the programs. *)
From stdpp Require Export prelude gmap strings list list_numbers pretty.
From Stdlib Require Export ZArith Lia Ascii.

Open Scope Z_scope.

(** ** Faulting computations

    C code that reads or writes outside an object, divides by zero or calls
    through a null pointer has no defined result.  Operations that can do so
    return [res A]; [Fault] records why. *)

Inductive fault :=
  | OutOfBounds      (** access outside the object *)
  | DivByZero        (** integer division by zero *)
  | NullPointer      (** null pointer passed or dereferenced *)
  | BufferOverflow   (** string written past the end of its array *)
  | ClosedHandle.    (** use of an object of a library after it was closed *)

Inductive res (A : Type) :=
  | Ok (a : A)
  | Fault (f : fault).
Arguments Ok {A} a.
Arguments Fault {A} f.

#[export] Instance fault_eq_dec : EqDecision fault.
Proof. solve_decision. Defined.
#[export] Instance res_eq_dec `{EqDecision A} : EqDecision (res A).
Proof. solve_decision. Defined.

#[export] Instance res_ret : MRet res := @Ok.
#[export] Instance res_bind : MBind res := fun A B k m =>
  match m with Ok a => k a | Fault f => Fault f end.
#[export] Instance res_fmap : FMap res := fun A B g m =>
  match m with Ok a => Ok (g a) | Fault f => Fault f end.

Lemma res_bind_Ok {A B} (m : res A) (k : A -> res B) (b : B) :
  m ≫= k = Ok b <-> exists a, m = Ok a /\ k a = Ok b.
Proof. destruct m; cbn; naive_solver. Qed.

(** Inversion of a successful bind, repeatedly. *)
Ltac res_inv :=
  repeat match goal with
    | H : _ ≫= _ = Ok _ |- _ =>
        apply res_bind_Ok in H; destruct H as (? & ? & H)
    | H : mret _ = Ok _ |- _ => injection H as H
    | H : Ok _ = Ok _ |- _ => injection H as H
    | H : Fault _ = Ok _ |- _ => discriminate H
    end.

(** ** Fixed-width integers *)

Definition u8  (z : Z) : Z := z mod 2 ^ 8.
Definition u16 (z : Z) : Z := z mod 2 ^ 16.
Definition u32 (z : Z) : Z := z mod 2 ^ 32.
Definition u64 (z : Z) : Z := z mod 2 ^ 64.

(** Conversion of a value to a signed 32-bit integer (two's complement). *)
Definition s32 (z : Z) : Z := (z + 2 ^ 31) mod 2 ^ 32 - 2 ^ 31.

(** A [long long] that wraps. *)
Definition s64 (z : Z) : Z := (z + 2 ^ 63) mod 2 ^ 64 - 2 ^ 63.

Lemma u32_small z : 0 <= z < 2 ^ 32 -> u32 z = z.
Proof. apply Z.mod_small. Qed.

Lemma u64_small z : 0 <= z < 2 ^ 64 -> u64 z = z.
Proof. apply Z.mod_small. Qed.

Lemma u32_neg z : - 2 ^ 32 <= z < 0 -> u32 z = z + 2 ^ 32.
Proof.
  intros H. unfold u32. symmetry. apply (Z.mod_unique _ _ (-1)); lia.
Qed.

Lemma u32_range z : 0 <= u32 z < 2 ^ 32.
Proof. apply Z.mod_pos_bound. lia. Qed.

Lemma u64_range z : 0 <= u64 z < 2 ^ 64.
Proof. apply Z.mod_pos_bound. lia. Qed.

Lemma s32_small z : - 2 ^ 31 <= z < 2 ^ 31 -> s32 z = z.
Proof. intros H. unfold s32. rewrite Z.mod_small; lia. Qed.

Lemma s64_small z : - 2 ^ 63 <= z < 2 ^ 63 -> s64 z = z.
Proof. intros H. unfold s64. rewrite Z.mod_small; lia. Qed.

(** Sums wrap once. *)
Lemma s64_add_l a b : s64 (s64 a + b) = s64 (a + b).
Proof.
  unfold s64. f_equal. replace ((a + 2 ^ 63) mod 2 ^ 64 - 2 ^ 63 + b + 2 ^ 63)
    with ((a + 2 ^ 63) mod 2 ^ 64 + b) by lia.
  rewrite Zplus_mod_idemp_l. f_equal. lia.
Qed.

(** ** Byte buffers

    A captured packet, or any other byte array, is the list of its octets.
    An octet is a [Z] in [0, 256). *)

Definition is_byte (b : Z) : Prop := 0 <= b < 256.
Definition bytes_ok (l : list Z) : Prop := Forall is_byte l.

Definition blen {A} (l : list A) : Z := Z.of_nat (length l).
Arguments blen : simpl never.

(** [rd8 data i]: the octet at offset [i] of the object [data]. *)
Definition rd8 (data : list Z) (i : Z) : res Z :=
  if (0 <=? i) then
    match data !! Z.to_nat i with Some b => Ok b | None => Fault OutOfBounds end
  else Fault OutOfBounds.

(** [ntohs] of the 16-bit value stored at offset [i]. *)
Definition rd16be (data : list Z) (i : Z) : res Z :=
  hi ← rd8 data i; lo ← rd8 data (i + 1);
  mret (hi * 256 + lo).

(** [ntohl] of the 32-bit value stored at offset [i]. *)
Definition rd32be (data : list Z) (i : Z) : res Z :=
  hi ← rd16be data i; lo ← rd16be data (i + 2);
  mret (hi * 65536 + lo).

(** [memcpy] out of the object: the [n] octets from offset [i]. *)
Definition rd_bytes (data : list Z) (i n : Z) : res (list Z) :=
  if (0 <=? i) && (0 <=? n) && (i + n <=? blen data)
  then Ok (take (Z.to_nat n) (drop (Z.to_nat i) data))
  else Fault OutOfBounds.

(** Store [l] at offset [i] of the object; the object keeps its size. *)
Definition wr_bytes (data : list Z) (i : Z) (l : list Z) : res (list Z) :=
  if (0 <=? i) && (i + blen l <=? blen data)
  then Ok (take (Z.to_nat i) data ++ l ++ drop (Z.to_nat i + length l) data)
  else Fault OutOfBounds.

(** C's [memmove] inside one object. *)
Definition memmove (data : list Z) (dst src n : Z) : res (list Z) :=
  l ← rd_bytes data src n; wr_bytes data dst l.

(** Default octet access, used by specifications only. *)
Definition octet (data : list Z) (i : Z) : Z := default 0 (data !! Z.to_nat i).
Definition word16 (data : list Z) (i : Z) : Z :=
  octet data i * 256 + octet data (i + 1).
Definition word32 (data : list Z) (i : Z) : Z :=
  word16 data i * 65536 + word16 data (i + 2).

Arguments rd8 : simpl never.
Arguments rd16be : simpl never.
Arguments rd32be : simpl never.
Arguments rd_bytes : simpl never.
Arguments wr_bytes : simpl never.
Arguments memmove : simpl never.
Arguments u32 : simpl never.
Arguments u64 : simpl never.
Arguments s32 : simpl never.
Arguments s64 : simpl never.

Section buffers.
Implicit Types (data l : list Z) (i n : Z).

Lemma blen_nonneg {A} (l : list A) : 0 <= blen l.
Proof. unfold blen. lia. Qed.

Lemma blen_app {A} (l1 l2 : list A) : blen (l1 ++ l2) = blen l1 + blen l2.
Proof. unfold blen. rewrite length_app. lia. Qed.

Lemma blen_cons {A} (x : A) (l : list A) : blen (x :: l) = 1 + blen l.
Proof. unfold blen. rewrite length_cons. lia. Qed.

Lemma rd8_ok data i : 0 <= i < blen data -> rd8 data i = Ok (octet data i).
Proof.
  intros [Hi Hlt]. unfold rd8, octet, blen in *.
  rewrite (proj2 (Z.leb_le 0 i)) by lia.
  destruct (lookup_lt_is_Some_2 data (Z.to_nat i)) as [b ->]; [lia|done].
Qed.

Lemma rd8_oob data i : i < 0 \/ blen data <= i -> rd8 data i = Fault OutOfBounds.
Proof.
  unfold rd8, blen. intros H. destruct (Z.leb_spec 0 i); [|done].
  rewrite lookup_ge_None_2 by lia. done.
Qed.

Lemma rd8_Ok_inv data i b : rd8 data i = Ok b -> 0 <= i < blen data /\ b = octet data i.
Proof.
  intros H. destruct (decide (0 <= i < blen data)) as [Hr|Hr].
  - rewrite rd8_ok in H by done. injection H as <-. done.
  - rewrite rd8_oob in H by lia. done.
Qed.

Lemma rd16be_ok data i : 0 <= i -> i + 2 <= blen data ->
  rd16be data i = Ok (word16 data i).
Proof.
  intros. unfold rd16be.
  rewrite (rd8_ok data i), (rd8_ok data (i + 1)) by lia. done.
Qed.

Lemma rd16be_oob data i : 0 <= i -> blen data < i + 2 ->
  rd16be data i = Fault OutOfBounds.
Proof.
  intros. unfold rd16be. destruct (decide (i < blen data)).
  - rewrite (rd8_ok data i), (rd8_oob data (i + 1)) by lia. done.
  - rewrite (rd8_oob data i) by lia. done.
Qed.

Lemma rd32be_ok data i : 0 <= i -> i + 4 <= blen data ->
  rd32be data i = Ok (word32 data i).
Proof.
  intros. unfold rd32be.
  rewrite (rd16be_ok data i), (rd16be_ok data (i + 2)) by lia. done.
Qed.

Lemma rd_bytes_ok data i n : 0 <= i -> 0 <= n -> i + n <= blen data ->
  rd_bytes data i n = Ok (take (Z.to_nat n) (drop (Z.to_nat i) data)).
Proof.
  intros. unfold rd_bytes.
  rewrite !(proj2 (Z.leb_le _ _)) by lia. done.
Qed.

Lemma rd_bytes_oob data i n : blen data < i + n ->
  rd_bytes data i n = Fault OutOfBounds.
Proof.
  intros. unfold rd_bytes. rewrite (proj2 (Z.leb_gt (i + n) _)) by lia.
  by rewrite andb_false_r.
Qed.

Lemma wr_bytes_ok data i l : 0 <= i -> i + blen l <= blen data ->
  wr_bytes data i l =
    Ok (take (Z.to_nat i) data ++ l ++ drop (Z.to_nat i + length l) data).
Proof.
  intros. unfold wr_bytes. rewrite !(proj2 (Z.leb_le _ _)) by lia. done.
Qed.

Lemma octet_app_l data l i : 0 <= i < blen data -> octet (data ++ l) i = octet data i.
Proof. intros. unfold octet, blen in *. rewrite lookup_app_l by lia. done. Qed.

Lemma octet_app_r data l i : blen data <= i -> octet (data ++ l) i = octet l (i - blen data).
Proof.
  intros. unfold octet, blen in *. rewrite lookup_app_r by lia.
  repeat f_equal. lia.
Qed.

Lemma octet_range data i : bytes_ok data -> is_byte (octet data i).
Proof.
  intros H. unfold octet. destruct (data !! Z.to_nat i) eqn:E; cbn.
  - exact (Forall_lookup_1 _ _ _ _ H E).
  - unfold is_byte. lia.
Qed.

Lemma word16_range data i : bytes_ok data -> 0 <= word16 data i < 65536.
Proof.
  intros H. pose proof (octet_range data i H). pose proof (octet_range data (i + 1) H).
  unfold word16, is_byte in *. lia.
Qed.

(** Reading through a longer object gives the same octets. *)
Lemma rd8_app_l data l i b : rd8 data i = Ok b -> rd8 (data ++ l) i = Ok b.
Proof.
  intros [Hr ->]%rd8_Ok_inv. pose proof (blen_nonneg l).
  rewrite rd8_ok by (rewrite blen_app; lia). by rewrite octet_app_l.
Qed.
End buffers.

Create HintDb bytes.
Create Rewrite HintDb blen.
#[export] Hint Rewrite @blen_app @blen_cons : blen.
#[export] Hint Resolve blen_nonneg octet_range word16_range : bytes.

(** [bytes_ok] of a concrete list, by computation. *)
Definition bytes_okb (l : list Z) : bool := forallb (fun b => (0 <=? b) && (b <? 256)) l.

Lemma bytes_okb_true l : bytes_okb l = true -> bytes_ok l.
Proof.
  unfold bytes_okb, bytes_ok. rewrite forallb_forall, Forall_forall.
  intros H x Hx. apply list_elem_of_In in Hx. specialize (H x Hx).
  unfold is_byte. lia.
Qed.

Ltac bytes_tac := apply bytes_okb_true; vm_compute; reflexivity.

(** Closed comparisons of integers, by computation. *)
Ltac z_compute :=
  vm_compute; repeat split; first [reflexivity | discriminate | intros ?; discriminate].
