(* ===== verification/GtpTables.v ===== *)
(** * GTP V1 message types and information elements

    The static tables of [gtp/gtpv1_message_types.c] and
    [gtp/gtpv1_information_elements.c] with the constants of their headers.
    A table is the list of its 256 rows; the [init_] functions are the
    sequences of row assignments the code performs, in its order, and the
    theorems say what the tables hold for every index. *)
From S2P Require Import Prelude.

(** ** Message types *)

Module MessageTypes.
Definition MAX_GTPV1_MESSAGE_TYPES : Z := 256.

Definition GTPV1_MT_ECHO_REQUEST : Z := 1.
Definition GTPV1_MT_ECHO_RESPONSE : Z := 2.
Definition GTPV1_MT_VERSION_NOT_SUPPORTED : Z := 3.
Definition GTPV1_MT_NODE_ALIVE_REQUEST : Z := 4.
Definition GTPV1_MT_NODE_ALIVE_RESPONSE : Z := 5.
Definition GTPV1_MT_REDIRECTION_REQUEST : Z := 6.
Definition GTPV1_MT_REDIRECTION_RESPONSE : Z := 7.
Definition GTPV1_MT_CREATE_PDP_CONTEXT_REQUEST : Z := 16.
Definition GTPV1_MT_CREATE_PDP_CONTEXT_RESPONSE : Z := 17.
Definition GTPV1_MT_UPDATE_PDP_CONTEXT_REQUEST : Z := 18.
Definition GTPV1_MT_UPDATE_PDP_CONTEXT_RESPONSE : Z := 19.
Definition GTPV1_MT_DELETE_PDP_CONTEXT_REQUEST : Z := 20.
Definition GTPV1_MT_DELETE_PDP_CONTEXT_RESPONSE : Z := 21.
Definition GTPV1_MT_INITIATE_PDP_CONTEXT_ACTIVATION_REQUEST : Z := 22.
Definition GTPV1_MT_INITIATE_PDP_CONTEXT_ACTIVATION_RESPONSE : Z := 23.
Definition GTPV1_MT_ERROR_INDICATION : Z := 26.
Definition GTPV1_MT_PDU_NOTIFICATION_REQUEST : Z := 27.
Definition GTPV1_MT_PDU_NOTIFICATION_RESPONSE : Z := 28.
Definition GTPV1_MT_PDU_NOTIFICATION_REJECT_REQUEST : Z := 29.
Definition GTPV1_MT_PDU_NOTIFICATION_REJECT_RESPONSE : Z := 30.
Definition GTPV1_MT_SUPPORTED_EXTENSION_HEADERS_NOTIFICATION : Z := 31.
Definition GTPV1_MT_SEND_ROUTEING_INFORMATION_FOR_GPRS_REQUEST : Z := 32.
Definition GTPV1_MT_SEND_ROUTEING_INFORMATION_FOR_GPRS_RESPONSE : Z := 33.
Definition GTPV1_MT_FAILURE_REPORT_REQUEST : Z := 34.
Definition GTPV1_MT_FAILURE_REPORT_RESPONSE : Z := 35.
Definition GTPV1_MT_NOTE_MS_GPRS_PRESENT_REQUEST : Z := 36.
Definition GTPV1_MT_NOTE_MS_GPRS_PRESENT_RESPONSE : Z := 37.
Definition GTPV1_MT_IDENTIFICATION_REQUEST : Z := 48.
Definition GTPV1_MT_IDENTIFICATION_RESPONSE : Z := 49.
Definition GTPV1_MT_SGSN_CONTEXT_REQUEST : Z := 50.
Definition GTPV1_MT_SGSN_CONTEXT_RESPONSE : Z := 51.
Definition GTPV1_MT_SGSN_CONTEXT_ACKNOWLEDGE : Z := 52.
Definition GTPV1_MT_FORWARD_RELOCATION_REQUEST : Z := 53.
Definition GTPV1_MT_FORWARD_RELOCATION_RESPONSE : Z := 54.
Definition GTPV1_MT_FORWARD_RELOCATION_COMPLETE : Z := 55.
Definition GTPV1_MT_RELOCATION_CANCEL_REQUEST : Z := 56.
Definition GTPV1_MT_RELOCATION_CANCEL_RESPONSE : Z := 57.
Definition GTPV1_MT_FORWARD_SRNS_CONTEXT : Z := 58.
Definition GTPV1_MT_FORWARD_RELOCATION_COMPLETE_ACKNOWLEDGE : Z := 59.
Definition GTPV1_MT_FORWARD_SRNS_CONTEXT_ACKNOWLEDGE : Z := 60.
Definition GTPV1_MT_RAN_INFORMATION_RELAY : Z := 70.
Definition GTPV1_MT_MBMS_NOTIFICATION_REQUEST : Z := 96.
Definition GTPV1_MT_MBMS_NOTIFICATION_RESPONSE : Z := 97.
Definition GTPV1_MT_MBMS_NOTIFICATION_REJECT_REQUEST : Z := 98.
Definition GTPV1_MT_MBMS_NOTIFICATION_REJECT_RESPONSE : Z := 99.
Definition GTPV1_MT_CREATE_MBMS_CONTEXT_REQUEST : Z := 100.
Definition GTPV1_MT_CREATE_MBMS_CONTEXT_RESPONSE : Z := 101.
Definition GTPV1_MT_UPDATE_MBMS_CONTEXT_REQUEST : Z := 102.
Definition GTPV1_MT_UPDATE_MBMS_CONTEXT_RESPONSE : Z := 103.
Definition GTPV1_MT_DELETE_MBMS_CONTEXT_REQUEST : Z := 104.
Definition GTPV1_MT_DELETE_MBMS_CONTEXT_RESPONSE : Z := 105.
Definition GTPV1_MT_MBMS_REGISTRATION_REQUEST : Z := 112.
Definition GTPV1_MT_MBMS_REGISTRATION_RESPONSE : Z := 113.
Definition GTPV1_MT_MBMS_DE_REGISTRATION_REQUEST : Z := 114.
Definition GTPV1_MT_MBMS_DE_REGISTRATION_RESPONSE : Z := 115.
Definition GTPV1_MT_MBMS_SESSION_START_REQUEST : Z := 116.
Definition GTPV1_MT_MBMS_SESSION_START_RESPONSE : Z := 117.
Definition GTPV1_MT_MBMS_SESSION_STOP_REQUEST : Z := 118.
Definition GTPV1_MT_MBMS_SESSION_STOP_RESPONSE : Z := 119.
Definition GTPV1_MT_MBMS_SESSION_UPDATE_REQUEST : Z := 120.
Definition GTPV1_MT_MBMS_SESSION_UPDATE_RESPONSE : Z := 121.
Definition GTPV1_MT_MS_INFO_CHANGE_NOTIFICATION_REQUEST : Z := 128.
Definition GTPV1_MT_MS_INFO_CHANGE_NOTIFICATION_RESPONSE : Z := 129.
Definition GTPV1_MT_DATA_RECORD_TRANSFER_REQUEST : Z := 240.
Definition GTPV1_MT_DATA_RECORD_TRANSFER_RESPONSE : Z := 241.
Definition GTPV1_MT_END_MARKER : Z := 254.
Definition GTPV1_MT_G_PDU : Z := 255.

(** [struct gtpv1_message_type] *)
Record gtpv1_message_type := MessageType { mt_id : Z; mt_name : string }.

#[export] Instance gtpv1_message_type_eq_dec : EqDecision gtpv1_message_type.
Proof. solve_decision. Defined.

Definition zero_mt : gtpv1_message_type := MessageType 0 "".
#[export] Instance gtpv1_message_type_inhabited : Inhabited gtpv1_message_type := populate zero_mt.

(** The two assignments that set up one row. *)
Definition set_mt (id : Z) (name : string) (t : list gtpv1_message_type)
    : list gtpv1_message_type :=
  <[Z.to_nat id := MessageType id name]> t.

(** The zeroing loop. *)
Definition zero_mts (t : list gtpv1_message_type) : list gtpv1_message_type :=
  foldl (fun t i => <[i := zero_mt]> t) t (seq 0 (Z.to_nat MAX_GTPV1_MESSAGE_TYPES)).

(** Path, tunnel and location management messages. *)
Definition init_path_and_tunnel_messages (t : list gtpv1_message_type) : list gtpv1_message_type :=
  let t := set_mt GTPV1_MT_ECHO_REQUEST "ECHO_REQUEST" t in
  let t := set_mt GTPV1_MT_ECHO_RESPONSE "ECHO_RESPONSE" t in
  let t := set_mt GTPV1_MT_VERSION_NOT_SUPPORTED "VERSION_NOT_SUPPORTED" t in
  let t := set_mt GTPV1_MT_NODE_ALIVE_REQUEST "NODE_ALIVE_REQUEST" t in
  let t := set_mt GTPV1_MT_NODE_ALIVE_RESPONSE "NODE_ALIVE_RESPONSE" t in
  let t := set_mt GTPV1_MT_REDIRECTION_REQUEST "REDIRECTION_REQUEST" t in
  let t := set_mt GTPV1_MT_REDIRECTION_RESPONSE "REDIRECTION_RESPONSE" t in
  let t := set_mt GTPV1_MT_CREATE_PDP_CONTEXT_REQUEST "CREATE_PDP_CONTEXT_REQUEST" t in
  let t := set_mt GTPV1_MT_CREATE_PDP_CONTEXT_RESPONSE "CREATE_PDP_CONTEXT_RESPONSE" t in
  let t := set_mt GTPV1_MT_UPDATE_PDP_CONTEXT_REQUEST "UPDATE_PDP_CONTEXT_REQUEST" t in
  let t := set_mt GTPV1_MT_UPDATE_PDP_CONTEXT_RESPONSE "UPDATE_PDP_CONTEXT_RESPONSE" t in
  let t := set_mt GTPV1_MT_DELETE_PDP_CONTEXT_REQUEST "DELETE_PDP_CONTEXT_REQUEST" t in
  let t := set_mt GTPV1_MT_DELETE_PDP_CONTEXT_RESPONSE "DELETE_PDP_CONTEXT_RESPONSE" t in
  let t := set_mt GTPV1_MT_INITIATE_PDP_CONTEXT_ACTIVATION_REQUEST "INITIATE_PDP_CONTEXT_ACTIVATION_REQUEST" t in
  let t := set_mt GTPV1_MT_INITIATE_PDP_CONTEXT_ACTIVATION_RESPONSE "INITIATE_PDP_CONTEXT_ACTIVATION_RESPONSE" t in
  let t := set_mt GTPV1_MT_ERROR_INDICATION "ERROR_INDICATION" t in
  let t := set_mt GTPV1_MT_PDU_NOTIFICATION_REQUEST "PDU_NOTIFICATION_REQUEST" t in
  let t := set_mt GTPV1_MT_PDU_NOTIFICATION_RESPONSE "PDU_NOTIFICATION_RESPONSE" t in
  let t := set_mt GTPV1_MT_PDU_NOTIFICATION_REJECT_REQUEST "PDU_NOTIFICATION_REJECT_REQUEST" t in
  let t := set_mt GTPV1_MT_PDU_NOTIFICATION_REJECT_RESPONSE "PDU_NOTIFICATION_REJECT_RESPONSE" t in
  let t := set_mt GTPV1_MT_SUPPORTED_EXTENSION_HEADERS_NOTIFICATION "SUPPORTED_EXTENSION_HEADERS_NOTIFICATION" t in
  let t := set_mt GTPV1_MT_SEND_ROUTEING_INFORMATION_FOR_GPRS_REQUEST "SEND_ROUTEING_INFORMATION_FOR_GPRS_REQUEST" t in
  let t := set_mt GTPV1_MT_SEND_ROUTEING_INFORMATION_FOR_GPRS_RESPONSE "SEND_ROUTEING_INFORMATION_FOR_GPRS_RESPONSE" t in
  let t := set_mt GTPV1_MT_FAILURE_REPORT_REQUEST "FAILURE_REPORT_REQUEST" t in
  let t := set_mt GTPV1_MT_FAILURE_REPORT_RESPONSE "FAILURE_REPORT_RESPONSE" t in
  let t := set_mt GTPV1_MT_NOTE_MS_GPRS_PRESENT_REQUEST "NOTE_MS_GPRS_PRESENT_REQUEST" t in
  let t := set_mt GTPV1_MT_NOTE_MS_GPRS_PRESENT_RESPONSE "NOTE_MS_GPRS_PRESENT_RESPONSE" t in
  t.

(** Mobility, MBMS and user-plane messages. *)
Definition init_mobility_and_mbms_messages (t : list gtpv1_message_type) : list gtpv1_message_type :=
  let t := set_mt GTPV1_MT_IDENTIFICATION_REQUEST "IDENTIFICATION_REQUEST" t in
  let t := set_mt GTPV1_MT_IDENTIFICATION_RESPONSE "IDENTIFICATION_RESPONSE" t in
  let t := set_mt GTPV1_MT_SGSN_CONTEXT_REQUEST "SGSN_CONTEXT_REQUEST" t in
  let t := set_mt GTPV1_MT_SGSN_CONTEXT_RESPONSE "SGSN_CONTEXT_RESPONSE" t in
  let t := set_mt GTPV1_MT_SGSN_CONTEXT_ACKNOWLEDGE "SGSN_CONTEXT_ACKNOWLEDGE" t in
  let t := set_mt GTPV1_MT_FORWARD_RELOCATION_REQUEST "FORWARD_RELOCATION_REQUEST" t in
  let t := set_mt GTPV1_MT_FORWARD_RELOCATION_RESPONSE "FORWARD_RELOCATION_RESPONSE" t in
  let t := set_mt GTPV1_MT_FORWARD_RELOCATION_COMPLETE "FORWARD_RELOCATION_COMPLETE" t in
  let t := set_mt GTPV1_MT_RELOCATION_CANCEL_REQUEST "RELOCATION_CANCEL_REQUEST" t in
  let t := set_mt GTPV1_MT_RELOCATION_CANCEL_RESPONSE "RELOCATION_CANCEL_RESPONSE" t in
  let t := set_mt GTPV1_MT_FORWARD_SRNS_CONTEXT "FORWARD_SRNS_CONTEXT" t in
  let t := set_mt GTPV1_MT_FORWARD_RELOCATION_COMPLETE_ACKNOWLEDGE "FORWARD_RELOCATION_COMPLETE_ACKNOWLEDGE" t in
  let t := set_mt GTPV1_MT_FORWARD_SRNS_CONTEXT_ACKNOWLEDGE "FORWARD_SRNS_CONTEXT_ACKNOWLEDGE" t in
  let t := set_mt GTPV1_MT_RAN_INFORMATION_RELAY "RAN_INFORMATION_RELAY" t in
  let t := set_mt GTPV1_MT_MBMS_NOTIFICATION_REQUEST "MBMS_NOTIFICATION_REQUEST" t in
  let t := set_mt GTPV1_MT_MBMS_NOTIFICATION_RESPONSE "MBMS_NOTIFICATION_RESPONSE" t in
  let t := set_mt GTPV1_MT_MBMS_NOTIFICATION_REJECT_REQUEST "MBMS_NOTIFICATION_REJECT_REQUEST" t in
  let t := set_mt GTPV1_MT_MBMS_NOTIFICATION_REJECT_RESPONSE "MBMS_NOTIFICATION_REJECT_RESPONSE" t in
  let t := set_mt GTPV1_MT_CREATE_MBMS_CONTEXT_REQUEST "CREATE_MBMS_CONTEXT_REQUEST" t in
  let t := set_mt GTPV1_MT_CREATE_MBMS_CONTEXT_RESPONSE "CREATE_MBMS_CONTEXT_RESPONSE" t in
  let t := set_mt GTPV1_MT_UPDATE_MBMS_CONTEXT_REQUEST "UPDATE_MBMS_CONTEXT_REQUEST" t in
  let t := set_mt GTPV1_MT_UPDATE_MBMS_CONTEXT_RESPONSE "UPDATE_MBMS_CONTEXT_RESPONSE" t in
  let t := set_mt GTPV1_MT_DELETE_MBMS_CONTEXT_REQUEST "DELETE_MBMS_CONTEXT_REQUEST" t in
  let t := set_mt GTPV1_MT_DELETE_MBMS_CONTEXT_RESPONSE "DELETE_MBMS_CONTEXT_RESPONSE" t in
  let t := set_mt GTPV1_MT_MBMS_REGISTRATION_REQUEST "MBMS_REGISTRATION_REQUEST" t in
  let t := set_mt GTPV1_MT_MBMS_REGISTRATION_RESPONSE "MBMS_REGISTRATION_RESPONSE" t in
  let t := set_mt GTPV1_MT_MBMS_DE_REGISTRATION_REQUEST "MBMS_DE-REGISTRATION_REQUEST" t in
  let t := set_mt GTPV1_MT_MBMS_DE_REGISTRATION_RESPONSE "MBMS_DE-REGISTRATION_RESPONSE" t in
  let t := set_mt GTPV1_MT_MBMS_SESSION_START_REQUEST "MBMS_SESSION_START_REQUEST" t in
  let t := set_mt GTPV1_MT_MBMS_SESSION_START_RESPONSE "MBMS_SESSION_START_RESPONSE" t in
  let t := set_mt GTPV1_MT_MBMS_SESSION_STOP_REQUEST "MBMS_SESSION_STOP_REQUEST" t in
  let t := set_mt GTPV1_MT_MBMS_SESSION_STOP_RESPONSE "MBMS_SESSION_STOP_RESPONSE" t in
  let t := set_mt GTPV1_MT_MBMS_SESSION_UPDATE_REQUEST "MBMS_SESSION_UPDATE_REQUEST" t in
  let t := set_mt GTPV1_MT_MBMS_SESSION_UPDATE_RESPONSE "MBMS_SESSION_UPDATE_RESPONSE" t in
  let t := set_mt GTPV1_MT_MS_INFO_CHANGE_NOTIFICATION_REQUEST "MS_INFO_CHANGE_NOTIFICATION_REQUEST" t in
  let t := set_mt GTPV1_MT_MS_INFO_CHANGE_NOTIFICATION_RESPONSE "MS_INFO_CHANGE_NOTIFICATION_RESPONSE" t in
  let t := set_mt GTPV1_MT_DATA_RECORD_TRANSFER_REQUEST "DATA_RECORD_TRANSFER_REQUEST" t in
  let t := set_mt GTPV1_MT_DATA_RECORD_TRANSFER_RESPONSE "DATA_RECORD_TRANSFER_RESPONSE" t in
  let t := set_mt GTPV1_MT_END_MARKER "END_MARKER" t in
  let t := set_mt GTPV1_MT_G_PDU "G-PDU" t in
  t.

Definition init_gtpv1_message_types (t : list gtpv1_message_type)
    : list gtpv1_message_type :=
  init_mobility_and_mbms_messages (init_path_and_tunnel_messages (zero_mts t)).

(** The message types the header declares, in its order. *)
Definition declared_message_types : list Z :=
  [GTPV1_MT_ECHO_REQUEST;
   GTPV1_MT_ECHO_RESPONSE;
   GTPV1_MT_VERSION_NOT_SUPPORTED;
   GTPV1_MT_NODE_ALIVE_REQUEST;
   GTPV1_MT_NODE_ALIVE_RESPONSE;
   GTPV1_MT_REDIRECTION_REQUEST;
   GTPV1_MT_REDIRECTION_RESPONSE;
   GTPV1_MT_CREATE_PDP_CONTEXT_REQUEST;
   GTPV1_MT_CREATE_PDP_CONTEXT_RESPONSE;
   GTPV1_MT_UPDATE_PDP_CONTEXT_REQUEST;
   GTPV1_MT_UPDATE_PDP_CONTEXT_RESPONSE;
   GTPV1_MT_DELETE_PDP_CONTEXT_REQUEST;
   GTPV1_MT_DELETE_PDP_CONTEXT_RESPONSE;
   GTPV1_MT_INITIATE_PDP_CONTEXT_ACTIVATION_REQUEST;
   GTPV1_MT_INITIATE_PDP_CONTEXT_ACTIVATION_RESPONSE;
   GTPV1_MT_ERROR_INDICATION;
   GTPV1_MT_PDU_NOTIFICATION_REQUEST;
   GTPV1_MT_PDU_NOTIFICATION_RESPONSE;
   GTPV1_MT_PDU_NOTIFICATION_REJECT_REQUEST;
   GTPV1_MT_PDU_NOTIFICATION_REJECT_RESPONSE;
   GTPV1_MT_SUPPORTED_EXTENSION_HEADERS_NOTIFICATION;
   GTPV1_MT_SEND_ROUTEING_INFORMATION_FOR_GPRS_REQUEST;
   GTPV1_MT_SEND_ROUTEING_INFORMATION_FOR_GPRS_RESPONSE;
   GTPV1_MT_FAILURE_REPORT_REQUEST;
   GTPV1_MT_FAILURE_REPORT_RESPONSE;
   GTPV1_MT_NOTE_MS_GPRS_PRESENT_REQUEST;
   GTPV1_MT_NOTE_MS_GPRS_PRESENT_RESPONSE;
   GTPV1_MT_IDENTIFICATION_REQUEST;
   GTPV1_MT_IDENTIFICATION_RESPONSE;
   GTPV1_MT_SGSN_CONTEXT_REQUEST;
   GTPV1_MT_SGSN_CONTEXT_RESPONSE;
   GTPV1_MT_SGSN_CONTEXT_ACKNOWLEDGE;
   GTPV1_MT_FORWARD_RELOCATION_REQUEST;
   GTPV1_MT_FORWARD_RELOCATION_RESPONSE;
   GTPV1_MT_FORWARD_RELOCATION_COMPLETE;
   GTPV1_MT_RELOCATION_CANCEL_REQUEST;
   GTPV1_MT_RELOCATION_CANCEL_RESPONSE;
   GTPV1_MT_FORWARD_SRNS_CONTEXT;
   GTPV1_MT_FORWARD_RELOCATION_COMPLETE_ACKNOWLEDGE;
   GTPV1_MT_FORWARD_SRNS_CONTEXT_ACKNOWLEDGE;
   GTPV1_MT_RAN_INFORMATION_RELAY;
   GTPV1_MT_MBMS_NOTIFICATION_REQUEST;
   GTPV1_MT_MBMS_NOTIFICATION_RESPONSE;
   GTPV1_MT_MBMS_NOTIFICATION_REJECT_REQUEST;
   GTPV1_MT_MBMS_NOTIFICATION_REJECT_RESPONSE;
   GTPV1_MT_CREATE_MBMS_CONTEXT_REQUEST;
   GTPV1_MT_CREATE_MBMS_CONTEXT_RESPONSE;
   GTPV1_MT_UPDATE_MBMS_CONTEXT_REQUEST;
   GTPV1_MT_UPDATE_MBMS_CONTEXT_RESPONSE;
   GTPV1_MT_DELETE_MBMS_CONTEXT_REQUEST;
   GTPV1_MT_DELETE_MBMS_CONTEXT_RESPONSE;
   GTPV1_MT_MBMS_REGISTRATION_REQUEST;
   GTPV1_MT_MBMS_REGISTRATION_RESPONSE;
   GTPV1_MT_MBMS_DE_REGISTRATION_REQUEST;
   GTPV1_MT_MBMS_DE_REGISTRATION_RESPONSE;
   GTPV1_MT_MBMS_SESSION_START_REQUEST;
   GTPV1_MT_MBMS_SESSION_START_RESPONSE;
   GTPV1_MT_MBMS_SESSION_STOP_REQUEST;
   GTPV1_MT_MBMS_SESSION_STOP_RESPONSE;
   GTPV1_MT_MBMS_SESSION_UPDATE_REQUEST;
   GTPV1_MT_MBMS_SESSION_UPDATE_RESPONSE;
   GTPV1_MT_MS_INFO_CHANGE_NOTIFICATION_REQUEST;
   GTPV1_MT_MS_INFO_CHANGE_NOTIFICATION_RESPONSE;
   GTPV1_MT_DATA_RECORD_TRANSFER_REQUEST;
   GTPV1_MT_DATA_RECORD_TRANSFER_RESPONSE;
   GTPV1_MT_END_MARKER;
   GTPV1_MT_G_PDU].
End MessageTypes.

(** ** Information elements *)

Module InformationElements.
Definition MAX_GTPV1_INFORMATION_ELEMENTS : Z := 256.
Definition GTPV1_FIRST_TLV_IE : Z := 128.

Definition GTPV1_IE_CAUSE : Z := 1.
Definition GTPV1_IE_IMSI : Z := 2.
Definition GTPV1_IE_RAI : Z := 3.
Definition GTPV1_IE_TLLI : Z := 4.
Definition GTPV1_IE_P_TMSI : Z := 5.
Definition GTPV1_IE_REORDERING_REQUIRED : Z := 8.
Definition GTPV1_IE_AUTHENTICATION_TRIPLET : Z := 9.
Definition GTPV1_IE_MAP_CAUSE : Z := 11.
Definition GTPV1_IE_P_TMSI_SIGNATURE : Z := 12.
Definition GTPV1_IE_MS_VALIDATED : Z := 13.
Definition GTPV1_IE_RECOVERY : Z := 14.
Definition GTPV1_IE_SELECTION_MODE : Z := 15.
Definition GTPV1_IE_TEI_DATA_I : Z := 16.
Definition GTPV1_IE_TEI_CONTROL_PLANE : Z := 17.
Definition GTPV1_IE_TEI_DATA_II : Z := 18.
Definition GTPV1_IE_TEARDOWN_IND : Z := 19.
Definition GTPV1_IE_NSAPI : Z := 20.
Definition GTPV1_IE_RANAP_CAUSE : Z := 21.
Definition GTPV1_IE_RAB_CONTEXT : Z := 22.
Definition GTPV1_IE_RADIO_PRIORITY_SMS : Z := 23.
Definition GTPV1_IE_RADIO_PRIORITY : Z := 24.
Definition GTPV1_IE_PACKET_FLOW_ID : Z := 25.
Definition GTPV1_IE_CHARGING_CHARACTERISTICS : Z := 26.
Definition GTPV1_IE_TRACE_REFERENCE : Z := 27.
Definition GTPV1_IE_TRACE_TYPE : Z := 28.
Definition GTPV1_IE_MS_NOT_REACHABLE_REASON : Z := 29.
Definition GTPV1_IE_CHARGING_ID : Z := 127.
Definition GTPV1_IE_END_USER_ADDRESS : Z := 128.
Definition GTPV1_IE_MM_CONTEXT : Z := 129.
Definition GTPV1_IE_PDP_CONTEXT : Z := 130.
Definition GTPV1_IE_APN : Z := 131.
Definition GTPV1_IE_PROTOCOL_CONFIGURATION_OPTIONS : Z := 132.
Definition GTPV1_IE_GSN_ADDRESS : Z := 133.
Definition GTPV1_IE_MSISDN : Z := 134.
Definition GTPV1_IE_QOS_PROFILE : Z := 135.
Definition GTPV1_IE_AUTHENTICATION_QUINTUPLET : Z := 136.
Definition GTPV1_IE_TRAFFIC_FLOW_TEMPLATE : Z := 137.
Definition GTPV1_IE_TARGET_IDENTIFICATION : Z := 138.
Definition GTPV1_IE_UTRAN_TRANSPARENT_CONTAINER : Z := 139.
Definition GTPV1_IE_RAB_SETUP_INFORMATION : Z := 140.
Definition GTPV1_IE_EXTENSION_HEADER_TYPE_LIST : Z := 141.
Definition GTPV1_IE_TRIGGER_ID : Z := 142.
Definition GTPV1_IE_OMC_IDENTITY : Z := 143.
Definition GTPV1_IE_RAN_TRANSPARENT_CONTAINER : Z := 144.
Definition GTPV1_IE_PDP_CONTEXT_PRIORITIZATION : Z := 145.
Definition GTPV1_IE_ADDITIONAL_RAB_SETUP_INFORMATION : Z := 146.
Definition GTPV1_IE_SGSN_NUMBER : Z := 147.
Definition GTPV1_IE_COMMON_FLAGS : Z := 148.
Definition GTPV1_IE_APN_RESTRICTION : Z := 149.
Definition GTPV1_IE_RADIO_PRIORITY_LCS : Z := 150.
Definition GTPV1_IE_RAT_TYPE : Z := 151.
Definition GTPV1_IE_USER_LOCATION_INFORMATION : Z := 152.
Definition GTPV1_IE_MS_TIME_ZONE : Z := 153.
Definition GTPV1_IE_IMEISV : Z := 154.
Definition GTPV1_IE_CAMEL_CHARGING_INFORMATION_CONTAINER : Z := 155.
Definition GTPV1_IE_MBMS_UE_CONTEXT : Z := 156.
Definition GTPV1_IE_TMGI : Z := 157.
Definition GTPV1_IE_RIM_ROUTING_ADDRESS : Z := 158.
Definition GTPV1_IE_MBMS_PROTOCOL_CONFIGURATION_OPTIONS : Z := 159.
Definition GTPV1_IE_MBMS_SERVICE_AREA : Z := 160.
Definition GTPV1_IE_SOURCE_RNC_PDCP_CONTEXT_INFO : Z := 161.
Definition GTPV1_IE_ADDITIONAL_TRACE_INFO : Z := 162.
Definition GTPV1_IE_HOP_COUNTER : Z := 163.
Definition GTPV1_IE_SELECTED_PLMN_ID : Z := 164.
Definition GTPV1_IE_MBMS_SESSION_IDENTIFIER : Z := 165.
Definition GTPV1_IE_MBMS_2G_3G_INDICATOR : Z := 166.
Definition GTPV1_IE_ENHANCED_NSAPI : Z := 167.
Definition GTPV1_IE_MBMS_SESSION_DURATION : Z := 168.
Definition GTPV1_IE_ADDITIONAL_MBMS_TRACE_INFO : Z := 169.
Definition GTPV1_IE_MBMS_SESSION_REPETITION_NUMBER : Z := 170.
Definition GTPV1_IE_MBMS_TIME_TO_DATA_TRANSFER : Z := 171.
Definition GTPV1_IE_BSS_CONTAINER : Z := 173.
Definition GTPV1_IE_CELL_IDENTIFICATION : Z := 174.
Definition GTPV1_IE_PDU_NUMBERS : Z := 175.
Definition GTPV1_IE_BSSGP_CAUSE : Z := 176.
Definition GTPV1_IE_REQUIRED_MBMS_BEARER_CAPABILITIES : Z := 177.
Definition GTPV1_IE_RIM_ROUTING_ADDRESS_DISCRIMINATOR : Z := 178.
Definition GTPV1_IE_LIST_OF_SET_UP_PFCS : Z := 179.
Definition GTPV1_IE_PS_HANDOVER_XID_PARAMETERS : Z := 180.
Definition GTPV1_IE_MS_INFO_CHANGE_REPORTING_ACTION : Z := 181.
Definition GTPV1_IE_DIRECT_TUNNEL_FLAGS : Z := 182.
Definition GTPV1_IE_CORRELATION_ID : Z := 183.
Definition GTPV1_IE_BEARER_CONTROL_MODE : Z := 184.
Definition GTPV1_IE_MBMS_FLOW_IDENTIFIER : Z := 185.
Definition GTPV1_IE_MBMS_IP_MULTICAST_DISTRIBUTION : Z := 186.
Definition GTPV1_IE_MBMS_DISTRIBUTION_ACKNOWLEDGEMENT : Z := 187.
Definition GTPV1_IE_RELIABLE_INTER_RAT_HANDOVER_INFO : Z := 188.
Definition GTPV1_IE_RFSP_INDEX : Z := 189.
Definition GTPV1_IE_FQDN : Z := 190.
Definition GTPV1_IE_EVOLVED_ALLOCATION_RETENTION_PRIORITY_I : Z := 191.
Definition GTPV1_IE_EVOLVED_ALLOCATION_RETENTION_PRIORITY_II : Z := 192.
Definition GTPV1_IE_EXTENDED_COMMON_FLAGS : Z := 193.
Definition GTPV1_IE_UCI : Z := 194.
Definition GTPV1_IE_CSG_INFORMATION_REPORTING_ACTION : Z := 195.
Definition GTPV1_IE_CSG_ID : Z := 196.
Definition GTPV1_IE_CMI : Z := 197.
Definition GTPV1_IE_AMBR : Z := 198.
Definition GTPV1_IE_UE_NETWORK_CAPABILITY : Z := 199.
Definition GTPV1_IE_UE_AMBR : Z := 200.
Definition GTPV1_IE_APN_AMBR_WITH_NSAPI : Z := 201.
Definition GTPV1_IE_GGSN_BACK_OFF_TIME : Z := 202.
Definition GTPV1_IE_SIGNALLING_PRIORITY_INDICATION : Z := 203.
Definition GTPV1_IE_SIGNALLING_PRIORITY_INDICATION_WITH_NSAPI : Z := 204.
Definition GTPV1_IE_HIGHER_BITRATES_THAN_16_MBPS_FLAG : Z := 205.
Definition GTPV1_IE_MAX_MBR_APN_AMBR : Z := 206.
Definition GTPV1_IE_ADDITIONAL_MM_CONTEXT_FOR_SRVCC : Z := 207.
Definition GTPV1_IE_ADDITIONAL_FLAGS_FOR_SRVCC : Z := 208.
Definition GTPV1_IE_STN_SR : Z := 209.
Definition GTPV1_IE_C_MSISDN : Z := 210.
Definition GTPV1_IE_EXTENDED_RANAP_CAUSE : Z := 211.
Definition GTPV1_IE_CHARGING_GATEWAY_ADDRESS : Z := 251.
Definition GTPV1_IE_PRIVATE_EXTENSION : Z := 255.

(** [struct gtpv1_information_element] *)
Record gtpv1_information_element := InformationElement {
  ie_id : Z; ie_grouped : Z; ie_header_length : Z; ie_body_length : Z;
  ie_name : string }.

#[export] Instance gtpv1_information_element_eq_dec :
  EqDecision gtpv1_information_element.
Proof. solve_decision. Defined.

Definition zero_ie : gtpv1_information_element := InformationElement 0 0 0 0 "".
#[export] Instance ie_inhabited : Inhabited gtpv1_information_element :=
  populate zero_ie.

(** The five assignments that set up one row. *)
Definition set_ie (id hl bl : Z) (name : string)
    (t : list gtpv1_information_element) : list gtpv1_information_element :=
  <[Z.to_nat id := InformationElement id 0 hl bl name]> t.

(** The zeroing loop. *)
Definition zero_ies (t : list gtpv1_information_element)
    : list gtpv1_information_element :=
  foldl (fun t i => <[i := zero_ie]> t) t
    (seq 0 (Z.to_nat MAX_GTPV1_INFORMATION_ELEMENTS)).

Definition init_ies_cause_to_selection_mode (t : list gtpv1_information_element)
    : list gtpv1_information_element :=
  let t := set_ie GTPV1_IE_CAUSE 1 1 "Cause" t in
  let t := set_ie GTPV1_IE_IMSI 1 8 "International Mobile Subscriber Identity (IMSI)" t in
  let t := set_ie GTPV1_IE_RAI 1 6 "Routeing Area Identity (RAI)" t in
  let t := set_ie GTPV1_IE_TLLI 1 4 "Temporary Logical Link Identity (TLLI)" t in
  let t := set_ie GTPV1_IE_P_TMSI 1 4 "Packet TMSI (P-TMSI)" t in
  let t := set_ie GTPV1_IE_REORDERING_REQUIRED 1 1 "Reordering Required" t in
  let t := set_ie GTPV1_IE_AUTHENTICATION_TRIPLET 1 28 "Authentication Triplet" t in
  let t := set_ie GTPV1_IE_MAP_CAUSE 1 1 "MAP Cause" t in
  let t := set_ie GTPV1_IE_P_TMSI_SIGNATURE 1 3 "P-TMSI Signature" t in
  let t := set_ie GTPV1_IE_MS_VALIDATED 1 1 "MS Validated" t in
  let t := set_ie GTPV1_IE_RECOVERY 1 1 "Recovery" t in
  let t := set_ie GTPV1_IE_SELECTION_MODE 1 1 "Selection Mode" t in
  t.

Definition init_ies_tei_to_charging_id (t : list gtpv1_information_element)
    : list gtpv1_information_element :=
  let t := set_ie GTPV1_IE_TEI_DATA_I 1 4 "Tunnel Endpoint Identifier Data I" t in
  let t := set_ie GTPV1_IE_TEI_CONTROL_PLANE 1 4 "Tunnel Endpoint Identifier Control Plane" t in
  let t := set_ie GTPV1_IE_TEI_DATA_II 1 5 "Tunnel Endpoint Identifier Data II" t in
  let t := set_ie GTPV1_IE_TEARDOWN_IND 1 1 "Teardown Ind" t in
  let t := set_ie GTPV1_IE_NSAPI 1 1 "NSAPI" t in
  let t := set_ie GTPV1_IE_RANAP_CAUSE 1 1 "RANAP Cause" t in
  let t := set_ie GTPV1_IE_RAB_CONTEXT 1 9 "RAB Context" t in
  let t := set_ie GTPV1_IE_RADIO_PRIORITY_SMS 1 1 "Radio Priority SMS" t in
  let t := set_ie GTPV1_IE_RADIO_PRIORITY 1 1 "Radio Priority" t in
  let t := set_ie GTPV1_IE_PACKET_FLOW_ID 1 2 "Packet Flow Id" t in
  let t := set_ie GTPV1_IE_CHARGING_CHARACTERISTICS 1 2 "Charging Characteristics" t in
  let t := set_ie GTPV1_IE_TRACE_REFERENCE 1 2 "Trace Reference" t in
  let t := set_ie GTPV1_IE_TRACE_TYPE 1 2 "Trace Type" t in
  let t := set_ie GTPV1_IE_MS_NOT_REACHABLE_REASON 1 1 "MS Not Reachable Reason" t in
  let t := set_ie GTPV1_IE_CHARGING_ID 1 4 "Charging ID" t in
  t.

Definition init_ies_end_user_address_to_user_location (t : list gtpv1_information_element)
    : list gtpv1_information_element :=
  let t := set_ie GTPV1_IE_END_USER_ADDRESS 3 0 "End User Address" t in
  let t := set_ie GTPV1_IE_MM_CONTEXT 3 0 "MM Context" t in
  let t := set_ie GTPV1_IE_PDP_CONTEXT 3 0 "PDP Context" t in
  let t := set_ie GTPV1_IE_APN 3 0 "Access Point Name" t in
  let t := set_ie GTPV1_IE_PROTOCOL_CONFIGURATION_OPTIONS 3 0 "Protocol Configuration Options" t in
  let t := set_ie GTPV1_IE_GSN_ADDRESS 3 0 "GSN Address" t in
  let t := set_ie GTPV1_IE_MSISDN 3 0 "MS International PSTN/ISDN Number (MSISDN)" t in
  let t := set_ie GTPV1_IE_QOS_PROFILE 3 0 "Quality of Service Profile" t in
  let t := set_ie GTPV1_IE_AUTHENTICATION_QUINTUPLET 3 0 "Authentication Quintuplet" t in
  let t := set_ie GTPV1_IE_TRAFFIC_FLOW_TEMPLATE 3 0 "Traffic Flow Template" t in
  let t := set_ie GTPV1_IE_TARGET_IDENTIFICATION 3 0 "Target Identification" t in
  let t := set_ie GTPV1_IE_UTRAN_TRANSPARENT_CONTAINER 3 0 "UTRAN Transparent Container" t in
  let t := set_ie GTPV1_IE_RAB_SETUP_INFORMATION 3 0 "RAB Setup Information" t in
  let t := set_ie GTPV1_IE_EXTENSION_HEADER_TYPE_LIST 3 0 "Extension Header Type List" t in
  let t := set_ie GTPV1_IE_TRIGGER_ID 3 0 "Trigger Id" t in
  let t := set_ie GTPV1_IE_OMC_IDENTITY 3 0 "OMC Identity" t in
  let t := set_ie GTPV1_IE_RAN_TRANSPARENT_CONTAINER 3 0 "RAN Transparent Container" t in
  let t := set_ie GTPV1_IE_PDP_CONTEXT_PRIORITIZATION 3 0 "PDP Context Prioritization" t in
  let t := set_ie GTPV1_IE_ADDITIONAL_RAB_SETUP_INFORMATION 3 0 "Additional RAB Setup Information" t in
  let t := set_ie GTPV1_IE_SGSN_NUMBER 3 0 "SGSN Number" t in
  let t := set_ie GTPV1_IE_COMMON_FLAGS 3 0 "Common Flags" t in
  let t := set_ie GTPV1_IE_APN_RESTRICTION 3 0 "APN Restriction" t in
  let t := set_ie GTPV1_IE_RADIO_PRIORITY_LCS 3 0 "Radio Priority LCS" t in
  let t := set_ie GTPV1_IE_RAT_TYPE 3 0 "RAT Type" t in
  let t := set_ie GTPV1_IE_USER_LOCATION_INFORMATION 3 0 "User Location Information" t in
  t.

Definition init_ies_ms_time_zone_to_pdu_numbers (t : list gtpv1_information_element)
    : list gtpv1_information_element :=
  let t := set_ie GTPV1_IE_MS_TIME_ZONE 3 0 "MS Time Zone" t in
  let t := set_ie GTPV1_IE_IMEISV 3 0 "IMEI(SV)" t in
  let t := set_ie GTPV1_IE_CAMEL_CHARGING_INFORMATION_CONTAINER 3 0 "CAMEL Charging Information Container" t in
  let t := set_ie GTPV1_IE_MBMS_UE_CONTEXT 3 0 "MBMS UE Context" t in
  let t := set_ie GTPV1_IE_TMGI 3 0 "Temporary Mobile Group Identity (TMGI)" t in
  let t := set_ie GTPV1_IE_RIM_ROUTING_ADDRESS 3 0 "RIM Routing Address" t in
  let t := set_ie GTPV1_IE_MBMS_PROTOCOL_CONFIGURATION_OPTIONS 3 0 "MBMS Protocol Configuration Options" t in
  let t := set_ie GTPV1_IE_MBMS_SERVICE_AREA 3 0 "MBMS Service Area" t in
  let t := set_ie GTPV1_IE_SOURCE_RNC_PDCP_CONTEXT_INFO 3 0 "Source RNC PDCP context info" t in
  let t := set_ie GTPV1_IE_ADDITIONAL_TRACE_INFO 3 0 "Additional Trace Info" t in
  let t := set_ie GTPV1_IE_HOP_COUNTER 3 0 "Hop Counter" t in
  let t := set_ie GTPV1_IE_SELECTED_PLMN_ID 3 0 "Selected PLMN ID" t in
  let t := set_ie GTPV1_IE_MBMS_SESSION_IDENTIFIER 3 0 "MBMS Session Identifier" t in
  let t := set_ie GTPV1_IE_MBMS_2G_3G_INDICATOR 3 0 "MBMS 2G/3G Indicator" t in
  let t := set_ie GTPV1_IE_ENHANCED_NSAPI 3 0 "Enhanced NSAPI" t in
  let t := set_ie GTPV1_IE_MBMS_SESSION_DURATION 3 0 "MBMS Session Duration" t in
  let t := set_ie GTPV1_IE_ADDITIONAL_MBMS_TRACE_INFO 3 0 "Additional MBMS Trace Info" t in
  let t := set_ie GTPV1_IE_MBMS_SESSION_REPETITION_NUMBER 3 0 "MBMS Session Repetition Number" t in
  let t := set_ie GTPV1_IE_MBMS_TIME_TO_DATA_TRANSFER 3 0 "MBMS Time To Data Transfer" t in
  let t := set_ie GTPV1_IE_BSS_CONTAINER 3 0 "BSS Container" t in
  let t := set_ie GTPV1_IE_CELL_IDENTIFICATION 3 0 "Cell Identification" t in
  let t := set_ie GTPV1_IE_PDU_NUMBERS 3 0 "PDU Numbers" t in
  t.

Definition init_ies_bssgp_cause_to_ambr (t : list gtpv1_information_element)
    : list gtpv1_information_element :=
  let t := set_ie GTPV1_IE_BSSGP_CAUSE 3 0 "BSSGP Cause" t in
  let t := set_ie GTPV1_IE_REQUIRED_MBMS_BEARER_CAPABILITIES 3 0 "Required MBMS bearer capabilities" t in
  let t := set_ie GTPV1_IE_RIM_ROUTING_ADDRESS_DISCRIMINATOR 3 0 "RIM Routing Address Discriminator" t in
  let t := set_ie GTPV1_IE_LIST_OF_SET_UP_PFCS 3 0 "List of set-up PFCs" t in
  let t := set_ie GTPV1_IE_PS_HANDOVER_XID_PARAMETERS 3 0 "PS Handover XID Parameters" t in
  let t := set_ie GTPV1_IE_MS_INFO_CHANGE_REPORTING_ACTION 3 0 "MS Info Change Reporting Action" t in
  let t := set_ie GTPV1_IE_DIRECT_TUNNEL_FLAGS 3 0 "Direct Tunnel Flags" t in
  let t := set_ie GTPV1_IE_CORRELATION_ID 3 0 "Correlation-ID" t in
  let t := set_ie GTPV1_IE_BEARER_CONTROL_MODE 3 0 "Bearer Control Mode" t in
  let t := set_ie GTPV1_IE_MBMS_FLOW_IDENTIFIER 3 0 "MBMS Flow Identifier" t in
  let t := set_ie GTPV1_IE_MBMS_IP_MULTICAST_DISTRIBUTION 3 0 "MBMS IP Multicast Distribution" t in
  let t := set_ie GTPV1_IE_MBMS_DISTRIBUTION_ACKNOWLEDGEMENT 3 0 "MBMS Distribution Acknowledgement" t in
  let t := set_ie GTPV1_IE_RELIABLE_INTER_RAT_HANDOVER_INFO 3 0 "Reliable INTER RAT HANDOVER INFO " t in
  let t := set_ie GTPV1_IE_RFSP_INDEX 3 0 "RFSP Index" t in
  let t := set_ie GTPV1_IE_FQDN 3 0 "Fully Qualified Domain Name (FQDN)" t in
  let t := set_ie GTPV1_IE_EVOLVED_ALLOCATION_RETENTION_PRIORITY_I 3 0 "Evolved Allocation/Retention Priority I" t in
  let t := set_ie GTPV1_IE_EVOLVED_ALLOCATION_RETENTION_PRIORITY_II 3 0 "Evolved Allocation/Retention Priority II" t in
  let t := set_ie GTPV1_IE_EXTENDED_COMMON_FLAGS 3 0 "Extended Common Flags" t in
  let t := set_ie GTPV1_IE_UCI 3 0 "User CSG Information (UCI)" t in
  let t := set_ie GTPV1_IE_CSG_INFORMATION_REPORTING_ACTION 3 0 "CSG Information Reporting Action" t in
  let t := set_ie GTPV1_IE_CSG_ID 3 0 "CSG ID" t in
  let t := set_ie GTPV1_IE_CMI 3 0 "CSG Membership Indication (CMI)" t in
  let t := set_ie GTPV1_IE_AMBR 3 0 "Aggregate Maximum Bit Rate (AMBR)" t in
  t.

Definition init_ies_ue_network_capability_to_private_extension (t : list gtpv1_information_element)
    : list gtpv1_information_element :=
  let t := set_ie GTPV1_IE_UE_NETWORK_CAPABILITY 3 0 "UE Network Capability" t in
  let t := set_ie GTPV1_IE_UE_AMBR 3 0 "UE-AMBR" t in
  let t := set_ie GTPV1_IE_APN_AMBR_WITH_NSAPI 3 0 "APN-AMBR with NSAPI" t in
  let t := set_ie GTPV1_IE_GGSN_BACK_OFF_TIME 3 0 "GGSN Back-Off Time" t in
  let t := set_ie GTPV1_IE_SIGNALLING_PRIORITY_INDICATION 3 0 "Signalling Priority Indication" t in
  let t := set_ie GTPV1_IE_SIGNALLING_PRIORITY_INDICATION_WITH_NSAPI 3 0 "Signalling Priority Indication with NSAPI" t in
  let t := set_ie GTPV1_IE_HIGHER_BITRATES_THAN_16_MBPS_FLAG 3 0 "Higher bitrates than 16 Mbps flag" t in
  let t := set_ie GTPV1_IE_MAX_MBR_APN_AMBR 3 0 "Max MBR/APN-AMBR" t in
  let t := set_ie GTPV1_IE_ADDITIONAL_MM_CONTEXT_FOR_SRVCC 3 0 "Additional MM context for SRVCC" t in
  let t := set_ie GTPV1_IE_ADDITIONAL_FLAGS_FOR_SRVCC 3 0 "Additional flags for SRVCC" t in
  let t := set_ie GTPV1_IE_STN_SR 3 0 "STN-SR" t in
  let t := set_ie GTPV1_IE_C_MSISDN 3 0 "C-MSISDN" t in
  let t := set_ie GTPV1_IE_EXTENDED_RANAP_CAUSE 3 0 "Extended RANAP Cause" t in
  let t := set_ie GTPV1_IE_CHARGING_GATEWAY_ADDRESS 3 0 "Charging Gateway Address" t in
  let t := set_ie GTPV1_IE_PRIVATE_EXTENSION 3 0 "Private Extension" t in
  t.

Definition init_gtpv1_information_elements (t : list gtpv1_information_element)
    : list gtpv1_information_element :=
  let t := zero_ies t in
  let t := init_ies_cause_to_selection_mode t in
  let t := init_ies_tei_to_charging_id t in
  let t := init_ies_end_user_address_to_user_location t in
  let t := init_ies_ms_time_zone_to_pdu_numbers t in
  let t := init_ies_bssgp_cause_to_ambr t in
  let t := init_ies_ue_network_capability_to_private_extension t in
  t.

(** The information elements the header declares, in its order. *)
Definition declared_information_elements : list Z :=
  [GTPV1_IE_CAUSE;
   GTPV1_IE_IMSI;
   GTPV1_IE_RAI;
   GTPV1_IE_TLLI;
   GTPV1_IE_P_TMSI;
   GTPV1_IE_REORDERING_REQUIRED;
   GTPV1_IE_AUTHENTICATION_TRIPLET;
   GTPV1_IE_MAP_CAUSE;
   GTPV1_IE_P_TMSI_SIGNATURE;
   GTPV1_IE_MS_VALIDATED;
   GTPV1_IE_RECOVERY;
   GTPV1_IE_SELECTION_MODE;
   GTPV1_IE_TEI_DATA_I;
   GTPV1_IE_TEI_CONTROL_PLANE;
   GTPV1_IE_TEI_DATA_II;
   GTPV1_IE_TEARDOWN_IND;
   GTPV1_IE_NSAPI;
   GTPV1_IE_RANAP_CAUSE;
   GTPV1_IE_RAB_CONTEXT;
   GTPV1_IE_RADIO_PRIORITY_SMS;
   GTPV1_IE_RADIO_PRIORITY;
   GTPV1_IE_PACKET_FLOW_ID;
   GTPV1_IE_CHARGING_CHARACTERISTICS;
   GTPV1_IE_TRACE_REFERENCE;
   GTPV1_IE_TRACE_TYPE;
   GTPV1_IE_MS_NOT_REACHABLE_REASON;
   GTPV1_IE_CHARGING_ID;
   GTPV1_IE_END_USER_ADDRESS;
   GTPV1_IE_MM_CONTEXT;
   GTPV1_IE_PDP_CONTEXT;
   GTPV1_IE_APN;
   GTPV1_IE_PROTOCOL_CONFIGURATION_OPTIONS;
   GTPV1_IE_GSN_ADDRESS;
   GTPV1_IE_MSISDN;
   GTPV1_IE_QOS_PROFILE;
   GTPV1_IE_AUTHENTICATION_QUINTUPLET;
   GTPV1_IE_TRAFFIC_FLOW_TEMPLATE;
   GTPV1_IE_TARGET_IDENTIFICATION;
   GTPV1_IE_UTRAN_TRANSPARENT_CONTAINER;
   GTPV1_IE_RAB_SETUP_INFORMATION;
   GTPV1_IE_EXTENSION_HEADER_TYPE_LIST;
   GTPV1_IE_TRIGGER_ID;
   GTPV1_IE_OMC_IDENTITY;
   GTPV1_IE_RAN_TRANSPARENT_CONTAINER;
   GTPV1_IE_PDP_CONTEXT_PRIORITIZATION;
   GTPV1_IE_ADDITIONAL_RAB_SETUP_INFORMATION;
   GTPV1_IE_SGSN_NUMBER;
   GTPV1_IE_COMMON_FLAGS;
   GTPV1_IE_APN_RESTRICTION;
   GTPV1_IE_RADIO_PRIORITY_LCS;
   GTPV1_IE_RAT_TYPE;
   GTPV1_IE_USER_LOCATION_INFORMATION;
   GTPV1_IE_MS_TIME_ZONE;
   GTPV1_IE_IMEISV;
   GTPV1_IE_CAMEL_CHARGING_INFORMATION_CONTAINER;
   GTPV1_IE_MBMS_UE_CONTEXT;
   GTPV1_IE_TMGI;
   GTPV1_IE_RIM_ROUTING_ADDRESS;
   GTPV1_IE_MBMS_PROTOCOL_CONFIGURATION_OPTIONS;
   GTPV1_IE_MBMS_SERVICE_AREA;
   GTPV1_IE_SOURCE_RNC_PDCP_CONTEXT_INFO;
   GTPV1_IE_ADDITIONAL_TRACE_INFO;
   GTPV1_IE_HOP_COUNTER;
   GTPV1_IE_SELECTED_PLMN_ID;
   GTPV1_IE_MBMS_SESSION_IDENTIFIER;
   GTPV1_IE_MBMS_2G_3G_INDICATOR;
   GTPV1_IE_ENHANCED_NSAPI;
   GTPV1_IE_MBMS_SESSION_DURATION;
   GTPV1_IE_ADDITIONAL_MBMS_TRACE_INFO;
   GTPV1_IE_MBMS_SESSION_REPETITION_NUMBER;
   GTPV1_IE_MBMS_TIME_TO_DATA_TRANSFER;
   GTPV1_IE_BSS_CONTAINER;
   GTPV1_IE_CELL_IDENTIFICATION;
   GTPV1_IE_PDU_NUMBERS;
   GTPV1_IE_BSSGP_CAUSE;
   GTPV1_IE_REQUIRED_MBMS_BEARER_CAPABILITIES;
   GTPV1_IE_RIM_ROUTING_ADDRESS_DISCRIMINATOR;
   GTPV1_IE_LIST_OF_SET_UP_PFCS;
   GTPV1_IE_PS_HANDOVER_XID_PARAMETERS;
   GTPV1_IE_MS_INFO_CHANGE_REPORTING_ACTION;
   GTPV1_IE_DIRECT_TUNNEL_FLAGS;
   GTPV1_IE_CORRELATION_ID;
   GTPV1_IE_BEARER_CONTROL_MODE;
   GTPV1_IE_MBMS_FLOW_IDENTIFIER;
   GTPV1_IE_MBMS_IP_MULTICAST_DISTRIBUTION;
   GTPV1_IE_MBMS_DISTRIBUTION_ACKNOWLEDGEMENT;
   GTPV1_IE_RELIABLE_INTER_RAT_HANDOVER_INFO;
   GTPV1_IE_RFSP_INDEX;
   GTPV1_IE_FQDN;
   GTPV1_IE_EVOLVED_ALLOCATION_RETENTION_PRIORITY_I;
   GTPV1_IE_EVOLVED_ALLOCATION_RETENTION_PRIORITY_II;
   GTPV1_IE_EXTENDED_COMMON_FLAGS;
   GTPV1_IE_UCI;
   GTPV1_IE_CSG_INFORMATION_REPORTING_ACTION;
   GTPV1_IE_CSG_ID;
   GTPV1_IE_CMI;
   GTPV1_IE_AMBR;
   GTPV1_IE_UE_NETWORK_CAPABILITY;
   GTPV1_IE_UE_AMBR;
   GTPV1_IE_APN_AMBR_WITH_NSAPI;
   GTPV1_IE_GGSN_BACK_OFF_TIME;
   GTPV1_IE_SIGNALLING_PRIORITY_INDICATION;
   GTPV1_IE_SIGNALLING_PRIORITY_INDICATION_WITH_NSAPI;
   GTPV1_IE_HIGHER_BITRATES_THAN_16_MBPS_FLAG;
   GTPV1_IE_MAX_MBR_APN_AMBR;
   GTPV1_IE_ADDITIONAL_MM_CONTEXT_FOR_SRVCC;
   GTPV1_IE_ADDITIONAL_FLAGS_FOR_SRVCC;
   GTPV1_IE_STN_SR;
   GTPV1_IE_C_MSISDN;
   GTPV1_IE_EXTENDED_RANAP_CAUSE;
   GTPV1_IE_CHARGING_GATEWAY_ADDRESS;
   GTPV1_IE_PRIVATE_EXTENSION].
End InformationElements.
(** ** What the tables hold *)

Section zeroing.
Context {A : Type} (x : A).

(** Assigning every index of the table in turn leaves nothing of its old
    contents. *)
Lemma foldl_insert_seq (t : list A) (n : nat) :
  (n <= length t)%nat ->
  foldl (fun t i => <[i := x]> t) t (seq 0 n) = replicate n x ++ drop n t.
Proof.
  induction n as [|n IH]; intros Hn; [done|].
  rewrite seq_S, foldl_app, IH by lia. cbn.
  rewrite insert_app_r_alt by (rewrite length_replicate; lia).
  rewrite length_replicate, Nat.sub_diag.
  destruct (lookup_lt_is_Some_2 t n) as [y Hy]; [lia|].
  rewrite (drop_S _ _ _ Hy). cbn [insert list_insert].
  rewrite (cons_middle x), (assoc_L (++)), <- replicate_S_end. done.
Qed.

Lemma foldl_insert_all (t : list A) (n : nat) :
  length t = n -> foldl (fun t i => <[i := x]> t) t (seq 0 n) = replicate n x.
Proof.
  intros <-. rewrite foldl_insert_seq, drop_all by lia. apply app_nil_r.
Qed.
End zeroing.

Module TableFacts.
Import MessageTypes InformationElements.

(** The tables after [init_gtpv1], which [main] calls before any packet. *)
Definition gtpv1_message_types : list gtpv1_message_type :=
  init_gtpv1_message_types (replicate 256 zero_mt).
Definition gtpv1_information_elements : list gtpv1_information_element :=
  init_gtpv1_information_elements (replicate 256 zero_ie).

(** [init_gtpv1] *)
Definition init_gtpv1
    (ts : list gtpv1_message_type * list gtpv1_information_element) :
    list gtpv1_message_type * list gtpv1_information_element :=
  (init_gtpv1_message_types ts.1, init_gtpv1_information_elements ts.2).

(** What a row holds: its own index as id when the header declares the
    element, with the TV layout (one octet of header and a fixed body) below
    128 and the TLV layout (three octets of header, body in the packet) from
    128 on; zeros otherwise. *)
Definition ie_row_ok (i : Z) (e : gtpv1_information_element) : bool :=
  if bool_decide (i ∈ declared_information_elements) then
    (ie_id e =? i) && (ie_grouped e =? 0) && negb (bool_decide (ie_name e = "")) &&
    (if i <? GTPV1_FIRST_TLV_IE
     then (ie_header_length e =? 1) && (1 <=? ie_body_length e)
     else (ie_header_length e =? 3) && (ie_body_length e =? 0))
  else bool_decide (e = zero_ie).

Definition mt_row_ok (i : Z) (e : gtpv1_message_type) : bool :=
  if bool_decide (i ∈ declared_message_types)
  then (mt_id e =? i) && negb (bool_decide (mt_name e = ""))
  else bool_decide (e = zero_mt).

Definition rows_ok {A} (ok : Z -> A -> bool) (t : list A) : bool :=
  forallb (fun '(i, e) => ok (Z.of_nat i) e) (imap pair t).

Lemma rows_ok_lookup {A} (ok : Z -> A -> bool) (t : list A) i e :
  rows_ok ok t = true -> t !! i = Some e -> ok (Z.of_nat i) e = true.
Proof.
  unfold rows_ok. rewrite forallb_forall. intros H Hi.
  refine (H (i, e) _). apply list_elem_of_In, list_elem_of_lookup.
  exists i. rewrite list_lookup_imap, Hi. done.
Qed.

Lemma ie_table_checked : rows_ok ie_row_ok gtpv1_information_elements = true.
Proof. vm_compute. reflexivity. Qed.

Lemma mt_table_checked : rows_ok mt_row_ok gtpv1_message_types = true.
Proof. vm_compute. reflexivity. Qed.

Lemma ie_table_length : length gtpv1_information_elements = 256%nat.
Proof. vm_compute. reflexivity. Qed.

Lemma mt_table_length : length gtpv1_message_types = 256%nat.
Proof. vm_compute. reflexivity. Qed.

(** The row of an information element, as a proposition. *)
Definition ie_row_spec (i : Z) (e : gtpv1_information_element) : Prop :=
  ((i ∈ declared_information_elements) /\
   ie_id e = i /\ ie_grouped e = 0 /\ ie_name e <> "" /\
   (i < GTPV1_FIRST_TLV_IE -> ie_header_length e = 1 /\ 1 <= ie_body_length e) /\
   (GTPV1_FIRST_TLV_IE <= i -> ie_header_length e = 3 /\ ie_body_length e = 0))
  \/ ((i ∉ declared_information_elements) /\ e = zero_ie).

Lemma ie_row_ok_spec i e : ie_row_ok i e = true -> ie_row_spec i e.
Proof.
  unfold ie_row_ok, ie_row_spec. case_bool_decide as Hd.
  - rewrite !andb_true_iff, negb_true_iff, !Z.eqb_eq, bool_decide_eq_false.
    intros [[[? ?] ?] Hl]. left. repeat split_and!; try done.
    + intros Hlt. rewrite (proj2 (Z.ltb_lt _ _) Hlt), andb_true_iff in Hl. lia.
    + intros Hge. rewrite (proj2 (Z.ltb_ge _ _) Hge), andb_true_iff in Hl. lia.
  - rewrite bool_decide_eq_true. auto.
Qed.

(** The row the walk over information elements consults for octet [i]. *)
Lemma ie_row (i : Z) : 0 <= i < 256 ->
  exists e, gtpv1_information_elements !! Z.to_nat i = Some e /\ ie_row_spec i e.
Proof.
  intros Hi.
  destruct (lookup_lt_is_Some_2 gtpv1_information_elements (Z.to_nat i)) as [e He].
  { rewrite ie_table_length. lia. }
  exists e. split; [done|]. apply ie_row_ok_spec.
  pose proof (rows_ok_lookup _ _ _ _ ie_table_checked He) as H.
  by rewrite Z2Nat.id in H by lia.
Qed.

Lemma mt_row (i : Z) : 0 <= i < 256 ->
  exists e, gtpv1_message_types !! Z.to_nat i = Some e /\
    (((i ∈ declared_message_types) /\ mt_id e = i /\ mt_name e <> "")
     \/ ((i ∉ declared_message_types) /\ e = zero_mt)).
Proof.
  intros Hi.
  destruct (lookup_lt_is_Some_2 gtpv1_message_types (Z.to_nat i)) as [e He].
  { rewrite mt_table_length. lia. }
  exists e. split; [done|].
  pose proof (rows_ok_lookup _ _ _ _ mt_table_checked He) as H.
  rewrite Z2Nat.id in H by lia. revert H. unfold mt_row_ok.
  case_bool_decide; rewrite ?andb_true_iff, ?negb_true_iff, ?Z.eqb_eq,
    ?bool_decide_eq_false, ?bool_decide_eq_true; naive_solver.
Qed.

(** The zeroing loops make the result independent of the old contents. *)
Lemma init_gtpv1_fresh mts ies :
  length mts = 256%nat -> length ies = 256%nat ->
  init_gtpv1 (mts, ies) = (gtpv1_message_types, gtpv1_information_elements).
Proof.
  intros Hm Hi. unfold init_gtpv1, gtpv1_message_types, gtpv1_information_elements,
    init_gtpv1_message_types, init_gtpv1_information_elements, zero_mts, zero_ies.
  cbn [fst snd].
  rewrite (foldl_insert_all zero_mt mts), (foldl_insert_all zero_mt (replicate 256 zero_mt)),
    (foldl_insert_all zero_ie ies), (foldl_insert_all zero_ie (replicate 256 zero_ie));
    try done.
Qed.

(** C39: whatever the two static tables held before, after [init_gtpv1] every
    row [i] of the information element table is the declared element [i] with
    the layout of its class (TV below 128, TLV above) or a zero row when the
    header does not declare [i]; every message type row is likewise the
    declared type with its own id, or zero. *)
Theorem init_gtpv1_rows mts ies i :
  length mts = 256%nat -> length ies = 256%nat -> 0 <= i < 256 ->
  exists m e,
    (init_gtpv1 (mts, ies)).1 !! Z.to_nat i = Some m /\
    (init_gtpv1 (mts, ies)).2 !! Z.to_nat i = Some e /\
    ie_row_spec i e /\
    (((i ∈ declared_message_types) /\ mt_id m = i /\ mt_name m <> "")
     \/ ((i ∉ declared_message_types) /\ m = zero_mt)).
Proof.
  intros Hm Hi Hr. rewrite init_gtpv1_fresh by done. cbn [fst snd].
  destruct (ie_row i Hr) as (e & ? & ?), (mt_row i Hr) as (m & ? & ?). eauto 6.
Qed.

Lemma init_gtpv1_rows_witness :
  length (replicate 256 zero_mt) = 256%nat /\
  exists m e,
    (init_gtpv1 (replicate 256 zero_mt, replicate 256 zero_ie)).1 !! Z.to_nat 2 = Some m /\
    (init_gtpv1 (replicate 256 zero_mt, replicate 256 zero_ie)).2 !! Z.to_nat 2 = Some e /\
    ie_row_spec 2 e /\
    (((2 ∈ declared_message_types) /\ mt_id m = 2 /\ mt_name m <> "")
     \/ ((2 ∉ declared_message_types) /\ m = zero_mt)).
Proof.
  split; [reflexivity|].
  apply (init_gtpv1_rows (replicate 256 zero_mt) (replicate 256 zero_ie) 2);
    [reflexivity | reflexivity | lia].
Defined.
End TableFacts.
