(* ===== verification/GtpHeader.v ===== *)
(** * Locating the GTP V1 header of a packet

    [gtpv1_get_header] of [gtp/gtpv1.c] walks Ethernet, an optional 802.1Q
    tag, IPv4 and UDP to the GTP V1 header.  A packet is the list of its
    octets; the pointer the code returns is the offset of the header in it.
    The C code subtracts the running offset from the length in 32-bit unsigned
    arithmetic, so the model does too ([remaining]); reads outside the captured
    octets are [Fault OutOfBounds].  The file compares the code with a parser
    that checks every length without wrap-around. *)
From S2P Require Import Prelude.

(** ** Sizes and constants *)

Definition TAG_ETHER_802_1_Q_LENGTH : Z := 4.
Definition GTP_C_UDP_PORT : Z := 2123.
Definition GTP_U_UDP_PORT : Z := 2152.
Definition GTP_V1_TYPEVER : Z := 3.

(** From the system headers the code includes: [net/ethernet.h],
    [netinet/ip.h], [netinet/udp.h]. *)
Definition sizeof_ether_header : Z := 14.
Definition offsetof_ether_type : Z := 12.
Definition sizeof_ip : Z := 20.
Definition sizeof_udphdr : Z := 8.
Definition ETHERTYPE_IP : Z := 2048.    (* 0x0800 *)
Definition ETHERTYPE_VLAN : Z := 33024. (* 0x8100 *)
Definition IPVERSION : Z := 4.
Definition IPPROTO_UDP : Z := 17.

(** [sizeof(struct gtpv1hdr)] and [sizeof(struct gtpv1hdropt)] *)
Definition sizeof_gtpv1hdr : Z := 8.
Definition sizeof_gtpv1hdropt : Z := 4.

(** ** The mandatory header *)

(** [struct gtpv1hdr], with the integers in host order as [ntohs]/[ntohl]
    give them. *)
Record gtpv1hdr := Gtpv1hdr {
  flag_options : Z;   (* three bits: extension, sequence number, N-PDU *)
  flag_reserved : Z;  (* one bit *)
  flag_typever : Z;   (* four bits: version and protocol type *)
  message_type : Z;
  gtp_length : Z;
  gtp_teid : Z }.

(** Reading the struct at offset [g]: the bit fields are allocated from the
    low end of the first octet. *)
Definition read_gtpv1hdr (data : list Z) (g : Z) : res gtpv1hdr :=
  b ← rd8 data g;
  mt ← rd8 data (g + 1);
  len ← rd16be data (g + 2);
  teid ← rd32be data (g + 4);
  mret (Gtpv1hdr (Z.land b 7) (Z.land (Z.shiftr b 3) 1) (Z.shiftr b 4) mt len teid).

(** Version and type, and option flags. *)
Definition GTP_TYPE (flag_typever : Z) : Z := Z.shiftr flag_typever 1.
Definition GTP_VER (flag_typever : Z) : Z := Z.land flag_typever 1.
Definition GTP_EXT_FLAG (flag_options : Z) : Z := Z.shiftr (Z.land flag_options 4) 2.
Definition GTP_SEQ_FLAG (flag_options : Z) : Z := Z.shiftr (Z.land flag_options 2) 1.
Definition GTP_NPDU_FLAG (flag_options : Z) : Z := Z.land flag_options 1.

(** ** The code *)

(** [length - offset], in [unsigned int]. *)
Definition remaining (length offset : Z) : Z := u32 (length - offset).

Definition gtp_port (p : Z) : bool := (p =? GTP_U_UDP_PORT) || (p =? GTP_C_UDP_PORT).

Definition gtpv1_get_header (length : Z) (data : list Z) : res (option Z) :=
  if remaining length 0 <? sizeof_ether_header then mret None else
  ether_type ← rd16be data offsetof_ether_type;
  '(ether_type, offset) ←
    (if ether_type =? ETHERTYPE_VLAN then
       t ← rd16be data (offsetof_ether_type + TAG_ETHER_802_1_Q_LENGTH);
       mret (t, sizeof_ether_header + TAG_ETHER_802_1_Q_LENGTH)
     else mret (ether_type, sizeof_ether_header));
  if negb (ether_type =? ETHERTYPE_IP) then mret None else
  if remaining length offset <? sizeof_ip then mret None else
  vhl ← rd8 data offset;
  if negb (Z.shiftr vhl 4 =? IPVERSION) then mret None else
  proto ← rd8 data (offset + 9);
  if negb (proto =? IPPROTO_UDP) then mret None else
  let offset := offset + Z.land vhl 15 * 4 in
  if remaining length offset <? sizeof_udphdr then mret None else
  sport ← rd16be data offset;
  dport ← rd16be data (offset + 2);
  if negb (sport =? GTP_U_UDP_PORT) && negb (dport =? GTP_U_UDP_PORT) &&
     negb (sport =? GTP_C_UDP_PORT) && negb (dport =? GTP_C_UDP_PORT)
  then mret None else
  let offset := offset + sizeof_udphdr in
  if remaining length offset <? sizeof_gtpv1hdr then mret None else
  b ← rd8 data offset;
  if negb (Z.shiftr b 4 =? GTP_V1_TYPEVER) then mret None else
  mret (Some offset).

(** ** The reference parser

    The same layers with every field read only inside the octets that are
    there: [None] as soon as a layer does not fit. *)

Definition ref_ip_offset (pkt : list Z) : option Z :=
  if blen pkt <? 14 then None else
  if word16 pkt 12 =? ETHERTYPE_VLAN then
    if blen pkt <? 18 then None else
    if word16 pkt 16 =? ETHERTYPE_IP then Some 18 else None
  else if word16 pkt 12 =? ETHERTYPE_IP then Some 14 else None.

Definition ref_udp_offset (pkt : list Z) (ip : Z) : option Z :=
  if blen pkt <? ip + 20 then None else
  if (Z.shiftr (octet pkt ip) 4 =? IPVERSION) && (octet pkt (ip + 9) =? IPPROTO_UDP)
  then Some (ip + Z.land (octet pkt ip) 15 * 4) else None.

Definition ref_gtp_offset (pkt : list Z) (udp : Z) : option Z :=
  if blen pkt <? udp + 8 then None else
  if gtp_port (word16 pkt udp) || gtp_port (word16 pkt (udp + 2)) then
    if blen pkt <? udp + 16 then None else
    if Z.shiftr (octet pkt (udp + 8)) 4 =? GTP_V1_TYPEVER then Some (udp + 8) else None
  else None.

Definition ref_get_header (pkt : list Z) : option Z :=
  ip ← ref_ip_offset pkt; udp ← ref_udp_offset pkt ip; ref_gtp_offset pkt udp.

(** The captures on which a subtraction of the code wraps: a tagged frame cut
    inside its tag, and an IPv4 header whose length field points past the end
    of the capture. *)
Definition truncated_tag (pkt : list Z) : bool :=
  (14 <=? blen pkt) && (blen pkt <? 18) && (word16 pkt 12 =? ETHERTYPE_VLAN).

Definition truncated_ip (pkt : list Z) : bool :=
  match ip ← ref_ip_offset pkt; ref_udp_offset pkt ip with
  | Some udp => blen pkt <? udp
  | None => false
  end.

(** ** The code against the reference parser *)

Section get_header.
Implicit Types (pkt slack : list Z).

Lemma remaining_in length offset :
  0 <= offset <= length -> length < 2 ^ 32 -> remaining length offset = length - offset.
Proof. intros. apply u32_small. lia. Qed.

Lemma remaining_wraps length offset :
  0 <= length < offset -> offset <= 2 ^ 31 -> 2 ^ 31 <= remaining length offset.
Proof. intros. unfold remaining. rewrite u32_neg; lia. Qed.

Lemma octet_slack pkt slack i : 0 <= i -> i < blen pkt ->
  rd8 (pkt ++ slack) i = Ok (octet pkt i).
Proof. intros. apply rd8_app_l, rd8_ok. lia. Qed.

Lemma word16_slack pkt slack i : 0 <= i -> i + 2 <= blen pkt ->
  rd16be (pkt ++ slack) i = Ok (word16 pkt i).
Proof.
  intros. unfold rd16be.
  rewrite (octet_slack pkt slack i), (octet_slack pkt slack (i + 1)) by lia. done.
Qed.

Lemma octet_nibble_le pkt i : bytes_ok pkt -> 0 <= Z.land (octet pkt i) 15 <= 15.
Proof.
  intros H. change 15 with (Z.ones 4) at 1 2. rewrite Z.land_ones by lia.
  pose proof (Z.mod_pos_bound (octet pkt i) (2 ^ 4)). lia.
Qed.

Lemma ref_ip_offset_Some pkt ip : ref_ip_offset pkt = Some ip ->
  (ip = 14 \/ ip = 18) /\ ip <= blen pkt.
Proof.
  unfold ref_ip_offset. intros H.
  repeat (case_match; simplify_eq); lia.
Qed.

Lemma ref_udp_offset_Some pkt ip udp : bytes_ok pkt ->
  ref_udp_offset pkt ip = Some udp -> ip + 20 <= blen pkt /\ ip <= udp <= ip + 60.
Proof.
  unfold ref_udp_offset. intros Hb H. pose proof (octet_nibble_le pkt ip Hb).
  repeat (case_match; simplify_eq); lia.
Qed.

Lemma ref_gtp_offset_Some pkt udp g :
  ref_gtp_offset pkt udp = Some g -> g = udp + 8 /\ g + 8 <= blen pkt.
Proof.
  unfold ref_gtp_offset. intros H. repeat (case_match; simplify_eq); lia.
Qed.

(** The header the reference parser finds lies inside the packet. *)
Lemma ref_get_header_Some pkt g : bytes_ok pkt -> ref_get_header pkt = Some g ->
  22 <= g <= 86 /\ g + 8 <= blen pkt.
Proof.
  intros Hb H. unfold ref_get_header in H.
  apply bind_Some in H as (ip & Hip & H). apply bind_Some in H as (udp & Hudp & H).
  apply ref_ip_offset_Some in Hip. apply ref_udp_offset_Some in Hudp; [|done].
  apply ref_gtp_offset_Some in H. lia.
Qed.

(** The part of the code after the Ethernet layer, and after the IP layer. *)
Definition code_udp (length : Z) (data : list Z) (offset : Z) : res (option Z) :=
  if remaining length offset <? sizeof_udphdr then mret None else
  sport ← rd16be data offset;
  dport ← rd16be data (offset + 2);
  if negb (sport =? GTP_U_UDP_PORT) && negb (dport =? GTP_U_UDP_PORT) &&
     negb (sport =? GTP_C_UDP_PORT) && negb (dport =? GTP_C_UDP_PORT)
  then mret None else
  let offset := offset + sizeof_udphdr in
  if remaining length offset <? sizeof_gtpv1hdr then mret None else
  b ← rd8 data offset;
  if negb (Z.shiftr b 4 =? GTP_V1_TYPEVER) then mret None else
  mret (Some offset).

Definition code_ip (length : Z) (data : list Z) (offset : Z) : res (option Z) :=
  if remaining length offset <? sizeof_ip then mret None else
  vhl ← rd8 data offset;
  if negb (Z.shiftr vhl 4 =? IPVERSION) then mret None else
  proto ← rd8 data (offset + 9);
  if negb (proto =? IPPROTO_UDP) then mret None else
  code_udp length data (offset + Z.land vhl 15 * 4).

Lemma ports_test (s d : Z) :
  negb (s =? GTP_U_UDP_PORT) && negb (d =? GTP_U_UDP_PORT) &&
  negb (s =? GTP_C_UDP_PORT) && negb (d =? GTP_C_UDP_PORT)
  = negb (gtp_port s || gtp_port d).
Proof. unfold gtp_port. by repeat destruct (_ =? _). Qed.

Lemma code_udp_ref pkt slack udp :
  0 <= udp <= blen pkt -> blen pkt < 2 ^ 32 ->
  code_udp (blen pkt) (pkt ++ slack) udp = Ok (ref_gtp_offset pkt udp).
Proof.
  intros Hu Hl. unfold code_udp, ref_gtp_offset, sizeof_udphdr, sizeof_gtpv1hdr.
  rewrite remaining_in by lia.
  destruct (Z.ltb_spec (blen pkt) (udp + 8)), (Z.ltb_spec (blen pkt - udp) 8); try lia; [done|].
  rewrite (word16_slack pkt slack udp), (word16_slack pkt slack (udp + 2)) by lia.
  cbn. rewrite ports_test. destruct (_ || _); [cbn|done].
  rewrite remaining_in by lia.
  destruct (Z.ltb_spec (blen pkt) (udp + 16)), (Z.ltb_spec (blen pkt - (udp + 8)) 8);
    try lia; [done|].
  rewrite octet_slack by lia. cbn. by destruct (_ =? _).
Qed.

Lemma code_udp_wraps pkt udp :
  blen pkt < udp -> udp <= 2 ^ 31 -> code_udp (blen pkt) pkt udp = Fault OutOfBounds.
Proof.
  intros Hu Hl. unfold code_udp, sizeof_udphdr. pose proof (blen_nonneg pkt).
  pose proof (remaining_wraps (blen pkt) udp).
  rewrite (proj2 (Z.ltb_ge _ _)) by lia. by rewrite (rd16be_oob pkt udp) by lia.
Qed.

Lemma code_ip_ref pkt slack ip :
  bytes_ok pkt -> 0 <= ip <= blen pkt -> blen pkt < 2 ^ 32 ->
  (forall udp, ref_udp_offset pkt ip = Some udp -> udp <= blen pkt) ->
  code_ip (blen pkt) (pkt ++ slack) ip =
    Ok (udp ← ref_udp_offset pkt ip; ref_gtp_offset pkt udp).
Proof.
  intros Hb Hi Hl Hudp. unfold code_ip, ref_udp_offset, sizeof_ip in *.
  pose proof (octet_nibble_le pkt ip Hb). rewrite remaining_in by lia.
  destruct (Z.ltb_spec (blen pkt) (ip + 20)), (Z.ltb_spec (blen pkt - ip) 20); try lia; [done|].
  rewrite (octet_slack pkt slack ip), (octet_slack pkt slack (ip + 9)) by lia.
  cbn. destruct (_ =? IPVERSION), (_ =? IPPROTO_UDP); cbn in *; try done.
  apply code_udp_ref; [|done]. specialize (Hudp _ eq_refl). lia.
Qed.

Lemma code_ip_wraps pkt ip udp :
  bytes_ok pkt -> 0 <= ip <= 18 -> blen pkt < 2 ^ 32 ->
  ref_udp_offset pkt ip = Some udp -> blen pkt < udp ->
  code_ip (blen pkt) pkt ip = Fault OutOfBounds.
Proof.
  intros Hb Hi Hl Hr Hu. pose proof (ref_udp_offset_Some _ _ _ Hb Hr) as [? ?].
  unfold code_ip, ref_udp_offset, sizeof_ip in *. rewrite remaining_in by lia.
  rewrite (proj2 (Z.ltb_ge _ _)) in Hr by lia. rewrite (proj2 (Z.ltb_ge _ _)) by lia.
  rewrite (rd8_ok pkt ip), (rd8_ok pkt (ip + 9)) by lia.
  cbn. destruct (_ =? IPVERSION), (_ =? IPPROTO_UDP); cbn in *; simplify_eq.
  apply code_udp_wraps; lia.
Qed.

Lemma get_header_code_ip length data :
  gtpv1_get_header length data =
    if remaining length 0 <? sizeof_ether_header then mret None else
    ether_type ← rd16be data offsetof_ether_type;
    '(ether_type, offset) ←
      (if ether_type =? ETHERTYPE_VLAN then
         t ← rd16be data (offsetof_ether_type + TAG_ETHER_802_1_Q_LENGTH);
         mret (t, sizeof_ether_header + TAG_ETHER_802_1_Q_LENGTH)
       else mret (ether_type, sizeof_ether_header));
    if negb (ether_type =? ETHERTYPE_IP) then mret None else
    code_ip length data offset.
Proof. reflexivity. Qed.

(** On a capture that neither ends inside its 802.1Q tag nor carries an IPv4
    header longer than what was captured, the code computes the reference
    parser, whatever octets follow the capture in memory. *)
Lemma get_header_ref pkt slack :
  bytes_ok pkt -> blen pkt < 2 ^ 32 ->
  truncated_tag pkt = false -> truncated_ip pkt = false ->
  gtpv1_get_header (blen pkt) (pkt ++ slack) = Ok (ref_get_header pkt).
Proof.
  intros Hb Hl Ht Hi. pose proof (blen_nonneg pkt).
  rewrite get_header_code_ip. unfold ref_get_header, truncated_tag, truncated_ip in *.
  assert (Hudp : forall ip udp, ref_ip_offset pkt = Some ip ->
            ref_udp_offset pkt ip = Some udp -> udp <= blen pkt).
  { intros ip udp E1 E2. rewrite E1 in Hi. cbn in Hi. rewrite E2 in Hi.
    by apply Z.ltb_ge in Hi. }
  clear Hi. unfold ref_ip_offset, sizeof_ether_header, offsetof_ether_type,
    TAG_ETHER_802_1_Q_LENGTH in *.
  rewrite remaining_in, Z.sub_0_r by lia.
  destruct (Z.ltb_spec (blen pkt) 14); [done|].
  rewrite (word16_slack pkt slack 12) by lia. cbn.
  destruct (Z.eqb_spec (word16 pkt 12) ETHERTYPE_VLAN).
  - rewrite (proj2 (Z.leb_le 14 _)) in Ht by lia. cbn in Ht.
    rewrite andb_true_r in Ht. rewrite Ht in *. apply Z.ltb_ge in Ht.
    change (12 + 4) with 16. rewrite (word16_slack pkt slack 16) by lia. cbn.
    destruct (_ =? ETHERTYPE_IP); [cbn|done].
    apply code_ip_ref; [done|lia|done|naive_solver].
  - cbn. destruct (_ =? ETHERTYPE_IP); [cbn|done].
    apply code_ip_ref; [done|lia|done|naive_solver].
Qed.

(** On the other captures it reads outside them. *)
Lemma get_header_faults pkt :
  bytes_ok pkt -> blen pkt < 2 ^ 32 ->
  truncated_tag pkt = true \/ truncated_ip pkt = true ->
  gtpv1_get_header (blen pkt) pkt = Fault OutOfBounds.
Proof.
  intros Hb Hl Ht. pose proof (blen_nonneg pkt).
  rewrite get_header_code_ip. unfold truncated_tag, truncated_ip, ref_ip_offset,
    sizeof_ether_header, offsetof_ether_type, TAG_ETHER_802_1_Q_LENGTH in *.
  rewrite remaining_in, Z.sub_0_r by lia.
  destruct (Z.ltb_spec (blen pkt) 14).
  { destruct Ht as [Ht|Ht]; [|done].
    rewrite (proj2 (Z.leb_gt 14 _)) in Ht by lia. done. }
  rewrite (rd16be_ok pkt 12) by lia. cbn.
  destruct (Z.eqb_spec (word16 pkt 12) ETHERTYPE_VLAN).
  - change (12 + 4) with 16. destruct (Z.ltb_spec (blen pkt) 18); [by rewrite (rd16be_oob pkt 16) by lia|].
    rewrite andb_false_r in Ht. destruct Ht as [|Ht]; [done|].
    rewrite (rd16be_ok pkt 16) by lia. cbn.
    destruct (_ =? ETHERTYPE_IP); [cbn in *|done].
    destruct (ref_udp_offset pkt 18) eqn:E; [|done]. apply Z.ltb_lt in Ht.
    eapply code_ip_wraps; eauto; lia.
  - rewrite andb_false_r in Ht. destruct Ht as [|Ht]; [done|].
    cbn in *. destruct (_ =? ETHERTYPE_IP); [cbn in *|done].
    destruct (ref_udp_offset pkt 14) eqn:E; [|done]. apply Z.ltb_lt in Ht.
    eapply code_ip_wraps; eauto; lia.
Qed.

(** A capture of 78 octets or more (an Ethernet header, a tag and the longest
    IPv4 header) is never truncated in either way. *)
Lemma long_capture_not_truncated pkt :
  bytes_ok pkt -> 78 <= blen pkt -> truncated_tag pkt = false /\ truncated_ip pkt = false.
Proof.
  intros Hb Hl. unfold truncated_tag, truncated_ip. split.
  - rewrite (proj2 (Z.ltb_ge (blen pkt) 18)) by lia. by rewrite andb_false_r.
  - destruct (ref_ip_offset pkt) as [ip|] eqn:E1; [|done]. cbn.
    destruct (ref_udp_offset pkt ip) as [udp|] eqn:E2; [|done].
    apply ref_ip_offset_Some in E1. apply ref_udp_offset_Some in E2; [|done].
    apply Z.ltb_ge. lia.
Qed.
End get_header.

(** ** Encapsulation

    The packets GTP V1 traffic is made of: Ethernet, an optional 802.1Q tag,
    IPv4 with any options, UDP on a GTP port, and the GTP octets. *)

Record outer := Outer {
  o_mac : list Z;          (* both MAC addresses *)
  o_tag : option (list Z); (* the two octets of the 802.1Q tag control *)
  o_ihl : Z;               (* IPv4 header length in units of four octets *)
  o_ip_a : list Z;         (* type of service up to time to live *)
  o_ip_b : list Z;         (* checksum, addresses and options *)
  o_sport : Z;
  o_dport : Z;
  o_udp_rest : list Z }.   (* UDP length and checksum *)

Definition be16 (v : Z) : list Z := [v / 256; v mod 256].

Definition ether_bytes (o : outer) : list Z :=
  o_mac o ++ match o_tag o with Some t => [129; 0] ++ t | None => [] end ++ [8; 0].
Definition ip_bytes (o : outer) : list Z :=
  [64 + o_ihl o] ++ o_ip_a o ++ [17] ++ o_ip_b o.
Definition udp_bytes (o : outer) : list Z :=
  be16 (o_sport o) ++ be16 (o_dport o) ++ o_udp_rest o.
Arguments ether_bytes : simpl never.
Arguments ip_bytes : simpl never.
Arguments udp_bytes : simpl never.
Definition encapsulate (o : outer) (gtp : list Z) : list Z :=
  ether_bytes o ++ ip_bytes o ++ udp_bytes o ++ gtp.

Record outer_ok (o : outer) : Prop := {
  ok_mac : blen (o_mac o) = 12 /\ bytes_ok (o_mac o);
  ok_tag : forall t, o_tag o = Some t -> blen t = 2 /\ bytes_ok t;
  ok_ihl : 5 <= o_ihl o <= 15;
  ok_ip_a : blen (o_ip_a o) = 8 /\ bytes_ok (o_ip_a o);
  ok_ip_b : blen (o_ip_b o) = o_ihl o * 4 - 10 /\ bytes_ok (o_ip_b o);
  ok_sport : 0 <= o_sport o < 65536;
  ok_dport : 0 <= o_dport o < 65536;
  ok_port : gtp_port (o_sport o) || gtp_port (o_dport o) = true;
  ok_udp_rest : blen (o_udp_rest o) = 4 /\ bytes_ok (o_udp_rest o) }.

(** Where the GTP octets start. *)
Definition gtp_offset (o : outer) : Z :=
  (match o_tag o with Some _ => 18 | None => 14 end) + o_ihl o * 4 + 8.

Section encapsulation.
Implicit Types (o : outer) (gtp slack : list Z).

Lemma octet_shift (l1 l2 : list Z) k i :
  blen l1 = k -> k <= i -> octet (l1 ++ l2) i = octet l2 (i - k).
Proof. intros <- ?. by apply octet_app_r. Qed.

Lemma word16_shift (l1 l2 : list Z) k i :
  blen l1 = k -> k <= i -> word16 (l1 ++ l2) i = word16 l2 (i - k).
Proof.
  intros Hk Hi. unfold word16. rewrite !(octet_shift l1 l2 k) by (done || lia).
  do 2 f_equal. lia.
Qed.

Lemma octet_0 x l : octet (x :: l) 0 = x.
Proof. done. Qed.

Lemma octet_cons x l i : 0 < i -> octet (x :: l) i = octet l (i - 1).
Proof. intros. apply (octet_shift [x] l 1 i); [done|lia]. Qed.

Lemma word16_be16 v l : 0 <= v -> word16 (be16 v ++ l) 0 = v.
Proof.
  intros. unfold word16, be16. cbn.
  rewrite octet_0, octet_cons, octet_0 by lia. pose proof (Z.div_mod v 256). lia.
Qed.

Lemma blen_ether o : outer_ok o ->
  blen (ether_bytes o) = match o_tag o with Some _ => 18 | None => 14 end.
Proof.
  intros [[Hm _] Ht _ _ _ _ _ _ _]. unfold ether_bytes. rewrite !blen_app, Hm.
  destruct (o_tag o) as [t|]; [|done].
  destruct (Ht t eq_refl) as [Hl _]. rewrite blen_app, Hl. done.
Qed.

Lemma blen_ip o : outer_ok o -> blen (ip_bytes o) = o_ihl o * 4.
Proof.
  intros [_ _ _ [Ha _] [Hb _] _ _ _ _]. unfold ip_bytes.
  rewrite !blen_app, Ha, Hb. unfold blen. cbn [length]. lia.
Qed.

Lemma blen_udp o : outer_ok o -> blen (udp_bytes o) = 8.
Proof.
  intros [_ _ _ _ _ _ _ _ [Hc _]]. unfold udp_bytes, be16.
  rewrite !blen_app, Hc. done.
Qed.

Lemma blen_encapsulate o gtp : outer_ok o ->
  blen (encapsulate o gtp) = gtp_offset o + blen gtp.
Proof.
  intros Ho. unfold encapsulate, gtp_offset.
  rewrite !blen_app, (blen_ether o), (blen_ip o), (blen_udp o) by done.
  destruct (o_tag o); lia.
Qed.

Lemma be16_bytes v : 0 <= v < 65536 -> bytes_ok (be16 v).
Proof.
  intros. pose proof (Z.mod_pos_bound v 256).
  assert (0 <= v / 256 < 256) by (split; [apply Z.div_pos|apply Z.div_lt_upper_bound]; lia).
  repeat constructor; unfold is_byte; lia.
Qed.

Lemma encapsulate_bytes o gtp : outer_ok o -> bytes_ok gtp -> bytes_ok (encapsulate o gtp).
Proof.
  intros [[_ Hm] Ht Hi [_ Ha] [_ Hb] Hs Hd _ [_ Hc]] Hg.
  unfold encapsulate, ether_bytes, ip_bytes, udp_bytes, bytes_ok.
  pose proof (be16_bytes _ Hs). pose proof (be16_bytes _ Hd).
  repeat (apply Forall_app_2); try done.
  - destruct (o_tag o) as [t|]; [|done]. destruct (Ht t eq_refl) as [_ ?].
    apply Forall_app_2; [|done]. repeat constructor; unfold is_byte; lia.
  - repeat constructor; unfold is_byte; lia.
  - repeat constructor; unfold is_byte; lia.
  - repeat constructor; unfold is_byte; lia.
Qed.

Lemma ref_ip_encapsulate o gtp : outer_ok o ->
  ref_ip_offset (encapsulate o gtp) = Some (blen (ether_bytes o)).
Proof.
  intros Ho. rewrite (blen_ether o Ho). unfold ref_ip_offset.
  rewrite (blen_encapsulate o gtp Ho). pose proof (ok_ihl o Ho). pose proof (blen_nonneg gtp).
  unfold gtp_offset, encapsulate, ether_bytes. destruct Ho as [[Hm _] Ht _ _ _ _ _ _ _].
  rewrite <- !app_assoc, (word16_shift _ _ 12) by (done || lia).
  destruct (o_tag o) as [t|].
  - destruct (Ht t eq_refl) as [Hl _].
    rewrite !(proj2 (Z.ltb_ge _ _)) by lia. rewrite <- !app_assoc.
    change (word16 ([129; 0] ++ _) (12 - 12)) with 33024. rewrite Z.eqb_refl.
    rewrite (word16_shift (o_mac o) _ 12), (word16_shift [129; 0] _ 2),
      (word16_shift t _ 2) by (done || lia). done.
  - rewrite !(proj2 (Z.ltb_ge _ _)) by lia. done.
Qed.

Lemma vhl_nibbles ihl : 0 <= ihl <= 15 ->
  Z.shiftr (64 + ihl) 4 = 4 /\ Z.land (64 + ihl) 15 = ihl.
Proof.
  intros. change 15 with (Z.ones 4). rewrite Z.land_ones, Z.shiftr_div_pow2 by lia.
  split; [symmetry; apply (Z.div_unique _ _ _ ihl)|symmetry; apply (Z.mod_unique _ _ 4)]; lia.
Qed.

Lemma ref_udp_encapsulate o gtp : outer_ok o ->
  ref_udp_offset (encapsulate o gtp) (blen (ether_bytes o)) =
    Some (blen (ether_bytes o) + blen (ip_bytes o)).
Proof.
  intros Ho. unfold ref_udp_offset. rewrite (blen_encapsulate o gtp Ho).
  pose proof (blen_ether o Ho) as He. pose proof (blen_nonneg gtp).
  pose proof (blen_ip o Ho) as Hi. pose proof (ok_ihl o Ho). unfold gtp_offset.
  rewrite (proj2 (Z.ltb_ge _ _)) by (rewrite He; destruct (o_tag o); lia).
  unfold encapsulate. rewrite !(octet_shift (ether_bytes o) _ _ _ eq_refl) by lia.
  rewrite Z.sub_diag, Z.add_simpl_l, Hi. unfold ip_bytes. rewrite <- !app_assoc.
  rewrite (octet_shift [64 + o_ihl o] _ 1 9) by (done || lia).
  rewrite (octet_shift (o_ip_a o) _ 8 (9 - 1)) by (lia || apply (ok_ip_a o Ho)).
  change ([64 + o_ihl o] ++ ?l) with ((64 + o_ihl o) :: l). rewrite octet_0.
  destruct (vhl_nibbles (o_ihl o)) as [-> ->]; [lia|]. done.
Qed.

Lemma ref_gtp_encapsulate o gtp : outer_ok o -> 8 <= blen gtp ->
  Z.shiftr (octet gtp 0) 4 = GTP_V1_TYPEVER ->
  ref_gtp_offset (encapsulate o gtp) (blen (ether_bytes o) + blen (ip_bytes o)) =
    Some (gtp_offset o).
Proof.
  intros Ho Hg Hv. unfold ref_gtp_offset. rewrite (blen_encapsulate o gtp Ho).
  pose proof (blen_ether o Ho) as He. pose proof (blen_ip o Ho) as Hi.
  pose proof (blen_udp o Ho) as Hu. pose proof (ok_ihl o Ho).
  assert (Hoff : gtp_offset o = blen (ether_bytes o) + blen (ip_bytes o) + 8)
    by (unfold gtp_offset; rewrite He; lia).
  rewrite Hoff. rewrite !(proj2 (Z.ltb_ge _ _)) by lia.
  unfold encapsulate. rewrite (assoc_L (++)).
  rewrite !(octet_shift (ether_bytes o ++ ip_bytes o) _ _ _ (blen_app _ _)),
    !(word16_shift (ether_bytes o ++ ip_bytes o) _ _ _ (blen_app _ _)) by lia.
  rewrite Z.sub_diag, !Z.add_simpl_l.
  rewrite (octet_shift (udp_bytes o) _ 8 8 Hu) by lia. rewrite Z.sub_diag, Hv, Z.eqb_refl.
  unfold udp_bytes. rewrite <- !app_assoc.
  rewrite word16_be16 by apply (ok_sport o Ho).
  rewrite (word16_shift (be16 (o_sport o)) _ 2 2) by (done || lia).
  rewrite Z.sub_diag, word16_be16 by apply (ok_dport o Ho).
  by rewrite (ok_port o Ho).
Qed.

Lemma ref_get_header_encapsulate o gtp : outer_ok o -> 8 <= blen gtp ->
  Z.shiftr (octet gtp 0) 4 = GTP_V1_TYPEVER ->
  ref_get_header (encapsulate o gtp) = Some (gtp_offset o).
Proof.
  intros. unfold ref_get_header. rewrite ref_ip_encapsulate by done. cbn.
  rewrite ref_udp_encapsulate by done. cbn. by apply ref_gtp_encapsulate.
Qed.

Lemma encapsulate_not_truncated o gtp : outer_ok o ->
  truncated_tag (encapsulate o gtp) = false /\ truncated_ip (encapsulate o gtp) = false.
Proof.
  intros Ho. pose proof (blen_nonneg gtp). pose proof (ok_ihl o Ho).
  unfold truncated_tag, truncated_ip.
  rewrite ref_ip_encapsulate by done. cbn. rewrite ref_udp_encapsulate by done. cbn.
  rewrite (blen_encapsulate o gtp Ho), (blen_ether o Ho), (blen_ip o Ho).
  unfold gtp_offset. split.
  - rewrite (proj2 (Z.ltb_ge _ 18)) by (destruct (o_tag o); lia). by rewrite andb_false_r.
  - apply Z.ltb_ge. destruct (o_tag o); lia.
Qed.

Lemma get_header_encapsulate o gtp slack : outer_ok o -> bytes_ok gtp -> 8 <= blen gtp ->
  Z.shiftr (octet gtp 0) 4 = GTP_V1_TYPEVER -> blen (encapsulate o gtp) < 2 ^ 32 ->
  gtpv1_get_header (blen (encapsulate o gtp)) (encapsulate o gtp ++ slack)
    = Ok (Some (gtp_offset o)).
Proof.
  intros Ho Hb Hg Hv Hl. destruct (encapsulate_not_truncated o gtp Ho).
  rewrite get_header_ref by (done || by apply encapsulate_bytes).
  by rewrite ref_get_header_encapsulate.
Qed.
End encapsulation.

(** ** Properties *)

(** C25: on a capture of any length the code either computes the reference
    parser or reads outside the capture, and it does the latter exactly when
    the capture ends inside an 802.1Q tag or carries an IPv4 length field
    pointing past its end: there the unsigned subtraction of the bounds check
    wraps. *)
Theorem gtpv1_get_header_exact (pkt : list Z) :
  bytes_ok pkt -> blen pkt < 2 ^ 32 ->
  gtpv1_get_header (blen pkt) pkt =
    if truncated_tag pkt || truncated_ip pkt
    then Fault OutOfBounds else Ok (ref_get_header pkt).
Proof.
  intros Hb Hl. destruct (truncated_tag pkt) eqn:Et; [by apply get_header_faults; auto|].
  destruct (truncated_ip pkt) eqn:Ei; [by apply get_header_faults; auto|].
  cbn. rewrite <- (app_nil_r pkt) at 2. by apply get_header_ref.
Qed.

(** A capture of at least 78 octets is always handled inside its bounds,
    and a header found in it lies inside the capture. *)
Theorem gtpv1_get_header_safe (pkt : list Z) :
  bytes_ok pkt -> 78 <= blen pkt < 2 ^ 32 ->
  exists o, gtpv1_get_header (blen pkt) pkt = Ok o /\
    forall g, o = Some g -> 22 <= g <= 86 /\ g + 8 <= blen pkt.
Proof.
  intros Hb Hl. exists (ref_get_header pkt).
  destruct (long_capture_not_truncated pkt Hb) as [Ht Hi]; [lia|]. split.
  - rewrite <- (app_nil_r pkt) at 2. apply get_header_ref; done || lia.
  - intros g Hg. by apply ref_get_header_Some.
Qed.

(** C26: every GTP V1 message carried in UDP on a GTP port, tagged or not, with
    any IPv4 options, is found at its offset. *)
Theorem gtpv1_get_header_finds (o : outer) (gtp : list Z) :
  outer_ok o -> bytes_ok gtp -> 8 <= blen gtp ->
  Z.shiftr (octet gtp 0) 4 = GTP_V1_TYPEVER -> blen (encapsulate o gtp) < 2 ^ 32 ->
  gtpv1_get_header (blen (encapsulate o gtp)) (encapsulate o gtp) = Ok (Some (gtp_offset o)).
Proof.
  intros. rewrite <- (app_nil_r (encapsulate o gtp)) at 2. by apply get_header_encapsulate.
Qed.

(** ** Witnesses *)

(** A tagged frame cut after its fourteenth octet. *)
Definition cut_tagged_frame : list Z := replicate 12 1 ++ [129; 0].

(** A tagged outer packet on the GTP-U port, and a GTP message with the
    sequence number flag set. *)
Definition sample_outer : outer :=
  Outer (replicate 12 1) (Some [0; 5]) 5 (replicate 8 0) (replicate 10 9) 2152 40000
    (replicate 4 0).
Definition sample_gtp : list Z := [50; 255; 0; 24; 0; 0; 0; 7; 0; 1; 0; 0] ++ replicate 20 69.

Lemma sample_outer_ok : outer_ok sample_outer.
Proof.
  split; try (split; [reflexivity | bytes_tac]); try (cbn; lia); try reflexivity.
  intros t [= <-]. split; [reflexivity | bytes_tac].
Qed.

Lemma sample_gtp_bytes : bytes_ok sample_gtp.
Proof. bytes_tac. Qed.

Lemma gtpv1_get_header_exact_witness :
  gtpv1_get_header (blen cut_tagged_frame) cut_tagged_frame = Fault OutOfBounds.
Proof.
  pose proof (gtpv1_get_header_exact cut_tagged_frame) as H.
  apply H; [bytes_tac | reflexivity].
Defined.

Lemma gtpv1_get_header_safe_witness :
  exists o, gtpv1_get_header (blen (encapsulate sample_outer sample_gtp))
              (encapsulate sample_outer sample_gtp) = Ok o /\
    forall g, o = Some g -> 22 <= g <= 86 /\ g + 8 <= blen (encapsulate sample_outer sample_gtp).
Proof.
  apply (gtpv1_get_header_safe (encapsulate sample_outer sample_gtp));
    [apply encapsulate_bytes; [apply sample_outer_ok | apply sample_gtp_bytes]
    | z_compute].
Defined.

Lemma gtpv1_get_header_finds_witness :
  gtpv1_get_header (blen (encapsulate sample_outer sample_gtp))
    (encapsulate sample_outer sample_gtp) = Ok (Some 46).
Proof.
  apply (gtpv1_get_header_finds sample_outer sample_gtp);
    [apply sample_outer_ok | apply sample_gtp_bytes | z_compute
    | reflexivity | reflexivity].
Defined.
