(* ===== verification/Text.v ===== *)
(** * C strings and number formatting

    What the programs use of the C library on text: [strlen] on a character
    array, [strstr]/[strcmp], [atoi]/[atol], and the [printf] conversions [%d],
    [%x], [%lu] and [%06lu]. *)
From S2P Require Import Prelude.

(** ** Character arrays *)

Definition NUL : ascii := Ascii.zero.

(** [strlen] of the array [buf]: it reads past the end when no NUL is there. *)
Fixpoint strlen (buf : list ascii) : res nat :=
  match buf with
  | [] => Fault OutOfBounds
  | c :: r => if bool_decide (c = NUL) then Ok O else n ← strlen r; mret (S n)
  end.

(** The string an array holds. *)
Fixpoint cstring (buf : list ascii) : list ascii :=
  match buf with
  | [] => []
  | c :: r => if bool_decide (c = NUL) then [] else c :: cstring r
  end.

(** [a[i]] and [a[i] = c] on an array. *)
Definition get_char (buf : list ascii) (i : nat) : res ascii :=
  match buf !! i with Some c => Ok c | None => Fault OutOfBounds end.
Definition set_char (buf : list ascii) (i : nat) (c : ascii) : res (list ascii) :=
  if bool_decide (i < length buf)%nat then Ok (<[i := c]> buf) else Fault OutOfBounds.

Lemma set_char_length buf i c buf' : set_char buf i c = Ok buf' -> length buf' = length buf.
Proof. unfold set_char. case_bool_decide; [|done]. intros [= <-]. apply length_insert. Qed.

Lemma strlen_app s rest : NUL ∉ s -> strlen (s ++ NUL :: rest) = Ok (length s).
Proof.
  induction s as [|c s IH]; intros H; [done|]. cbn.
  rewrite bool_decide_eq_false_2 by set_solver. rewrite IH by set_solver. done.
Qed.

Lemma cstring_app s rest : NUL ∉ s -> cstring (s ++ NUL :: rest) = s.
Proof.
  induction s as [|c s IH]; intros H; [done|]. cbn.
  rewrite bool_decide_eq_false_2 by set_solver. rewrite IH by set_solver. done.
Qed.

(** An array in which a string ends. *)
Lemma cstring_split buf : (length (cstring buf) < length buf)%nat ->
  NUL ∉ cstring buf /\ exists rest, buf = cstring buf ++ NUL :: rest.
Proof.
  induction buf as [|c r IH]; cbn; [lia|]. case_bool_decide as Hc.
  - intros _. split; [apply not_elem_of_nil|]. exists r. by rewrite Hc.
  - cbn. intros Hl. destruct IH as [Hn [rest Hr]]; [lia|]. split.
    + apply not_elem_of_cons. split; [by intros <-|done].
    + exists rest. by rewrite Hr at 1.
Qed.

(** ** Formatting *)

(** [%d] and [%lu] of an integer. *)
Definition fmt_d (z : Z) : string := pretty z.

Definition hex_char (d : Z) : ascii :=
  Ascii.ascii_of_N (Z.to_N (if d <? 10 then 48 + d else 87 + d)).

Fixpoint hex_digits (fuel : nat) (z : Z) (acc : string) : string :=
  match fuel with
  | O => acc
  | S fuel =>
      let acc := String (hex_char (z mod 16)) acc in
      if z / 16 =? 0 then acc else hex_digits fuel (z / 16) acc
  end.

(** [%x] of an [unsigned int]: at most eight digits. *)
Definition fmt_x (z : Z) : string := hex_digits 8 (u32 z) "".

(** [%0<w>lu]: zeros on the left up to width [w]. *)
Definition pad0 (w : nat) (s : string) : string :=
  Nat.iter (w - String.length s) (String "0") s.
Definition fmt_06lu (z : Z) : string := pad0 6 (pretty z).

(** ** Numbers in text *)

Definition digit_val (c : ascii) : option Z :=
  let n := Z.of_N (Ascii.N_of_ascii c) in
  if (48 <=? n) && (n <=? 57) then Some (n - 48) else None.

Fixpoint dec_value (acc : Z) (s : string) : Z :=
  match s with
  | String c r => match digit_val c with Some d => dec_value (acc * 10 + d) r | None => acc end
  | EmptyString => acc
  end.

Definition is_space (c : ascii) : bool :=
  let n := Ascii.N_of_ascii c in ((9 <=? n)%N && (n <=? 13)%N) || (n =? 32)%N.

Fixpoint skip_space (s : string) : string :=
  match s with
  | String c r => if is_space c then skip_space r else s
  | EmptyString => s
  end.

Definition clamp64 (z : Z) : Z := Z.max (- 2 ^ 63) (Z.min (2 ^ 63 - 1) z).

(** [atol]: blanks, an optional sign, digits; [strtol] clamps to [long]. *)
Definition atol (s : string) : Z :=
  match skip_space s with
  | String "-" r => clamp64 (- dec_value 0 r)
  | String "+" r => clamp64 (dec_value 0 r)
  | r => clamp64 (dec_value 0 r)
  end.

(** [atoi]: the low 32 bits of [strtol]. *)
Definition atoi (s : string) : Z := s32 (atol s).

(** ** Searching *)

(** [strstr]: the suffix of [s] from the first occurrence of [p]. *)
Fixpoint strstr (s p : string) : option string :=
  if String.prefix p s then Some s else
  match s with
  | String _ r => strstr r p
  | EmptyString => None
  end.

(** ** Facts *)

Lemma string_app_length (s t : string) :
  String.length (s +:+ t) = (String.length s + String.length t)%nat.
Proof. induction s as [|a s IH]; [done|]. simpl. by rewrite IH. Qed.

Lemma digit_val_char (d : N) : (d < 10)%N ->
  digit_val (pretty_N_char d) = Some (Z.of_N d).
Proof.
  intros. assert (d = 0 \/ d = 1 \/ d = 2 \/ d = 3 \/ d = 4 \/ d = 5 \/ d = 6 \/ d = 7
    \/ d = 8 \/ d = 9)%N by lia. by destruct_or?; subst.
Qed.

(** Reading back what [%lu] printed. *)
Lemma dec_value_pretty_go (n : N) : exists k : Z, forall acc s,
  dec_value acc (pretty_N_go n s) = dec_value (acc * k + Z.of_N n) s.
Proof.
  induction (N.lt_wf_0 n) as [n _ IH].
  destruct (decide (n = 0%N)) as [->|Hn].
  { exists 1. intros. rewrite pretty_N_go_0. f_equal. lia. }
  destruct (IH (n `div` 10)%N) as [k Hk]; [apply N.div_lt; lia|].
  exists (k * 10). intros acc s. rewrite pretty_N_go_step, Hk by lia. cbn.
  rewrite digit_val_char by (apply N.mod_lt; lia). f_equal.
  pose proof (N.div_mod' n 10). lia.
Qed.

Lemma dec_value_pretty (n : Z) : 0 <= n -> dec_value 0 (pretty n) = n.
Proof.
  intros Hn. destruct n as [|p|p]; [done| |lia].
  change (pretty (Z.pos p)) with (pretty_N_go (N.pos p) "").
  destruct (dec_value_pretty_go (N.pos p)) as [k Hk]. rewrite Hk. done.
Qed.

Lemma dec_value_pad0 w s : dec_value 0 (pad0 w s) = dec_value 0 s.
Proof. unfold pad0. induction (w - String.length s)%nat as [|n IH]; [done|exact IH]. Qed.

Lemma dec_value_06lu n : 0 <= n -> dec_value 0 (fmt_06lu n) = n.
Proof. intros. unfold fmt_06lu. rewrite dec_value_pad0. by apply dec_value_pretty. Qed.

(** Two numbers are never printed alike. *)
Lemma fmt_06lu_inj m n : 0 <= m -> 0 <= n -> fmt_06lu m = fmt_06lu n -> m = n.
Proof. intros Hm Hn H. by rewrite <- (dec_value_06lu m Hm), H, dec_value_06lu. Qed.


(** ** Concatenation *)

Lemma str_app_assoc (s t u : string) : (s +:+ t) +:+ u = s +:+ t +:+ u.
Proof. induction s as [|a s IH]; [done|exact (f_equal (String a) IH)]. Qed.

Lemma str_app_nil_r (s : string) : s +:+ "" = s.
Proof. induction s as [|a s IH]; [done|exact (f_equal (String a) IH)]. Qed.

Lemma str_app_nil_l (s : string) : "" +:+ s = s.
Proof. done. Qed.

Create Rewrite HintDb str.
#[export] Hint Rewrite str_app_assoc str_app_nil_r str_app_nil_l : str.

Lemma str_app_inj_l (s t u : string) : s +:+ t = s +:+ u -> t = u.
Proof. induction s as [|a s IH]; [done|]. intros [= H]. by apply IH. Qed.

Lemma str_app_inj_r (s t u : string) : s +:+ u = t +:+ u -> s = t.
Proof.
  revert t. induction s as [|a s IH]; intros [|b t] H; [done| | |].
  - apply (f_equal String.length) in H. rewrite !string_app_length in H. simpl in H. lia.
  - apply (f_equal String.length) in H. rewrite !string_app_length in H. simpl in H. lia.
  - injection H as -> H. by rewrite (IH t).
Qed.

Lemma atol_upper s : atol s < 2 ^ 63.
Proof.
  unfold atol, clamp64. repeat case_match; lia.
Qed.

(** ** Strings in arrays *)

Definition chars (s : string) : list ascii := String.list_ascii_of_string s.

(** [strcpy] and [sprintf] into an array from position [off] on: the characters
    and the NUL have to fit. *)
Definition store_string (buf : list ascii) (off : nat) (s : list ascii) : res (list ascii) :=
  if bool_decide (off + length s + 1 <= length buf)%nat
  then Ok (take off buf ++ s ++ NUL :: drop (off + length s + 1) buf)
  else Fault BufferOverflow.
Arguments store_string : simpl never.

Lemma store_string_ok buf off s : (off + length s + 1 <= length buf)%nat ->
  store_string buf off s = Ok (take off buf ++ s ++ NUL :: drop (off + length s + 1) buf).
Proof. intros. unfold store_string. by rewrite bool_decide_eq_true_2. Qed.

Lemma store_string_length buf off s buf' : store_string buf off s = Ok buf' ->
  length buf' = length buf.
Proof.
  unfold store_string. case_bool_decide; [|done]. intros [= <-].
  rewrite !length_app, length_cons, length_take, length_drop. lia.
Qed.

(** What lies before the stored string stays. *)
Lemma store_string_before buf off s buf' n : store_string buf off s = Ok buf' ->
  (n <= off)%nat -> take n buf' = take n buf.
Proof.
  unfold store_string. case_bool_decide; [|done]. intros [= <-] Hn.
  rewrite take_app_le by (rewrite length_take; lia). rewrite take_take. f_equal. lia.
Qed.

(** What is read back where a string was stored. *)
Lemma store_string_at buf off s buf' : store_string buf off s = Ok buf' ->
  drop off buf' = s ++ NUL :: drop (off + length s + 1) buf.
Proof.
  unfold store_string. case_bool_decide; [|done]. intros [= <-].
  rewrite drop_app_le by (rewrite length_take; lia).
  rewrite drop_ge by (rewrite length_take; lia). done.
Qed.

Lemma chars_app s t : chars (s +:+ t) = chars s ++ chars t.
Proof. induction s as [|a s IH]; [done|]. exact (f_equal (cons a) IH). Qed.

Lemma chars_length s : length (chars s) = String.length s.
Proof. induction s as [|a s IH]; [done|]. exact (f_equal S IH). Qed.

(** A printed number holds no NUL. *)
Lemma pretty_go_no_nul (n : N) : forall s, NUL ∉ chars s -> NUL ∉ chars (pretty_N_go n s).
Proof.
  induction (N.lt_wf_0 n) as [n _ IH]; intros s Hs.
  destruct (decide (n = 0%N)) as [->|Hn]; [by rewrite pretty_N_go_0|].
  rewrite pretty_N_go_step by lia. apply IH; [apply N.div_lt; lia|].
  change (chars (String ?c s)) with (c :: chars s). rewrite not_elem_of_cons. split; [|done].
  pose proof (digit_val_char (n `mod` 10)%N ltac:(apply N.mod_lt; lia)) as H.
  intros Hc. by rewrite <- Hc in H.
Qed.

Lemma fmt_d_no_nul z : 0 <= z -> NUL ∉ chars (fmt_d z).
Proof.
  intros Hz. destruct z as [|p|p]; [|by apply pretty_go_no_nul; set_solver|lia].
  change (chars (fmt_d 0)) with ["0"%char]. set_unfold. naive_solver discriminate.
Qed.

Create Rewrite HintDb commas.

(** ** Comma separated fields

    The field at the end of a text is the one after as many fields as the text
    has commas. *)
Fixpoint commas (s : string) : nat :=
  match s with
  | EmptyString => O
  | String c r => (if bool_decide (c = ","%char) then 1 else 0) + commas r
  end%nat.

Lemma commas_app s t : commas (s +:+ t) = (commas s + commas t)%nat.
Proof.
  induction s as [|c s IH]; [done|]. change (String c s +:+ t) with (String c (s +:+ t)).
  cbn [commas]. rewrite IH. lia.
Qed.

(** Numbers have none. *)
Lemma commas_pretty_go (n : N) : forall s, commas (pretty_N_go n s) = commas s.
Proof.
  induction (N.lt_wf_0 n) as [n _ IH]; intros s.
  destruct (decide (n = 0%N)) as [->|Hn]; [by rewrite pretty_N_go_0|].
  rewrite pretty_N_go_step by lia. rewrite IH by (apply N.div_lt; lia). cbn [commas].
  rewrite bool_decide_eq_false_2; [done|]. intros Hc.
  pose proof (digit_val_char (n `mod` 10)%N ltac:(apply N.mod_lt; lia)) as H. by rewrite Hc in H.
Qed.

Lemma commas_fmt_d z : commas (fmt_d z) = O.
Proof.
  destruct z as [|p|p]; [done|exact (commas_pretty_go (N.pos p) "")|].
  change (fmt_d (Z.neg p)) with ("-" +:+ pretty_N_go (N.pos p) ""). rewrite commas_app.
  by rewrite commas_pretty_go.
Qed.

Lemma commas_hex_char d : 0 <= d < 16 -> hex_char d <> ","%char.
Proof.
  intros H. assert (Hd : Z.to_nat d ∈ seq 0 16) by (apply elem_of_seq; lia).
  rewrite <- (Z2Nat.id d) by lia. revert Hd. generalize (Z.to_nat d) as n. apply Forall_forall.
  refine (bool_decide_eq_true_1 _ _). vm_compute. reflexivity.
Qed.

Lemma commas_hex_digits fuel : forall z acc, commas (hex_digits fuel z acc) = commas acc.
Proof.
  induction fuel as [|fuel IH]; intros z acc; [done|]. cbn [hex_digits].
  assert (Hc : commas (String (hex_char (z mod 16)) acc) = commas acc).
  { cbn [commas]. rewrite bool_decide_eq_false_2; [done|]. apply commas_hex_char, Z.mod_pos_bound. lia. }
  destruct (_ =? 0); [done|]. by rewrite IH.
Qed.

Lemma commas_fmt_x z : commas (fmt_x z) = O.
Proof. apply commas_hex_digits. Qed.

Lemma commas_pad0 w s : commas (pad0 w s) = commas s.
Proof. unfold pad0. by induction (w - String.length s)%nat as [|n IH]. Qed.

#[export] Hint Rewrite commas_app commas_fmt_d commas_fmt_x commas_pad0 : commas.
