(* ===== verification/Signals.v ===== *)
(** * Signals of the main programs

    [register_signals_with_shutdown] of [filterprograms/pcapmerger.cpp] and
    [pcapdistributer.cpp]: two signals are blocked for the calling thread and those
    it creates later, the handler is set for others.  The two functions differ in
    [SIGSEGV], which only the distributer handles.
    What a signal does to a process is as POSIX has it; the numbers are those of
    Linux. *)
From S2P Require Import Prelude.

Definition SIGINT : Z := 2.
Definition SIGQUIT : Z := 3.
Definition SIGABRT : Z := 6.
Definition SIGSEGV : Z := 11.
Definition SIGPIPE : Z := 13.
Definition SIGALRM : Z := 14.
Definition SIGTERM : Z := 15.
Definition SIGSTKFLT : Z := 16.

Section signals.
Context {handler : Type}.

(** The signals a thread blocks, and the handlers the process has set. *)
Record signals := Signals { blocked : gset Z; handlers : gmap Z handler }.

Definition pthread_sigmask_block (sigs : gset Z) (s : signals) : signals :=
  Signals (sigs ∪ blocked s) (handlers s).
Definition signal (sig : Z) (h : handler) (s : signals) : signals :=
  Signals (blocked s) (<[sig := h]> (handlers s)).

(** [distributer] is which program, [linux] whether [__linux__] is defined. *)
Definition register_signals_with_shutdown (distributer linux : bool) (h : handler) (s : signals) : signals :=
  let sigs : gset Z := ∅ in
  let sigs := {[SIGALRM]} ∪ sigs in
  let sigs := {[SIGPIPE]} ∪ sigs in
  let s := pthread_sigmask_block sigs s in
  let s := signal SIGABRT h s in
  let s := signal SIGTERM h s in
  let s := signal SIGINT h s in
  let s := signal SIGQUIT h s in
  let s := if distributer then signal SIGSEGV h s else s in
  if linux then signal SIGSTKFLT h s else s.

(** What a signal to a thread does. *)
Inductive effect := Pending | Handled (h : handler) | DefaultAction.

Definition deliver (sig : Z) (s : signals) : effect :=
  if decide (sig ∈ blocked s) then Pending
  else match handlers s !! sig with Some h => Handled h | None => DefaultAction end.

Definition shutdown_signals (distributer linux : bool) : list Z :=
  [SIGABRT; SIGTERM; SIGINT; SIGQUIT] ++ (if distributer then [SIGSEGV] else []) ++
  (if linux then [SIGSTKFLT] else []).

(** After the registration a broken connection and an alarm are left pending, the
    shutdown signals run the handler, and all others do what they did. *)
Theorem signals_registered (distributer linux : bool) (h : handler) (s : signals) (sig : Z) :
  deliver sig (register_signals_with_shutdown distributer linux h s) =
    if decide (sig = SIGPIPE \/ sig = SIGALRM \/ sig ∈ blocked s) then Pending
    else if decide (sig ∈ shutdown_signals distributer linux) then Handled h
    else deliver sig s.
Proof.
  unfold deliver. set (s' := register_signals_with_shutdown distributer linux h s).
  assert (Hb : blocked s' = {[SIGPIPE]} ∪ ({[SIGALRM]} ∪ ∅) ∪ blocked s) by (by destruct distributer, linux).
  assert (Hh : handlers s' !! sig = if decide (sig ∈ shutdown_signals distributer linux) then Some h else handlers s !! sig).
  { unfold s', shutdown_signals. destruct distributer, linux; cbn; rewrite !lookup_insert; repeat case_decide; set_solver. }
  rewrite Hb, Hh. repeat case_decide; set_solver.
Qed.
End signals.
