(* ===== verification/Logger.v ===== *)
(** * Logging

    [logger.h], the wrapper of [syslog] that all modules call.  The calls
    themselves are left out of the modules' models; this is what one call does
    with its format and its arrays.  The time and the arrays' initial contents
    are arguments. *)
From S2P Require Import Prelude Text.

Definition MAX_MESSAGE_HEADER_SIZE : Z := 256.
Definition MAX_MESSAGE_BODY_SIZE : Z := 65536.
Definition LOG_NOTICE : Z := 5.
Definition LOG_LOCAL2 : Z := 144.

(** ** [vsprintf], with the conversions the messages use *)

Inductive arg := ArgD (z : Z) | ArgS (s : string).

(** A conversion takes the next argument. *)
Fixpoint vsprintf (format : string) (args : list arg) : res string :=
  match format with
  | EmptyString => Ok ""
  | String c r =>
      if bool_decide (c = "%"%char) then
        match r, args with
        | String c2 r2, a :: args =>
            converted ← (if bool_decide (c2 = "d"%char)
                         then match a with ArgD z => Ok (fmt_d z) | _ => Fault OutOfBounds end
                         else if bool_decide (c2 = "s"%char)
                         then match a with ArgS s => Ok s | _ => Fault OutOfBounds end
                         else Fault OutOfBounds);
            t ← vsprintf r2 args; Ok (converted +:+ t)
        | _, _ => Fault OutOfBounds
        end
      else t ← vsprintf r args; Ok (String c t)
  end.

(** ** The calls *)

(** [init_logger] on the file's [init_done]: its new value, and the program
    name [openlog] is called with, if it is. *)
Definition init_logger (init_done : Z) (prog_name : string) : Z * option string :=
  if init_done =? 0 then (init_done + 1, Some prog_name) else (init_done, None).

(** What [localtime] and [gettimeofday] answer. *)
Record wall_clock := Wall { tm_hour : Z; tm_min : Z; tm_sec : Z; tv_usec : Z }.

(** ["%02d:%02d:%02d.%03d"] *)
Definition time_text (t : wall_clock) : string :=
  pad0 2 (fmt_d (tm_hour t)) +:+ ":" +:+ pad0 2 (fmt_d (tm_min t)) +:+ ":" +:+
  pad0 2 (fmt_d (tm_sec t)) +:+ "." +:+ pad0 3 (fmt_d (Z.quot (tv_usec t) 1000)).

Definition array_text (buf : list ascii) : string := String.string_of_list_ascii (cstring buf).

(** [write_to_syslog]: the calls of [syslog], with the priority and the text. *)
Definition write_to_syslog (t : wall_clock) (header body time_arr : list ascii)
    (message : string) (arguments : list arg) : res (list (Z * string)) :=
  time_arr ← store_string time_arr 0 (chars (time_text t));
  header ← store_string header 0
    (chars ("eniq> " +:+ array_text time_arr +:+ " ? " +:+ fmt_d LOG_NOTICE +:+ ":"));
  let header := replicate (Z.to_nat MAX_MESSAGE_HEADER_SIZE) NUL in
  let body := replicate (length body) NUL in
  if Z.of_nat (String.length message) <? MAX_MESSAGE_BODY_SIZE then
    text ← vsprintf message arguments;
    body ← store_string body 0 (chars text);
    Ok [(Z.lor LOG_NOTICE LOG_LOCAL2, array_text header +:+ " " +:+ array_text body)]
  else Ok [].

(** ** Lengths *)

Definition arg_length (a : arg) : nat :=
  match a with ArgD z => String.length (fmt_d z) | ArgS s => String.length s end.

(** The text is no longer than the format and the arguments together. *)
Lemma vsprintf_length_upto n : forall format args text, (String.length format <= n)%nat ->
  vsprintf format args = Ok text ->
  (String.length text <= String.length format + sum_list_with arg_length args)%nat.
Proof.
  induction n as [|n IH]; intros [|c r] args text Hn; cbn [vsprintf String.length] in *;
    try (intros [= <-]; cbn; lia); try lia.
  case_bool_decide.
  - destruct r as [|c2 r2], args as [|a args]; try done. intros Ht.
    apply res_bind_Ok in Ht as (converted & Hc & Ht). apply res_bind_Ok in Ht as (t & Ht & Heq).
    injection Heq as <-. cbn [String.length] in Hn. apply IH in Ht; [|lia].
    assert (Hlen : String.length converted = arg_length a).
    { repeat case_bool_decide; destruct a; try done; by injection Hc as <-. }
    rewrite string_app_length. cbn. lia.
  - intros Ht. apply res_bind_Ok in Ht as (t & Ht & Heq). injection Heq as <-.
    apply IH in Ht; [cbn; lia|lia].
Qed.

Lemma vsprintf_length format args text : vsprintf format args = Ok text ->
  (String.length text <= String.length format + sum_list_with arg_length args)%nat.
Proof. by eapply vsprintf_length_upto. Qed.

(** A clock as the C library gives it. *)
Record wall_ok (t : wall_clock) : Prop := {
  wall_hour : 0 <= tm_hour t < 24;
  wall_min : 0 <= tm_min t < 60;
  wall_sec : 0 <= tm_sec t <= 60;
  wall_usec : 0 <= tv_usec t < 1000000 }.

Definition padded_ok (n : nat) (z : Z) : bool :=
  (String.length (pad0 n (fmt_d z)) =? n)%nat && bool_decide (NUL ∉ chars (pad0 n (fmt_d z))).

Lemma padded n m z : forallb (fun k => padded_ok n (Z.of_nat k)) (seq 0 m) = true ->
  0 <= z < Z.of_nat m -> String.length (pad0 n (fmt_d z)) = n /\ NUL ∉ chars (pad0 n (fmt_d z)).
Proof.
  intros Hall Hz. rewrite forallb_forall in Hall.
  specialize (Hall (Z.to_nat z)). rewrite Z2Nat.id in Hall by lia.
  assert (Hin : In (Z.to_nat z) (seq 0 m)) by (apply in_seq; lia).
  specialize (Hall Hin). apply andb_prop in Hall as [H1 H2]. apply Nat.eqb_eq in H1.
  by apply bool_decide_eq_true in H2.
Qed.

Lemma padded_2 z : 0 <= z < 100 -> String.length (pad0 2 (fmt_d z)) = 2%nat /\ NUL ∉ chars (pad0 2 (fmt_d z)).
Proof. apply (padded 2 100). vm_compute. reflexivity. Qed.

Lemma padded_3 z : 0 <= z < 1000 -> String.length (pad0 3 (fmt_d z)) = 3%nat /\ NUL ∉ chars (pad0 3 (fmt_d z)).
Proof. apply (padded 3 1000). vm_compute. reflexivity. Qed.

(** The time takes twelve of the sixteen characters. *)
Lemma time_text_fits t : wall_ok t ->
  length (chars (time_text t)) = 12%nat /\ NUL ∉ chars (time_text t).
Proof.
  intros [Hh Hm Hs Hu].
  destruct (padded_2 (tm_hour t) ltac:(lia)) as [Lh Nh]. destruct (padded_2 (tm_min t) ltac:(lia)) as [Lm Nm].
  destruct (padded_2 (tm_sec t) ltac:(lia)) as [Ls Ns].
  destruct (padded_3 (Z.quot (tv_usec t) 1000)) as [Lu Nu].
  { split; [apply Z.quot_pos; lia|apply Z.quot_lt_upper_bound; lia]. }
  split.
  - rewrite chars_length. unfold time_text. rewrite !string_app_length, Lh, Lm, Ls, Lu. done.
  - unfold time_text. rewrite !chars_app. set_unfold. naive_solver discriminate.
Qed.

Lemma array_text_stored buf s buf' : store_string buf 0 (chars s) = Ok buf' -> NUL ∉ chars s ->
  array_text buf' = s.
Proof.
  intros Hst Hn. apply store_string_at in Hst. unfold array_text. rewrite drop_0 in Hst.
  rewrite Hst, cstring_app by done. apply String.string_of_list_ascii_of_string.
Qed.

(** ** Properties *)

(** C40: one call logs its text and nothing else.  With a sane clock the time
    and the header fit their arrays, but the header is cleared before it is
    used: a message whose format and text fit the body reaches [syslog] behind
    a single blank, without program name and time.  A format as long as the body
    is dropped, a longer text overruns the body; neither happens when the format
    and its arguments together are shorter than the body. *)
Theorem write_to_syslog_logs (t : wall_clock) (header body time_arr : list ascii)
    (message : string) (arguments : list arg) (text : string) :
  wall_ok t -> length time_arr = 16%nat -> blen header = MAX_MESSAGE_HEADER_SIZE ->
  blen body = MAX_MESSAGE_BODY_SIZE -> vsprintf message arguments = Ok text -> NUL ∉ chars text ->
  write_to_syslog t header body time_arr message arguments =
    (if MAX_MESSAGE_BODY_SIZE <=? Z.of_nat (String.length message) then Ok []
     else if MAX_MESSAGE_BODY_SIZE <=? Z.of_nat (String.length text) then Fault BufferOverflow
     else Ok [(149, String " " text)]) /\
  (Z.of_nat (String.length message + sum_list_with arg_length arguments) < MAX_MESSAGE_BODY_SIZE ->
   write_to_syslog t header body time_arr message arguments = Ok [(149, String " " text)]).
Proof.
  intros Ht Htime Hheader Hbody Htext Hn.
  assert (Hw : write_to_syslog t header body time_arr message arguments =
    if MAX_MESSAGE_BODY_SIZE <=? Z.of_nat (String.length message) then Ok []
    else if MAX_MESSAGE_BODY_SIZE <=? Z.of_nat (String.length text) then Fault BufferOverflow
    else Ok [(149, String " " text)]).
  - destruct (time_text_fits t Ht) as [Hlen Hnul]. unfold write_to_syslog, blen in *.
    destruct (store_string time_arr 0 (chars (time_text t))) as [time_arr'|] eqn:H1;
      [|rewrite store_string_ok in H1 by lia; done].
    cbn [mbind res_bind]. rewrite (array_text_stored _ _ _ H1 Hnul).
    destruct (store_string header 0 _) as [header'|] eqn:H2.
    2:{ rewrite store_string_ok in H2; [done|]. rewrite chars_length in *.
        rewrite !string_app_length, Hlen. unfold MAX_MESSAGE_HEADER_SIZE in Hheader.
        change (String.length (fmt_d LOG_NOTICE)) with 1%nat. cbn. lia. }
    cbn [mbind res_bind]. rewrite Z.ltb_antisym.
    destruct (MAX_MESSAGE_BODY_SIZE <=? Z.of_nat (String.length message)); [done|]. cbn [negb].
    rewrite Htext. cbn [mbind res_bind].
    assert (Hhead : array_text (replicate (Z.to_nat MAX_MESSAGE_HEADER_SIZE) NUL) = "") by (vm_compute; reflexivity).
    destruct (Z.leb_spec MAX_MESSAGE_BODY_SIZE (Z.of_nat (String.length text))) as [Hl|Hl].
    + unfold store_string. rewrite bool_decide_eq_false_2; [done|].
      rewrite length_replicate, chars_length. lia.
    + destruct (store_string (replicate (length body) NUL) 0 (chars text)) as [body'|] eqn:H4.
      * cbn [mbind res_bind]. by rewrite (array_text_stored _ _ _ H4 Hn), Hhead.
      * rewrite store_string_ok in H4; [done|]. rewrite length_replicate, chars_length. lia.
  - split; [done|]. intros Hfit. rewrite Hw. pose proof (vsprintf_length _ _ _ Htext).
    rewrite !(proj2 (Z.leb_gt _ _)) by lia. done.
Qed.

(** The message of a session that was stopped. *)
Definition newline : string := String "010" "".
Definition stopped_message : string := "server session stopped: %d-%s" +:+ newline.

Lemma write_to_syslog_logs_witness :
  let t := Wall 9 5 7 123456 in
  let array n := replicate (Z.to_nat n) "x"%char in
  write_to_syslog t (array 256) (array 65536) (array 16) stopped_message [ArgD 3; ArgS "0.0.0.0:9000"]
  = Ok [(149, " server session stopped: 3-0.0.0.0:9000" +:+ newline)].
Proof.
  intros t array.
  refine (proj2 (write_to_syslog_logs t (array 256) (array 65536) (array 16) stopped_message
    [ArgD 3; ArgS "0.0.0.0:9000"] ("server session stopped: 3-0.0.0.0:9000" +:+ newline) _ _ _ _ _ _) _).
  - split; cbn; lia.
  - reflexivity.
  - vm_compute. reflexivity.
  - unfold blen, array. rewrite length_replicate. reflexivity.
  - vm_compute. reflexivity.
  - apply (bool_decide_eq_true_1 (NUL ∉ _)). vm_compute. reflexivity.
  - vm_compute. reflexivity.
Defined.
