(* ===== verification/GenUtils.v ===== *)
(** * [utilities/genutils.c]: stripping a character in place

    [strip_char_from_string] compacts a NUL-terminated array in place, reading
    at [i] and writing at [j <= i].  The reference is [filter] on the string
    the array holds. *)
From S2P Require Import Prelude Text.

(** The [for] loop: [i < strlen(string)] is evaluated again on every turn.  The
    outer [option] is [None] only when the fuel runs out. *)
Fixpoint strip_loop (fuel : nat) (strip_char : ascii) (string : list ascii) (i j : nat)
    : option (res (list ascii * nat)) :=
  match fuel with
  | O => None
  | S fuel =>
      match strlen string with
      | Fault f => Some (Fault f)
      | Ok n =>
          if bool_decide (i < n)%nat then
            match get_char string i with
            | Fault f => Some (Fault f)
            | Ok c =>
                if bool_decide (c <> strip_char) then
                  match set_char string j c with
                  | Fault f => Some (Fault f)
                  | Ok string => strip_loop fuel strip_char string (S i) (S j)
                  end
                else strip_loop fuel strip_char string (S i) j
            end
          else Some (Ok (string, j))
      end
  end.

Definition strip_char_from_string (string : list ascii) (strip_char : ascii)
    : option (res (list ascii)) :=
  r ← strip_loop (S (length string)) strip_char string 0 0;
  Some ('(string, j) ← r; set_char string j NUL).

Section strip.
Context (c : ascii) (rest : list ascii).
Implicit Types (kept stale todo : list ascii).

(** The array during the loop: the kept characters, what compaction left
    behind, the characters still to visit, and the tail of the array. *)
Definition strip_state kept stale todo : list ascii :=
  kept ++ stale ++ todo ++ NUL :: rest.

Lemma strip_state_strlen kept stale todo :
  NUL ∉ kept ++ stale ++ todo ->
  strlen (strip_state kept stale todo) = Ok (length kept + length stale + length todo)%nat.
Proof.
  intros H. unfold strip_state. rewrite 2!(assoc_L (++)), strlen_app.
  - rewrite !length_app. done.
  - by rewrite <- (assoc_L (++)).
Qed.

Lemma strip_state_get kept stale a todo :
  get_char (strip_state kept stale (a :: todo)) (length kept + length stale) = Ok a.
Proof.
  unfold get_char, strip_state. rewrite (assoc_L (++)), lookup_app_r by (rewrite length_app; lia).
  rewrite length_app, Nat.sub_diag. done.
Qed.

(** Writing the visited character back extends the kept part; what it
    overwrites comes from the stale part, which gains that character. *)
Lemma strip_state_set kept stale a todo : exists stale',
  set_char (strip_state kept stale (a :: todo)) (length kept) a
    = Ok (strip_state (kept ++ [a]) stale' todo)
  /\ length stale' = length stale /\ (forall x, x ∈ stale' -> x = a \/ x ∈ stale).
Proof.
  unfold set_char, strip_state. rewrite bool_decide_eq_true_2 by (rewrite !length_app; cbn; lia).
  rewrite insert_app_r_alt, Nat.sub_diag by lia.
  destruct stale as [|b stale].
  - exists []. rewrite <- (assoc_L (++)). repeat split; set_solver.
  - exists (stale ++ [a]). rewrite <- !(assoc_L (++)). repeat split.
    + rewrite length_app. cbn. lia.
    + intros x. rewrite elem_of_app, elem_of_cons. set_solver.
Qed.

Lemma strip_loop_spec todo : forall kept stale fuel,
  NUL ∉ kept ++ stale ++ todo -> (length todo < fuel)%nat ->
  exists stale',
    strip_loop fuel c (strip_state kept stale todo) (length kept + length stale) (length kept)
      = Some (Ok (strip_state (kept ++ filter (.≠ c) todo) stale' [],
                  length (kept ++ filter (.≠ c) todo)))
    /\ (length (filter (.≠ c) todo) + length stale' = length stale + length todo)%nat.
Proof.
  induction todo as [|a todo IH]; intros kept stale [|fuel] Hn Hf; cbn in Hf; try lia.
  all: cbn [strip_loop]; rewrite strip_state_strlen by done.
  { rewrite bool_decide_eq_false_2 by (cbn; lia). exists stale.
    cbn. rewrite app_nil_r. split; [done|lia]. }
  rewrite bool_decide_eq_true_2 by (cbn; lia). rewrite strip_state_get.
  destruct (decide (a = c)) as [->|Hac].
  - rewrite bool_decide_eq_false_2 by auto. rewrite filter_cons_False by auto.
    destruct (IH kept (stale ++ [c]) fuel) as (st & Hst & Hl); [set_solver|lia|].
    exists st. rewrite length_app in Hl. cbn [length] in *. split; [|lia].
    rewrite <- Hst. unfold strip_state. rewrite length_app, <- !(assoc_L (++)). cbn.
    f_equal. lia.
  - rewrite bool_decide_eq_true_2 by done. rewrite filter_cons_True by done.
    destruct (strip_state_set kept stale a todo) as (st1 & -> & Hl1 & Hin).
    destruct (IH (kept ++ [a]) st1 fuel) as (st & Hst & Hl); [set_solver|lia|].
    exists st. rewrite <- (assoc_L (++)) in Hst. cbn [app length] in *. split; [|lia].
    rewrite <- Hst, length_app. cbn. f_equal; lia.
Qed.
End strip.

Lemma strip_char_from_string_spec (s rest : list ascii) (c : ascii) :
  NUL ∉ s ->
  exists out stale, strip_char_from_string (s ++ NUL :: rest) c = Some (Ok (out ++ stale ++ rest))
    /\ (length (out ++ stale) = S (length s))%nat
    /\ cstring (out ++ stale ++ rest) = filter (.≠ c) s.
Proof.
  intros Hs. unfold strip_char_from_string.
  destruct (strip_loop_spec c rest s [] [] (S (length (s ++ NUL :: rest)))) as (st & Hst & Hl).
  { done. } { rewrite length_app. lia. }
  unfold strip_state in Hst. cbn [app length Nat.add] in Hst. rewrite Hst. cbn.
  assert (Hn : NUL ∉ filter (.≠ c) s) by (intros H; by apply list_elem_of_filter in H as [_ ?]).
  unfold set_char. rewrite bool_decide_eq_true_2 by (rewrite !length_app; cbn; lia).
  rewrite insert_app_r_alt, Nat.sub_diag by lia.
  exists (filter (.≠ c) s ++ [NUL]). destruct st as [|b st]; cbn in *.
  - exists []. rewrite <- (assoc_L (++)), app_nil_r, length_app. cbn. split; [done|].
    split; [lia|]. by apply cstring_app.
  - exists (st ++ [NUL]). rewrite <- !(assoc_L (++)). cbn. split; [done|]. split.
    + rewrite !length_app. cbn. rewrite length_app. cbn. lia.
    + by apply cstring_app.
Qed.

(** Whatever the array holds, its length stays. *)
Lemma strip_loop_length fuel c : forall string i j out k,
  strip_loop fuel c string i j = Some (Ok (out, k)) -> length out = length string.
Proof.
  induction fuel as [|fuel IH]; intros string i j out k; [done|]. cbn [strip_loop].
  destruct (strlen string) as [n|]; [|done]. case_bool_decide; [|by intros [= <- _]].
  destruct (get_char string i) as [a|]; [|done]. case_bool_decide; [|apply IH].
  destruct (set_char string j a) as [string'|] eqn:Hs; [|done].
  intros Hr. apply IH in Hr. by rewrite Hr, (set_char_length _ _ _ _ Hs).
Qed.

Lemma strip_char_from_string_length string c out :
  strip_char_from_string string c = Some (Ok out) -> length out = length string.
Proof.
  unfold strip_char_from_string. destruct (strip_loop _ _ _ _ _) as [[[s j]|]|] eqn:Hr; [|done..].
  cbn. intros [= Hs]. apply set_char_length in Hs. by rewrite Hs, (strip_loop_length _ _ _ _ _ _ _ Hr).
Qed.

(** Stripping a character from any array that holds a string terminates
    inside the array, leaves its length and everything after the string alone,
    and the string it then holds is the old one without that character. *)
Theorem strip_char_from_string_filter (s rest : list ascii) (c : ascii) :
  NUL ∉ s ->
  exists out stale, strip_char_from_string (s ++ NUL :: rest) c = Some (Ok (out ++ stale ++ rest))
    /\ (length (out ++ stale) = S (length s))%nat
    /\ cstring (out ++ stale ++ rest) = filter (.≠ c) s.
Proof. apply strip_char_from_string_spec. Qed.

Lemma strip_char_from_string_filter_witness :
  exists out stale,
    strip_char_from_string (String.list_ascii_of_string "a\b\c" ++ [NUL; "x"%char])
      "\"%char = Some (Ok (out ++ stale ++ ["x"%char]))
    /\ (length (out ++ stale) = 6)%nat
    /\ cstring (out ++ stale ++ ["x"%char]) = String.list_ascii_of_string "abc".
Proof.
  apply (strip_char_from_string_filter (String.list_ascii_of_string "a\b\c") ["x"%char]
    "\"%char).
  intros H. apply (bool_decide_pack _) in H. vm_compute in H. exact H.
Defined.
