(* ===== verification/GtpFields.v ===== *)
(** * IMSI, TEID and End User Address fields

    The conversions of [gtpv1_imsi.h], [gtpv1_teid.h] and [gtpv1_eua.h].  The
    reference for an IMSI is its digit list, packed two to an octet with the
    first digit in the low half and a filler of 15 after an odd number. *)
From S2P Require Import Prelude Text GtpHeader.

Definition GTPV1_IMSI_LENGTH : Z := 8.
Definition GTPV1_TEID_LENGTH : Z := 4.
Definition GTPV1_EUA_NO_ADDRESS_LENGTH : Z := 2.
Definition GTPV1_EUA_IPV4_LENGTH : Z := 4.

(** ** The code *)

(** [sprintf(string, "%s%d", string, d)] on an array of [cap] characters.  The
    standard leaves a copy onto its own source undefined.  This is what glibc does
    with it, without the checks of [_FORTIFY_SOURCE], which the flags of
    [Makefile_common.mk] do not ask for: the text stays and the number is appended. *)
Definition sprintf_onto (cap : nat) (text : string) (d : Z) : res string :=
  let text := text +:+ fmt_d d in
  if bool_decide (String.length text < cap)%nat then Ok text else Fault BufferOverflow.

(** One turn of the loop of [imsi2str]. *)
Definition imsi2str_step (cap : nat) (text : string) (b : Z) : res string :=
  text ← sprintf_onto cap text (Z.land b 15);
  if Z.shiftr b 4 <? 10 then sprintf_onto cap text (Z.shiftr b 4) else mret text.

(** The loop over [n] more octets from [i] on. *)
Fixpoint imsi2str_loop (n : nat) (i : Z) (cap : nat) (imsi : list Z) (text : string) : res string :=
  match n with
  | O => mret text
  | S n =>
      b ← rd8 imsi i;
      text ← imsi2str_step cap text b;
      imsi2str_loop n (i + 1) cap imsi text
  end.

(** [imsi2str] of [imsip->imsi] into an array of [cap] characters, as its callers
    declare it. *)
Definition imsi2str (cap : nat) (imsi : list Z) : res string :=
  imsi2str_loop (Z.to_nat GTPV1_IMSI_LENGTH) 0 cap imsi "".

(** One turn of the loop of [imsi2longlong], in [unsigned long long]. *)
Definition imsi2longlong_step (acc : Z) (b : Z) : Z :=
  let acc := u64 (u64 (acc * 10) + Z.land b 15) in
  if Z.shiftr b 4 <? 10 then u64 (u64 (acc * 10) + Z.shiftr b 4) else acc.

Fixpoint imsi2longlong_loop (n : nat) (i : Z) (imsi : list Z) (imsilong : Z) : res Z :=
  match n with
  | O => mret imsilong
  | S n => b ← rd8 imsi i; imsi2longlong_loop n (i + 1) imsi (imsi2longlong_step imsilong b)
  end.

Definition imsi2longlong (imsi : list Z) : res Z :=
  imsi2longlong_loop (Z.to_nat GTPV1_IMSI_LENGTH) 0 imsi 0.

(** [struct gtpv1_imsi] and [struct gtpv1_teid] start with the element type,
    so their data is read from one octet past the element at [p]. *)
Definition read_imsi (data : list Z) (p : Z) : res (list Z) :=
  rd_bytes data (p + 1) GTPV1_IMSI_LENGTH.

(** [teid2uint]: shifts and sums of the four octets, in [unsigned int]. *)
Definition teid2uint (data : list Z) (p : Z) : res Z :=
  t0 ← rd8 data (p + 1); t1 ← rd8 data (p + 2);
  t2 ← rd8 data (p + 3); t3 ← rd8 data (p + 4);
  mret (u32 (Z.shiftl t0 24 + Z.shiftl t1 16 + Z.shiftl t2 8 + t3)).

(** [GTPV1_EUA_LENGTH(euap->length)] *)
Definition eua_length (data : list Z) (p : Z) : res Z :=
  l0 ← rd8 data (p + 1); l1 ← rd8 data (p + 2);
  mret (Z.shiftl l0 8 + l1).

(** The loop that prints [euap->address.ipv4.address] with dots. *)
Definition print_eua_ipv4 (data : list Z) (p : Z) : res string :=
  a0 ← rd8 data (p + 5); a1 ← rd8 data (p + 6);
  a2 ← rd8 data (p + 7); a3 ← rd8 data (p + 8);
  mret (fmt_d a0 +:+ "." +:+ fmt_d a1 +:+ "." +:+ fmt_d a2 +:+ "." +:+ fmt_d a3).

(** ** Reference: packed digits *)

Fixpoint pack_digits (ds : list Z) : list Z :=
  match ds with
  | [] => []
  | [d] => [d + 240]
  | d1 :: d2 :: r => d1 + 16 * d2 :: pack_digits r
  end.

(** The eight octets of an IMSI: unused octets hold two fillers. *)
Definition pack_imsi (ds : list Z) : list Z :=
  pack_digits ds ++ replicate (8 - length (pack_digits ds)) 255.

Definition digits_string (ds : list Z) : string :=
  foldl (fun s d => s +:+ fmt_d d) "" ds.
Definition digits_value (ds : list Z) : Z := foldl (fun a d => a * 10 + d) 0 ds.
Definition is_digit (d : Z) : Prop := 0 <= d < 10.

(** What octets say, without an array to overrun. *)
Definition octets_text_step (s : string) (b : Z) : string :=
  let s := s +:+ fmt_d (Z.land b 15) in
  if Z.shiftr b 4 <? 10 then s +:+ fmt_d (Z.shiftr b 4) else s.
Definition octets_text (imsi : list Z) : string := foldl octets_text_step "" imsi.

Lemma imsi2str_step_text cap s b : imsi2str_step cap s b =
  if bool_decide (String.length (octets_text_step s b) < cap)%nat then Ok (octets_text_step s b)
  else Fault BufferOverflow.
Proof.
  unfold imsi2str_step, sprintf_onto, octets_text_step. destruct (_ <? 10).
  - destruct (decide (String.length (s +:+ fmt_d (Z.land b 15)) < cap)%nat) as [Hc|Hc].
    + by rewrite bool_decide_eq_true_2 by done.
    + rewrite bool_decide_eq_false_2 by done. cbn.
      rewrite bool_decide_eq_false_2; [done|]. rewrite string_app_length. lia.
  - by case_bool_decide.
Qed.

Lemma octets_text_longer l : forall s, (String.length s <= String.length (foldl octets_text_step s l))%nat.
Proof.
  induction l as [|b l IH]; intros s; [done|]. cbn. etrans; [|apply IH].
  unfold octets_text_step. destruct (_ <? 10); rewrite !string_app_length; lia.
Qed.

Lemma rd8_head pre b l : rd8 (pre ++ b :: l) (blen pre) = Ok b.
Proof.
  pose proof (blen_nonneg pre). pose proof (blen_nonneg l).
  rewrite rd8_ok by (rewrite blen_app, blen_cons; lia). f_equal.
  rewrite (octet_shift pre _ _ _ eq_refl), Z.sub_diag by lia. done.
Qed.

(** The loop over the rest [l] of the octets. *)
Lemma imsi2str_loop_text cap l : forall pre s, (String.length s < cap)%nat ->
  imsi2str_loop (length l) (blen pre) cap (pre ++ l) s =
  if bool_decide (String.length (foldl octets_text_step s l) < cap)%nat
  then Ok (foldl octets_text_step s l) else Fault BufferOverflow.
Proof.
  induction l as [|b l IH]; intros pre s Hs; [by rewrite bool_decide_eq_true_2|].
  cbn [length imsi2str_loop foldl]. rewrite (rd8_head pre b l). cbn [mbind res_bind].
  rewrite imsi2str_step_text. case_bool_decide as Hb; cbn [mbind res_bind].
  - replace (blen pre + 1) with (blen (pre ++ [b])) by (by rewrite blen_app).
    replace (pre ++ b :: l) with ((pre ++ [b]) ++ l) by (by rewrite <- (assoc_L (++))).
    by rewrite IH.
  - rewrite bool_decide_eq_false_2; [done|]. pose proof (octets_text_longer l (octets_text_step s b)). lia.
Qed.

Lemma imsi2str_text cap imsi : blen imsi = 8 -> (0 < cap)%nat -> imsi2str cap imsi =
  if bool_decide (String.length (octets_text imsi) < cap)%nat then Ok (octets_text imsi)
  else Fault BufferOverflow.
Proof.
  intros Hl Hc. unfold imsi2str, GTPV1_IMSI_LENGTH, blen in *.
  replace (Z.to_nat 8) with (length imsi) by lia. by apply (imsi2str_loop_text cap imsi []).
Qed.

Lemma imsi2longlong_loop_fold l : forall pre a,
  imsi2longlong_loop (length l) (blen pre) (pre ++ l) a = Ok (foldl imsi2longlong_step a l).
Proof.
  induction l as [|b l IH]; intros pre a; [done|].
  cbn [length imsi2longlong_loop foldl]. rewrite (rd8_head pre b l). cbn [mbind res_bind].
  replace (blen pre + 1) with (blen (pre ++ [b])) by (by rewrite blen_app).
  replace (pre ++ b :: l) with ((pre ++ [b]) ++ l) by (by rewrite <- (assoc_L (++))).
  by rewrite IH.
Qed.

Lemma imsi2longlong_fold imsi : blen imsi = 8 ->
  imsi2longlong imsi = Ok (foldl imsi2longlong_step 0 imsi).
Proof.
  intros Hl. unfold imsi2longlong, GTPV1_IMSI_LENGTH, blen in *.
  replace (Z.to_nat 8) with (length imsi) by lia. by apply (imsi2longlong_loop_fold imsi []).
Qed.

Lemma nibbles lo hi : 0 <= lo < 16 ->
  Z.land (lo + 16 * hi) 15 = lo /\ Z.shiftr (lo + 16 * hi) 4 = hi.
Proof.
  intros. change 15 with (Z.ones 4). rewrite Z.land_ones, Z.shiftr_div_pow2 by lia.
  split; [symmetry; apply (Z.mod_unique _ _ hi)|symmetry; apply (Z.div_unique _ _ _ lo)]; lia.
Qed.

(** Induction two digits at a time. *)
Lemma pairs_ind {A} (P : list A -> Prop) :
  P [] -> (forall a, P [a]) -> (forall a b l, P l -> P (a :: b :: l)) -> forall l, P l.
Proof.
  intros H0 H1 H2. refine (fix IH l := match l with
    | [] => H0 | [a] => H1 a | a :: b :: r => H2 a b r (IH r) end).
Qed.

Lemma octets_text_step_pair s d1 d2 : is_digit d1 -> is_digit d2 ->
  octets_text_step s (d1 + 16 * d2) = (s +:+ fmt_d d1) +:+ fmt_d d2.
Proof.
  unfold is_digit. intros. unfold octets_text_step.
  destruct (nibbles d1 d2) as [-> ->]; [lia|]. by rewrite (proj2 (Z.ltb_lt _ _)) by lia.
Qed.

Lemma octets_text_step_filler s d : is_digit d -> octets_text_step s (d + 240) = s +:+ fmt_d d.
Proof.
  unfold is_digit. intros. unfold octets_text_step.
  change 240 with (16 * 15). destruct (nibbles d 15) as [-> ->]; [lia|]. done.
Qed.

Lemma foldl_octets_text ds : Forall is_digit ds -> forall s,
  foldl octets_text_step s (pack_digits ds) = foldl (fun s d => s +:+ fmt_d d) s ds.
Proof.
  induction ds as [|d|d1 d2 ds IH] using pairs_ind; intros Hd s; [done| |].
  - apply Forall_cons in Hd as [? _]. cbn. by apply octets_text_step_filler.
  - apply Forall_cons in Hd as [? [? ?]%Forall_cons]. cbn [pack_digits foldl].
    rewrite octets_text_step_pair by done. by apply IH.
Qed.

Lemma fmt_d_digit_length d : is_digit d -> String.length (fmt_d d) = 1%nat.
Proof.
  unfold is_digit. intros. assert (d = 0 \/ d = 1 \/ d = 2 \/ d = 3 \/ d = 4 \/ d = 5 \/ d = 6
    \/ d = 7 \/ d = 8 \/ d = 9) by lia. by destruct_or?; subst.
Qed.

Lemma digits_string_length ds : Forall is_digit ds -> forall s,
  String.length (foldl (fun s d => s +:+ fmt_d d) s ds) = (String.length s + length ds)%nat.
Proof.
  induction 1 as [|d ds Hd _ IH]; intros s; cbn [foldl length]; [lia|].
  rewrite IH, string_app_length, fmt_d_digit_length by done. lia.
Qed.

Lemma digits_value_bound ds : Forall is_digit ds -> forall a, 0 <= a ->
  a * 10 ^ Z.of_nat (length ds) <= foldl (fun a d => a * 10 + d) a ds
    < (a + 1) * 10 ^ Z.of_nat (length ds).
Proof.
  induction 1 as [|d ds Hd _ IH]; intros a Ha; cbn [foldl length]; [lia|].
  unfold is_digit in Hd. specialize (IH (a * 10 + d)).
  rewrite Nat2Z.inj_succ, Z.pow_succ_r by lia.
  pose proof (Z.pow_pos_nonneg 10 (Z.of_nat (length ds))). nia.
Qed.

Lemma accumulate_digit a d : 0 <= a -> is_digit d -> (a + 1) * 10 <= 2 ^ 64 ->
  u64 (u64 (a * 10) + d) = a * 10 + d.
Proof.
  unfold is_digit. intros. rewrite (u64_small (a * 10)) by lia. apply u64_small. lia.
Qed.

Lemma imsi2longlong_step_pair a d1 d2 : 0 <= a -> is_digit d1 -> is_digit d2 ->
  (a + 1) * 100 <= 2 ^ 64 ->
  imsi2longlong_step a (d1 + 16 * d2) = (a * 10 + d1) * 10 + d2.
Proof.
  intros Ha H1 H2 Hb. unfold imsi2longlong_step, is_digit in *.
  destruct (nibbles d1 d2) as [-> ->]; [lia|].
  rewrite (proj2 (Z.ltb_lt d2 10)) by lia.
  rewrite (accumulate_digit a d1) by (done || lia). by apply accumulate_digit; try lia.
Qed.

Lemma imsi2longlong_step_filler a d : 0 <= a -> is_digit d -> (a + 1) * 10 <= 2 ^ 64 ->
  imsi2longlong_step a (d + 240) = a * 10 + d.
Proof.
  intros Ha H1 Hb. unfold imsi2longlong_step, is_digit in *. change 240 with (16 * 15).
  destruct (nibbles d 15) as [-> ->]; [lia|]. cbn. by apply accumulate_digit.
Qed.

Lemma foldl_imsi2longlong ds : Forall is_digit ds -> forall a, 0 <= a ->
  (a + 1) * 10 ^ Z.of_nat (length ds) <= 2 ^ 64 ->
  foldl imsi2longlong_step a (pack_digits ds) = foldl (fun a d => a * 10 + d) a ds.
Proof.
  induction ds as [|d|d1 d2 ds IH] using pairs_ind; intros Hd a Ha Hb; [done| |].
  - apply Forall_cons in Hd as [Hd _]. apply imsi2longlong_step_filler; done.
  - apply Forall_cons in Hd as [Hd1 [Hd2 Hds]%Forall_cons].
    cbn [pack_digits foldl length] in *.
    rewrite !Nat2Z.inj_succ, !Z.pow_succ_r in Hb by lia.
    pose proof (Z.pow_pos_nonneg 10 (Z.of_nat (length ds))).
    rewrite imsi2longlong_step_pair by (done || nia).
    unfold is_digit in *. apply IH; [done|lia|nia].
Qed.

(** ** Fillers *)

(** [k] octets of two fillers add the number of the filler for each. *)
Definition filler_text (k : nat) : string := Nat.iter k (fun s => s +:+ "15") "".
Definition filler_value (k : nat) (a : Z) : Z := Nat.iter k (fun a => a * 10 + 15) a.

Lemma foldl_octets_text_filler k : forall s,
  foldl octets_text_step s (replicate k 255) = s +:+ filler_text k.
Proof.
  induction k as [|k IH]; intros s; [by rewrite str_app_nil_r|].
  rewrite replicate_S_end, foldl_app, IH.
  change ((s +:+ filler_text k) +:+ "15" = s +:+ (filler_text k +:+ "15")). by rewrite str_app_assoc.
Qed.

Lemma filler_text_length k : String.length (filler_text k) = (2 * k)%nat.
Proof.
  induction k as [|k IH]; [done|]. change (filler_text (S k)) with (filler_text k +:+ "15").
  rewrite string_app_length, IH. cbn. lia.
Qed.

Lemma filler_value_eq k a : 3 * filler_value k a + 5 = (3 * a + 5) * 10 ^ Z.of_nat k.
Proof.
  induction k as [|k IH]; [cbn; lia|]. rewrite Nat2Z.inj_succ, Z.pow_succ_r by lia.
  change (filler_value (S k) a) with (filler_value k a * 10 + 15). lia.
Qed.

Lemma filler_value_bound k a e : 0 <= a < 10 ^ e -> 0 <= e ->
  0 <= filler_value k a < 2 * 10 ^ (e + Z.of_nat k).
Proof.
  intros Ha He. pose proof (filler_value_eq k a). rewrite Z.pow_add_r by lia.
  pose proof (Z.pow_pos_nonneg 10 (Z.of_nat k)). pose proof (Z.pow_pos_nonneg 10 e). nia.
Qed.

Lemma imsi2longlong_step_fill a : 0 <= a -> a * 10 + 15 < 2 ^ 64 ->
  imsi2longlong_step a 255 = a * 10 + 15.
Proof.
  intros Ha Hb. change (u64 (u64 (a * 10) + 15) = a * 10 + 15).
  rewrite (u64_small (a * 10)) by lia. apply u64_small. lia.
Qed.

Lemma foldl_imsi2longlong_filler k a : 0 <= a < 10 ^ (16 - 2 * Z.of_nat k) -> (k <= 8)%nat ->
  foldl imsi2longlong_step a (replicate k 255) = filler_value k a.
Proof.
  intros Ha Hk. assert (Hb : forall j, (j <= k)%nat -> 0 <= filler_value j a < 2 * 10 ^ 16).
  { intros j Hj. destruct (filler_value_bound j a (16 - 2 * Z.of_nat k)) as [? Hlt]; [lia..|].
    split; [done|]. eapply Z.lt_le_trans; [exact Hlt|].
    assert (10 ^ (16 - 2 * Z.of_nat k + Z.of_nat j) <= 10 ^ 16) by (apply Z.pow_le_mono_r; lia). lia. }
  assert (H : forall j, (j <= k)%nat -> foldl imsi2longlong_step a (replicate j 255) = filler_value j a);
    [|by apply H].
  induction j as [|j IH]; intros Hj; [done|]. rewrite replicate_S_end, foldl_app, IH by lia. cbn [foldl].
  specialize (Hb j). apply imsi2longlong_step_fill; lia.
Qed.

Lemma pack_digits_length ds : length (pack_digits ds) = Nat.div2 (S (length ds)).
Proof. induction ds as [|d|d1 d2 ds IH] using pairs_ind; [done..|]. cbn in *. by rewrite IH. Qed.

(** The octets of fillers behind [n] digits. *)
Definition filler_octets (n : nat) : nat := 8 - Nat.div2 (S n).

Lemma pack_imsi_length ds : (length ds <= 16)%nat -> blen (pack_imsi ds) = 8.
Proof.
  intros Hl. unfold pack_imsi. rewrite blen_app. unfold blen. rewrite length_replicate, pack_digits_length.
  assert (Nat.div2 (S (length ds)) <= 8)%nat by (rewrite Nat.div2_div; apply Nat.lt_succ_r, Nat.Div0.div_lt_upper_bound; lia).
  lia.
Qed.

Lemma imsi2str_pack ds : Forall is_digit ds -> (length ds <= 16)%nat -> imsi2str 16 (pack_imsi ds) =
  if Nat.even (length ds) then Fault BufferOverflow
  else Ok (digits_string ds +:+ filler_text (filler_octets (length ds))).
Proof.
  intros Hd Hl. rewrite imsi2str_text by (by try apply pack_imsi_length || lia).
  assert (Ht : octets_text (pack_imsi ds) = digits_string ds +:+ filler_text (filler_octets (length ds))).
  { unfold octets_text, pack_imsi. rewrite foldl_app, foldl_octets_text, foldl_octets_text_filler by done.
    by rewrite pack_digits_length. }
  assert (Hlen : String.length (digits_string ds) = length ds) by (by apply (digits_string_length ds Hd "")).
  rewrite Ht, string_app_length, filler_text_length, Hlen.
  unfold filler_octets. pose proof (Nat.div2_odd (S (length ds))) as Hodd.
  rewrite Nat.odd_succ in Hodd. destruct (Nat.even (length ds)); cbn [Nat.b2n] in Hodd.
  - by rewrite bool_decide_eq_false_2 by lia.
  - by rewrite bool_decide_eq_true_2 by lia.
Qed.

Lemma imsi2longlong_pack ds : Forall is_digit ds -> (length ds <= 16)%nat ->
  imsi2longlong (pack_imsi ds) = Ok (filler_value (filler_octets (length ds)) (digits_value ds)).
Proof.
  intros Hd Hl. rewrite imsi2longlong_fold by (by apply pack_imsi_length). f_equal.
  unfold pack_imsi. rewrite foldl_app. pose proof (digits_value_bound ds Hd 0) as Hv.
  assert (10 ^ Z.of_nat (length ds) <= 10 ^ 16) by (apply Z.pow_le_mono_r; lia).
  rewrite foldl_imsi2longlong by (done || lia). unfold digits_value, filler_octets.
  rewrite pack_digits_length. apply foldl_imsi2longlong_filler; [|apply Nat.le_sub_l].
  specialize (Hv ltac:(lia)). split; [lia|].
  eapply Z.lt_le_trans; [apply Hv|]. rewrite Z.mul_1_l. apply Z.pow_le_mono_r; [lia|].
  pose proof (Nat.div2_odd (S (length ds))) as Hodd.
  assert (Nat.b2n (Nat.odd (S (length ds))) <= 1)%nat by (destruct (Nat.odd _); cbn; lia).
  set (h := Nat.div2 (S (length ds))) in *. lia.
Qed.

(** ** Properties *)

(** C38: reading an IMSI, with a [sprintf] that appends when it writes onto its
    own argument ([sprintf_onto]).  [imsi2str] and [imsi2longlong] read an IMSI of [n <= 16]
    digits, packed in its eight octets, as its digits followed by the number 15
    for each octet that holds two fillers.  So an IMSI of fifteen digits is read
    back; the text of a shorter one with an odd number of digits has a wrong
    tail, and one with an even number, sixteen among them, overruns the sixteen
    characters the callers give it. *)
Theorem imsi_round_trip (ds : list Z) :
  Forall is_digit ds -> (length ds <= 16)%nat ->
  imsi2str 16 (pack_imsi ds) =
    (if Nat.even (length ds) then Fault BufferOverflow
     else Ok (digits_string ds +:+ filler_text (filler_octets (length ds)))) /\
  imsi2longlong (pack_imsi ds) = Ok (filler_value (filler_octets (length ds)) (digits_value ds)) /\
  (length ds = 15%nat ->
   imsi2str 16 (pack_imsi ds) = Ok (digits_string ds) /\
   imsi2longlong (pack_imsi ds) = Ok (digits_value ds)).
Proof.
  intros Hd Hl. rewrite (imsi2str_pack ds), (imsi2longlong_pack ds) by done.
  split; [done|]. split; [done|]. intros Hn. rewrite Hn. cbn. by rewrite str_app_nil_r.
Qed.

Lemma imsi_round_trip_witness :
  imsi2str 16 (pack_imsi [2;7;2;0;1;1;2;3;4;5;6;7;8;9;0]) = Ok "272011234567890" /\
  imsi2longlong (pack_imsi [2;7;2;0;1;1;2;3;4;5;6;7;8;9;0]) = Ok 272011234567890 /\
  imsi2str 16 (pack_imsi [2;7;2;0;1;1;2;3;4;5;6;7;8;9]) = Fault BufferOverflow /\
  imsi2str 16 (pack_imsi [2;7;2;0;1;1;2;3;4;5;6;7;8]) = Ok "272011234567815".
Proof.
  assert (H15 : Forall is_digit [2;7;2;0;1;1;2;3;4;5;6;7;8;9;0])
    by (repeat (apply Forall_cons; split; [unfold is_digit; lia|]); by apply Forall_nil).
  assert (H14 : Forall is_digit [2;7;2;0;1;1;2;3;4;5;6;7;8;9])
    by (repeat (apply Forall_cons; split; [unfold is_digit; lia|]); by apply Forall_nil).
  assert (H13 : Forall is_digit [2;7;2;0;1;1;2;3;4;5;6;7;8])
    by (repeat (apply Forall_cons; split; [unfold is_digit; lia|]); by apply Forall_nil).
  destruct (imsi_round_trip _ H15) as (_ & _ & H); [cbn; lia|]. destruct (H eq_refl) as [Hs Hv].
  destruct (imsi_round_trip _ H14) as (H1 & _); [cbn; lia|].
  destruct (imsi_round_trip _ H13) as (H2 & _); [cbn; lia|].
  split; [exact Hs|]. split; [exact Hv|]. split; [exact H1|exact H2].
Defined.

(** The TEID as [ntohl] would read it. *)
Lemma teid2uint_be data p : bytes_ok data -> 0 <= p -> p + 5 <= blen data ->
  teid2uint data p = Ok (word32 data (p + 1)).
Proof.
  intros Hb Hp Hl. unfold teid2uint.
  rewrite (rd8_ok data (p + 1)), (rd8_ok data (p + 2)), (rd8_ok data (p + 3)),
    (rd8_ok data (p + 4)) by lia. cbn. unfold mret, res_ret. f_equal.
  unfold word32, word16. replace (p + 1 + 2 + 1) with (p + 4) by lia.
  replace (p + 1 + 2) with (p + 3) by lia. replace (p + 1 + 1) with (p + 2) by lia.
  pose proof (octet_range data (p + 1) Hb). pose proof (octet_range data (p + 2) Hb).
  pose proof (octet_range data (p + 3) Hb). pose proof (octet_range data (p + 4) Hb).
  unfold is_byte in *. rewrite !Z.shiftl_mul_pow2 by lia. rewrite u32_small; lia.
Qed.
