(* ===== verification/Pcap.v ===== *)
(** * Packets as libpcap hands them over

    The record headers of [pcap/pcap.h], the constants of [pcapdefines.h], and
    the calls of a packet handler.  libpcap itself is not modelled: which
    packets [pcap_loop] delivers is an argument of every definition that runs
    one, and [pcap_dump] is the record of its arguments. *)
From S2P Require Import Prelude.

Definition PCAP_MAX_SNAPLEN : Z := 65535.
Definition PCAP_PROMISCUOUS : Z := 1.
Definition PCAP_TIMEOUT : Z := 1500.
Definition PCAP_INFINITE : Z := -1.
Definition PCAP_FILE_TYPE : string := ".pcap".

(** [struct timeval] and [struct pcap_pkthdr] *)
Record timeval := Timeval { tv_sec : Z; tv_usec : Z }.
Record pcap_pkthdr := Pkthdr { ts : timeval; caplen : Z; len : Z }.

#[export] Instance timeval_eq_dec : EqDecision timeval.
Proof. solve_decision. Defined.
#[export] Instance pcap_pkthdr_eq_dec : EqDecision pcap_pkthdr.
Proof. solve_decision. Defined.

(** [sizeof(struct pcap_pkthdr)] on a 64-bit platform. *)
Definition sizeof_pcap_pkthdr : Z := 24.

(** A packet of a callback or of a [pcap_dump] call: its header and the memory
    at [data], whose first [caplen] octets are the capture. *)
Definition packet : Type := pcap_pkthdr * list Z.

Definition packet_ok (p : packet) : Prop :=
  bytes_ok p.2 /\ 0 <= caplen p.1 <= blen p.2 /\ caplen p.1 < 2 ^ 32 /\ 0 <= len p.1 < 2 ^ 32.

(** The octets [pcap_dump] writes for a call. *)
Definition captured (p : packet) : list Z := take (Z.to_nat (caplen p.1)) p.2.

(** The calls a [pcap_loop] makes of its handler, for the packets it delivers. *)
Section handler_calls.
Context {S : Type} (handler : S -> pcap_pkthdr -> list Z -> res S).

Fixpoint handler_calls (packets : list packet) (s : S) : res S :=
  match packets with
  | [] => mret s
  | (h, d) :: r => s ← handler s h d; handler_calls r s
  end.

Lemma handler_calls_cons p r s :
  handler_calls (p :: r) s = handler s p.1 p.2 ≫= handler_calls r.
Proof. by destruct p. Qed.

Lemma handler_calls_app l1 l2 s :
  handler_calls (l1 ++ l2) s = handler_calls l1 s ≫= handler_calls l2.
Proof.
  revert s. induction l1 as [|[h d] l1 IH]; intros s; [done|]. cbn.
  destruct (handler s h d); [apply IH|done].
Qed.

(** Rule for an invariant that speaks of the packets handled so far. *)
Lemma handler_calls_inv (I : list packet -> S -> Prop) packets s0 :
  I [] s0 ->
  (forall dn p rest s, packets = dn ++ p :: rest -> I dn s ->
     exists s', handler s p.1 p.2 = Ok s' /\ I (dn ++ [p]) s') ->
  exists s', handler_calls packets s0 = Ok s' /\ I packets s'.
Proof.
  intros H0 Hstep.
  enough (Hgen : forall l dn s, packets = dn ++ l -> I dn s ->
    exists s', handler_calls l s = Ok s' /\ I packets s')
    by (by apply (Hgen packets [])).
  induction l as [|p l IH]; intros dn s Heq HI.
  - exists s. by rewrite Heq, app_nil_r.
  - destruct (Hstep dn p l s Heq HI) as (s1 & Hs1 & HI1).
    destruct (IH (dn ++ [p]) s1) as (s2 & Hs2 & HI2); [|done|].
    + by rewrite <- (assoc_L (++)).
    + exists s2. rewrite handler_calls_cons, Hs1. done.
Qed.
End handler_calls.

(** The same for a handler that may not return: [None] when it does not return
    within the fuel it is given. *)
Section handler_calls_fuel.
Context {S : Type} (handler : S -> pcap_pkthdr -> list Z -> option (res S)).

Fixpoint handler_calls_fuel (packets : list packet) (s : S) : option (res S) :=
  match packets with
  | [] => Some (Ok s)
  | (h, d) :: r =>
      match handler s h d with
      | Some (Ok s) => handler_calls_fuel r s
      | other => other
      end
  end.

Lemma handler_calls_fuel_fold (step : S -> packet -> S) packets s :
  (forall s p, p ∈ packets -> handler s p.1 p.2 = Some (Ok (step s p))) ->
  handler_calls_fuel packets s = Some (Ok (foldl step s packets)).
Proof.
  revert s. induction packets as [|[h d] r IH]; intros s H; [done|]. cbn.
  pose proof (H s (h, d) ltac:(by left)) as E. cbn in E. rewrite E. apply IH. intros s' p Hp. apply H. by right.
Qed.
End handler_calls_fuel.

(** ** Programs

    A run of a program on a capture: exit status and what it printed.
    [pcap_open_offline] and [pcap_open_live] give the packets the loop will
    deliver, or an error text. *)
Record outcome := Outcome { status : Z; stdout : string; stderr : string }.

Definition pcap_source : Type := string -> string + list packet.

(** [argv[i]]; the null pointer past the last argument. *)
Definition arg (argv : list string) (i : nat) : res string :=
  match argv !! i with Some a => Ok a | None => Fault NullPointer end.
Definition argc (argv : list string) : Z := blen argv.

(** The end of a line of output. *)
Definition newline : string := String "010" "".

(** A run of a program that dumps packets: what was dumped, if the dump file
    was opened. *)
Record filter_outcome := FilterOutcome {
  f_status : Z; f_stderr : string; f_dumped : option (list packet) }.
