(* ===== verification/Monitor.v ===== *)
(** * [monitor.h]: packet statistics of a stream

    A monitor counts packets and octets and, every [MONITOR_OUTPUT_INTERVAL]
    seconds, reports and clears its counters.  The header declares the time of
    the last output [static], so every translation unit that includes it has a
    copy of its own; the model passes that copy ([glob]) in and out.  The clock
    ([time(NULL)]) is an argument.  Here each function is one operation;
    [Counting] cuts them at their accesses to the counters. *)
From S2P Require Import Prelude GtpHeader.

Definition MONITOR_OUTPUT_INTERVAL : Z := 10.
Definition FILENAME_MAX : Z := 4096.

(** [struct monitor] *)
Record monitor := Monitor {
  m_id : Z;
  m_description : string;
  m_packets : Z;
  m_bytes : Z;
  m_gtp_packets : Z;
  m_gtp_bytes : Z;
  m_gtp_ext : Z;
  m_gtp_seqno : Z;
  m_gtp_npdu : Z;
  m_last_output_time : Z }.

(** [monitor_open]: the new monitor and the unit's last output time. *)
Definition monitor_open (now glob id : Z) (description : string) : monitor * Z :=
  let glob := if glob =? 0 then now else glob in
  (Monitor id (String.substring 0 (Z.to_nat (FILENAME_MAX - 1)) description)
     0 0 0 0 0 0 0 glob, glob).

(** [monitor_increment] and [monitor_increment_gtp]; [None] is the null
    pointer.  The counters are [long long]; the standard leaves their overflow
    undefined, here they wrap as the machine's addition does. *)
Definition monitor_increment (m : option monitor) (packets bytes : Z) : option monitor :=
  m ← m;
  Some (Monitor (m_id m) (m_description m) (s64 (m_packets m + packets))
    (s64 (m_bytes m + bytes))
    (m_gtp_packets m) (m_gtp_bytes m) (m_gtp_ext m) (m_gtp_seqno m) (m_gtp_npdu m)
    (m_last_output_time m)).

Definition monitor_increment_gtp (m : option monitor) (gtp_packets gtp_bytes gtp_options : Z)
    : option monitor :=
  m ← m;
  Some (Monitor (m_id m) (m_description m) (m_packets m) (m_bytes m)
    (s64 (m_gtp_packets m + gtp_packets)) (s64 (m_gtp_bytes m + gtp_bytes))
    (s64 (m_gtp_ext m + GTP_EXT_FLAG gtp_options)) (s64 (m_gtp_seqno m + GTP_SEQ_FLAG gtp_options))
    (s64 (m_gtp_npdu m + GTP_NPDU_FLAG gtp_options)) (m_last_output_time m)).

(** What one output writes; the two rates are the integer quotients the code
    computes before it converts them to floating point. *)
Record report := Report {
  r_packets : Z; r_packets_per_second : Z; r_bytes : Z; r_bytes_per_second : Z;
  r_gtp_packets : Z; r_gtp_bytes : Z; r_gtp_ext : Z; r_gtp_seqno : Z; r_gtp_npdu : Z }.

(** [count > 0 ? count / time_since_output : 0.0] *)
Definition rate (count time_since_output : Z) : res Z :=
  if 0 <? count then
    if time_since_output =? 0 then Fault DivByZero
    else mret (Z.quot count time_since_output)
  else mret 0.

(** [handle_monitor]: the monitor, the unit's last output time, and the report
    if one is written. *)
Definition handle_monitor (now glob : Z) (m : monitor) : res (monitor * Z * option report) :=
  let current_time := s32 now in
  let glob := if MONITOR_OUTPUT_INTERVAL <=? current_time - glob then current_time else glob in
  if glob <=? m_last_output_time m then mret (m, glob, None) else
  let time_since_output := s32 (current_time - m_last_output_time m) in
  pps ← rate (m_packets m) time_since_output;
  bps ← rate (m_bytes m) time_since_output;
  mret (Monitor (m_id m) (m_description m) 0 0 0 0 0 0 0 glob, glob,
    Some (Report (m_packets m) pps (m_bytes m) bps (m_gtp_packets m) (m_gtp_bytes m)
      (m_gtp_ext m) (m_gtp_seqno m) (m_gtp_npdu m))).

(** ** Outputs do not divide by zero

    The clock invariant: the monitor's last output is not later than the unit's,
    which is not later than the clock.  Whatever the counters are by then, a
    supervisor whose clock does not go back can handle the monitor. *)
Lemma rate_defined count t : t <> 0 -> exists r, rate count t = Ok r.
Proof.
  intros Ht. unfold rate. rewrite (proj2 (Z.eqb_neq t 0) Ht). case_match; eauto.
Qed.

Lemma handle_monitor_defined now glob m :
  0 <= glob <= now -> now < 2 ^ 31 -> 0 <= m_last_output_time m ->
  exists m' glob' r, handle_monitor now glob m = Ok (m', glob', r) /\ glob <= glob' <= now /\
    (m_last_output_time m' = m_last_output_time m /\ m' = m \/ m_last_output_time m' = glob').
Proof.
  intros Hg Hn Hl. unfold handle_monitor, MONITOR_OUTPUT_INTERVAL. rewrite (s32_small now) by lia.
  set (g := if 10 <=? now - glob then now else glob).
  assert (Hgb : glob <= g <= now) by (unfold g; case_match; lia).
  destruct (Z.leb_spec g (m_last_output_time m)).
  { do 3 eexists. split; [done|]. split; [lia|by left]. }
  rewrite s32_small by lia.
  destruct (rate_defined (m_packets m) (now - m_last_output_time m)) as [r1 ->]; [lia|].
  destruct (rate_defined (m_bytes m) (now - m_last_output_time m)) as [r2 ->]; [lia|].
  do 3 eexists. split; [done|]. split; [lia|by right].
Qed.

(** A clock set back by the interval a supervisor waited makes an output
    divide by zero: another monitor moved the shared time forward to 1010, then
    the clock reads this monitor's last output time again. *)
Example monitor_clock_set_back :
  let '(m, _) := monitor_open 1000 0 3 "eth0" in
  from_option (handle_monitor 1000 1010) (Fault NullPointer) (monitor_increment (Some m) 1 60)
    = Fault DivByZero.
Proof. reflexivity. Qed.
