(* ===== verification/Counting.v ===== *)
(** * Monitors under concurrency

    [monitor.h] takes no lock: packet handlers of several threads add to the
    counters of a monitor while the supervisor reports and clears them.  Here
    the functions of [Monitor] are cut into single reads and writes of a counter,
    which the threads interleave; an addition [counter += n] is a read and a
    write.  Run by itself, each function is the one of [Monitor]. *)
From S2P Require Import Prelude GtpHeader Monitor.

(** ** Accesses to the counters *)

Inductive counter := Packets | Bytes | GtpPackets | GtpBytes | GtpExt | GtpSeqno | GtpNpdu.
#[export] Instance counter_eq_dec : EqDecision counter.
Proof. solve_decision. Defined.

Definition get (c : counter) (m : monitor) : Z :=
  match c with
  | Packets => m_packets m | Bytes => m_bytes m | GtpPackets => m_gtp_packets m
  | GtpBytes => m_gtp_bytes m | GtpExt => m_gtp_ext m | GtpSeqno => m_gtp_seqno m
  | GtpNpdu => m_gtp_npdu m
  end.

Definition put (c : counter) (v : Z) (m : monitor) : monitor :=
  let at_ (d : counter) (old : Z) := if decide (c = d) then v else old in
  Monitor (m_id m) (m_description m) (at_ Packets (m_packets m)) (at_ Bytes (m_bytes m))
    (at_ GtpPackets (m_gtp_packets m)) (at_ GtpBytes (m_gtp_bytes m)) (at_ GtpExt (m_gtp_ext m))
    (at_ GtpSeqno (m_gtp_seqno m)) (at_ GtpNpdu (m_gtp_npdu m)) (m_last_output_time m).

Inductive access :=
  | Rate (c : counter)            (** the reads for a rate *)
  | Sample (c : counter)          (** the read that is reported *)
  | Clear (c : counter)           (** [counter = 0] *)
  | Fetch (c : counter)           (** [counter += n]: the read *)
  | Store (c : counter) (n : Z).  (** ... and the write *)

(** [monitor_increment] and [monitor_increment_gtp] *)
Definition add_ops (c : counter) (n : Z) : list access := [Fetch c; Store c n].
Definition increment_ops (packets bytes : Z) : list access :=
  add_ops Packets packets ++ add_ops Bytes bytes.
Definition increment_gtp_ops (gtp_packets gtp_bytes gtp_options : Z) : list access :=
  add_ops GtpPackets gtp_packets ++ add_ops GtpBytes gtp_bytes ++
  add_ops GtpExt (GTP_EXT_FLAG gtp_options) ++ add_ops GtpSeqno (GTP_SEQ_FLAG gtp_options) ++
  add_ops GtpNpdu (GTP_NPDU_FLAG gtp_options).

(** The rates, the two messages and the clearing of [handle_monitor]. *)
Definition output_ops : list access :=
  [Rate Packets; Rate Bytes; Sample Packets; Sample Bytes; Sample GtpPackets; Sample GtpBytes;
   Sample GtpExt; Sample GtpSeqno; Sample GtpNpdu; Clear Bytes; Clear Packets; Clear GtpBytes;
   Clear GtpPackets; Clear GtpExt; Clear GtpSeqno; Clear GtpNpdu].

(** [handle_monitor] at each of the clock readings [times]; the times of output
    are the supervisor's own. *)
Fixpoint handle_ops (times : list Z) (glob last_output_time : Z) : list access :=
  match times with
  | [] => []
  | now :: times =>
      let current_time := s32 now in
      let glob := if MONITOR_OUTPUT_INTERVAL <=? current_time - glob then current_time else glob in
      if glob <=? last_output_time then handle_ops times glob last_output_time
      else output_ops ++ handle_ops times glob glob
  end.

(** What the threads share: the counters, and what was reported. *)
Record shared := Shared { sh_monitor : monitor; sh_reported : list (counter * Z) }.

(** A thread has code to run and the value it fetched last. *)
Record counting := Counting { code : list access; register : Z }.

Definition access_step (a : access) (r : Z) (s : shared) : Z * shared :=
  match a with
  | Rate _ => (r, s)
  | Sample c => (r, Shared (sh_monitor s) (sh_reported s ++ [(c, get c (sh_monitor s))]))
  | Clear c => (r, Shared (put c 0 (sh_monitor s)) (sh_reported s))
  | Fetch c => (get c (sh_monitor s), s)
  | Store c n => (r, Shared (put c (s64 (r + n)) (sh_monitor s)) (sh_reported s))
  end.

(** The threads under a schedule, the numbers of the threads in the order in
    which they take a turn; and the accesses made, with their threads. *)
Fixpoint race (schedule : list nat) (ths : list counting) (s : shared)
    : list (nat * access) * (list counting * shared) :=
  match schedule with
  | [] => ([], (ths, s))
  | t :: schedule =>
      match ths !! t with
      | Some (Counting (a :: rest) r) =>
          let '(r, s) := access_step a r s in
          let '(accesses, final) := race schedule (<[t := Counting rest r]> ths) s in
          ((t, a) :: accesses, final)
      | _ => race schedule ths s
      end
  end.

(** A thread by itself. *)
Definition run_ops (l : list access) (s : shared) : shared :=
  (foldl (fun rs a => access_step a rs.1 rs.2) (0, s) l).2.

Lemma get_put c d v m : get c (put d v m) = if decide (d = c) then v else get c m.
Proof. by destruct c. Qed.

(** ** The functions of [Monitor] by themselves *)

Definition with_monitor (s : shared) (m : monitor) : shared := Shared m (sh_reported s).

Lemma increment_ops_alone p b m l :
  monitor_increment (Some m) p b = Some (sh_monitor (run_ops (increment_ops p b) (Shared m l))) /\
  sh_reported (run_ops (increment_ops p b) (Shared m l)) = l.
Proof. done. Qed.

Lemma increment_gtp_ops_alone p b o m l :
  monitor_increment_gtp (Some m) p b o
    = Some (sh_monitor (run_ops (increment_gtp_ops p b o) (Shared m l))) /\
  sh_reported (run_ops (increment_gtp_ops p b o) (Shared m l)) = l.
Proof. done. Qed.

Definition reported_values (r : report) : list (counter * Z) :=
  [(Packets, r_packets r); (Bytes, r_bytes r); (GtpPackets, r_gtp_packets r);
   (GtpBytes, r_gtp_bytes r); (GtpExt, r_gtp_ext r); (GtpSeqno, r_gtp_seqno r);
   (GtpNpdu, r_gtp_npdu r)].

Definition set_last_output_time (t : Z) (m : monitor) : monitor :=
  Monitor (m_id m) (m_description m) (m_packets m) (m_bytes m) (m_gtp_packets m) (m_gtp_bytes m)
    (m_gtp_ext m) (m_gtp_seqno m) (m_gtp_npdu m) t.

Lemma handle_ops_alone now glob m m' glob' r l :
  handle_monitor now glob m = Ok (m', glob', r) ->
  let s := run_ops (handle_ops [now] glob (m_last_output_time m)) (Shared m l) in
  m' = set_last_output_time (m_last_output_time m') (sh_monitor s) /\
  sh_reported s = l ++ from_option reported_values [] r.
Proof.
  unfold handle_monitor. cbn [handle_ops]. case_match.
  - intros [= <- _ <-]. cbn. rewrite app_nil_r. by destruct m.
  - intros H'. res_inv. subst. cbn. rewrite <- !(assoc_L (++)). by destruct m.
Qed.

(** ** The accounts

    What the accesses made say about a counter, without the values they met. *)

(** What was added. *)
Definition amount (c : counter) (a : access) : Z :=
  match a with Store d n => if decide (d = c) then n else 0 | _ => 0 end.
Definition sum (l : list Z) : Z := foldr Z.add 0 l.
Definition amounts (c : counter) (l : list access) : Z := sum (amount c <$> l).
Definition added (c : counter) (accesses : list (nat * access)) : Z := amounts c (accesses.*2).

(** What was added since the counter was last reported or cleared, and is gone
    when it is cleared next; [since] was added before the accesses. *)
Fixpoint lost (c : counter) (since : Z) (accesses : list (nat * access)) : Z :=
  match accesses with
  | [] => 0
  | (_, Sample d) :: l => lost c (if decide (d = c) then 0 else since) l
  | (_, Clear d) :: l => if decide (d = c) then since + lost c 0 l else lost c since l
  | (_, Store d n) :: l => lost c (if decide (d = c) then since + n else since) l
  | _ :: l => lost c since l
  end.

(** No thread writes the counter between the two accesses of an addition of
    another; [fresh] are the threads that have fetched the counter's value. *)
Fixpoint whole (c : counter) (fresh : list nat) (accesses : list (nat * access)) : bool :=
  match accesses with
  | [] => true
  | (t, Fetch d) :: l => whole c (if decide (d = c) then t :: fresh else filter (fun u => u <> t) fresh) l
  | (t, Store d _) :: l =>
      if decide (d = c) then bool_decide (t ∈ fresh) && whole c [] l else whole c fresh l
  | (_, Clear d) :: l => whole c (if decide (d = c) then [] else fresh) l
  | _ :: l => whole c fresh l
  end.

Definition reported (c : counter) (l : list (counter * Z)) : Z :=
  sum ((fun x => if decide (x.1 = c) then x.2 else 0) <$> l).

(** The supervisor reports a counter once before it clears it; [sampled] says
    that it has. *)
Fixpoint alternates (c : counter) (sampled : bool) (l : list access) : bool :=
  match l with
  | [] => negb sampled
  | Sample d :: l => if decide (d = c) then negb sampled && alternates c true l else alternates c sampled l
  | Clear d :: l => alternates c (if decide (d = c) then false else sampled) l
  | _ :: l => alternates c sampled l
  end.

Definition only_adds (l : list access) : Prop :=
  Forall (fun a => match a with Fetch _ => True | Store _ n => 0 <= n | _ => False end) l.
Definition only_outputs (l : list access) : Prop :=
  Forall (fun a => match a with Rate _ | Sample _ | Clear _ => True | _ => False end) l.

(** ** What every interleaving accounts for *)

Lemma sum_cons x l : sum (x :: l) = x + sum l.
Proof. done. Qed.

Lemma sum_app l1 l2 : sum (l1 ++ l2) = sum l1 + sum l2.
Proof. induction l1 as [|x l1 IH]; [done|]. cbn [app]. rewrite !sum_cons. lia. Qed.

Lemma sum_nonneg l : Forall (fun x => 0 <= x) l -> 0 <= sum l.
Proof. unfold sum. induction 1 as [|x l Hx _ IH]; cbn [foldr]; lia. Qed.

Section accounts.
Context (c : counter).
Implicit Types (ths : list counting) (s : shared) (t : nat).

(** What the threads have yet to add. *)
Definition outstanding (ths : list counting) : Z := sum ((fun th => amounts c (code th)) <$> ths).

Lemma amounts_app l1 l2 : amounts c (l1 ++ l2) = amounts c l1 + amounts c l2.
Proof. unfold amounts. by rewrite fmap_app, sum_app. Qed.

Lemma outstanding_insert ths : forall t th th', ths !! t = Some th ->
  outstanding (<[t := th']> ths) = outstanding ths - amounts c (code th) + amounts c (code th').
Proof.
  unfold outstanding. induction ths as [|th0 ths IH]; intros [|t] th th' Ht; try done.
  - injection Ht as ->. change (<[O := th']> (th :: ths)) with (th' :: ths). rewrite !fmap_cons, !sum_cons. lia.
  - change (<[S t := th']> (th0 :: ths)) with (th0 :: <[t := th']> ths).
    rewrite !fmap_cons, !sum_cons, (IH t th th' Ht). lia.
Qed.

(** A turn takes the access's amount off. *)
Lemma outstanding_turn ths t a rest r r' : ths !! t = Some (Counting (a :: rest) r) ->
  outstanding ths = amount c a + outstanding (<[t := Counting rest r']> ths).
Proof.
  intros Ht. rewrite (outstanding_insert _ _ _ _ Ht). cbn [code]. unfold amounts.
  rewrite fmap_cons, sum_cons. lia.
Qed.

Lemma amounts_nonneg l : only_adds l \/ only_outputs l -> 0 <= amounts c l.
Proof.
  intros [H|H]; apply sum_nonneg, Forall_fmap; (eapply Forall_impl; [exact H|]); intros []; cbn;
    try done; by destruct (decide _).
Qed.

(** The supervisor is thread 0; [base] is what was reported of the counter's
    value, [since] what was added after that. *)
Record accounts (fresh : list nat) (since base : Z) (sampled : bool) ths s : Prop := {
  ac_fresh t : t ∈ fresh -> exists th, ths !! t = Some th /\ register th = get c (sh_monitor s);
  ac_adds t th : ths !! t = Some th -> t <> O -> only_adds (code th);
  ac_outputs : exists th, ths !! O = Some th /\ only_outputs (code th) /\
    alternates c sampled (code th) = true;
  ac_value : get c (sh_monitor s) = base + since;
  ac_range : 0 <= since /\ 0 <= base /\ (sampled = false -> base = 0);
  ac_bound : since + base + outstanding ths < 2 ^ 63 }.

Lemma outstanding_nonneg ths : (forall t th, ths !! t = Some th ->
    only_adds (code th) \/ only_outputs (code th)) -> 0 <= outstanding ths.
Proof.
  intros Hall. apply sum_nonneg, Forall_fmap, Forall_lookup. intros t th Ht.
  by eapply amounts_nonneg, Hall.
Qed.

Lemma accounts_code fresh since base sampled ths s t th : accounts fresh since base sampled ths s ->
  ths !! t = Some th -> only_adds (code th) \/ only_outputs (code th).
Proof.
  intros [_ Hadds (th0 & H0 & Ho & _) _ _ _] Ht.
  destruct (decide (t = O)) as [->|Hne]; [right; by simplify_eq|left; by eapply Hadds].
Qed.

Lemma outstanding_turn_nonneg fresh since base sampled ths s t a rest r r' :
  accounts fresh since base sampled ths s -> ths !! t = Some (Counting (a :: rest) r) ->
  0 <= outstanding (<[t := Counting rest r']> ths).
Proof.
  intros Hac Ht. apply outstanding_nonneg. intros u th Hu.
  apply list_lookup_insert_Some in Hu as [(-> & <- & _)|[_ Hu]]; [|by eapply accounts_code].
  destruct (accounts_code _ _ _ _ _ _ _ _ Hac Ht) as [H|H];
    apply Forall_cons in H as [_ ?]; [by left|by right].
Qed.

(** The threads after a turn of [t]: the parts of the invariant that do not
    depend on the access. *)
Lemma accounts_turn fresh fresh' since since' base base' sampled sampled' ths t a rest r r' s s' :
  accounts fresh since base sampled ths s -> ths !! t = Some (Counting (a :: rest) r) ->
  (forall u, u ∈ fresh' -> u = t /\ r' = get c (sh_monitor s') \/
     u <> t /\ u ∈ fresh /\ get c (sh_monitor s') = get c (sh_monitor s) \/
     u = t /\ u ∈ fresh /\ r' = r /\ get c (sh_monitor s') = get c (sh_monitor s)) ->
  (t = O -> alternates c sampled' rest = true) -> (t <> O -> sampled' = sampled) ->
  get c (sh_monitor s') = base' + since' ->
  0 <= since' /\ 0 <= base' /\ (sampled' = false -> base' = 0) ->
  since' + base' <= since + base + amount c a ->
  accounts fresh' since' base' sampled' (<[t := Counting rest r']> ths) s'.
Proof.
  intros Hac Ht Hfresh Halt Hkeep Hval Hran Hle. pose proof (outstanding_turn ths t a rest r r' Ht) as Hrem.
  destruct Hac as [Hf Hadds (th0 & H0 & Ho & Ha) _ _ Hb].
  pose proof (lookup_lt_Some _ _ _ Ht) as Hlt. split; [|..|done|done|lia].
  - intros u Hu. destruct (Hfresh u Hu) as [(-> & Hr)|[(Hne & Hin & Hg)|(-> & Hin & -> & Hg)]].
    + eexists. by rewrite list_lookup_insert_eq.
    + rewrite list_lookup_insert_ne by done. rewrite Hg. by apply Hf.
    + eexists. rewrite list_lookup_insert_eq by done. split; [done|]. cbn.
      destruct (Hf t Hin) as (th & Hth & Hr). rewrite Ht in Hth. injection Hth as <-. by rewrite Hg.
  - intros u th Hu Hne. destruct (decide (u = t)) as [->|Hut].
    + rewrite list_lookup_insert_eq in Hu by done. injection Hu as <-.
      specialize (Hadds t _ Ht Hne). by apply Forall_cons in Hadds as [_ ?].
    + rewrite list_lookup_insert_ne in Hu by done. by eapply Hadds.
  - destruct (decide (t = O)) as [->|Hne].
    + rewrite list_lookup_insert_eq by done. eexists. split; [done|]. cbn. split; [|by apply Halt].
      rewrite Ht in H0. injection H0 as <-. by apply Forall_cons in Ho as [_ ?].
    + rewrite list_lookup_insert_ne by done. exists th0. rewrite Hkeep by done. done.
Qed.

Lemma adder_access fresh since base sampled ths s t a rest r :
  accounts fresh since base sampled ths s -> ths !! t = Some (Counting (a :: rest) r) ->
  match a with
  | Rate _ => t = O /\ alternates c sampled rest = true
  | Sample d => t = O /\ if decide (d = c) then sampled = false /\ alternates c true rest = true
                         else alternates c sampled rest = true
  | Clear d => t = O /\ alternates c (if decide (d = c) then false else sampled) rest = true
  | Fetch _ => t <> O
  | Store _ n => t <> O /\ 0 <= n
  end.
Proof.
  intros [_ Hadds (th0 & H0 & Ho & Ha) _ _ _] Ht. destruct (decide (t = O)) as [->|Hne].
  - rewrite Ht in H0. injection H0 as <-. cbn [code] in *. apply Forall_cons in Ho as [Ho _].
    destruct a; try done. split; [done|]. cbn in Ha. destruct (decide _); [|done].
    by apply andb_true_iff in Ha as [?%negb_true_iff ?].
  - specialize (Hadds t _ Ht Hne). apply Forall_cons in Hadds as [Hn _]. by destruct a.
Qed.

Lemma reported_snoc l d v :
  reported c (l ++ [(d, v)]) = reported c l + (if decide (d = c) then v else 0).
Proof. unfold reported. rewrite fmap_app, sum_app. cbn. lia. Qed.

Lemma added_cons t a l : added c ((t, a) :: l) = amount c a + added c l.
Proof. done. Qed.

Lemma race_accounts schedule : forall ths s fresh since base sampled accesses ths' s',
  race schedule ths s = (accesses, (ths', s')) -> accounts fresh since base sampled ths s ->
  whole c fresh accesses = true -> (forall th, ths' !! O = Some th -> code th = []) ->
  reported c (sh_reported s') + get c (sh_monitor s') + lost c since accesses =
    reported c (sh_reported s) + since + added c accesses.
Proof.
  induction schedule as [|t schedule IH]; intros ths s fresh since base sampled accesses ths' s'
    Hrace Hac Hwhole Hend.
  { injection Hrace as <- <- <-. destruct (ac_outputs _ _ _ _ _ _ Hac) as (th & Hth & _ & Ha).
    rewrite (Hend th Hth) in Ha. apply negb_true_iff in Ha. rewrite (ac_value _ _ _ _ _ _ Hac).
    destruct (ac_range _ _ _ _ _ _ Hac) as (_ & _ & ->); [|done]. cbn. lia. }
  cbn [race] in Hrace. destruct (ths !! t) as [[[|a rest] r]|] eqn:Ht; [by eapply IH| |by eapply IH].
  pose proof (adder_access _ _ _ _ _ _ _ _ _ _ Hac Ht) as Hcase.
  pose proof Hac as [_ _ _ Hval Hran Hbound].
  destruct (access_step a r s) as [r1 s1] eqn:Hstep.
  destruct (race schedule (<[t:=Counting rest r1]> ths) s1) as [l [ths1 s2]] eqn:Hrest.
  injection Hrace as <- <- <-. rewrite added_cons.
  assert (Hnext : forall fresh1 since1 base1 sampled1,
    accounts fresh1 since1 base1 sampled1 (<[t:=Counting rest r1]> ths) s1 -> whole c fresh1 l = true ->
    reported c (sh_reported s2) + get c (sh_monitor s2) + lost c since1 l =
      reported c (sh_reported s1) + since1 + added c l) by (intros; by eapply IH).
  destruct a as [d|d|d|d|d n]; cbn [access_step] in Hstep; injection Hstep as <- <-;
    cbn [whole lost amount sh_reported sh_monitor] in *.
  - destruct Hcase as [-> Ha]. rewrite (Hnext fresh since base sampled); [done| |done].
    eapply accounts_turn; try done; [|cbn; lia]. intros u Hu. destruct (decide (u = O)); naive_solver.
  - destruct Hcase as [-> Ha]. rewrite reported_snoc in Hnext. destruct (decide (d = c)) as [->|Hne].
    + destruct Ha as [-> Ha]. destruct Hran as (? & ? & Hb). specialize (Hb eq_refl).
      rewrite (Hnext fresh 0 since true); [lia| |done].
      eapply accounts_turn; try done; [|cbn; lia..]. intros u Hu. destruct (decide (u = O)); naive_solver.
    + rewrite (Hnext fresh since base sampled); [lia| |done].
      eapply accounts_turn; try done; [|cbn; lia]. intros u Hu. destruct (decide (u = O)); naive_solver.
  - destruct Hcase as [-> Ha]. destruct (decide (d = c)) as [->|Hne].
    + assert (Hn := Hnext [] 0 0 false). enough (Hx : reported c (sh_reported s2) +
        get c (sh_monitor s2) + lost c 0 l = reported c (sh_reported s) + 0 + added c l)
        by (clear -Hx; lia).
      apply Hn; [|done]. eapply accounts_turn; try done; [| |cbn; lia].
      * by intros u Hu%elem_of_nil.
      * cbn. by rewrite get_put, decide_True.
    + rewrite (Hnext fresh since base sampled); [lia| |done].
      eapply accounts_turn; try done; [|cbn; by rewrite get_put, decide_False|cbn; lia].
      intros u Hu. cbn. rewrite get_put, decide_False by done. destruct (decide (u = O)); naive_solver.
  - destruct (decide (d = c)) as [->|Hne].
    + rewrite (Hnext (t :: fresh) since base sampled); [lia| |done].
      eapply accounts_turn; try done; [|cbn; lia]. intros u [->|Hu]%elem_of_cons; [by left|].
      destruct (decide (u = t)) as [->|]; [by left|naive_solver].
    + rewrite (Hnext (filter (fun u => u <> t) fresh) since base sampled); [lia| |done].
      eapply accounts_turn; try done; [|cbn; lia]. intros u [? Hu]%list_elem_of_filter. naive_solver.
  - destruct Hcase as [Ht0 Hn]. destruct (decide (d = c)) as [->|Hne].
    + apply andb_true_iff in Hwhole as [Hfresh Hwhole]. apply bool_decide_eq_true in Hfresh.
      destruct (ac_fresh _ _ _ _ _ _ Hac t Hfresh) as (th & Hth & Hr). rewrite Ht in Hth.
      injection Hth as <-. cbn in Hr. rewrite Hr in *.
      pose proof (outstanding_turn ths t (Store c n) rest _ r Ht) as Hturn. cbn [amount] in Hturn.
      rewrite decide_True in Hturn by done.
      assert (Hsum : s64 (get c (sh_monitor s) + n) = base + (since + n)).
      { pose proof (outstanding_turn_nonneg _ _ _ _ _ _ _ _ _ _ r Hac Ht).
        rewrite Hval, s64_small; lia. }
      rewrite (Hnext [] (since + n) base sampled); [lia| |done].
      eapply accounts_turn; try done.
      * by intros u Hu%elem_of_nil.
      * cbn. by rewrite get_put, decide_True.
      * destruct Hran as (? & ? & ?). split; [lia|done].
      * cbn. rewrite decide_True by done. lia.
    + rewrite (Hnext fresh since base sampled); [lia| |done].
      eapply accounts_turn; try done; [|cbn; by rewrite get_put, decide_False|cbn; rewrite decide_False by done; lia].
      intros u Hu. cbn. rewrite get_put, decide_False by done. destruct (decide (u = t)); naive_solver.
Qed.
End accounts.

(** ** The threads of a monitor *)

(** The calls of a packet handler on a monitor. *)
Inductive increment :=
  | Increment (packets bytes : Z)
  | IncrementGtp (gtp_packets gtp_bytes gtp_options : Z).

Definition increment_accesses (e : increment) : list access :=
  match e with
  | Increment p b => increment_ops p b
  | IncrementGtp p b o => increment_gtp_ops p b o
  end.

(** What one call is to add to a counter, and all of them. *)
Definition contribution (c : counter) (e : increment) : Z :=
  match e, c with
  | Increment p _, Packets => p
  | Increment _ b, Bytes => b
  | IncrementGtp p _ _, GtpPackets => p
  | IncrementGtp _ b _, GtpBytes => b
  | IncrementGtp _ _ o, GtpExt => GTP_EXT_FLAG o
  | IncrementGtp _ _ o, GtpSeqno => GTP_SEQ_FLAG o
  | IncrementGtp _ _ o, GtpNpdu => GTP_NPDU_FLAG o
  | _, _ => 0
  end.
Definition counted (c : counter) (calls : list (list increment)) : Z :=
  sum ((fun es => sum (contribution c <$> es)) <$> calls).

Definition increment_ok (e : increment) : Prop :=
  match e with Increment p b | IncrementGtp p b _ => 0 <= p /\ 0 <= b end.

(** The supervisor, which handles the monitor at its clock readings, and threads
    that make calls. *)
Definition monitor_threads (times : list Z) (glob last_output_time : Z)
    (calls : list (list increment)) : list counting :=
  Counting (handle_ops times glob last_output_time) 0 ::
  ((fun es => Counting (es ≫= increment_accesses) 0) <$> calls).

Section threads.
Context (c : counter).

Lemma increment_accesses_adds es : Forall increment_ok es -> only_adds (es ≫= increment_accesses).
Proof.
  induction 1 as [|e es He _ IH]; [apply Forall_nil_2|]. cbn. apply Forall_app_2; [|exact IH].
  assert (Hland : forall x y, 0 <= y -> 0 <= Z.land x y) by (intros; apply Z.land_nonneg; by right).
  destruct e as [p b|p b o]; destruct He as [Hp Hb]; repeat apply Forall_cons_2; try done;
    try apply Forall_nil_2; unfold GTP_EXT_FLAG, GTP_SEQ_FLAG, GTP_NPDU_FLAG;
    rewrite ?Z.shiftr_nonneg; by apply Hland.
Qed.

Lemma increment_accesses_amount es :
  amounts c (es ≫= increment_accesses) = sum (contribution c <$> es).
Proof.
  induction es as [|e es IH]; [done|]. change ((e :: es) ≫= increment_accesses) with
    (increment_accesses e ++ (es ≫= increment_accesses)).
  rewrite amounts_app, fmap_cons, sum_cons, IH. f_equal.
  destruct e, c; unfold amounts, sum; cbn; repeat case_decide; try congruence; lia.
Qed.

Lemma output_ops_alternate l : alternates c false (output_ops ++ l) = alternates c false l.
Proof. by destruct c. Qed.

Lemma handle_ops_outputs times : forall glob last,
  only_outputs (handle_ops times glob last) /\ alternates c false (handle_ops times glob last) = true /\
  amounts c (handle_ops times glob last) = 0.
Proof.
  induction times as [|now times IH]; intros glob last; [by split; [apply Forall_nil_2|]|].
  cbn [handle_ops]. case_match; [apply IH|].
  destruct (IH (if MONITOR_OUTPUT_INTERVAL <=? s32 now - glob then s32 now else glob)
    (if MONITOR_OUTPUT_INTERVAL <=? s32 now - glob then s32 now else glob)) as (Ho & Ha & Hz).
  split; [|split].
  - apply Forall_app_2; [|done]. by repeat apply Forall_cons_2; try apply Forall_nil_2.
  - by rewrite output_ops_alternate.
  - rewrite amounts_app, Hz. done.
Qed.

Lemma monitor_threads_amount times glob last calls :
  outstanding c (monitor_threads times glob last calls) = counted c calls.
Proof.
  unfold outstanding, monitor_threads, counted. rewrite fmap_cons, sum_cons, <- list_fmap_compose.
  cbn [code]. destruct (handle_ops_outputs times glob last) as (_ & _ & ->). rewrite Z.add_0_l. f_equal.
  apply list_fmap_ext. intros i es _. apply increment_accesses_amount.
Qed.

(** What was added is what the threads have no longer to add. *)
Lemma race_added schedule : forall ths s accesses ths' s',
  race schedule ths s = (accesses, (ths', s')) -> added c accesses + outstanding c ths' = outstanding c ths.
Proof.
  induction schedule as [|t schedule IH]; intros ths s accesses ths' s' Hr.
  { by injection Hr as <- <- <-. }
  cbn [race] in Hr. destruct (ths !! t) as [[[|a rest] r]|] eqn:Ht; [by eapply IH| |by eapply IH].
  destruct (access_step a r s) as [r1 s1].
  destruct (race schedule _ s1) as [l [ths1 s2]] eqn:Hrest. injection Hr as <- <- <-.
  rewrite added_cons, (outstanding_turn _ _ _ _ _ _ r1 Ht), <- (IH _ _ _ _ _ Hrest). lia.
Qed.

Lemma finished_remaining ths : Forall (fun th => code th = []) ths -> outstanding c ths = 0.
Proof.
  unfold outstanding. induction 1 as [|th ths Hth _ IH]; [done|].
  rewrite fmap_cons, sum_cons, IH, Hth. done.
Qed.
End threads.

(** ** Properties *)


(** ** A supervisor and two captures *)

Definition sample_calls : list (list increment) :=
  [[Increment 1 60; Increment 1 300]; [Increment 1 1500; IncrementGtp 1 120 2]].

(** The first packet is counted before the report, the second while the report
    is written, the rest after the counters were cleared. *)
Definition sample_schedule : list nat :=
  replicate 4 1%nat ++ replicate 9 0%nat ++ replicate 4 1%nat ++ replicate 7 0%nat ++ replicate 14 2%nat.

Definition sample_race (calls : list (list increment)) (schedule : list nat) :=
  let m := (monitor_open 1000 0 3 "eth0").1 in
  race schedule (monitor_threads [1011] 1000 1000 calls) (Shared m []).


(** When the supervisor clears a counter between the read and the write of an
    addition, what was reported is reported again. *)
Example addition_over_clear_recounts :
  let '(accesses, (ths', s)) := sample_race [[Increment 1 60; Increment 1 300]]
    (replicate 7 1%nat ++ replicate 16 0%nat ++ [1%nat]) in
  whole Bytes [] accesses = false /\ reported Bytes (sh_reported s) = 60 /\
  get Bytes (sh_monitor s) = 360.
Proof. vm_compute. auto. Qed.

(** When two captures add at once, one addition is lost. *)
Example additions_at_once_lose :
  let '(accesses, (ths', s)) := sample_race [[Increment 1 60]; [Increment 1 300]]
    (replicate 3 1%nat ++ replicate 4 2%nat ++ [1%nat]) in
  whole Bytes [] accesses = false /\ get Bytes (sh_monitor s) = 60.
Proof. vm_compute. auto. Qed.
