(* ===== verification/Untunnel.v ===== *)
(** * Untunnelling of GTP packets

    [pcapsession_untunnel_packet] of [pcapsession/pcapsession_untunnel.c] moves
    the packet carried by a GTP message up to just under the Ethernet header, in
    the packet's own memory.  The memory ([data]) is the capture ([caplen]
    octets) and whatever follows it; a [memmove] past its end is a fault. *)
From S2P Require Import Prelude GtpHeader Pcap Monitor.

(** The session is the monitor it would count on: [None] for a null session or
    a null monitor.  The result is the monitor, the header and the memory. *)
Definition pcapsession_untunnel_packet (mon : option monitor) (h : pcap_pkthdr) (data : list Z)
    : res (option monitor * pcap_pkthdr * list Z) :=
  hdr ← gtpv1_get_header (caplen h) data;
  match hdr with
  | None => mret (mon, h, data)
  | Some g =>
      gtp ← read_gtpv1hdr data g;
      let mon := monitor_increment_gtp mon 1 (len h) (flag_options gtp) in
      if negb (GTP_EXT_FLAG (flag_options gtp) =? 0) then mret (mon, h, data) else
      let source_ptr := g + sizeof_gtpv1hdr in
      let source_ptr :=
        if negb (flag_options gtp =? 0) then source_ptr + sizeof_gtpv1hdropt else source_ptr in
      let target_ptr := sizeof_ether_header in
      ether_type ← rd16be data offsetof_ether_type;
      let target_ptr :=
        if ether_type =? ETHERTYPE_VLAN then target_ptr + TAG_ETHER_802_1_Q_LENGTH
        else target_ptr in
      let dropped := source_ptr - target_ptr in
      data ← memmove data target_ptr source_ptr (u32 (caplen h - dropped));
      mret (mon, Pkthdr (ts h) (u32 (caplen h - dropped)) (u32 (len h - dropped)), data)
  end.

(** Where the carried packet starts, for the header at [g] with flags [opts],
    and where it is moved to. *)
Definition inner_offset (g opts : Z) : Z :=
  g + sizeof_gtpv1hdr + (if opts =? 0 then 0 else sizeof_gtpv1hdropt).
Definition link_length (pkt : list Z) : Z :=
  if word16 pkt 12 =? ETHERTYPE_VLAN then 18 else 14.

Section untunnel.
Implicit Types (pkt slack data : list Z).

Lemma read_gtpv1hdr_ok data g : 0 <= g -> g + 8 <= blen data ->
  read_gtpv1hdr data g = Ok (Gtpv1hdr (Z.land (octet data g) 7)
    (Z.land (Z.shiftr (octet data g) 3) 1) (Z.shiftr (octet data g) 4)
    (octet data (g + 1)) (word16 data (g + 2)) (word32 data (g + 4))).
Proof.
  intros. unfold read_gtpv1hdr.
  rewrite (rd8_ok data g), (rd8_ok data (g + 1)), (rd16be_ok data (g + 2)),
    (rd32be_ok data (g + 4)) by lia. done.
Qed.

Lemma link_length_range pkt : link_length pkt = 14 \/ link_length pkt = 18.
Proof. unfold link_length. case_match; auto. Qed.

(** After a move of [caplen - (s - t)] octets from [s] down to [t], the first
    [caplen - (s - t)] octets are the head before [t] and the capture from [s]. *)
Lemma memmove_captured pkt slack t s :
  0 <= t <= s -> s <= blen pkt -> t <= blen slack ->
  exists data', memmove (pkt ++ slack) t s (blen pkt - (s - t)) = Ok data'
    /\ blen data' = blen pkt + blen slack
    /\ take (Z.to_nat (blen pkt - (s - t))) data' = take (Z.to_nat t) pkt ++ drop (Z.to_nat s) pkt.
Proof.
  intros Ht Hs Hslack. set (n := blen pkt - (s - t)). unfold memmove.
  rewrite rd_bytes_ok by (rewrite ?blen_app; lia). cbn.
  set (l := take (Z.to_nat n) (drop (Z.to_nat s) (pkt ++ slack))).
  assert (Hl : blen l = n).
  { unfold l, blen. rewrite length_take, length_drop, length_app. unfold n, blen in *. lia. }
  rewrite wr_bytes_ok by (rewrite ?blen_app, ?Hl; lia).
  eexists. split; [done|]. split.
  - rewrite !blen_app. unfold blen at 1 3. rewrite length_take, length_drop, length_app.
    unfold blen in *. lia.
  - unfold blen in *. rewrite take_app_ge by (rewrite length_take, length_app; lia).
    rewrite length_take, length_app.
    replace (Z.to_nat n - _)%nat with (length pkt - Z.to_nat s)%nat by lia.
    rewrite take_app_le by lia. rewrite take_app_le by lia. f_equal. unfold l.
    rewrite take_take, Nat.min_l by lia.
    rewrite drop_app_le by lia. apply take_app_length'. rewrite length_drop. lia.
Qed.

Lemma memmove_past_end pkt slack t s :
  0 <= t <= s -> blen slack < t ->
  memmove (pkt ++ slack) t s (blen pkt - (s - t)) = Fault OutOfBounds.
Proof.
  intros. unfold memmove. by rewrite rd_bytes_oob by (rewrite blen_app; lia).
Qed.

Lemma octet_memory pkt slack i : 0 <= i < blen pkt -> octet (pkt ++ slack) i = octet pkt i.
Proof. apply octet_app_l. Qed.

(** The function on a capture whose GTP header is at [g]. *)
Lemma untunnel_at pkt slack mon h g :
  bytes_ok pkt -> blen pkt < 2 ^ 32 -> caplen h = blen pkt ->
  gtpv1_get_header (blen pkt) (pkt ++ slack) = Ok (Some g) -> 22 <= g -> g + 8 <= blen pkt ->
  let opts := Z.land (octet pkt g) 7 in
  let mon' := monitor_increment_gtp mon 1 (len h) opts in
  let n := caplen h - (inner_offset g opts - link_length pkt) in
  pcapsession_untunnel_packet mon h (pkt ++ slack) =
    if negb (GTP_EXT_FLAG opts =? 0) then Ok (mon', h, pkt ++ slack)
    else data' ← memmove (pkt ++ slack) (link_length pkt) (inner_offset g opts) n;
         Ok (mon', Pkthdr (ts h) n (u32 (len h - (inner_offset g opts - link_length pkt))), data').
Proof.
  intros Hb Hl Hc Hg Hg22 Hg8 opts mon' n. pose proof (blen_nonneg slack).
  unfold pcapsession_untunnel_packet. rewrite Hc, Hg. cbn.
  rewrite read_gtpv1hdr_ok by (rewrite ?blen_app; lia). cbn.
  rewrite octet_memory by lia. fold opts. destruct (negb (GTP_EXT_FLAG opts =? 0)); [done|].
  unfold offsetof_ether_type. rewrite (word16_slack pkt slack 12) by lia. cbn.
  assert (Hsrc : (if negb (opts =? 0) then g + sizeof_gtpv1hdr + sizeof_gtpv1hdropt
                  else g + sizeof_gtpv1hdr) = inner_offset g opts).
  { unfold inner_offset. destruct (opts =? 0); cbn; lia. }
  assert (Htgt : (if word16 pkt 12 =? ETHERTYPE_VLAN
                  then sizeof_ether_header + TAG_ETHER_802_1_Q_LENGTH
                  else sizeof_ether_header) = link_length pkt) by done.
  rewrite Hsrc, Htgt. pose proof (link_length_range pkt).
  assert (g + 8 <= inner_offset g opts <= g + 12)
    by (unfold inner_offset, sizeof_gtpv1hdr, sizeof_gtpv1hdropt; destruct (opts =? 0); lia).
  rewrite (u32_small (blen pkt - _)) by lia. unfold n. rewrite Hc. done.
Qed.
End untunnel.

(** ** Tunnelled packets *)

(** A GTP V1 message with option bits [opts]: flags octet, message type, length
    and TEID, the four octets of optional fields if any bit is set, and what it
    carries. *)
Definition gtp_message (opts mt : Z) (len teid opt inner : list Z) : list Z :=
  [48 + opts; mt] ++ len ++ teid ++ (if opts =? 0 then [] else opt) ++ inner.

Record message_ok (opts mt : Z) (len teid opt inner : list Z) : Prop := {
  mok_opts : 0 <= opts < 8;
  mok_mt : is_byte mt;
  mok_len : blen len = 2 /\ bytes_ok len;
  mok_teid : blen teid = 4 /\ bytes_ok teid;
  mok_opt : blen opt = 4 /\ bytes_ok opt;
  mok_inner : bytes_ok inner }.

Section tunnelled.
Context (o : outer) (opts mt : Z) (mlen teid opt inner slack : list Z).
Context (Ho : outer_ok o) (Hm : message_ok opts mt mlen teid opt inner).

Let msg : list Z := gtp_message opts mt mlen teid opt inner.
Let head : list Z := [48 + opts; mt] ++ mlen ++ teid ++ (if opts =? 0 then [] else opt).

Lemma message_split : msg = head ++ inner.
Proof. unfold msg, head, gtp_message. by rewrite <- !(assoc_L (++)). Qed.

Lemma head_length : blen head = if opts =? 0 then 8 else 12.
Proof.
  destruct Hm as [_ _ [Hl _] [Ht _] [Hop _] _]. unfold head.
  rewrite !blen_app, Hl, Ht. by destruct (opts =? 0); rewrite ?Hop.
Qed.

Lemma message_bytes : bytes_ok msg.
Proof.
  destruct Hm as [Hop Hmt [_ Hl] [_ Ht] [_ Hopt] Hi]. unfold msg, gtp_message, bytes_ok.
  repeat apply Forall_app_2; try done; [|by destruct (opts =? 0)].
  repeat constructor; unfold is_byte in *; lia.
Qed.

Lemma message_flags : Z.land (octet msg 0) 7 = opts /\ Z.shiftr (octet msg 0) 4 = GTP_V1_TYPEVER.
Proof.
  destruct Hm as [Hop _ _ _ _ _].
  change (octet msg 0) with (48 + opts). change 7 with (Z.ones 3).
  rewrite Z.land_ones, Z.shiftr_div_pow2 by lia. split.
  - symmetry. apply (Z.mod_unique _ _ 6); lia.
  - symmetry. apply (Z.div_unique _ _ _ opts); [lia|]. unfold GTP_V1_TYPEVER. lia.
Qed.

Lemma link_length_encapsulate : link_length (encapsulate o msg) = blen (ether_bytes o).
Proof.
  rewrite (blen_ether o Ho). unfold link_length, encapsulate, ether_bytes.
  pose proof (ok_mac o Ho) as [Hmac _]. rewrite <- !(assoc_L (++)).
  rewrite (word16_shift (o_mac o) _ 12) by (done || lia).
  by destruct (o_tag o).
Qed.

Lemma message_octet i : 0 <= i < blen msg ->
  octet (encapsulate o msg) (gtp_offset o + i) = octet msg i.
Proof.
  intros Hi. pose proof (blen_encapsulate o [] Ho) as Hoff. unfold blen in Hoff at 2.
  cbn in Hoff. unfold encapsulate in *. rewrite app_nil_r in Hoff.
  rewrite !(assoc_L (++)). rewrite !(assoc_L (++)) in Hoff.
  rewrite (octet_shift _ msg _ _ Hoff) by lia. f_equal. lia.
Qed.

Lemma drop_to_inner : 
  drop (Z.to_nat (inner_offset (gtp_offset o) opts)) (encapsulate o msg) = inner.
Proof.
  pose proof (blen_encapsulate o [] Ho) as Hoff. unfold blen in Hoff at 2. cbn in Hoff.
  pose proof head_length as Hh. pose proof (ok_ihl o Ho).
  unfold encapsulate in *. rewrite app_nil_r in Hoff.
  rewrite message_split, !(assoc_L (++)). rewrite !(assoc_L (++)) in Hoff.
  apply drop_app_length'. rewrite length_app. unfold blen in *.
  unfold inner_offset, sizeof_gtpv1hdr, sizeof_gtpv1hdropt.
  destruct (opts =? 0); lia.
Qed.

Lemma take_link : take (Z.to_nat (blen (ether_bytes o))) (encapsulate o msg) = ether_bytes o.
Proof. unfold encapsulate, blen. rewrite Nat2Z.id. apply take_app_length. Qed.

Lemma untunnel_header_found :
  blen (encapsulate o msg) < 2 ^ 32 ->
  gtpv1_get_header (blen (encapsulate o msg)) (encapsulate o msg ++ slack)
    = Ok (Some (gtp_offset o)).
Proof.
  intros Hl. apply get_header_encapsulate; try done.
  - apply message_bytes.
  - rewrite message_split, blen_app, head_length. pose proof (blen_nonneg inner).
    destruct (opts =? 0); lia.
  - apply message_flags.
Qed.

(** What precedes the carried packet does not depend on it. *)
Lemma message_head_split : exists pre,
  blen pre = inner_offset (gtp_offset o) opts /\
  forall inner', encapsulate o (gtp_message opts mt mlen teid opt inner') = pre ++ inner'.
Proof.
  exists (encapsulate o head). split.
  - rewrite (blen_encapsulate o head Ho), head_length. unfold inner_offset, sizeof_gtpv1hdr,
      sizeof_gtpv1hdropt. destruct (opts =? 0); lia.
  - intros inner'. unfold encapsulate, head, gtp_message. by rewrite <- !(assoc_L (++)).
Qed.

Lemma message_header_read : exists len teid' res,
  read_gtpv1hdr (encapsulate o msg ++ slack) (gtp_offset o) =
    Ok (Gtpv1hdr opts res GTP_V1_TYPEVER mt len teid').
Proof.
  assert (Hlen : 8 <= blen msg).
  { rewrite message_split, blen_app, head_length. pose proof (blen_nonneg inner).
    destruct (opts =? 0); lia. }
  pose proof (blen_encapsulate o msg Ho). pose proof (ok_ihl o Ho).
  assert (0 <= gtp_offset o) by (unfold gtp_offset; destruct (o_tag o); lia).
  pose proof (blen_nonneg slack).
  rewrite read_gtpv1hdr_ok by (rewrite ?blen_app; lia).
  rewrite !octet_app_l by lia. do 3 eexists. f_equal.
  pose proof (message_octet 0 ltac:(lia)) as Hoct0. rewrite Z.add_0_r in Hoct0.
  pose proof (message_octet 1 ltac:(lia)) as Hoct1. rewrite Hoct0, Hoct1.
  destruct message_flags as [-> ->]. change (octet msg 1) with mt. reflexivity.
Qed.

Lemma GTP_EXT_FLAG_opts : 0 <= opts < 8 -> (GTP_EXT_FLAG opts =? 0) = (opts <? 4).
Proof.
  intros. assert (opts = 0 \/ opts = 1 \/ opts = 2 \/ opts = 3 \/ opts = 4 \/ opts = 5
    \/ opts = 6 \/ opts = 7) as Hcases by lia.
  revert Hcases. generalize opts. intros z Hz. by destruct_or! Hz; subst.
Qed.
End tunnelled.

(** ** Properties *)

Section properties.
Context (o : outer) (opts mt : Z) (mlen teid opt inner : list Z).
Let pkt : list Z := encapsulate o (gtp_message opts mt mlen teid opt inner).

Lemma untunnel_message slack mon h :
  outer_ok o -> message_ok opts mt mlen teid opt inner ->
  blen pkt < 2 ^ 32 -> caplen h = blen pkt ->
  let t := blen (ether_bytes o) in
  let s := inner_offset (gtp_offset o) opts in
  pcapsession_untunnel_packet mon h (pkt ++ slack) =
    if opts <? 4 then
      data' ← memmove (pkt ++ slack) t s (blen pkt - (s - t));
      Ok (monitor_increment_gtp mon 1 (len h) opts,
          Pkthdr (ts h) (blen pkt - (s - t)) (u32 (len h - (s - t))), data')
    else Ok (monitor_increment_gtp mon 1 (len h) opts, h, pkt ++ slack).
Proof.
  intros Ho Hm Hl Hc t s.
  pose proof (message_flags opts mt mlen teid opt inner Hm) as [Hf _].
  pose proof (mok_opts _ _ _ _ _ _ Hm) as Hopts. pose proof (ok_ihl o Ho).
  assert (Hg : gtp_offset o + 8 <= blen pkt).
  { unfold pkt. rewrite blen_encapsulate, message_split, blen_app by done.
    rewrite (head_length opts mt mlen teid opt inner Hm). pose proof (blen_nonneg inner).
    destruct (opts =? 0); lia. }
  assert (Hg22 : 22 <= gtp_offset o) by (unfold gtp_offset; destruct (o_tag o); lia).
  assert (Ho0 : Z.land (octet pkt (gtp_offset o)) 7 = opts).
  { rewrite <- Hf. f_equal. rewrite <- (Z.add_0_r (gtp_offset o)).
    apply (message_octet o opts mt mlen teid opt inner Ho).
    rewrite message_split, blen_app, (head_length opts mt mlen teid opt inner Hm).
    pose proof (blen_nonneg inner). destruct (opts =? 0); lia. }
  rewrite (untunnel_at pkt slack mon h (gtp_offset o)); try done.
  - rewrite Ho0, (GTP_EXT_FLAG_opts opts Hopts), Hc.
    assert (link_length pkt = t) as -> by
      apply (link_length_encapsulate o opts mt mlen teid opt inner Ho).
    by destruct (opts <? 4).
  - by apply encapsulate_bytes; [|apply (message_bytes opts mt mlen teid opt inner Hm)].
  - by apply (untunnel_header_found o opts mt mlen teid opt inner slack Ho Hm).
Qed.

Lemma inner_offset_bounds : outer_ok o -> message_ok opts mt mlen teid opt inner ->
  0 <= blen (ether_bytes o) <= inner_offset (gtp_offset o) opts /\
  blen pkt = inner_offset (gtp_offset o) opts + blen inner.
Proof.
  intros Ho Hm. pose proof (ok_ihl o Ho). unfold pkt.
  rewrite blen_encapsulate, message_split, blen_app, (head_length opts mt mlen teid opt inner Hm),
    (blen_ether o Ho) by done.
  unfold inner_offset, gtp_offset, sizeof_gtpv1hdr, sizeof_gtpv1hdropt.
  destruct (o_tag o), (opts =? 0); lia.
Qed.

Lemma untunnel_restores (slack : list Z) (mon : option monitor) (h : pcap_pkthdr) :
  outer_ok o -> message_ok opts mt mlen teid opt inner -> opts < 4 ->
  blen pkt < 2 ^ 32 -> caplen h = blen pkt -> blen pkt <= len h < 2 ^ 32 ->
  blen (ether_bytes o) <= blen slack ->
  exists h' data',
    pcapsession_untunnel_packet mon h (pkt ++ slack)
      = Ok (monitor_increment_gtp mon 1 (len h) opts, h', data') /\
    captured (h', data') = ether_bytes o ++ inner /\
    caplen h' = blen (ether_bytes o) + blen inner /\
    len h' = len h - (caplen h - caplen h') /\ ts h' = ts h /\
    blen data' = blen pkt + blen slack.
Proof.
  intros Ho Hm Hopts Hl Hc Hlen Hslack.
  destruct (inner_offset_bounds Ho Hm) as [Ht Hp]. pose proof (blen_nonneg inner).
  destruct (memmove_captured pkt slack (blen (ether_bytes o)) (inner_offset (gtp_offset o) opts))
    as (data' & Hmm & Hd & Hcap); [done|lia|done|].
  rewrite untunnel_message by done. rewrite (proj2 (Z.ltb_lt opts 4)) by lia.
  cbv zeta. rewrite Hmm. cbn. eexists _, data'. split; [done|]. cbn [caplen len ts].
  repeat split; try done; try lia.
  - unfold captured. cbn. rewrite Hcap. unfold pkt. f_equal.
    + apply take_link.
    + by apply (drop_to_inner o opts mt mlen teid opt inner Ho Hm).
  - rewrite u32_small; lia.
Qed.

(** C27: untunnelling a GTP message that has no extension header yields the
    Ethernet header, tag included, followed by the carried packet and nothing
    else: the captured and original lengths drop by the same number of octets,
    the time stamp stays, and the message is counted once on the monitor with
    its original length and flags.  The memory after the capture has to have
    room for one more Ethernet header (see the next property). *)
Theorem untunnel_restores_inner (slack : list Z) (mon : option monitor) (h : pcap_pkthdr) :
  outer_ok o -> message_ok opts mt mlen teid opt inner -> opts < 4 ->
  blen pkt < 2 ^ 32 -> caplen h = blen pkt -> blen pkt <= len h < 2 ^ 32 ->
  blen (ether_bytes o) <= blen slack ->
  exists h' data',
    pcapsession_untunnel_packet mon h (pkt ++ slack)
      = Ok (monitor_increment_gtp mon 1 (len h) opts, h', data') /\
    captured (h', data') = ether_bytes o ++ inner /\
    caplen h' = blen (ether_bytes o) + blen inner /\
    len h' = len h - (caplen h - caplen h') /\ ts h' = ts h /\
    blen data' = blen pkt + blen slack.
Proof. apply untunnel_restores. Qed.

(** C28: the length the code gives [memmove] counts the Ethernet header that
    stays in place, so untunnelling always reads one Ethernet header past the
    capture: with less memory than that behind the capture, every message
    without an extension header makes it read out of bounds. *)
Theorem untunnel_reads_past_capture (slack : list Z) (mon : option monitor) (h : pcap_pkthdr) :
  outer_ok o -> message_ok opts mt mlen teid opt inner -> opts < 4 ->
  blen pkt < 2 ^ 32 -> caplen h = blen pkt -> blen slack < blen (ether_bytes o) ->
  pcapsession_untunnel_packet mon h (pkt ++ slack) = Fault OutOfBounds.
Proof.
  intros Ho Hm Hopts Hl Hc Hslack. destruct (inner_offset_bounds Ho Hm) as [Ht Hp].
  rewrite untunnel_message by done. rewrite (proj2 (Z.ltb_lt opts 4)) by lia.
  cbv zeta. by rewrite memmove_past_end.
Qed.
End properties.

(** A packet without a GTP V1 header is handed on as it is and not counted;
    a GTP message with an extension header is handed on as it is and counted. *)
Theorem untunnel_leaves_others (pkt slack : list Z) (mon : option monitor) (h : pcap_pkthdr) :
  bytes_ok pkt -> blen pkt < 2 ^ 32 -> caplen h = blen pkt ->
  truncated_tag pkt = false -> truncated_ip pkt = false ->
  match ref_get_header pkt with
  | None => pcapsession_untunnel_packet mon h (pkt ++ slack) = Ok (mon, h, pkt ++ slack)
  | Some g =>
      Z.testbit (octet pkt g) 2 = true ->
      pcapsession_untunnel_packet mon h (pkt ++ slack) =
        Ok (monitor_increment_gtp mon 1 (len h) (Z.land (octet pkt g) 7), h, pkt ++ slack)
  end.
Proof.
  intros Hb Hl Hc Ht Hi. pose proof (get_header_ref pkt slack Hb Hl Ht Hi) as Hg.
  destruct (ref_get_header pkt) as [g|] eqn:E.
  - intros Hbit. destruct (ref_get_header_Some pkt g Hb E) as [Hgr Hg8].
    rewrite (untunnel_at pkt slack mon h g) by (done || lia). cbv zeta.
    replace (GTP_EXT_FLAG (Z.land (octet pkt g) 7)) with 1; [done|].
    unfold GTP_EXT_FLAG. rewrite <- Z.land_assoc. change (Z.land 7 4) with (2 ^ 2).
    symmetry. apply Z.bits_inj'. intros n Hn. rewrite Z.shiftr_spec, Z.land_spec by lia.
    rewrite Z.pow2_bits_eqb by lia. destruct (Z.eqb_spec 2 (n + 2)).
    + assert (n = 0) as -> by lia. change (0 + 2) with 2. by rewrite Hbit.
    + rewrite andb_false_r. destruct n; [lia| |lia]. by destruct p.
  - unfold pcapsession_untunnel_packet. rewrite Hc, Hg. done.
Qed.

(** ** Witnesses *)

Definition sample_inner : list Z := replicate 20 69.
Definition sample_header : pcap_pkthdr := Pkthdr (Timeval 100 5) 78 78.

Lemma sample_message_ok opts : 0 <= opts < 8 ->
  message_ok opts 255 [0; 24] [0; 0; 0; 7] [0; 1; 0; 0] sample_inner.
Proof.
  intros. split; try done; try (split; [reflexivity|bytes_tac]). bytes_tac.
Qed.

Lemma untunnel_restores_inner_witness :
  exists h' data',
    pcapsession_untunnel_packet None sample_header
      (encapsulate sample_outer (gtp_message 2 255 [0; 24] [0; 0; 0; 7] [0; 1; 0; 0] sample_inner)
        ++ replicate 32 170) = Ok (None, h', data') /\
    captured (h', data') = ether_bytes sample_outer ++ sample_inner /\
    caplen h' = 38 /\ len h' = len sample_header - (caplen sample_header - caplen h') /\
    ts h' = ts sample_header /\ blen data' = 110.
Proof.
  apply (untunnel_restores_inner sample_outer 2 255 [0; 24] [0; 0; 0; 7] [0; 1; 0; 0] sample_inner
    (replicate 32 170) None sample_header);
    [apply sample_outer_ok | apply sample_message_ok; lia | lia | z_compute | reflexivity
    | z_compute | z_compute].
Defined.

Lemma untunnel_reads_past_capture_witness :
  pcapsession_untunnel_packet None sample_header
    (encapsulate sample_outer (gtp_message 2 255 [0; 24] [0; 0; 0; 7] [0; 1; 0; 0] sample_inner)
      ++ replicate 17 170) = Fault OutOfBounds.
Proof.
  apply (untunnel_reads_past_capture sample_outer 2 255 [0; 24] [0; 0; 0; 7] [0; 1; 0; 0]
    sample_inner (replicate 17 170) None sample_header);
    [apply sample_outer_ok | apply sample_message_ok; lia | lia | z_compute | reflexivity
    | z_compute].
Defined.

Definition sample_extended : list Z :=
  encapsulate sample_outer (gtp_message 4 255 [0; 24] [0; 0; 0; 7] [0; 1; 0; 0] sample_inner).

Lemma untunnel_leaves_others_witness :
  pcapsession_untunnel_packet None sample_header (sample_extended ++ [1; 2])
    = Ok (None, sample_header, sample_extended ++ [1; 2]).
Proof.
  pose proof (untunnel_leaves_others sample_extended [1; 2] None sample_header) as H.
  assert (Hg : ref_get_header sample_extended = Some 46) by reflexivity.
  rewrite Hg in H. apply H; try reflexivity. bytes_tac.
Defined.
