(* ===== verification/GtpWalk.v ===== *)
(** * The walk over the information elements of a GTP-C message

    [decodegtp.c] and [gtpimsieua.c] share the same loop: read the element type
    at the running offset, look its layout up, take the body length from the
    table (TV) or from the packet (TLV), stop when header or body would pass
    [caplen], act on the element, advance, stop at the end of the message.  The
    loop is modelled once with the action as a parameter ([visit]); the two
    programs instantiate it.  Offsets are relative to the GTP header at [g],
    while the bound the code tests is the length of the whole capture. *)
From S2P Require Import Prelude GtpTables GtpHeader.
Import InformationElements TableFacts.

(** Element type, layout and bounds tests at [offset]: [None] is a [break],
    otherwise the type and the number of octets to advance. *)
Definition ie_next (data : list Z) (g caplen offset : Z) : res (option (Z * Z)) :=
  ie ← rd8 data (g + offset);
  let row := gtpv1_information_elements !!! Z.to_nat ie in
  if caplen <=? offset + ie_header_length row then mret None else
  body_length ←
    (if GTPV1_FIRST_TLV_IE <=? ie then rd16be data (g + offset + 1)
     else mret (ie_body_length row));
  if caplen <=? offset + ie_header_length row + body_length then mret None else
  mret (Some (ie, ie_header_length row + body_length)).

Section walk.
Context {S : Type}.
(** What the program does with the element of the given type at the given
    position of the memory. *)
Context (visit : S -> Z -> Z -> res S).
(** The memory, the offset of the GTP header, the captured length, and the
    length field of the GTP header. *)
Context (data : list Z) (g caplen glen : Z).

(** [while (offset < header->caplen)].  [None] when the fuel runs out. *)
Fixpoint ie_loop (fuel : nat) (offset : Z) (s : S) : option (res S) :=
  match fuel with
  | O => None
  | Datatypes.S fuel =>
      if caplen <=? offset then Some (Ok s) else
      match ie_next data g caplen offset with
      | Fault f => Some (Fault f)
      | Ok None => Some (Ok s)
      | Ok (Some (ie, advance)) =>
          match visit s ie (g + offset) with
          | Fault f => Some (Fault f)
          | Ok s =>
              let offset := offset + advance in
              if sizeof_gtpv1hdr + glen <=? offset then Some (Ok s)
              else ie_loop fuel offset s
          end
      end
  end.

(** ** Progress *)

Lemma ie_next_Some offset ie adv :
  bytes_ok data -> ie_next data g caplen offset = Ok (Some (ie, adv)) ->
  is_byte ie /\ 0 <= adv /\ offset + adv < caplen /\
  (adv = 0 -> (ie ∉ declared_information_elements)).
Proof.
  intros Hb H. unfold ie_next in H. apply res_bind_Ok in H as (b & Hr & H).
  apply rd8_Ok_inv in Hr as [Hr ->].
  pose proof (octet_range data (g + offset) Hb) as Hbyte.
  destruct (ie_row (octet data (g + offset))) as (e & He & Hrow); [unfold is_byte in *; lia|].
  rewrite (list_lookup_total_correct _ _ _ He) in H.
  destruct (Z.leb_spec caplen (offset + ie_header_length e)); [done|].
  apply res_bind_Ok in H as (bl & Hbl & H).
  destruct (Z.leb_spec caplen (offset + ie_header_length e + bl)); [done|].
  injection H as <- <-. split; [done|].
  assert (0 <= bl /\ (ie_header_length e + bl = 0 ->
    octet data (g + offset) ∉ declared_information_elements) /\ 0 <= ie_header_length e)
    as (? & ? & ?); [|repeat split; try done; lia].
  unfold GTPV1_FIRST_TLV_IE in *.
  destruct (Z.leb_spec 128 (octet data (g + offset))) as [Hge|Hlt].
  - assert (0 <= bl).
    { unfold rd16be in Hbl. res_inv.
      repeat match goal with H : rd8 _ _ = Ok _ |- _ =>
        apply rd8_Ok_inv in H as [_ ->] end.
      pose proof (octet_range data (g + offset + 1) Hb).
      pose proof (octet_range data (g + offset + 1 + 1) Hb). unfold is_byte in *. lia. }
    destruct Hrow as [(Hd & _ & _ & _ & _ & Hl)|[Hd ->]]; [|cbn; auto with lia].
    destruct Hl as [Hl _]; [done|]. rewrite Hl. repeat split; lia.
  - injection Hbl as <-.
    destruct Hrow as [(Hd & _ & _ & _ & Hl & _)|[Hd ->]]; [|cbn; auto with lia].
    destruct Hl as [Hl1 Hl2]; [done|]. rewrite Hl1. repeat split; lia.
Qed.

(** The element is the one at the offset. *)
Lemma ie_next_type offset ie adv : ie_next data g caplen offset = Ok (Some (ie, adv)) ->
  ie = octet data (g + offset).
Proof.
  unfold ie_next. intros H. apply res_bind_Ok in H as (b & Hr & H). apply rd8_Ok_inv in Hr as [_ ->].
  case_match; [done|]. apply res_bind_Ok in H as (bl & _ & H). case_match; [done|].
  by injection H as <- _.
Qed.

(** An element that advances by nothing is visited for ever. *)
Lemma ie_loop_stuck offset ie :
  offset < caplen -> offset < sizeof_gtpv1hdr + glen ->
  ie_next data g caplen offset = Ok (Some (ie, 0)) ->
  (forall s, exists s', visit s ie (g + offset) = Ok s') ->
  forall fuel s, ie_loop fuel offset s = None.
Proof.
  intros Hc Hg Hn Hv. induction fuel as [|fuel IH]; intros s; [done|]. cbn.
  rewrite (proj2 (Z.leb_gt _ _)) by lia. rewrite Hn. destruct (Hv s) as [s' ->].
  rewrite Z.add_0_r, (proj2 (Z.leb_gt _ _)) by lia. apply IH.
Qed.

(** The offsets at which the walk from [offset] makes a turn, as long as [visit]
    does not fault. *)
Inductive ie_turn (offset : Z) : Z -> Prop :=
  | turn_first : ie_turn offset offset
  | turn_next off ie advance : ie_turn offset off -> off < caplen ->
      ie_next data g caplen off = Ok (Some (ie, advance)) ->
      off + advance < sizeof_gtpv1hdr + glen -> ie_turn offset (off + advance).

(** Some turn finds an element that advances by nothing before the end of the
    message. *)
Definition stands_still (offset : Z) : Prop :=
  exists off ie, ie_turn offset off /\ off < caplen /\ off < sizeof_gtpv1hdr + glen /\
    ie_next data g caplen off = Ok (Some (ie, 0)).

Lemma ie_turn_later offset off ie advance off' : offset < caplen ->
  ie_next data g caplen offset = Ok (Some (ie, advance)) ->
  offset + advance < sizeof_gtpv1hdr + glen -> off = offset + advance ->
  ie_turn off off' -> ie_turn offset off'.
Proof.
  intros Hc Hn Hg -> Ht. induction Ht as [|off ie' adv' _ IH Hc' Hn' Hg'].
  - eapply turn_next; [apply turn_first|done..].
  - by eapply turn_next.
Qed.

(** When no turn stands still, [caplen - offset] turns and one more are enough. *)
Lemma ie_loop_terminates fuel : forall offset s,
  bytes_ok data -> ~ stands_still offset ->
  (Z.to_nat (caplen - offset) < fuel)%nat ->
  exists r, ie_loop fuel offset s = Some r.
Proof.
  induction fuel as [|fuel IH]; intros offset s Hb Hp Hf; [lia|]. cbn.
  destruct (Z.leb_spec caplen offset); [by eauto|].
  destruct (ie_next data g caplen offset) as [[[ie adv]|]|f] eqn:En; [|by eauto|by eauto].
  destruct (visit s ie (g + offset)) as [s'|f]; [|by eauto].
  destruct (Z.leb_spec (sizeof_gtpv1hdr + glen) (offset + adv)); [by eauto|].
  destruct (ie_next_Some _ _ _ Hb En) as (_ & Hadv & _ & _).
  assert (adv <> 0).
  { intros ->. apply Hp. exists offset, ie. split; [apply turn_first|]. by rewrite Z.add_0_r in *. }
  apply IH; [done| |lia]. intros (off & ie' & Ht & Hrest). apply Hp. exists off, ie'.
  split; [by eapply ie_turn_later|done].
Qed.

(** When one does, no fuel is enough, unless [visit] faults first. *)
Lemma ie_loop_diverges offset off : ie_turn offset off ->
  (forall s ie p, exists s', visit s ie p = Ok s') ->
  (forall fuel s, ie_loop fuel off s = None) -> forall fuel s, ie_loop fuel offset s = None.
Proof.
  intros Ht Hv. induction Ht as [|off ie adv _ IH Hc Hn Hg]; [done|]. intros Hoff. apply IH.
  intros [|fuel] s; [done|]. cbn. rewrite (proj2 (Z.leb_gt _ _)) by lia. rewrite Hn.
  destruct (Hv s ie (g + off)) as [s' ->]. rewrite (proj2 (Z.leb_gt _ _)) by lia. apply Hoff.
Qed.

(** A loop that has returned returns the same with more fuel. *)
Lemma ie_loop_more fuel1 fuel2 : forall offset s r, (fuel1 <= fuel2)%nat ->
  ie_loop fuel1 offset s = Some r -> ie_loop fuel2 offset s = Some r.
Proof.
  revert fuel2. induction fuel1 as [|fuel1 IH]; intros [|fuel2] offset s r Hle H; try done; try lia.
  cbn in *. case_match; [done|]. repeat (case_match; try done). apply IH; [lia|done].
Qed.

(** ** Encoded elements *)

End walk.

(** An information element: its type and body. *)
Record element := Element { el_type : Z; el_body : list Z }.

Definition el_header_length (e : element) : Z :=
  if el_type e <? GTPV1_FIRST_TLV_IE then 1 else 3.
Definition encode_element (e : element) : list Z :=
  (if el_type e <? GTPV1_FIRST_TLV_IE then [el_type e]
   else el_type e :: be16 (blen (el_body e))) ++ el_body e.
Definition encode_elements (es : list element) : list Z := es ≫= encode_element.

(** A declared element whose body has the length its type prescribes. *)
Record element_ok (e : element) : Prop := {
  eok_declared : el_type e ∈ declared_information_elements;
  eok_type : is_byte (el_type e);
  eok_bytes : bytes_ok (el_body e);
  eok_tv : el_type e < GTPV1_FIRST_TLV_IE ->
    blen (el_body e) = ie_body_length (gtpv1_information_elements !!! Z.to_nat (el_type e));
  eok_tlv : blen (el_body e) < 65536 }.

Section encoded.
Context {S : Type} (visit : S -> Z -> Z -> res S).

(** The visits of a list of elements that starts at position [p]. *)
Fixpoint visit_elements (es : list element) (p : Z) (s : S) : res S :=
  match es with
  | [] => mret s
  | e :: es => s ← visit s (el_type e) p; visit_elements es (p + blen (encode_element e)) s
  end.

Lemma blen_encode_element e :
  blen (encode_element e) = el_header_length e + blen (el_body e).
Proof. unfold encode_element, el_header_length. rewrite blen_app. by destruct (_ <? _). Qed.

Lemma ie_next_element data g caplen offset e pre post :
  element_ok e -> data = pre ++ encode_element e ++ post -> g + offset = blen pre ->
  offset + blen (encode_element e) < caplen ->
  ie_next data g caplen offset = Ok (Some (el_type e, blen (encode_element e))).
Proof.
  intros He -> Hp Hc. rewrite blen_encode_element in *. pose proof (blen_nonneg (el_body e)).
  assert (Hlen : el_header_length e + blen (el_body e) <=
    blen (encode_element e ++ post)) by
    (rewrite blen_app, blen_encode_element; pose proof (blen_nonneg post); lia).
  assert (Hh : 1 <= el_header_length e) by (unfold el_header_length; case_match; lia).
  unfold ie_next. rewrite Hp.
  rewrite rd8_ok by (rewrite blen_app; pose proof (blen_nonneg pre); lia).
  rewrite (octet_shift pre _ _ _ eq_refl), Z.sub_diag by lia.
  assert (Ho : octet (encode_element e ++ post) 0 = el_type e)
    by (unfold encode_element; by destruct (_ <? _)).
  rewrite Ho. cbn.
  pose proof (eok_type e He) as Hb. unfold is_byte in Hb.
  destruct (ie_row (el_type e) Hb) as (row & Hrow & Hspec).
  pose proof (eok_tv e He) as Htv.
  rewrite (list_lookup_total_correct _ _ _ Hrow) in *.
  destruct Hspec as [(_ & _ & _ & _ & Hlt & Hge)|[Hd _]]; [|by destruct Hd; apply eok_declared].
  unfold el_header_length, GTPV1_FIRST_TLV_IE in *.
  destruct (Z.ltb_spec (el_type e) 128) as [Hty|Hty].
  - destruct Hlt as [Hl _]; [done|]. rewrite Hl. rewrite (proj2 (Z.leb_gt 128 _)) by lia.
    rewrite (proj2 (Z.leb_gt caplen (offset + 1))) by lia. cbn.
    rewrite <- Htv by done. by rewrite (proj2 (Z.leb_gt caplen _)) by lia.
  - destruct Hge as [Hl _]; [done|]. rewrite Hl. rewrite (proj2 (Z.leb_le 128 _)) by lia.
    rewrite (proj2 (Z.leb_gt caplen (offset + 3))) by lia.
    rewrite rd16be_ok by (rewrite ?blen_app in *; pose proof (blen_nonneg pre); lia).
    rewrite (word16_shift pre _ _ _ eq_refl) by lia.
    replace (blen pre + 1 - blen pre) with 1 by lia.
    assert (Hw : word16 (encode_element e ++ post) 1 = blen (el_body e)).
    { unfold encode_element, GTPV1_FIRST_TLV_IE. rewrite (proj2 (Z.ltb_ge _ _)) by lia.
      rewrite <- (assoc_L (++)). cbn [app].
      change (?x :: ?l) with ([x] ++ l) at 1. rewrite (word16_shift [el_type e] _ 1) by (done || lia).
      apply word16_be16. lia. }
    rewrite Hw. cbn. by rewrite (proj2 (Z.leb_gt caplen _)) by lia.
Qed.

Lemma encode_element_pos e : 1 <= blen (encode_element e).
Proof.
  rewrite blen_encode_element. pose proof (blen_nonneg (el_body e)).
  unfold el_header_length. case_match; lia.
Qed.

(** The walk over an encoded message visits its elements, in order and each
    once, and stops at the end of the message. *)
Lemma ie_loop_encoded data g caplen glen post es : forall fuel offset pre s,
  Forall element_ok es -> es <> [] -> (length es <= fuel)%nat ->
  data = pre ++ encode_elements es ++ post -> g + offset = blen pre ->
  offset + blen (encode_elements es) = sizeof_gtpv1hdr + glen ->
  sizeof_gtpv1hdr + glen < caplen ->
  ie_loop visit data g caplen glen fuel offset s = Some (visit_elements es (g + offset) s).
Proof.
  induction es as [|e es IH]; intros [|fuel] offset pre s Hok Hne Hf Hd Hp Hl Hc;
    try done; [cbn in Hf; lia|].
  apply Forall_cons in Hok as [He Hes]. cbn in Hf.
  unfold encode_elements in Hd, Hl. cbn [mbind list_bind] in Hd, Hl.
  fold (encode_elements es) in Hd, Hl. rewrite <- (assoc_L (++)) in Hd.
  pose proof (encode_element_pos e). pose proof (blen_nonneg (encode_elements es)).
  rewrite blen_app in Hl. cbn [ie_loop visit_elements].
  rewrite (proj2 (Z.leb_gt caplen _)) by lia.
  rewrite (ie_next_element data g caplen offset e pre (encode_elements es ++ post))
    by (done || lia).
  destruct (visit s (el_type e) (g + offset)) as [s'|f]; [|done]. cbn [mbind res_bind].
  destruct es as [|e' es].
  - change (blen (encode_elements [])) with 0 in Hl. rewrite (proj2 (Z.leb_le _ _)) by lia. done.
  - assert (1 <= blen (encode_elements (e' :: es))).
    { unfold encode_elements. cbn [mbind list_bind]. rewrite blen_app.
      pose proof (encode_element_pos e'). pose proof (blen_nonneg (es ≫= encode_element)). lia. }
    rewrite (proj2 (Z.leb_gt _ _)) by lia.
    rewrite (IH fuel (offset + blen (encode_element e)) (pre ++ encode_element e) s').
    + by rewrite Z.add_assoc.
    + done.
    + done.
    + lia.
    + rewrite <- (assoc_L (++)). done.
    + rewrite blen_app. lia.
    + lia.
    + done.
Qed.
End encoded.

(** ** Properties *)

Section properties.
Context {S : Type} (visit : S -> Z -> Z -> res S).

(** C30: walking an encoded message.  Over any non-empty sequence of declared
    elements, encoded TV or TLV, the walk visits exactly these elements, in
    order, each at its position, and stops at the end of the message; as much
    fuel as there are elements is enough. *)
Theorem ie_walk_round_trip (pre post : list Z) (es : list element) (g caplen glen offset : Z)
    (s : S) :
  Forall element_ok es -> es <> [] -> g + offset = blen pre ->
  offset + blen (encode_elements es) = sizeof_gtpv1hdr + glen ->
  sizeof_gtpv1hdr + glen < caplen ->
  forall fuel, (length es <= fuel)%nat ->
  ie_loop visit (pre ++ encode_elements es ++ post) g caplen glen fuel offset s
    = Some (visit_elements visit es (g + offset) s).
Proof. intros. by eapply ie_loop_encoded. Qed.

(** C31: termination of the walk.  A turn stands still when it finds, before the
    end of the message, an element that advances by nothing.  The walk returns
    within [caplen - offset + 1] turns when none of the turns it makes stands
    still, which declared elements never do; and, with a program whose visits do
    not fault, it returns only then. *)
Theorem ie_walk_terminates (data : list Z) (g caplen glen offset : Z) (s : S) :
  bytes_ok data ->
  (~ stands_still data g caplen glen offset ->
   exists r, ie_loop visit data g caplen glen (Datatypes.S (Z.to_nat (caplen - offset))) offset s
     = Some r) /\
  ((forall s ie p, exists s', visit s ie p = Ok s') ->
   (exists fuel r, ie_loop visit data g caplen glen fuel offset s = Some r) ->
   ~ stands_still data g caplen glen offset) /\
  ((forall off, ie_turn data g caplen glen offset off ->
      octet data (g + off) ∈ declared_information_elements) ->
   ~ stands_still data g caplen glen offset).
Proof.
  intros Hb. split; [intros Hs; apply ie_loop_terminates; [done|done|lia]|]. split.
  - intros Hv (fuel & r & Hr) (off & ie & Ht & Hc & Hg & Hn).
    rewrite (ie_loop_diverges visit data g caplen glen offset off) in Hr; [done|done|done|].
    intros fuel' s'. by eapply ie_loop_stuck.
  - intros Hd (off & ie & Ht & Hc & Hg & Hn).
    destruct (ie_next_Some _ _ _ _ _ _ Hb Hn) as (_ & _ & _ & Hu). apply Hu; [done|].
    rewrite (ie_next_type _ _ _ _ _ _ Hn). by apply Hd.
Qed.

(** C32: an element that advances by nothing, which only a type the header does
    not declare can do, makes the walk loop for ever. *)
Theorem ie_walk_stuck (data : list Z) (g caplen glen offset ie : Z) :
  bytes_ok data -> offset < sizeof_gtpv1hdr + glen ->
  ie_next data g caplen offset = Ok (Some (ie, 0)) ->
  (forall s, exists s', visit s ie (g + offset) = Ok s') ->
  (ie ∉ declared_information_elements) /\
  forall fuel s, ie_loop visit data g caplen glen fuel offset s = None.
Proof.
  intros Hb Hg Hn Hv. destruct (ie_next_Some _ _ _ _ _ _ Hb Hn) as (_ & _ & Hc & Hd).
  split; [by apply Hd|]. eapply ie_loop_stuck; try done. lia.
Qed.
End properties.

(** ** Witnesses *)

(** A program that records what it visits. *)
Definition record_visit (s : list (Z * Z)) (ie p : Z) : res (list (Z * Z)) := Ok (s ++ [(ie, p)]).

Definition sample_elements : list element :=
  [Element 2 [33; 67; 101; 135; 9; 33; 67; 245]; Element 16 [0; 0; 1; 2]; Element 17 [0; 0; 0; 9];
   Element 128 [241; 33; 10; 0; 0; 1]].

(** [element_ok] of concrete elements, by computation. *)
Definition element_okb (e : element) : bool :=
  bool_decide (el_type e ∈ declared_information_elements) && bytes_okb [el_type e] &&
  bytes_okb (el_body e) && (blen (el_body e) <? 65536) &&
  (if el_type e <? GTPV1_FIRST_TLV_IE
   then blen (el_body e) =? ie_body_length (gtpv1_information_elements !!! Z.to_nat (el_type e))
   else true).

Lemma element_okb_true es : forallb element_okb es = true -> Forall element_ok es.
Proof.
  rewrite forallb_forall, Forall_forall. intros H e He.
  apply list_elem_of_In in He. specialize (H e He). unfold element_okb in H.
  rewrite !andb_true_iff, bool_decide_eq_true in H.
  destruct H as [[[[Hd Ht] Hb] Hl] Htv]. apply bytes_okb_true in Hb, Ht.
  split; try done.
  - by apply Forall_cons in Ht as [? _].
  - intros Hlt. rewrite (proj2 (Z.ltb_lt _ _) Hlt) in Htv. by apply Z.eqb_eq.
  - by apply Z.ltb_lt.
Qed.

Lemma sample_elements_ok : Forall element_ok sample_elements.
Proof. apply element_okb_true. vm_compute. reflexivity. Qed.

Lemma ie_walk_round_trip_witness :
  ie_loop record_visit (replicate 8 0 ++ encode_elements sample_elements ++ [7]) 0 60 28 4 8 []
    = Some (Ok [(2, 8); (16, 17); (17, 22); (128, 27)]).
Proof.
  apply (ie_walk_round_trip record_visit (replicate 8 0) [7] sample_elements 0 60 28 8 []);
    [apply sample_elements_ok | discriminate | reflexivity | reflexivity | reflexivity
    | cbn; lia].
Defined.

(** The sample message, whose bodies hold octets of types that are not declared,
    in front of a walk that stands still on the octet 6. *)
Definition sample_walk : list Z := replicate 8 0 ++ encode_elements sample_elements ++ [7].

Lemma sample_walk_turns off : ie_turn sample_walk 0 60 28 8 off -> off ∈ [8; 17; 22; 27].
Proof.
  intros Ht. induction Ht as [|off ie adv _ IH _ Hn Hg]; [set_solver|].
  rewrite !elem_of_cons in IH. destruct IH as [->|[->|[->|[->|IH]]]]; [..|set_solver];
    vm_compute in Hn; injection Hn as <- <-; [set_solver..|]. vm_compute in Hg. discriminate Hg.
Qed.

Lemma ie_walk_terminates_witness :
  bytes_ok sample_walk /\ ~ stands_still sample_walk 0 60 28 8 /\
  (exists r, ie_loop record_visit sample_walk 0 60 28 53 8 [] = Some r) /\
  stands_still (replicate 30 6) 0 30 20 8.
Proof.
  assert (Hb : bytes_ok sample_walk) by (unfold sample_walk; vm_compute; bytes_tac).
  destruct (ie_walk_terminates record_visit sample_walk 0 60 28 8 [] Hb) as (Hr & _ & Hd).
  assert (Hs : ~ stands_still sample_walk 0 60 28 8).
  { apply Hd. clear Hr Hd. intros off Ht%sample_walk_turns. rewrite !elem_of_cons in Ht.
    destruct Ht as [->|[->|[->|[->|Ht%elem_of_nil]]]]; [..|done];
      refine (bool_decide_eq_true_1 _ _); vm_compute; reflexivity. }
  split; [exact Hb|]. split; [exact Hs|]. split; [exact (Hr Hs)|].
  exists 8, 6. split; [apply turn_first|]. repeat split; reflexivity.
Defined.

Lemma ie_walk_stuck_witness :
  (6 ∉ declared_information_elements) /\
  forall fuel s, ie_loop record_visit (replicate 30 6) 0 30 20 fuel 8 s = None.
Proof.
  apply (ie_walk_stuck record_visit (replicate 30 6) 0 30 20 8 6);
    [bytes_tac | reflexivity | reflexivity | intros s; eexists; reflexivity].
Defined.
