(* ===== verification/GtpMessage.v ===== *)
(** * GTP-C messages of information elements

    The packets the two decoders are made for: a GTP V1 message whose body is a
    sequence of encoded information elements, in any encapsulation.  The lemmas
    say what the header functions and the element walk do on such a packet, so
    that a decoder's own theorems reason on the list of elements. *)
From Stdlib Require Import Sorting.Sorted.
From S2P Require Import Prelude Text GtpTables GtpHeader Untunnel GtpWalk GtpFields.
Import InformationElements TableFacts.

(** Octets between the mandatory header and the first element. *)
Definition options_length (opts : Z) : Z := if opts =? 0 then 0 else sizeof_gtpv1hdropt.

(** The length field of the message. *)
Definition elements_length (opts : Z) (es : list element) : Z :=
  options_length opts + blen (encode_elements es).

Definition elements_message (opts mt : Z) (teid opt : list Z) (es : list element) : list Z :=
  gtp_message opts mt (be16 (elements_length opts es)) teid opt (encode_elements es).

(** The octet [i] of an element's body, counted from the type octet. *)
Definition element_octet (e : element) (i : Z) : Z := octet (encode_element e) i.

Record elements_ok (opts mt : Z) (teid opt : list Z) (es : list element) : Prop := {
  emok_opts : 0 <= opts < 8;
  emok_mt : is_byte mt;
  emok_teid : blen teid = 4 /\ bytes_ok teid;
  emok_opt : blen opt = 4 /\ bytes_ok opt;
  emok_elements : Forall element_ok es;
  emok_some : es <> [];
  emok_length : elements_length opts es < 65536 }.

(** Octet by octet. *)
Ltac bytes_cons := repeat first [apply Forall_nil_2 | apply Forall_cons_2].

Lemma encode_element_bytes e : element_ok e -> bytes_ok (encode_element e).
Proof.
  intros [Hd Ht Hb Htv Htlv]. unfold encode_element, bytes_ok, be16.
  pose proof (blen_nonneg (el_body e)).
  apply Forall_app_2; [|done]. destruct (_ <? _); bytes_cons; try done;
    unfold is_byte; Z.to_euclidean_division_equations; lia.
Qed.

Lemma encode_elements_bytes es : Forall element_ok es -> bytes_ok (encode_elements es).
Proof.
  induction 1 as [|e es He _ IH]; [by apply Forall_nil_2|].
  unfold encode_elements. cbn. apply Forall_app_2; [by apply encode_element_bytes|done].
Qed.

(** The octets of an element that sits in a packet. *)
Lemma octet_of_element data pre e post i :
  data = pre ++ encode_element e ++ post -> 0 <= i < blen (encode_element e) ->
  octet data (blen pre + i) = element_octet e i.
Proof.
  intros -> Hi. rewrite (octet_shift pre _ _ _ eq_refl) by lia.
  replace (blen pre + i - blen pre) with i by lia. by apply octet_app_l.
Qed.

Lemma rd8_of_element data pre e post i :
  data = pre ++ encode_element e ++ post -> 0 <= i < blen (encode_element e) ->
  rd8 data (blen pre + i) = Ok (element_octet e i).
Proof.
  intros -> Hi. pose proof (blen_nonneg pre). pose proof (blen_nonneg post).
  rewrite rd8_ok by (rewrite !blen_app; lia). by erewrite octet_of_element.
Qed.

(** The body of a TV element, of a TLV element, and of either as read. *)
Lemma element_octet_tv e i : el_type e < GTPV1_FIRST_TLV_IE -> 0 <= i ->
  element_octet e (1 + i) = octet (el_body e) i.
Proof.
  intros Ht Hi. unfold element_octet, encode_element. rewrite (proj2 (Z.ltb_lt _ _) Ht).
  rewrite (octet_shift [el_type e] _ 1) by (done || lia). f_equal. lia.
Qed.

Lemma element_octet_tlv e i : GTPV1_FIRST_TLV_IE <= el_type e -> 0 <= i ->
  element_octet e (3 + i) = octet (el_body e) i.
Proof.
  intros Ht Hi. unfold element_octet, encode_element. rewrite (proj2 (Z.ltb_ge _ _)) by lia.
  rewrite (octet_shift (el_type e :: be16 (blen (el_body e))) _ 3) by (done || lia).
  f_equal. lia.
Qed.

Lemma element_tlv_length e : GTPV1_FIRST_TLV_IE <= el_type e -> blen (el_body e) < 65536 ->
  word16 (encode_element e) 1 = blen (el_body e).
Proof.
  intros Ht Hl. unfold encode_element. rewrite (proj2 (Z.ltb_ge _ _)) by lia.
  pose proof (blen_nonneg (el_body e)).
  change (?x :: ?l) with ([x] ++ l) at 1. rewrite <- (assoc_L (++)).
  rewrite (word16_shift [el_type e] _ 1) by (done || lia).
  apply word16_be16. lia.
Qed.

Section message.
Context (o : outer) (opts mt : Z) (teid opt slack : list Z) (es : list element).
Context (Ho : outer_ok o) (Hm : elements_ok opts mt teid opt es).

Let pkt : list Z := encapsulate o (elements_message opts mt teid opt es).
Let g : Z := gtp_offset o.
Let first : Z := sizeof_gtpv1hdr + options_length opts.

Lemma elements_length_nonneg : 0 <= elements_length opts es.
Proof.
  unfold elements_length, options_length, sizeof_gtpv1hdropt.
  pose proof (blen_nonneg (encode_elements es)). destruct (opts =? 0); lia.
Qed.

Lemma elements_message_ok :
  message_ok opts mt (be16 (elements_length opts es)) teid opt (encode_elements es).
Proof.
  destruct Hm as [? ? ? ? Hes _ Hl]. pose proof elements_length_nonneg. split; try done.
  - split; [done|]. unfold be16, bytes_ok.
    bytes_cons; unfold is_byte; Z.to_euclidean_division_equations; lia.
  - by apply encode_elements_bytes.
Qed.

Lemma gtp_offset_range : 42 <= g <= 86.
Proof. unfold g, gtp_offset. pose proof (ok_ihl o Ho). destruct (o_tag o); lia. Qed.

(** The packet as what precedes the first element, the elements, and the rest. *)
Lemma message_layout : exists pre,
  pkt = pre ++ encode_elements es /\ blen pre = g + first /\
  (forall i, 0 <= i < first -> octet pre (g + i) =
    octet ([48 + opts; mt] ++ be16 (elements_length opts es) ++ teid ++
           (if opts =? 0 then [] else opt)) i).
Proof.
  pose proof (emok_teid _ _ _ _ _ Hm) as [Ht _]. pose proof (emok_opt _ _ _ _ _ Hm) as [Hp _].
  exists (ether_bytes o ++ ip_bytes o ++ udp_bytes o ++ [48 + opts; mt] ++
     be16 (elements_length opts es) ++ teid ++ (if opts =? 0 then [] else opt)).
  assert (Hbase : blen (ether_bytes o ++ ip_bytes o ++ udp_bytes o) = g).
  { pose proof (blen_encapsulate o [] Ho) as H. unfold encapsulate in H.
    rewrite app_nil_r in H. change (blen []) with 0 in H. unfold g. lia. }
  split; [|split].
  - unfold pkt, encapsulate, elements_message, gtp_message. by rewrite <- !(assoc_L (++)).
  - rewrite !(assoc_L (++)). rewrite <- (assoc_L (++) (ether_bytes o)).
    rewrite !blen_app, Ht in *. unfold first, options_length, sizeof_gtpv1hdr, sizeof_gtpv1hdropt.
    change (blen [48 + opts; mt]) with 2.
    change (blen (be16 (elements_length opts es))) with 2.
    destruct (opts =? 0); [change (blen []) with 0|rewrite Hp]; lia.
  - intros i Hi. rewrite !(assoc_L (++)). rewrite <- (assoc_L (++) (ether_bytes o)).
    rewrite <- !(assoc_L (++) ((ether_bytes o ++ ip_bytes o ++ udp_bytes o))).
    rewrite (octet_shift _ _ _ _ Hbase) by lia. f_equal. lia.
Qed.

Lemma pkt_length : blen pkt = g + first + blen (encode_elements es).
Proof. destruct message_layout as (pre & -> & Hp & _). rewrite blen_app. lia. Qed.

Lemma first_range : 8 <= first <= 12.
Proof.
  unfold first, options_length, sizeof_gtpv1hdr, sizeof_gtpv1hdropt. destruct (opts =? 0); lia.
Qed.

(** The octets of the two headers, in the memory the code reads. *)
Lemma message_rd8 i : 0 <= i < first ->
  rd8 (pkt ++ slack) (g + i) = Ok (octet ([48 + opts; mt] ++
    be16 (elements_length opts es) ++ teid ++ (if opts =? 0 then [] else opt)) i).
Proof.
  intros Hi. pose proof gtp_offset_range. pose proof pkt_length.
  pose proof (blen_nonneg (encode_elements es)).
  apply rd8_app_l. rewrite rd8_ok by lia. f_equal.
  destruct message_layout as (pre & -> & Hp & Ho'). rewrite <- Ho' by lia.
  apply octet_app_l. lia.
Qed.

Lemma message_get_header : blen pkt < 2 ^ 32 ->
  gtpv1_get_header (blen pkt) (pkt ++ slack) = Ok (Some g).
Proof.
  intros Hl. apply (untunnel_header_found o opts mt _ teid opt _ slack Ho elements_message_ok Hl).
Qed.

Lemma message_read_header :
  read_gtpv1hdr (pkt ++ slack) g =
    Ok (Gtpv1hdr opts 0 GTP_V1_TYPEVER mt (elements_length opts es) (word32 teid 0)).
Proof.
  pose proof first_range. pose proof elements_length_nonneg.
  pose proof (emok_opts _ _ _ _ _ Hm) as Hopts. pose proof (emok_length _ _ _ _ _ Hm).
  pose proof (emok_teid _ _ _ _ _ Hm) as [Hteid _].
  unfold read_gtpv1hdr, rd32be, rd16be.
  rewrite <- (Z.add_0_r g) at 1. rewrite <- !Z.add_assoc.
  change (2 + 1) with 3. change (4 + 1) with 5. change (4 + 3) with 7. change (4 + 2) with 6.
  rewrite (message_rd8 0), (message_rd8 1), (message_rd8 2), (message_rd8 3), (message_rd8 4),
    (message_rd8 5), (message_rd8 6), (message_rd8 7) by lia.
  cbn [mbind res_bind mret res_ret]. set (q := if opts =? 0 then [] else opt).
  assert (Hw : forall i, 4 <= i < 8 ->
    octet ([48 + opts; mt] ++ be16 (elements_length opts es) ++ teid ++ q) i = octet teid (i - 4)).
  { intros i Hi. rewrite (assoc_L (++)).
    rewrite (octet_shift ([48 + opts; mt] ++ be16 _) _ 4) by (done || lia).
    apply octet_app_l. lia. }
  rewrite (Hw 4), (Hw 5), (Hw 6), (Hw 7) by lia. unfold be16. cbn [app].
  change (octet (?x :: ?l) 0) with x. change (octet (?x :: ?y :: ?l) 1) with y.
  change (octet (?x :: ?y :: ?z :: ?l) 2) with z.
  change (octet (?x :: ?y :: ?z :: ?w :: ?l) 3) with w.
  assert (Hflags : Z.land (48 + opts) 7 = opts /\ Z.land (Z.shiftr (48 + opts) 3) 1 = 0 /\ Z.shiftr (48 + opts) 4 = 3).
  { assert (opts = 0 \/ opts = 1 \/ opts = 2 \/ opts = 3 \/ opts = 4 \/ opts = 5 \/ opts = 6
      \/ opts = 7) as Hc by lia. by destruct_or! Hc; subst. }
  destruct Hflags as (-> & -> & ->). unfold mret, res_ret. do 2 f_equal.
  pose proof (Z.div_mod (elements_length opts es) 256). lia.
Qed.

(** A visit that acts on the octets of the element makes the walk a fold over
    the elements. *)
Lemma message_walk {S} (visit : S -> Z -> Z -> res S) (step : S -> element -> S) s fuel :
  (length es <= fuel)%nat ->
  (forall e pre post s, e ∈ es -> pkt ++ slack = pre ++ encode_element e ++ post ->
     visit s (el_type e) (blen pre) = Ok (step s e)) ->
  ie_loop visit (pkt ++ slack) g (blen pkt) (elements_length opts es) fuel first s
    = Some (Ok (foldl step s es)).
Proof.
  intros Hf Hv. destruct message_layout as (pre & Hd & Hp & _).
  pose proof gtp_offset_range. pose proof pkt_length.
  pose proof (emok_elements _ _ _ _ _ Hm) as Hes. pose proof (emok_some _ _ _ _ _ Hm).
  rewrite (ie_loop_encoded visit _ g _ _ slack es fuel first pre).
  - f_equal. rewrite <- Hp. rewrite Hd, <- (assoc_L (++)) in Hv.
    clear - Hv. revert pre s Hv. induction es as [|e l IH]; intros pre s Hv; [done|].
    unfold encode_elements in Hv. cbn [mbind list_bind] in Hv.
    fold (encode_elements l) in Hv. rewrite <- (assoc_L (++)) in Hv.
    cbn [visit_elements foldl].
    rewrite (Hv e pre (encode_elements l ++ slack)) by (done || by left). cbn.
    rewrite <- blen_app. apply IH. intros e' pre' post s' He' Heq.
    apply (Hv e' pre' post s'); [by right|]. rewrite <- Heq. by rewrite <- (assoc_L (++)).
  - done.
  - done.
  - done.
  - by rewrite (assoc_L (++)), <- Hd.
  - lia.
  - unfold first, elements_length. lia.
  - unfold elements_length, first in *. lia.
Qed.
End message.

(** ** Elements as the decoders read them

    Four octets in dotted notation, and the elements whose printing stays
    inside its array and its element. *)
Definition dotted (b : list Z) (i : Z) : string :=
  fmt_d (octet b i) +:+ "." +:+ fmt_d (octet b (i + 1)) +:+ "." +:+ fmt_d (octet b (i + 2))
  +:+ "." +:+ fmt_d (octet b (i + 3)).


Definition printable (e : element) : Prop :=
  (el_type e = GTPV1_IE_IMSI -> (String.length (octets_text (el_body e)) < 16)%nat) /\
  (el_type e = GTPV1_IE_END_USER_ADDRESS -> blen (el_body e) <= 2 \/ 6 <= blen (el_body e)).


(** The element of a type, whether an element of a type or past it is there,
    and the order the standard prescribes. *)
Definition found_element (ty : Z) (es : list element) : option element :=
  List.find (fun e => el_type e =? ty) es.
Definition passed (ty : Z) (es : list element) : bool :=
  existsb (fun e => ty <=? el_type e) es.

Definition ascending (es : list element) : Prop :=
  StronglySorted (fun e1 e2 => el_type e1 < el_type e2) es.


Section elements.
Implicit Types (es : list element) (e : element).

Lemma teid_of_element data pre e post :
  data = pre ++ encode_element e ++ post -> element_ok e -> el_type e < GTPV1_FIRST_TLV_IE ->
  blen (el_body e) = 4 -> teid2uint data (blen pre) = Ok (word32 (el_body e) 0).
Proof.
  intros Hd He Hty Hl.
  assert (Hlen : blen (encode_element e) = 5).
  { rewrite blen_encode_element. unfold el_header_length.
    rewrite (proj2 (Z.ltb_lt _ _) Hty), Hl. lia. }
  unfold teid2uint.
  rewrite !(rd8_of_element data pre e post _ Hd) by lia. cbn.
  change 2 with (1 + 1) at 1. change 3 with (1 + 2). change 4 with (1 + 3).
  rewrite <- (Z.add_0_r 1) at 1. rewrite !element_octet_tv by (done || lia).
  unfold mret, res_ret, word32, word16. f_equal. cbn [Z.add].
  pose proof (octet_range (el_body e) 0 (eok_bytes e He)).
  pose proof (octet_range (el_body e) 1 (eok_bytes e He)).
  pose proof (octet_range (el_body e) 2 (eok_bytes e He)).
  pose proof (octet_range (el_body e) 3 (eok_bytes e He)).
  unfold is_byte in *. rewrite !Z.shiftl_mul_pow2 by lia.
  change (0 + 1) with 1. change (0 + 2) with 2. change (2 + 1) with 3.
  rewrite u32_small by lia. lia.
Qed.

Lemma imsi_of_element data pre e post :
  data = pre ++ encode_element e ++ post -> el_type e < GTPV1_FIRST_TLV_IE ->
  blen (el_body e) = 8 -> read_imsi data (blen pre) = Ok (el_body e).
Proof.
  intros -> Hty Hl. unfold read_imsi, encode_element, GTPV1_IMSI_LENGTH.
  rewrite (proj2 (Z.ltb_lt _ _) Hty). pose proof (blen_nonneg pre). pose proof (blen_nonneg post).
  rewrite rd_bytes_ok by (rewrite ?blen_app, ?Hl in *; change (blen [el_type e]) with 1; lia).
  f_equal. rewrite <- !(assoc_L (++)), (assoc_L (++) pre).
  replace (Z.to_nat (blen pre + 1)) with (length (pre ++ [el_type e]))
    by (rewrite length_app; unfold blen; cbn; lia).
  rewrite drop_app_length. apply take_app_length'. unfold blen in Hl. lia.
Qed.

Lemma eua_of_element data pre e post :
  data = pre ++ encode_element e ++ post -> element_ok e -> GTPV1_FIRST_TLV_IE <= el_type e ->
  eua_length data (blen pre) = Ok (blen (el_body e)).
Proof.
  intros Hd He Hty. pose proof (blen_nonneg (el_body e)).
  assert (Hlen : 3 <= blen (encode_element e)).
  { rewrite blen_encode_element. unfold el_header_length.
    rewrite (proj2 (Z.ltb_ge _ _) Hty). lia. }
  unfold eua_length. rewrite !(rd8_of_element data pre e post _ Hd) by lia. cbn.
  unfold mret, res_ret. f_equal. rewrite Z.shiftl_mul_pow2 by lia.
  rewrite <- (element_tlv_length e) by (done || apply (eok_tlv e He)). done.
Qed.

Lemma dotted_of_element data pre e post :
  data = pre ++ encode_element e ++ post -> GTPV1_FIRST_TLV_IE <= el_type e ->
  6 <= blen (el_body e) -> print_eua_ipv4 data (blen pre) = Ok (dotted (el_body e) 2).
Proof.
  intros Hd Hty Hl.
  assert (Hlen : 9 <= blen (encode_element e)).
  { rewrite blen_encode_element. unfold el_header_length.
    rewrite (proj2 (Z.ltb_ge _ _) Hty). lia. }
  unfold print_eua_ipv4. rewrite !(rd8_of_element data pre e post _ Hd) by lia. cbn.
  change 5 with (3 + 2). change 6 with (3 + (2 + 1)). change 7 with (3 + (2 + 2)).
  change 8 with (3 + (2 + 3)).
  rewrite !element_octet_tlv by (done || lia). done.
Qed.

Lemma tv_body_length e : element_ok e ->
  (el_type e = GTPV1_IE_IMSI -> blen (el_body e) = 8) /\
  (el_type e = GTPV1_IE_TEI_DATA_I \/ el_type e = GTPV1_IE_TEI_CONTROL_PLANE ->
     blen (el_body e) = 4).
Proof.
  intros He. pose proof (eok_tv e He) as Htv. split; [intros Hi|intros [Hi|Hi]];
    rewrite Htv, Hi by (rewrite Hi; reflexivity); vm_compute; reflexivity.
Qed.

Lemma found_element_snoc ty es e :
  found_element ty (es ++ [e]) =
    match found_element ty es with
    | Some x => Some x
    | None => if el_type e =? ty then Some e else None
    end.
Proof.
  unfold found_element. induction es as [|x es IH]; cbn; [by destruct (_ =? _)|].
  by destruct (el_type x =? ty).
Qed.

Lemma passed_snoc ty es e : passed ty (es ++ [e]) = passed ty es || (ty <=? el_type e).
Proof. unfold passed. rewrite existsb_app. cbn. by rewrite orb_false_r. Qed.

Lemma passed_split ty es :
  passed ty es = match found_element ty es with Some _ => true | None => passed (ty + 1) es end.
Proof.
  unfold passed, found_element. induction es as [|x es IH]; [done|]. cbn. rewrite IH.
  destruct (Z.eqb_spec (el_type x) ty) as [->|Hn].
  - by rewrite (proj2 (Z.leb_le ty ty)) by lia.
  - destruct (Z.leb_spec ty (el_type x)), (Z.leb_spec (ty + 1) (el_type x)); try lia; cbn;
      by destruct (List.find _ es).
Qed.

Lemma passed_below ty es : Forall (fun x => el_type x < ty) es -> passed ty es = false.
Proof.
  induction 1 as [|x es Hx _ IH]; [done|]. cbn.
  by rewrite (proj2 (Z.leb_gt _ _)) by lia.
Qed.

Lemma passed_mono ty ty' es : ty <= ty' -> passed ty es = false -> passed ty' es = false.
Proof.
  intros Hle. unfold passed. induction es as [|x es IH]; [done|]. cbn.
  rewrite !orb_false_iff. intros [Hx Hes]. split; [|by apply IH].
  apply Z.leb_gt in Hx. apply Z.leb_gt. lia.
Qed.

Lemma passed_none ty es : passed ty es = false -> found_element ty es = None.
Proof. rewrite passed_split. by destruct (found_element ty es). Qed.

Lemma ascending_snoc es e : ascending (es ++ [e]) ->
  ascending es /\ Forall (fun x => el_type x < el_type e) es.
Proof.
  unfold ascending. induction es as [|x es IH]; intros Hs; [by split; constructor|].
  cbn in Hs. inversion_clear Hs as [|? ? Hs' Hx]. apply IH in Hs' as [Hs' Hlt].
  apply Forall_app in Hx as [Hx He]. apply Forall_cons in He as [He _].
  split; [by constructor|by apply Forall_cons_2].
Qed.

End elements.

(** A sample message. *)
Definition sample_request : list element :=
  [Element 2 [33; 67; 101; 135; 9; 33; 67; 245]; Element 14 [7]; Element 16 [0; 0; 1; 2];
   Element 17 [0; 0; 0; 9]; Element 20 [5]; Element 128 [241; 33; 10; 0; 0; 1]].

Lemma sample_request_ok opts : 0 <= opts < 8 ->
  elements_ok opts 16 [0; 0; 0; 7] [0; 1; 0; 0] sample_request.
Proof.
  intros Ho. split; try done; try (split; [reflexivity|bytes_tac]).
  - apply element_okb_true. vm_compute. reflexivity.
  - unfold elements_length. assert (H : options_length opts <= 4).
    { unfold options_length, sizeof_gtpv1hdropt. destruct (opts =? 0); lia. }
    change (blen (encode_elements sample_request)) with 32. lia.
Qed.

Lemma sample_request_printable : Forall printable sample_request.
Proof.
  repeat apply Forall_cons_2; try apply Forall_nil_2;
    (split; [intros H; first [discriminate H|vm_compute; lia]
            |intros H; first [discriminate H|right; discriminate]]).
Qed.

