(* ===== verification/DecodeGtp.v ===== *)
(** * decodegtp: printing GTP packets as comma separated text

    [decode_gtp_packet] and [main] of [filterprograms/decodegtp.c].  [ctime] is
    an argument: the text it gives depends on the time zone.  A packet on which
    the element loop does not end has no result ([None]) for any fuel. *)
From Stdlib Require Import Sorting.Sorted.
From S2P Require Import Prelude Text GtpTables GtpHeader GtpFields Pcap Monitor GtpWalk Untunnel GtpMessage.
Import MessageTypes InformationElements TableFacts.

(** ** The code *)

(** What the element loop has printed and its four flags. *)
Record decode_state := DecodeState {
  out : string; imsi_found : bool; teidd1_found : bool; teidcp_found : bool; eua_found : bool }.

Definition print (t : string) (s : decode_state) : decode_state :=
  DecodeState (out s +:+ t) (imsi_found s) (teidd1_found s) (teidcp_found s) (eua_found s).

Definition decode_imsi (data : list Z) (ie p : Z) (s : decode_state) : res decode_state :=
  if ie =? GTPV1_IE_IMSI then
    imsi ← read_imsi data p;
    imsistr ← imsi2str (Z.to_nat (GTPV1_IMSI_LENGTH * 2)) imsi;
    mret (DecodeState (out s +:+ imsistr +:+ ",") true (teidd1_found s) (teidcp_found s)
      (eua_found s))
  else mret s.

Definition decode_teidd1 (data : list Z) (ie p : Z) (s : decode_state) : res decode_state :=
  if ie =? GTPV1_IE_TEI_DATA_I then
    t ← teid2uint data p;
    mret (DecodeState (out s +:+ fmt_x t +:+ ",") (imsi_found s) true (teidcp_found s)
      (eua_found s))
  else mret s.

Definition decode_teidcp (data : list Z) (ie p : Z) (s : decode_state) : res decode_state :=
  if ie =? GTPV1_IE_TEI_CONTROL_PLANE then
    t ← teid2uint data p;
    mret (DecodeState (out s +:+ fmt_x t +:+ ",") (imsi_found s) (teidd1_found s) true
      (eua_found s))
  else mret s.

Definition decode_eua (data : list Z) (ie p : Z) (s : decode_state) : res decode_state :=
  if ie =? GTPV1_IE_END_USER_ADDRESS then
    l ← eua_length data p;
    if GTPV1_EUA_NO_ADDRESS_LENGTH <? l then
      a ← print_eua_ipv4 data p;
      mret (DecodeState (out s +:+ a) (imsi_found s) (teidd1_found s) (teidcp_found s) true)
    else mret s
  else mret s.

(** The empty columns of the elements that have been passed. *)
Definition fill_imsi (ie : Z) (s : decode_state) : decode_state :=
  if (GTPV1_IE_IMSI <? ie) && negb (imsi_found s)
  then DecodeState (out s +:+ ",") true (teidd1_found s) (teidcp_found s) (eua_found s) else s.
Definition fill_teidd1 (ie : Z) (s : decode_state) : decode_state :=
  if (GTPV1_IE_TEI_DATA_I <? ie) && negb (teidd1_found s)
  then DecodeState (out s +:+ ",") (imsi_found s) true (teidcp_found s) (eua_found s) else s.
Definition fill_teidcp (ie : Z) (s : decode_state) : decode_state :=
  if (GTPV1_IE_TEI_CONTROL_PLANE <? ie) && negb (teidcp_found s)
  then DecodeState (out s +:+ ",") (imsi_found s) (teidd1_found s) true (eua_found s) else s.

(** The body of the loop for the element [ie] at [p]. *)
Definition decode_visit (data : list Z) (s : decode_state) (ie p : Z) : res decode_state :=
  s ← decode_imsi data ie p s;
  s ← decode_teidd1 data ie p s;
  s ← decode_teidcp data ie p s;
  s ← decode_eua data ie p s;
  mret (fill_teidcp ie (fill_teidd1 ie (fill_imsi ie s))).

(** [inet_ntoa] of the four octets at [p]. *)
Definition inet_ntoa (data : list Z) (p : Z) : res string :=
  a0 ← rd8 data p; a1 ← rd8 data (p + 1); a2 ← rd8 data (p + 2); a3 ← rd8 data (p + 3);
  mret (fmt_d a0 +:+ "." +:+ fmt_d a1 +:+ "." +:+ fmt_d a2 +:+ "." +:+ fmt_d a3).

(** The columns of the mandatory header. *)
Definition header_columns (h : gtpv1hdr) : string :=
  (if message_type h =? GTPV1_MT_G_PDU then "gtp-u," else "gtp-c,") +:+
  fmt_d (GTP_VER (flag_typever h)) +:+ "," +:+ fmt_d (GTP_TYPE (flag_typever h)) +:+ "," +:+
  fmt_d (GTP_EXT_FLAG (flag_options h)) +:+ "," +:+ fmt_d (GTP_SEQ_FLAG (flag_options h)) +:+
  "," +:+ fmt_d (GTP_NPDU_FLAG (flag_options h)) +:+ "," +:+
  fmt_d (message_type h) +:+ "[" +:+
  mt_name (gtpv1_message_types !!! Z.to_nat (message_type h)) +:+ "]," +:+
  fmt_d (gtp_length h) +:+ "," +:+ fmt_x (gtp_teid h) +:+ ",".

(** The columns of the optional header, and the length of both headers. *)
Definition options_columns (data : list Z) (g : Z) (h : gtpv1hdr) : res (string * Z) :=
  if negb (flag_options h =? 0) then
    sequence_no ← rd16be data (g + 8); npdu_no ← rd8 data (g + 10);
    next_exthdrtype ← rd8 data (g + 11);
    mret (fmt_x sequence_no +:+ "," +:+ fmt_x npdu_no +:+ "," +:+ fmt_x next_exthdrtype,
      sizeof_gtpv1hdr + sizeof_gtpv1hdropt)
  else mret (",,", sizeof_gtpv1hdr).

Section decode.
Context (ctime : Z -> string).

(** [time_string]: the text of [ctime] without its last character. *)
Definition time_string (t : Z) : res string :=
  let s := ctime t in
  if Z.of_nat (String.length s) =? 0 then Fault OutOfBounds
  else if FILENAME_MAX <=? Z.of_nat (String.length s) then Fault BufferOverflow
  else mret (String.substring 0 (String.length s - 1) s).

(** [decode_gtp_packet]: what it prints for the packet. *)
Definition decode_gtp_packet (fuel : nat) (header : pcap_pkthdr) (data : list Z)
    : option (res string) :=
  match
    hdr ← gtpv1_get_header (caplen header) data;
    time ← time_string (tv_sec (ts header));
    let line := time +:+ " " +:+ pad0 9 (pretty (u32 (tv_sec (ts header)))) +:+ " usec:" in
    match hdr with
    | None => mret (inl (line +:+ "not-gtp" +:+ newline))
    | Some g =>
        h ← read_gtpv1hdr data g;
        '(opt_columns, offset) ← options_columns data g h;
        let line := line +:+ header_columns h +:+ opt_columns in
        if message_type h =? GTPV1_MT_G_PDU then
          src ← inet_ntoa data (g + offset + 12);
          dst ← inet_ntoa data (g + offset + 16);
          mret (inl (line +:+ "," +:+ src +:+ "," +:+ dst +:+ newline))
        else mret (inr (g, gtp_length h, offset, line +:+ ",,"))
    end
  with
  | Fault f => Some (Fault f)
  | Ok (inl text) => Some (Ok text)
  | Ok (inr (g, glen, offset, line)) =>
      match ie_loop (decode_visit data) data g (caplen header) glen fuel offset
              (DecodeState line false false false false) with
      | None => None
      | Some (Fault f) => Some (Fault f)
      | Some (Ok s) => Some (Ok (out s +:+ newline))
      end
  end.

Definition decode_handler (fuel : nat) (printed : string) (header : pcap_pkthdr) (data : list Z)
    : option (res string) :=
  match decode_gtp_packet fuel header data with
  | Some (Ok text) => Some (Ok (printed +:+ text))
  | other => other
  end.

Definition decodegtp_title : string :=
  "gtp,version,type,f_exthdr,f_seqno,f_npdu,msgtype,length,teid,seqno,npdu,nexttype,src,dest"
  +:+ newline.

(** [main] *)
Definition decodegtp_main (pcap_open_offline : pcap_source) (fuel : nat) (argv : list string)
    : option (res outcome) :=
  if negb (argc argv =? 2) then
    Some (name ← arg argv 0;
      mret (Outcome 1 "" ("usage: " +:+ name +:+ " pcap_file_name" +:+ newline)))
  else
    match arg argv 1 with
    | Fault f => Some (Fault f)
    | Ok file =>
        match pcap_open_offline file with
        | inl errbuf =>
            Some (Ok (Outcome 2 decodegtp_title ("decode failed: " +:+ errbuf +:+ newline)))
        | inr packets =>
            match handler_calls_fuel (decode_handler fuel) packets decodegtp_title with
            | None => None
            | Some (Fault f) => Some (Fault f)
            | Some (Ok text) => Some (Ok (Outcome 0 text ""))
            end
        end
    end.
End decode.

(** ** The row of a GTP-C message *)

(** The text of an element of a printed column. *)
Definition element_text (e : element) : string :=
  if el_type e =? GTPV1_IE_IMSI then octets_text (el_body e) +:+ "," else
  if el_type e =? GTPV1_IE_TEI_DATA_I then fmt_x (word32 (el_body e) 0) +:+ "," else
  if el_type e =? GTPV1_IE_TEI_CONTROL_PLANE then fmt_x (word32 (el_body e) 0) +:+ "," else
  if (el_type e =? GTPV1_IE_END_USER_ADDRESS) && (2 <? blen (el_body e))
  then dotted (el_body e) 2 else "".

(** A column: its element's text, or the empty column when only later elements
    are there. *)
Definition column (ty : Z) (es : list element) : string :=
  match found_element ty es with
  | Some e => element_text e
  | None => if passed (ty + 1) es then "," else ""
  end.
Definition eua_column (es : list element) : string :=
  match found_element GTPV1_IE_END_USER_ADDRESS es with Some e => element_text e | None => "" end.

Definition row (es : list element) : string :=
  column GTPV1_IE_IMSI es +:+ column GTPV1_IE_TEI_DATA_I es +:+
  column GTPV1_IE_TEI_CONTROL_PLANE es +:+ eua_column es.

(** Before an element that prints a column there is, for every earlier column,
    an element of that column or past it. *)
Definition aligned (es : list element) : Prop :=
  forall before e after, es = before ++ e :: after ->
  el_type e ∈ [GTPV1_IE_TEI_DATA_I; GTPV1_IE_TEI_CONTROL_PLANE; GTPV1_IE_END_USER_ADDRESS] ->
  forall ty, ty ∈ [GTPV1_IE_IMSI; GTPV1_IE_TEI_DATA_I; GTPV1_IE_TEI_CONTROL_PLANE] ->
  ty < el_type e -> passed ty before = true.

(** What one element adds, on the list of elements. *)
Definition emit (s : decode_state) (e : element) : decode_state :=
  DecodeState (out s +:+ element_text e) (imsi_found s || (el_type e =? GTPV1_IE_IMSI))
    (teidd1_found s || (el_type e =? GTPV1_IE_TEI_DATA_I))
    (teidcp_found s || (el_type e =? GTPV1_IE_TEI_CONTROL_PLANE))
    (eua_found s || (el_type e =? GTPV1_IE_END_USER_ADDRESS) && (2 <? blen (el_body e))).
Definition decode_step (s : decode_state) (e : element) : decode_state :=
  fill_teidcp (el_type e) (fill_teidd1 (el_type e) (fill_imsi (el_type e) (emit s e))).

Section row.
Implicit Types (es : list element) (e : element) (s : decode_state).

Lemma element_text_plain e : el_type e ≠ GTPV1_IE_IMSI -> el_type e ≠ GTPV1_IE_TEI_DATA_I ->
  el_type e ≠ GTPV1_IE_TEI_CONTROL_PLANE -> el_type e ≠ GTPV1_IE_END_USER_ADDRESS ->
  element_text e = "".
Proof. intros. unfold element_text. by rewrite !(proj2 (Z.eqb_neq _ _)) by done. Qed.

(** The body of the loop on an element that is in the packet. *)
Lemma decode_visit_element data pre e post s :
  data = pre ++ encode_element e ++ post -> element_ok e -> printable e ->
  decode_visit data s (el_type e) (blen pre) = Ok (decode_step s e).
Proof.
  intros Hd He [Hpi Hpe]. destruct (tv_body_length e He) as [Himsi Hteid].
  unfold decode_visit, decode_imsi, decode_teidd1, decode_teidcp, decode_eua, decode_step, emit,
    element_text.
  destruct (Z.eqb_spec (el_type e) GTPV1_IE_IMSI) as [Hi|Hi].
  { rewrite (imsi_of_element data pre e post Hd) by (rewrite ?Hi; auto; reflexivity).
    rewrite Hi.
    cbn [mbind res_bind]. rewrite imsi2str_text by (by try apply Himsi; try (unfold GTPV1_IMSI_LENGTH; lia)).
    rewrite bool_decide_eq_true_2 by (by apply Hpi). cbn.
    by rewrite !orb_false_r, orb_true_r. }
  destruct (Z.eqb_spec (el_type e) GTPV1_IE_TEI_DATA_I) as [H1|H1].
  { rewrite (teid_of_element data pre e post Hd He) by (rewrite ?H1; auto; reflexivity).
    rewrite H1. cbn. by rewrite !orb_false_r, orb_true_r. }
  destruct (Z.eqb_spec (el_type e) GTPV1_IE_TEI_CONTROL_PLANE) as [H2|H2].
  { rewrite (teid_of_element data pre e post Hd He) by (rewrite ?H2; auto; reflexivity).
    rewrite H2. cbn. by rewrite !orb_false_r, orb_true_r. }
  destruct (Z.eqb_spec (el_type e) GTPV1_IE_END_USER_ADDRESS) as [H3|H3].
  { specialize (Hpe H3). assert (Hty : GTPV1_FIRST_TLV_IE <= el_type e)
      by (rewrite H3; discriminate).
    rewrite (eua_of_element data pre e post Hd He Hty), H3.
    cbn [mbind res_bind]. unfold GTPV1_EUA_NO_ADDRESS_LENGTH.
    destruct (Z.ltb_spec 2 (blen (el_body e))).
    - rewrite (dotted_of_element data pre e post Hd Hty) by lia.
      cbn. by rewrite !orb_false_r, orb_true_r.
    - cbn. rewrite str_app_nil_r, !orb_false_r. by destruct s. }
  cbn. rewrite str_app_nil_r, !orb_false_r. by destruct s.
Qed.

(** ** Columns of a growing list *)

Lemma column_none ty es : passed ty es = false -> column ty es = "".
Proof.
  intros H. unfold column. rewrite passed_none by done.
  by rewrite (passed_mono ty) by (done || lia).
Qed.

Lemma eua_column_none es : passed GTPV1_IE_END_USER_ADDRESS es = false -> eua_column es = "".
Proof. intros H. unfold eua_column. by rewrite passed_none. Qed.

(** What an element past all earlier ones adds to a column. *)
Definition filler (ty : Z) es e : string :=
  if (ty <? el_type e) && negb (passed ty es) then "," else "".

Lemma column_snoc ty es e : Forall (fun x => el_type x < el_type e) es ->
  column ty (es ++ [e]) =
    column ty es +:+ (if el_type e =? ty then element_text e else filler ty es e).
Proof.
  intros Hlt. unfold column, filler. rewrite found_element_snoc, passed_snoc, (passed_split ty).
  destruct (found_element ty es) as [x|] eqn:Ef.
  - destruct (Z.eqb_spec (el_type e) ty) as [He|He].
    + rewrite passed_none in Ef; [done|]. apply passed_below. by rewrite <- He.
    + by rewrite andb_false_r, str_app_nil_r.
  - destruct (Z.eqb_spec (el_type e) ty) as [He|He].
    + rewrite (passed_below (ty + 1)); [done|]. eapply Forall_impl; [done|]. cbn. lia.
    + destruct (Z.ltb_spec ty (el_type e)), (Z.leb_spec (ty + 1) (el_type e)); try lia; cbn.
      * by destruct (passed (ty + 1) es).
      * rewrite orb_false_r. by rewrite str_app_nil_r.
Qed.

Lemma eua_column_snoc es e : Forall (fun x => el_type x < el_type e) es ->
  eua_column (es ++ [e]) =
    eua_column es +:+
      (if el_type e =? GTPV1_IE_END_USER_ADDRESS then element_text e else "").
Proof.
  intros Hlt. unfold eua_column. rewrite found_element_snoc.
  destruct (found_element _ es) as [x|] eqn:Ef;
    destruct (Z.eqb_spec (el_type e) GTPV1_IE_END_USER_ADDRESS) as [He|He];
    try by rewrite str_app_nil_r. 2: done.
  rewrite passed_none in Ef; [done|]. apply passed_below. by rewrite <- He.
Qed.

(** The state after the elements [es]. *)
Definition row_state (line : string) es s : Prop :=
  out s = line +:+ row es /\ imsi_found s = passed GTPV1_IE_IMSI es /\
  teidd1_found s = passed GTPV1_IE_TEI_DATA_I es /\
  teidcp_found s = passed GTPV1_IE_TEI_CONTROL_PLANE es.

Lemma decode_step_out line es s e : row_state line es s ->
  out (decode_step s e) = out s +:+ element_text e +:+ filler GTPV1_IE_IMSI es e +:+
    filler GTPV1_IE_TEI_DATA_I es e +:+ filler GTPV1_IE_TEI_CONTROL_PLANE es e /\
  imsi_found (decode_step s e) = passed GTPV1_IE_IMSI (es ++ [e]) /\
  teidd1_found (decode_step s e) = passed GTPV1_IE_TEI_DATA_I (es ++ [e]) /\
  teidcp_found (decode_step s e) = passed GTPV1_IE_TEI_CONTROL_PLANE (es ++ [e]).
Proof.
  intros (_ & Hi & H1 & H2). unfold decode_step, fill_teidcp, fill_teidd1, fill_imsi, emit, filler.
  rewrite !passed_snoc, <- Hi, <- H1, <- H2. destruct s as [o fi f1 f2 fe]. cbn [imsi_found
    teidd1_found teidcp_found out eua_found].
  assert (Hc : forall ty b, (ty <? el_type e) && negb (b || (el_type e =? ty)) =
    (ty <? el_type e) && negb b /\ (b || (ty <=? el_type e)) =
    ((b || (el_type e =? ty)) || ((ty <? el_type e) && negb b))).
  { intros ty b. destruct (Z.eqb_spec (el_type e) ty), (Z.ltb_spec ty (el_type e)),
      (Z.leb_spec ty (el_type e)); try lia; by destruct b. }
  destruct (Hc GTPV1_IE_IMSI fi) as [Ci Ki], (Hc GTPV1_IE_TEI_DATA_I f1) as [C1 K1],
    (Hc GTPV1_IE_TEI_CONTROL_PLANE f2) as [C2 K2]. rewrite Ki, K1, K2. clear Ki K1 K2 Hc.
  rewrite Ci. destruct ((GTPV1_IE_IMSI <? el_type e) && negb fi);
    cbn [imsi_found teidd1_found teidcp_found out eua_found];
    rewrite C1; destruct ((GTPV1_IE_TEI_DATA_I <? el_type e) && negb f1);
    cbn [imsi_found teidd1_found teidcp_found out eua_found];
    rewrite C2; destruct ((GTPV1_IE_TEI_CONTROL_PLANE <? el_type e) && negb f2);
    cbn [imsi_found teidd1_found teidcp_found out eua_found];
    rewrite ?str_app_assoc, ?str_app_nil_r, ?orb_false_r, ?orb_true_r; done.
Qed.

Lemma filler_passed ty es e : passed ty es = true -> filler ty es e = "".
Proof. intros H. unfold filler. by rewrite H, andb_false_r. Qed.

Lemma filler_below ty es e : el_type e <= ty -> filler ty es e = "".
Proof. intros H. unfold filler. by rewrite (proj2 (Z.ltb_ge _ _)) by lia. Qed.

(** Printed in the order of the code or in the order of the columns. *)
Lemma row_snoc es e :
  Forall (fun x => el_type x < el_type e) es ->
  (el_type e ∈ [GTPV1_IE_TEI_DATA_I; GTPV1_IE_TEI_CONTROL_PLANE; GTPV1_IE_END_USER_ADDRESS] ->
   forall ty, ty ∈ [GTPV1_IE_IMSI; GTPV1_IE_TEI_DATA_I; GTPV1_IE_TEI_CONTROL_PLANE] ->
   ty < el_type e -> passed ty es = true) ->
  row (es ++ [e]) = row es +:+ element_text e +:+ filler GTPV1_IE_IMSI es e +:+
    filler GTPV1_IE_TEI_DATA_I es e +:+ filler GTPV1_IE_TEI_CONTROL_PLANE es e.
Proof.
  intros Hlt Hal. unfold row. rewrite !column_snoc, eua_column_snoc by done.
  assert (Hbelow : forall ty, el_type e <= ty -> column ty es = "" /\
    (ty = GTPV1_IE_END_USER_ADDRESS -> eua_column es = "")).
  { intros ty Hty. assert (Hp : passed ty es = false).
    { apply (passed_mono (el_type e)); [done|]. by apply passed_below. }
    split; [by apply column_none|]. intros ->. by apply eua_column_none. }
  unfold GTPV1_IE_IMSI, GTPV1_IE_TEI_DATA_I, GTPV1_IE_TEI_CONTROL_PLANE,
    GTPV1_IE_END_USER_ADDRESS in *.
  destruct (Z.eqb_spec (el_type e) 2) as [H2|H2].
  { rewrite H2 in *. cbn [Z.eqb Pos.eqb].
    rewrite !filler_below by lia.
    destruct (Hbelow 16) as [-> _]; [lia|]. destruct (Hbelow 17) as [-> _]; [lia|].
    destruct (Hbelow 128 ltac:(lia)) as [_ ->]; [|done]. by autorewrite with str. }
  destruct (Z.eqb_spec (el_type e) 16) as [H16|H16].
  { rewrite H16 in *. cbn [Z.eqb Pos.eqb].
    rewrite (filler_passed 2) by (apply Hal; [set_solver|set_solver|lia]).
    rewrite !filler_below by lia. destruct (Hbelow 17) as [-> _]; [lia|].
    destruct (Hbelow 128 ltac:(lia)) as [_ ->]; [|done]. by autorewrite with str. }
  destruct (Z.eqb_spec (el_type e) 17) as [H17|H17].
  { rewrite H17 in *. cbn [Z.eqb Pos.eqb].
    rewrite (filler_passed 2), (filler_passed 16) by (apply Hal; [set_solver|set_solver|lia]).
    rewrite !filler_below by lia.
    destruct (Hbelow 128 ltac:(lia)) as [_ ->]; [|done]. by autorewrite with str. }
  destruct (Z.eqb_spec (el_type e) 128) as [H128|H128].
  { rewrite H128 in *.
    rewrite (filler_passed 2), (filler_passed 16), (filler_passed 17)
      by (apply Hal; [set_solver|set_solver|lia]).
    by autorewrite with str. }
  rewrite element_text_plain by done.
  assert (Hf : forall ty ty' c rest, ty < ty' -> (passed ty' es = false -> c = "") ->
    filler ty es e +:+ c +:+ rest = c +:+ filler ty es e +:+ rest).
  { intros ty ty' c rest Hle Hc. unfold filler.
    destruct (_ && negb _) eqn:Hb; [|done]. apply andb_true_iff in Hb as [_ Hp].
    apply negb_true_iff in Hp. rewrite Hc; [done|]. apply (passed_mono ty); [lia|done]. }
  rewrite !str_app_assoc, str_app_nil_l. f_equal.
  rewrite (Hf 2 16) by (done || apply column_none). f_equal.
  rewrite (Hf 16 17), (Hf 2 17) by (done || apply column_none). f_equal.
  rewrite (Hf 17 128), (Hf 16 128), (Hf 2 128) by (done || apply eua_column_none).
  by rewrite str_app_nil_r.
Qed.

Lemma aligned_snoc es e : aligned (es ++ [e]) -> aligned es.
Proof.
  intros Ha before x after ->. apply (Ha before x (after ++ [e])). by rewrite <- (assoc_L (++)).
Qed.

Lemma decode_row line es : ascending es -> aligned es ->
  row_state line es (foldl decode_step (DecodeState line false false false false) es).
Proof.
  induction es as [|e es IH] using rev_ind; intros Hs Ha.
  { cbn. split; [|done]. cbn. by rewrite str_app_nil_r. }
  apply ascending_snoc in Hs as [Hs Hlt].
  specialize (IH Hs (aligned_snoc es e Ha)). rewrite foldl_snoc.
  destruct (decode_step_out line es _ e IH) as (Ho & Hi & H1 & H2).
  split; [|done]. rewrite Ho, row_snoc; [|done|].
  - destruct IH as [-> _]. by rewrite str_app_assoc.
  - intros Hc ty Hty Hlt'. by apply (Ha es e []).
Qed.
End row.

(** ** Properties *)

Section properties.
Context (ctime : Z -> string).

(** The columns before the first element. *)
Definition line_start (time : string) (t : Z) : string :=
  time +:+ " " +:+ pad0 9 (pretty (u32 t)) +:+ " usec:".

(** The optional columns of a message with option bits [opts]. *)
Definition options_text (opts : Z) (opt : list Z) : string :=
  if opts =? 0 then ",," else
  fmt_x (word16 opt 0) +:+ "," +:+ fmt_x (octet opt 2) +:+ "," +:+ fmt_x (octet opt 3).

Lemma options_columns_message o opts mt teid opt slack es h :
  outer_ok o -> elements_ok opts mt teid opt es -> flag_options h = opts ->
  options_columns (encapsulate o (elements_message opts mt teid opt es) ++ slack) (gtp_offset o) h
    = Ok (options_text opts opt, sizeof_gtpv1hdr + options_length opts).
Proof.
  intros Ho Hm Hh. pose proof (emok_teid _ _ _ _ _ Hm) as [Ht _].
  pose proof (emok_opt _ _ _ _ _ Hm) as [Hp _].
  unfold options_columns, options_text, options_length. rewrite Hh.
  destruct (Z.eqb_spec opts 0) as [He|He]; [done|]. cbn [negb].
  assert (Hoct : forall i, 0 <= i < 4 ->
    rd8 (encapsulate o (elements_message opts mt teid opt es) ++ slack) (gtp_offset o + (8 + i))
      = Ok (octet opt i)).
  { intros i Hi. rewrite (message_rd8 o opts mt teid opt slack es Ho Hm).
    2:{ unfold sizeof_gtpv1hdr, options_length, sizeof_gtpv1hdropt.
        rewrite (proj2 (Z.eqb_neq _ _) He). lia. }
    f_equal. rewrite (proj2 (Z.eqb_neq _ _) He), !(assoc_L (++)).
    rewrite (octet_shift _ opt 8).
    - f_equal. lia.
    - rewrite !blen_app, Ht. done.
    - lia. }
  unfold rd16be. rewrite <- !Z.add_assoc.
  rewrite <- (Z.add_0_r 8) at 1. change (8 + 1) with (8 + 1).
  change 10 with (8 + 2). change 11 with (8 + 3).
  rewrite (Hoct 0), (Hoct 1), (Hoct 2), (Hoct 3) by lia. done.
Qed.

(** What the line of a GTP-C message has before its elements. *)
Definition gtp_c_start (time : string) (t opts mt : Z) (teid opt : list Z) (es : list element) : string :=
  line_start time t +:+
  header_columns (Gtpv1hdr opts 0 GTP_V1_TYPEVER mt (elements_length opts es) (word32 teid 0)) +:+
  options_text opts opt +:+ ",,".

Lemma message_names_plain :
  forallb (fun e => bool_decide (commas (mt_name e) = O)) gtpv1_message_types = true.
Proof. vm_compute. reflexivity. Qed.

Lemma commas_message_name mt : is_byte mt ->
  commas (mt_name (gtpv1_message_types !!! Z.to_nat mt)) = O.
Proof.
  intros Hmt. pose proof message_names_plain as Hall. rewrite forallb_forall in Hall.
  eapply bool_decide_eq_true, Hall, list_elem_of_In, list_elem_of_lookup_total_2.
  change (length gtpv1_message_types) with 256%nat. unfold is_byte in Hmt. lia.
Qed.

Lemma commas_gtp_c_start time t opts mt teid opt es : is_byte mt ->
  commas (gtp_c_start time t opts mt teid opt es) = (commas time + 13)%nat.
Proof.
  intros Hmt. pose proof (commas_message_name mt Hmt) as Hn.
  unfold gtp_c_start, line_start, header_columns, options_text. cbn [message_type gtp_length gtp_teid
    flag_options flag_typever].
  change (pretty (u32 t)) with (fmt_d (u32 t)).
  destruct (mt =? GTPV1_MT_G_PDU), (opts =? 0); autorewrite with commas; rewrite Hn.
  all: repeat match goal with |- context [commas (String ?c ?r)] =>
    let n := eval vm_compute in (commas (String c r)) in
    change (commas (String c r)) with n end; lia.
Qed.

(** C33: the line of a GTP-C message.  For a message of strictly ascending
    elements in any encapsulation, whose printed elements are aligned, the
    program prints the header columns, then IMSI, TEID data I, TEID control
    plane and end user address, each followed by a comma but the last, a field
    of an absent element left empty once a later element has been seen.
    Thirteen commas precede the IMSI, one too few for the two empty fields the
    comment announces: the IMSI is the fourteenth field, where the title has
    [dest]. *)
Theorem decode_gtp_c_row (o : outer) (opts mt : Z) (teid opt slack : list Z) (es : list element)
    (h : pcap_pkthdr) (time : string) (fuel : nat) :
  outer_ok o -> elements_ok opts mt teid opt es -> mt <> GTPV1_MT_G_PDU ->
  ascending es -> aligned es -> Forall printable es ->
  let pkt := encapsulate o (elements_message opts mt teid opt es) in
  blen pkt < 2 ^ 32 -> caplen h = blen pkt ->
  time_string ctime (tv_sec (ts h)) = Ok time -> (length es <= fuel)%nat ->
  let start := gtp_c_start time (tv_sec (ts h)) opts mt teid opt es in
  decode_gtp_packet ctime fuel h (pkt ++ slack) = Some (Ok (start +:+ row es +:+ newline)) /\
  commas start = (commas time + 13)%nat /\
  exists titles, decodegtp_title = titles +:+ "dest" +:+ newline /\ commas titles = 13%nat.
Proof.
  intros Ho Hm Hmt Hs Ha Hp pkt Hl Hc Ht Hf start. unfold pkt in *. clear pkt.
  split; [|split; [apply commas_gtp_c_start, Hm|
    exists (String.substring 0 85 decodegtp_title); split; vm_compute; reflexivity]].
  unfold start, gtp_c_start.
  unfold decode_gtp_packet. rewrite Hc, Ht.
  rewrite (message_get_header o opts mt teid opt slack es Ho Hm Hl). cbn [mbind res_bind].
  rewrite (message_read_header o opts mt teid opt slack es Ho Hm). cbn [mbind res_bind].
  rewrite (options_columns_message o opts mt teid opt slack es _ Ho Hm) by done.
  cbn [mbind res_bind message_type gtp_length mret res_ret].
  rewrite (proj2 (Z.eqb_neq _ _) Hmt). cbn [mret res_ret].
  rewrite (message_walk o opts mt teid opt slack es Ho Hm _ decode_step); [|done|].
  2:{ intros e pre post s He Heq. apply (decode_visit_element _ pre e post s Heq).
      - by apply (proj1 (Forall_forall _ _) (emok_elements _ _ _ _ _ Hm)).
      - by apply (proj1 (Forall_forall _ _) Hp). }
  destruct (decode_row (line_start time (tv_sec (ts h)) +:+
    header_columns (Gtpv1hdr opts 0 GTP_V1_TYPEVER mt (elements_length opts es) (word32 teid 0))
    +:+ options_text opts opt +:+ ",,") es Hs Ha) as [Hout _].
  unfold line_start in *. autorewrite with str in Hout |- *. by rewrite Hout, !str_app_assoc.
Qed.
End properties.

(** ** Witnesses *)

Lemma sample_request_aligned : ascending sample_request /\ aligned sample_request.
Proof.
  split.
  - repeat constructor.
  - intros before e after Heq Hc ty Hty Hlt.
    repeat (destruct before as [|? before]; [injection Heq as <- <-|injection Heq as <- Heq]);
    try (by destruct before);
    set_unfold; cbn [el_type] in *; destruct_or?; subst; try done; try discriminate.
Qed.

Definition sample_ctime (t : Z) : string := "Thu Jan  1 00:00:00 1970" +:+ newline.

Lemma decode_gtp_c_row_witness :
  let time := "Thu Jan  1 00:00:00 1970" in
  decode_gtp_packet sample_ctime 6 (Pkthdr (Timeval 7 0) 90 90)
    (encapsulate sample_outer (elements_message 2 16 [0; 0; 0; 7] [0; 1; 0; 0] sample_request)
      ++ [])
  = Some (Ok (gtp_c_start time 7 2 16 [0; 0; 0; 7] [0; 1; 0; 0] sample_request +:+
      row sample_request +:+ newline)) /\
  gtp_c_start time 7 2 16 [0; 0; 0; 7] [0; 1; 0; 0] sample_request =
    "Thu Jan  1 00:00:00 1970 000000007 usec:" +:+
    "gtp-c,1,1,0,1,0,16[CREATE_PDP_CONTEXT_REQUEST],36,7,1,0,0,," /\
  row sample_request = "123456789012345,102,9,10.0.0.1".
Proof.
  intros time. split; [|split; vm_compute; reflexivity].
  apply (decode_gtp_c_row sample_ctime sample_outer 2 16 [0; 0; 0; 7] [0; 1; 0; 0] []
    sample_request (Pkthdr (Timeval 7 0) 90 90) time 6).
  - apply sample_outer_ok.
  - apply sample_request_ok. lia.
  - discriminate.
  - apply sample_request_aligned.
  - apply sample_request_aligned.
  - apply sample_request_printable.
  - vm_compute. reflexivity.
  - vm_compute. reflexivity.
  - vm_compute. reflexivity.
  - cbn. lia.
Defined.

(** A message whose TEID data I element directly follows an element below the
    IMSI prints the TEID in the column of the IMSI. *)
Example misaligned_row :
  decode_gtp_packet sample_ctime 5 (Pkthdr (Timeval 7 0) 65 65)
    (encapsulate sample_outer (elements_message 0 17 [0; 0; 0; 7] []
      [Element 1 [128]; Element 16 [0; 0; 1; 2]; Element 17 [0; 0; 0; 9]]))
  = Some (Ok ("Thu Jan  1 00:00:00 1970 000000007 usec:" +:+
      "gtp-c,1,1,0,0,0,17[CREATE_PDP_CONTEXT_RESPONSE],12,7,,,,," +:+ "102,,9," +:+ newline)).
Proof. vm_compute. reflexivity. Qed.
