(* ===== verification/GtpImsiEua.v ===== *)
(** * gtpimsieua: pairing subscribers with their addresses

    [decode_gtp_packet] and [main] of [filterprograms/gtpimsieua.c].  A Create
    PDP Context Request stores its IMSI under the control plane TEID it
    announces, in a table of [IMSI_MAP_SIZE] slots whose entries expire after
    [IMSI_TIMEOUT] seconds; the response, addressed to that TEID, prints the
    end user address with the IMSI and clears the slot.  The three arrays of
    the code are one list of slots.  The size of the table is a parameter, the
    clock an argument. *)
From S2P Require Import Prelude Text GtpTables GtpHeader GtpFields Pcap GtpWalk Untunnel GtpMessage.
Import MessageTypes InformationElements TableFacts.

Definition IMSI_MAP_SIZE : Z := 10000000.
Definition IMSI_TIMEOUT : Z := 300.

(** [imsi_map[i]], [imsi_time[i]], [imsi_array[i]].  The map holds the TEID
    converted to [int]. *)
Record slot := Slot { sl_map : Z; sl_time : Z; sl_imsi : string }.

(** ** The code *)

(** [imsi_map[i] == 0 || imsi_time[i] + IMSI_TIMEOUT < time_now] *)
Definition usable (time_now : Z) (sl : slot) : bool :=
  (sl_map sl =? 0) || (sl_time sl + IMSI_TIMEOUT <? time_now).

(** The loop that stores an IMSI in the first usable slot. *)
Fixpoint store_imsi (time_now teid : Z) (imsistr : string) (slots : list slot) : list slot :=
  match slots with
  | [] => []
  | sl :: r =>
      if usable time_now sl then Slot (s32 teid) time_now imsistr :: r
      else sl :: store_imsi time_now teid imsistr r
  end.

(** The loop that finds and clears the slot of a TEID; the comparison is of the
    map's [int] converted to [unsigned int]. *)
Fixpoint take_imsi (teid : Z) (slots : list slot) : option string * list slot :=
  match slots with
  | [] => (None, [])
  | sl :: r =>
      if u32 (sl_map sl) =? teid then (Some (sl_imsi sl), Slot 0 (sl_time sl) (sl_imsi sl) :: r)
      else let '(found, r) := take_imsi teid r in (found, sl :: r)
  end.

(** The program's table and output, and the packet's [imsistr]. *)
Record ie_state := IeState { slots : list slot; imsistr : string; printed : string }.

Definition visit_imsi (data : list Z) (ie p : Z) (s : ie_state) : res ie_state :=
  if ie =? GTPV1_IE_IMSI then
    imsi ← read_imsi data p;
    str ← imsi2str (Z.to_nat (GTPV1_IMSI_LENGTH * 2)) imsi;
    mret (IeState (slots s) str (printed s))
  else mret s.

Definition visit_teidcp (h : gtpv1hdr) (time_now : Z) (data : list Z) (ie p : Z) (s : ie_state)
    : res ie_state :=
  if (ie =? GTPV1_IE_TEI_CONTROL_PLANE) &&
     (message_type h =? GTPV1_MT_CREATE_PDP_CONTEXT_REQUEST) then
    if existsb (usable time_now) (slots s) then
      t ← teid2uint data p;
      mret (IeState (store_imsi time_now t (imsistr s) (slots s)) (imsistr s) (printed s))
    else mret s
  else mret s.

(** The address line: time stamp, address, and for a response the IMSI stored
    under the TEID of the header. *)
Definition visit_eua (h : gtpv1hdr) (time : timeval) (data : list Z) (ie p : Z) (s : ie_state)
    : res ie_state :=
  if ie =? GTPV1_IE_END_USER_ADDRESS then
    l ← eua_length data p;
    if GTPV1_EUA_NO_ADDRESS_LENGTH <? l then
      a ← print_eua_ipv4 data p;
      let line := fmt_d (u64 (tv_sec time)) +:+ "," +:+ fmt_d (u32 (tv_usec time)) +:+ "," +:+ a in
      if message_type h =? GTPV1_MT_CREATE_PDP_CONTEXT_RESPONSE then
        let '(found, slots') := take_imsi (gtp_teid h) (slots s) in
        let imsi := match found with Some i => "," +:+ i | None => "" end in
        mret (IeState slots' (imsistr s) (printed s +:+ line +:+ imsi +:+ newline))
      else mret (IeState (slots s) (imsistr s) (printed s +:+ line +:+ newline))
    else mret s
  else mret s.

(** The body of the loop for the element [ie] at [p]. *)
Definition imsieua_visit (h : gtpv1hdr) (time_now : Z) (time : timeval) (data : list Z)
    (s : ie_state) (ie p : Z) : res ie_state :=
  s ← visit_imsi data ie p s;
  s ← visit_teidcp h time_now data ie p s;
  visit_eua h time data ie p s.

(** [decode_gtp_packet], at the time [time_now], on the table and the output so
    far. *)
Definition decode_gtp_packet (fuel : nat) (time_now : Z) (sp : list slot * string)
    (header : pcap_pkthdr) (data : list Z) : option (res (list slot * string)) :=
  match
    hdr ← gtpv1_get_header (caplen header) data;
    match hdr with
    | None => mret None
    | Some g =>
        h ← read_gtpv1hdr data g;
        if negb (message_type h =? GTPV1_MT_CREATE_PDP_CONTEXT_REQUEST) &&
           negb (message_type h =? GTPV1_MT_CREATE_PDP_CONTEXT_RESPONSE)
        then mret None
        else
          let offset := if negb (flag_options h =? 0)
            then sizeof_gtpv1hdr + sizeof_gtpv1hdropt else sizeof_gtpv1hdr in
          mret (Some (g, h, offset))
    end
  with
  | Fault f => Some (Fault f)
  | Ok None => Some (Ok sp)
  | Ok (Some (g, h, offset)) =>
      match ie_loop (imsieua_visit h time_now (ts header) data) data g (caplen header)
              (gtp_length h) fuel offset (IeState sp.1 "" sp.2) with
      | None => None
      | Some (Fault f) => Some (Fault f)
      | Some (Ok s) => Some (Ok (slots s, printed s))
      end
  end.

(** The loop of [main] that clears the map. *)
Definition init_slots (n : nat) : list slot := replicate n (Slot 0 0 "").

(** A packet with the time at which it is handled. *)
Fixpoint handle_packets (fuel : nat) (packets : list (Z * packet)) (sp : list slot * string)
    : option (res (list slot * string)) :=
  match packets with
  | [] => Some (Ok sp)
  | (now, (h, d)) :: r =>
      match decode_gtp_packet fuel now sp h d with
      | Some (Ok sp) => handle_packets fuel r sp
      | other => other
      end
  end.

(** [main], with a table of [n] slots; [clocked] gives the packets of a source
    the times at which they are handled. *)
Definition gtpimsieua_main (n : nat) (pcap_open_live pcap_open_offline : pcap_source)
    (clocked : list packet -> list (Z * packet)) (fuel : nat) (argv : list string)
    : option (res outcome) :=
  if negb (argc argv =? 3) then
    Some (name ← arg argv 0;
      mret (Outcome 1 "" ("usage: " +:+ name +:+ " -i|-f pcap_file_name" +:+ newline)))
  else
    match a1 ← arg argv 1; a2 ← arg argv 2; mret (a1, a2) with
    | Fault f => Some (Fault f)
    | Ok (a1, a2) =>
        let opened :=
          if String.eqb a1 "-i" then Some (pcap_open_live a2)
          else if String.eqb a1 "-f" then Some (pcap_open_offline a2) else None in
        match opened with
        | None => Some (Ok (Outcome 1 "" ("invalid argument " +:+ a1 +:+ newline)))
        | Some (inl errbuf) => Some (Ok (Outcome 2 "" ("decode failed: " +:+ errbuf +:+ newline)))
        | Some (inr packets) =>
            match handle_packets fuel (clocked packets) (init_slots n, "") with
            | None => None
            | Some (Fault f) => Some (Fault f)
            | Some (Ok sp) => Some (Ok (Outcome 0 sp.2 ""))
            end
        end
    end.

(** ** The table as a finite map *)

Definition slot_teid (sl : slot) : Z := u32 (sl_map sl).

(** The IMSI stored under each TEID. *)
Fixpoint table (sls : list slot) : gmap Z string :=
  match sls with
  | [] => ∅
  | sl :: r => if sl_map sl =? 0 then table r else <[slot_teid sl := sl_imsi sl]> (table r)
  end.

(** The map of the code is an [int] and no TEID is stored twice. *)
Fixpoint table_ok (sls : list slot) : Prop :=
  match sls with
  | [] => True
  | sl :: r => - 2 ^ 31 <= sl_map sl < 2 ^ 31 /\
      (sl_map sl <> 0 -> table r !! slot_teid sl = None) /\ table_ok r
  end.

(** A slot that holds no entry, or one stored more than five minutes ago; every
    other entry is to be kept. *)
Definition vacant (time_now : Z) (sl : slot) : Prop :=
  sl_map sl = 0 \/ 300 < time_now - sl_time sl.
Definition first_vacant (time_now : Z) (sls : list slot) (i : nat) (sl : slot) : Prop :=
  sls !! i = Some sl /\ vacant time_now sl /\
  forall j sl', (j < i)%nat -> sls !! j = Some sl' -> ~ vacant time_now sl'.

#[export] Instance vacant_dec time_now sl : Decision (vacant time_now sl).
Proof. unfold vacant. apply _. Defined.

(** The TEID of the first vacant slot: 0 if it holds no entry. *)
Fixpoint victim (time_now : Z) (sls : list slot) : option Z :=
  match sls with
  | [] => None
  | sl :: r => if decide (vacant time_now sl) then Some (slot_teid sl) else victim time_now r
  end.

Section table.
Implicit Types (sl : slot) (sls : list slot).

Lemma u32_s32 z : 0 <= z < 2 ^ 32 -> u32 (s32 z) = z.
Proof.
  intros H. unfold u32, s32.
  destruct (decide (z < 2 ^ 31)).
  - rewrite (Z.mod_small (z + 2 ^ 31)) by lia. rewrite Z.add_simpl_r. apply Z.mod_small. lia.
  - replace ((z + 2 ^ 31) mod 2 ^ 32) with (z - 2 ^ 31)
      by (apply (Z.mod_unique _ _ 1); lia).
    symmetry. apply (Z.mod_unique _ _ (-1)); lia.
Qed.

Lemma s32_range z : - 2 ^ 31 <= s32 z < 2 ^ 31.
Proof. unfold s32. pose proof (Z.mod_pos_bound (z + 2 ^ 31) (2 ^ 32)). lia. Qed.

Lemma slot_teid_zero sl : - 2 ^ 31 <= sl_map sl < 2 ^ 31 -> slot_teid sl = 0 <-> sl_map sl = 0.
Proof.
  intros H. unfold slot_teid. split; [|by intros ->].
  destruct (decide (sl_map sl < 0)).
  - rewrite u32_neg; lia.
  - rewrite u32_small; lia.
Qed.

Lemma table_zero sls : table_ok sls -> table sls !! 0 = None.
Proof.
  induction sls as [|sl r IH]; intros Hok; [done|]. destruct Hok as (Hr & _ & Hok). cbn.
  destruct (Z.eqb_spec (sl_map sl) 0) as [He|He]; [by apply IH|].
  rewrite lookup_insert_ne; [by apply IH|]. by rewrite slot_teid_zero.
Qed.

Lemma init_slots_ok n : table_ok (init_slots n) /\ table (init_slots n) = ∅.
Proof. induction n as [|n [IH1 IH2]]; [done|]. cbn. repeat split; try done; lia. Qed.

Lemma take_imsi_map teid sls : table_ok sls -> teid <> 0 ->
  (take_imsi teid sls).1 = table sls !! teid /\
  table (take_imsi teid sls).2 = delete teid (table sls) /\
  table_ok (take_imsi teid sls).2.
Proof.
  intros Hok Ht. induction sls as [|sl r IH]; [cbn; by rewrite delete_empty|].
  destruct Hok as (Hr & Hnew & Hok). destruct (IH Hok) as (IH1 & IH2 & IH3). clear IH. cbn.
  change (u32 (sl_map sl)) with (slot_teid sl).
  destruct (Z.eqb_spec (slot_teid sl) teid) as [He|He].
  - assert (Hnz : sl_map sl <> 0) by (rewrite <- slot_teid_zero by done; congruence).
    rewrite (proj2 (Z.eqb_neq _ _) Hnz). cbn. rewrite <- He.
    rewrite lookup_insert_eq, delete_insert_eq. split; [done|]. split.
    + rewrite delete_id; [done|]. by apply Hnew.
    + repeat split; try done; lia.
  - destruct (take_imsi teid r) as [found r']. cbn in *.
    destruct (Z.eqb_spec (sl_map sl) 0) as [Hz|Hz]; cbn.
    + rewrite Hz in *. split; [done|]. split; [done|]. repeat split; try done; lia.
    + rewrite lookup_insert_ne, delete_insert_ne, IH2 by done. split; [done|]. split; [done|].
      repeat split; try done; try lia. intros _.
      rewrite lookup_delete_ne by done. by apply Hnew.
Qed.

(** The code's test finds exactly the vacant slots. *)
Lemma usable_vacant time_now sl : usable time_now sl = bool_decide (vacant time_now sl).
Proof.
  unfold usable, vacant, IMSI_TIMEOUT. case_bool_decide; lia.
Qed.

Lemma usable_victim time_now sl r : victim time_now (sl :: r) =
  if usable time_now sl then Some (slot_teid sl) else victim time_now r.
Proof. rewrite usable_vacant. cbn. by destruct (decide _); case_bool_decide. Qed.

Lemma usable_free time_now sl : usable time_now sl = false -> sl_map sl <> 0.
Proof. unfold usable. intros [H _]%orb_false_iff. by apply Z.eqb_neq. Qed.

Lemma victim_stored time_now sls old : table_ok sls -> victim time_now sls = Some old ->
  old = 0 \/ is_Some (table sls !! old).
Proof.
  induction sls as [|sl r IH]; intros Hok Hv; [done|].
  destruct Hok as (Hr & _ & Hok). rewrite usable_victim in Hv. cbn [table] in *.
  destruct (usable time_now sl) eqn:Hu.
  - injection Hv as <-. destruct (Z.eqb_spec (sl_map sl) 0) as [He|He].
    + left. by rewrite slot_teid_zero.
    + right. rewrite lookup_insert_eq. by eexists.
  - apply usable_free in Hu. rewrite (proj2 (Z.eqb_neq _ _) Hu).
    destruct (IH Hok Hv) as [->|Hs]; [by left|]. right.
    destruct (decide (slot_teid sl = old)) as [->|Hn].
    + rewrite lookup_insert_eq. by eexists.
    + by rewrite lookup_insert_ne.
Qed.

Lemma store_imsi_map time_now teid str sls old : table_ok sls -> 0 < teid < 2 ^ 32 ->
  victim time_now sls = Some old -> table sls !! teid = None ->
  table (store_imsi time_now teid str sls) = <[teid := str]> (delete old (table sls)) /\
  table_ok (store_imsi time_now teid str sls).
Proof.
  intros Hok Ht. induction sls as [|sl r IH]; [done|]. destruct Hok as (Hr & Hnew & Hok).
  rewrite usable_victim. cbn [store_imsi]. intros Hv Hfresh. cbn [table] in Hfresh.
  assert (Hteid : slot_teid (Slot (s32 teid) time_now str) = teid) by (apply u32_s32; lia).
  assert (Hnz : s32 teid <> 0).
  { pose proof (s32_range teid).
    rewrite <- (slot_teid_zero (Slot (s32 teid) time_now str)); [rewrite Hteid; lia|done]. }
  destruct (usable time_now sl) eqn:Hu.
  - injection Hv as <-. cbn [table sl_map sl_imsi table_ok].
    rewrite (proj2 (Z.eqb_neq _ _) Hnz), Hteid.
    destruct (Z.eqb_spec (sl_map sl) 0) as [Hz|Hz].
    + rewrite (proj2 (slot_teid_zero sl Hr) Hz), delete_id by (by apply table_zero).
      repeat split; try done; apply s32_range.
    + rewrite delete_insert_eq, (delete_id (table r)) by (by apply Hnew).
      split; [done|]. split; [apply s32_range|]. split; [|done]. intros _.
      rewrite lookup_insert_None in Hfresh. by destruct Hfresh.
  - apply usable_free in Hu. cbn [table table_ok].
    rewrite (proj2 (Z.eqb_neq _ _) Hu) in *.
    apply lookup_insert_None in Hfresh as [Hfresh Hk].
    destruct (IH Hok Hv Hfresh) as [IH1 IH2]. rewrite IH1.
    assert (Hold : old <> slot_teid sl).
    { intros ->. destruct (victim_stored _ _ _ Hok Hv) as [Hz|[x Hx]].
      - by apply slot_teid_zero in Hz.
      - by rewrite Hnew in Hx. }
    split.
    + rewrite (insert_insert_ne (delete old (table r))), delete_insert_ne by done. done.
    + split; [done|]. split; [|done]. intros _.
      rewrite lookup_insert_ne, lookup_delete_ne by done. by apply Hnew.
Qed.

Lemma victim_usable time_now sls :
  existsb (usable time_now) sls = true <-> is_Some (victim time_now sls).
Proof.
  induction sls as [|sl r IH]; [cbn; split; [done|by intros [? ?]]|].
  rewrite usable_victim. cbn [existsb].
  destruct (usable time_now sl); [|done]. split; [by eexists|done].
Qed.

(** No TEID is in two slots. *)
Lemma table_none sls sl : sl ∈ sls -> sl_map sl <> 0 -> table sls !! slot_teid sl <> None.
Proof.
  induction sls as [|sl0 r IH]; intros Hin Hm; [by apply elem_of_nil in Hin|].
  cbn. apply elem_of_cons in Hin as [<-|Hin].
  - rewrite (proj2 (Z.eqb_neq _ _) Hm). by rewrite lookup_insert_eq.
  - destruct (sl_map sl0 =? 0); [by apply IH|]. rewrite lookup_insert_None. intros [H _]. by apply IH.
Qed.

Lemma table_unique sls sl sl' : table_ok sls -> sl ∈ sls -> sl' ∈ sls -> sl_map sl <> 0 ->
  sl_map sl' <> 0 -> slot_teid sl = slot_teid sl' -> sl = sl'.
Proof.
  induction sls as [|sl0 r IH]; intros Hok Hin Hin' Hm Hm' He; [by apply elem_of_nil in Hin|].
  destruct Hok as (_ & Hnew & Hok). apply elem_of_cons in Hin, Hin'.
  destruct Hin as [->|Hin], Hin' as [->|Hin']; [done|..|by apply IH].
  - destruct (table_none r sl' Hin' Hm'). rewrite <- He. by apply Hnew.
  - destruct (table_none r sl Hin Hm). rewrite He. by apply Hnew.
Qed.

(** Storing replaces the first vacant slot. *)
Lemma store_imsi_at time_now teid str sls : forall i sl, first_vacant time_now sls i sl ->
  store_imsi time_now teid str sls = <[i := Slot (s32 teid) time_now str]> sls /\
  victim time_now sls = Some (slot_teid sl).
Proof.
  induction sls as [|sl0 r IH]; intros i sl (Hi & Hv & Hbefore); [done|].
  rewrite usable_victim. cbn [store_imsi]. rewrite usable_vacant. destruct i as [|i].
  - injection Hi as ->. by rewrite bool_decide_eq_true_2.
  - rewrite bool_decide_eq_false_2 by (apply (Hbefore O); [lia|done]).
    destruct (IH i sl) as [-> ->]; [|done]. split; [done|]. split; [done|].
    intros j sl' Hj. by apply (Hbefore (S j)); lia.
Qed.

Lemma table_entry sls sl : table_ok sls -> sl ∈ sls -> sl_map sl <> 0 ->
  table sls !! slot_teid sl = Some (sl_imsi sl).
Proof.
  induction sls as [|sl0 r IH]; intros Hok Hin Hm; [by apply elem_of_nil in Hin|].
  destruct Hok as (Hr & Hnew & Hok). cbn. apply elem_of_cons in Hin as [<-|Hin].
  - rewrite (proj2 (Z.eqb_neq _ _) Hm). by rewrite lookup_insert_eq.
  - specialize (IH Hok Hin Hm). destruct (Z.eqb_spec (sl_map sl0) 0) as [|H0]; [done|].
    rewrite lookup_insert_ne; [done|]. intros He. by rewrite He, IH in Hnew; discriminate Hnew.
Qed.
End table.

(** ** Messages *)

Definition time_columns (time : timeval) : string :=
  fmt_d (u64 (tv_sec time)) +:+ "," +:+ fmt_d (u32 (tv_usec time)) +:+ ",".

Definition imsi_text (es : list element) : string :=
  match found_element GTPV1_IE_IMSI es with Some e => octets_text (el_body e) | None => "" end.
Definition address_text (es : list element) : option string :=
  e ← found_element GTPV1_IE_END_USER_ADDRESS es;
  if 2 <? blen (el_body e) then Some (dotted (el_body e) 2) else None.

Section message.
(** Message type, header TEID, clock and time stamp of the packet. *)
Context (mt hteid time_now : Z) (time : timeval).

Definition print_address (a : string) (s : ie_state) : ie_state :=
  if mt =? GTPV1_MT_CREATE_PDP_CONTEXT_RESPONSE then
    IeState (take_imsi hteid (slots s)).2 (imsistr s)
      (printed s +:+ time_columns time +:+ a +:+
        match (take_imsi hteid (slots s)).1 with Some i => "," +:+ i | None => "" end +:+ newline)
  else IeState (slots s) (imsistr s) (printed s +:+ time_columns time +:+ a +:+ newline).

Definition store_element (e : element) (s : ie_state) : ie_state :=
  if mt =? GTPV1_MT_CREATE_PDP_CONTEXT_REQUEST
  then IeState (store_imsi time_now (word32 (el_body e) 0) (imsistr s) (slots s)) (imsistr s)
         (printed s)
  else s.

(** One element, on the list of elements. *)
Definition imsieua_step (s : ie_state) (e : element) : ie_state :=
  if el_type e =? GTPV1_IE_IMSI then IeState (slots s) (octets_text (el_body e)) (printed s) else
  if el_type e =? GTPV1_IE_TEI_CONTROL_PLANE then store_element e s else
  if (el_type e =? GTPV1_IE_END_USER_ADDRESS) && (2 <? blen (el_body e))
  then print_address (dotted (el_body e) 2) s else s.

Lemma store_imsi_full teid str sls : existsb (usable time_now) sls = false ->
  store_imsi time_now teid str sls = sls.
Proof.
  induction sls as [|sl r IH]; [done|]. cbn. intros [Hu Hr]%orb_false_iff.
  by rewrite Hu, IH.
Qed.

Lemma imsieua_visit_element opts len data pre e post s :
  data = pre ++ encode_element e ++ post -> element_ok e -> printable e ->
  imsieua_visit (Gtpv1hdr opts 0 GTP_V1_TYPEVER mt len hteid) time_now time data s (el_type e)
    (blen pre) = Ok (imsieua_step s e).
Proof.
  intros Hd He [Hpi Hpe]. destruct (tv_body_length e He) as [Himsi Hteid].
  unfold imsieua_visit, visit_imsi, visit_teidcp, visit_eua, imsieua_step.
  destruct (Z.eqb_spec (el_type e) GTPV1_IE_IMSI) as [Hi|Hi].
  { rewrite (imsi_of_element data pre e post Hd) by (rewrite ?Hi; auto; reflexivity).
    rewrite Hi. cbn [mbind res_bind]. rewrite imsi2str_text by (by try apply Himsi; try (unfold GTPV1_IMSI_LENGTH; lia)).
    rewrite bool_decide_eq_true_2 by (by apply Hpi). done. }
  cbn [mbind res_bind mret res_ret].
  destruct (Z.eqb_spec (el_type e) GTPV1_IE_TEI_CONTROL_PLANE) as [H2|H2].
  { rewrite H2. cbn [andb message_type]. unfold store_element.
    destruct (mt =? GTPV1_MT_CREATE_PDP_CONTEXT_REQUEST); [|done].
    destruct (existsb (usable time_now) (slots s)) eqn:Hu.
    - rewrite (teid_of_element data pre e post Hd He) by (rewrite ?H2; auto; reflexivity). done.
    - rewrite store_imsi_full by done. by destruct s. }
  cbn [andb mbind res_bind mret res_ret].
  destruct (Z.eqb_spec (el_type e) GTPV1_IE_END_USER_ADDRESS) as [H3|H3]; [|done].
  specialize (Hpe H3). assert (Hty : GTPV1_FIRST_TLV_IE <= el_type e)
    by (rewrite H3; discriminate).
  rewrite (eua_of_element data pre e post Hd He Hty).
  cbn [mbind res_bind]. unfold GTPV1_EUA_NO_ADDRESS_LENGTH.
  destruct (Z.ltb_spec 2 (blen (el_body e))); [|done].
  rewrite (dotted_of_element data pre e post Hd Hty) by lia.
  cbn [andb mbind res_bind message_type gtp_teid]. unfold print_address, time_columns.
  destruct (mt =? _); [|by rewrite !str_app_assoc].
  destruct (take_imsi hteid (slots s)) as [f sl']. cbn. by rewrite !str_app_assoc.
Qed.

(** The state after the elements [es] of a message. *)
Definition after_elements (es : list element) (sls : list slot) (p : string) : ie_state :=
  let s := IeState sls (imsi_text es) p in
  let s := match found_element GTPV1_IE_TEI_CONTROL_PLANE es with
           | Some e => store_element e s | None => s end in
  match address_text es with Some a => print_address a s | None => s end.

Lemma imsieua_fold es sls p : ascending es ->
  foldl imsieua_step (IeState sls "" p) es = after_elements es sls p.
Proof.
  induction es as [|e es IH] using rev_ind; [done|]. intros [Hs Hlt]%ascending_snoc.
  rewrite foldl_snoc, IH by done. clear IH.
  assert (Hnone : forall ty, el_type e <= ty -> found_element ty es = None).
  { intros ty Hty. apply passed_none, (passed_mono (el_type e)); [done|]. by apply passed_below. }
  unfold after_elements, imsieua_step, imsi_text, address_text. rewrite !found_element_snoc.
  unfold GTPV1_IE_IMSI, GTPV1_IE_TEI_CONTROL_PLANE, GTPV1_IE_END_USER_ADDRESS in *.
  destruct (Z.eqb_spec (el_type e) 2) as [He|H2].
  { rewrite !Hnone by lia. by rewrite He. }
  destruct (Z.eqb_spec (el_type e) 17) as [He|H17].
  { rewrite (Hnone 17), (Hnone 128) by lia. rewrite He. cbn. by destruct (found_element 2 es). }
  destruct (Z.eqb_spec (el_type e) 128) as [He|H128].
  { rewrite (Hnone 128) by lia. cbn.
    destruct (2 <? blen (el_body e)); cbn;
      by destruct (found_element 2 es), (found_element 17 es). }
  cbn. by destruct (found_element 2 es), (found_element 17 es), (found_element 128 es).
Qed.
End message.

Section packet.
Context (o : outer) (opts mt : Z) (teid opt slack : list Z) (es : list element).

Lemma decode_message h fuel time_now sls p :
  outer_ok o -> elements_ok opts mt teid opt es -> ascending es -> Forall printable es ->
  mt = GTPV1_MT_CREATE_PDP_CONTEXT_REQUEST \/ mt = GTPV1_MT_CREATE_PDP_CONTEXT_RESPONSE ->
  caplen h = blen (encapsulate o (elements_message opts mt teid opt es)) -> caplen h < 2 ^ 32 ->
  (length es <= fuel)%nat ->
  let s := after_elements mt (word32 teid 0) time_now (ts h) es sls p in
  decode_gtp_packet fuel time_now (sls, p) h
    (encapsulate o (elements_message opts mt teid opt es) ++ slack)
    = Some (Ok (slots s, printed s)).
Proof.
  intros Ho Hm Ha Hp Hmt Hc Hl Hf s. unfold decode_gtp_packet. rewrite Hc in *.
  rewrite (message_get_header o opts mt teid opt slack es Ho Hm Hl). cbn [mbind res_bind].
  rewrite (message_read_header o opts mt teid opt slack es Ho Hm).
  cbn [mbind res_bind message_type flag_options gtp_length].
  replace (negb (mt =? GTPV1_MT_CREATE_PDP_CONTEXT_REQUEST) &&
    negb (mt =? GTPV1_MT_CREATE_PDP_CONTEXT_RESPONSE)) with false by (by destruct Hmt as [->| ->]).
  cbn [mret res_ret]. replace (if negb (opts =? 0) then sizeof_gtpv1hdr + sizeof_gtpv1hdropt
    else sizeof_gtpv1hdr) with (sizeof_gtpv1hdr + options_length opts)
    by (unfold options_length; by destruct (opts =? 0)).
  rewrite (message_walk o opts mt teid opt slack es Ho Hm _
    (imsieua_step mt (word32 teid 0) time_now (ts h))); [|done|].
  - cbn [fst snd]. rewrite imsieua_fold by done. done.
  - intros e pre post s' He Heq. apply (imsieua_visit_element _ _ _ _ _ _ _ pre e post s' Heq).
    + by apply (proj1 (Forall_forall _ _) (emok_elements _ _ _ _ _ Hm)).
    + by apply (proj1 (Forall_forall _ _) Hp).
Qed.
End packet.

(** ** Properties *)

(** C35: the table implements a finite map from TEIDs to IMSIs whose entries last
    five minutes.  Looking a TEID up returns and removes its entry.  Storing an
    unknown TEID writes the first slot that is empty or whose entry was stored
    more than 300 seconds ago; that entry is all that is forgotten, and every
    entry of an age of at most 300 seconds can still be looked up.  Without such
    a slot nothing is stored. *)
Theorem imsi_table_refines (sls : list slot) (time_now teid : Z) (str : string) :
  table_ok sls -> 0 < teid < 2 ^ 32 ->
  ((take_imsi teid sls).1 = table sls !! teid /\
   table (take_imsi teid sls).2 = delete teid (table sls) /\
   table_ok (take_imsi teid sls).2) /\
  (table sls !! teid = None -> forall i sl, first_vacant time_now sls i sl ->
   store_imsi time_now teid str sls = <[i := Slot (s32 teid) time_now str]> sls /\
   table (store_imsi time_now teid str sls) = <[teid := str]> (delete (slot_teid sl) (table sls)) /\
   table_ok (store_imsi time_now teid str sls) /\
   forall sl', sl' ∈ sls -> sl_map sl' <> 0 -> time_now - sl_time sl' <= 300 ->
     table (store_imsi time_now teid str sls) !! slot_teid sl' = Some (sl_imsi sl')) /\
  ((forall sl, sl ∈ sls -> sl_map sl <> 0 /\ time_now - sl_time sl <= 300) ->
   store_imsi time_now teid str sls = sls).
Proof.
  intros Hok Ht. split; [apply take_imsi_map; [done|lia]|]. split.
  - intros Hf i sl Hi. destruct (store_imsi_at time_now teid str sls i sl Hi) as [Heq Hv].
    destruct (store_imsi_map time_now teid str sls _ Hok Ht Hv Hf) as [Htab Hok'].
    split; [done|]. split; [done|]. split; [done|]. intros sl' Hin Hm Hage.
    pose proof (table_entry sls sl' Hok Hin Hm) as He. rewrite Htab.
    rewrite lookup_insert_ne by congruence. rewrite lookup_delete_ne; [done|]. intros Hsame.
    destruct Hi as (Hi & [Hz|Hexp] & _).
    + assert (slot_teid sl = 0) by (unfold slot_teid; by rewrite Hz).
      rewrite <- Hsame, H, table_zero in He; done.
    + assert (sl_map sl <> 0) by (intros Hz; rewrite <- Hsame in He;
        unfold slot_teid in He at 1; rewrite Hz, table_zero in He; done).
      assert (sl = sl'); [|subst; lia].
      apply (table_unique sls); [done|by eapply list_elem_of_lookup_2|done..].
  - intros Hall. apply store_imsi_full. apply not_true_is_false.
    intros (sl & Hin & Hu)%existsb_exists. rewrite usable_vacant in Hu.
    apply bool_decide_eq_true in Hu. apply list_elem_of_In in Hin. destruct (Hall sl Hin) as [Hm Ha].
    destruct Hu; lia.
Qed.

(** C34: a Create PDP Context exchange is paired.  After a request that
    announces an unknown control plane TEID, and the response addressed to that
    TEID, the last line printed is the response's time stamp and address with
    the IMSI of the request, and the TEID is forgotten. *)
Theorem create_pdp_context_paired
    (o1 o2 : outer) (opts1 opts2 : Z) (teid1 teid2 opt1 opt2 slack1 slack2 : list Z)
    (es1 es2 : list element) (h1 h2 : pcap_pkthdr) (now1 now2 : Z) (fuel : nat)
    (sls : list slot) (p : string) (imsi tei eua : element) :
  let pkt1 := encapsulate o1
    (elements_message opts1 GTPV1_MT_CREATE_PDP_CONTEXT_REQUEST teid1 opt1 es1) in
  let pkt2 := encapsulate o2
    (elements_message opts2 GTPV1_MT_CREATE_PDP_CONTEXT_RESPONSE teid2 opt2 es2) in
  outer_ok o1 -> elements_ok opts1 GTPV1_MT_CREATE_PDP_CONTEXT_REQUEST teid1 opt1 es1 ->
  ascending es1 -> Forall printable es1 -> caplen h1 = blen pkt1 -> blen pkt1 < 2 ^ 32 ->
  outer_ok o2 -> elements_ok opts2 GTPV1_MT_CREATE_PDP_CONTEXT_RESPONSE teid2 opt2 es2 ->
  ascending es2 -> Forall printable es2 -> caplen h2 = blen pkt2 -> blen pkt2 < 2 ^ 32 ->
  (length es1 <= fuel)%nat -> (length es2 <= fuel)%nat ->
  found_element GTPV1_IE_IMSI es1 = Some imsi ->
  found_element GTPV1_IE_TEI_CONTROL_PLANE es1 = Some tei ->
  found_element GTPV1_IE_END_USER_ADDRESS es2 = Some eua -> 2 < blen (el_body eua) ->
  word32 (el_body tei) 0 = word32 teid2 0 -> 0 < word32 teid2 0 < 2 ^ 32 ->
  table_ok sls -> table sls !! word32 teid2 0 = None -> is_Some (victim now1 sls) ->
  exists sls' p',
    handle_packets fuel [(now1, (h1, pkt1 ++ slack1)); (now2, (h2, pkt2 ++ slack2))] (sls, p)
      = Some (Ok (sls', p' +:+ time_columns (ts h2) +:+ dotted (el_body eua) 2 +:+ "," +:+
          octets_text (el_body imsi) +:+ newline)) /\
    table_ok sls' /\ table sls' !! word32 teid2 0 = None.
Proof.
  intros pkt1 pkt2 Ho1 Hm1 Ha1 Hp1 Hc1 Hl1 Ho2 Hm2 Ha2 Hp2 Hc2 Hl2 Hf1 Hf2 Hi Ht He He2 Hw Hr
    Hok Hfresh [old Hold].
  set (s1 := after_elements GTPV1_MT_CREATE_PDP_CONTEXT_REQUEST (word32 teid1 0) now1 (ts h1)
    es1 sls p).
  assert (Hs1 : slots s1 = store_imsi now1 (word32 teid2 0) (octets_text (el_body imsi)) sls).
  { unfold s1, after_elements, imsi_text. rewrite Ht, Hi. unfold store_element. cbn.
    rewrite <- Hw. by destruct (address_text es1). }
  destruct (store_imsi_map now1 (word32 teid2 0) (octets_text (el_body imsi)) sls old Hok Hr Hold
    Hfresh) as [Htab Hok1]. rewrite <- Hs1 in Htab, Hok1.
  destruct (take_imsi_map (word32 teid2 0) (slots s1) Hok1) as (Hf & Htab2 & Hok2); [lia|].
  rewrite Htab, lookup_insert_eq in Hf.
  exists (take_imsi (word32 teid2 0) (slots s1)).2, (printed s1).
  split; [|split; [done|by rewrite Htab2, lookup_delete_eq]].
  cbn [handle_packets]. unfold pkt1, pkt2 in *.
  rewrite decode_message by (done || auto || lia). cbn [fst snd]. fold s1.
  rewrite decode_message by (done || auto || lia). cbn [fst snd].
  unfold after_elements, address_text. rewrite He. cbn [mbind option_bind].
  rewrite (proj2 (Z.ltb_lt _ _) He2).
  destruct (found_element GTPV1_IE_TEI_CONTROL_PLANE es2);
    unfold store_element, print_address; cbn; by rewrite Hf.
Qed.

(** ** Witnesses *)

Definition sample_response : list element :=
  [Element 1 [128]; Element 128 [241; 33; 10; 0; 0; 1]].

Lemma sample_response_ok : elements_ok 0 17 [0; 0; 0; 9] [0; 1; 0; 0] sample_response.
Proof.
  split; try done; try (split; [reflexivity|bytes_tac]).
  apply element_okb_true. vm_compute. reflexivity.
Qed.

Lemma imsi_table_refines_witness :
  let sls := [Slot 5 999 "a"; Slot 4 700 "c"; Slot 7 699 "b"; Slot 0 0 ""] in
  table (store_imsi 1000 9 "27201" sls) = <[9 := "27201"]> (delete 7 (table sls)) /\
  table (store_imsi 1000 9 "27201" sls) !! 4 = Some "c".
Proof.
  intros sls. assert (Hok : table_ok sls) by (cbn; repeat split; (lia || done)).
  destruct (imsi_table_refines sls 1000 9 "27201" Hok) as (_ & Hs & _); [lia|].
  destruct (Hs eq_refl 2%nat (Slot 7 699 "b")) as (_ & Htab & _ & Hk).
  { split; [reflexivity|]. split; [right; cbn; lia|]. intros j sl' Hj.
    destruct j as [|[|j]]; [..|lia]; intros [= <-] [H|H]; cbn in H; lia. }
  split; [exact Htab|]. apply (Hk (Slot 4 700 "c")); [|cbn; lia..].
  unfold sls. set_solver.
Defined.

Lemma create_pdp_context_paired_witness :
  exists sls' p',
    handle_packets 6
      [(100, (Pkthdr (Timeval 7 0) 90 90, encapsulate sample_outer
          (elements_message 2 16 [0; 0; 0; 7] [0; 1; 0; 0] sample_request) ++ [1; 2]));
       (101, (Pkthdr (Timeval 8 5) 65 65, encapsulate sample_outer
          (elements_message 0 17 [0; 0; 0; 9] [0; 1; 0; 0] sample_response) ++ []))]
      (init_slots 3, "")
    = Some (Ok (sls', p' +:+ "8,5," +:+ "10.0.0.1" +:+ "," +:+ "123456789012345" +:+ newline)) /\
    table_ok sls' /\ table sls' !! 9 = None.
Proof.
  apply (create_pdp_context_paired sample_outer sample_outer 2 0 [0; 0; 0; 7] [0; 0; 0; 9]
    [0; 1; 0; 0] [0; 1; 0; 0] [1; 2] [] sample_request sample_response
    (Pkthdr (Timeval 7 0) 90 90) (Pkthdr (Timeval 8 5) 65 65) 100 101 6 (init_slots 3) ""
    (Element 2 [33; 67; 101; 135; 9; 33; 67; 245]) (Element 17 [0; 0; 0; 9])
    (Element 128 [241; 33; 10; 0; 0; 1]));
    try apply sample_outer_ok; try apply sample_request_printable; try apply init_slots_ok;
    try (vm_compute; reflexivity).
  - apply sample_request_ok. lia.
  - repeat constructor.
  - apply sample_response_ok.
  - repeat constructor.
  - repeat apply Forall_cons_2; try apply Forall_nil_2;
      (split; [intros H; discriminate H|intros H; first [discriminate H|right; discriminate]]).
  - cbn. lia.
  - z_compute.
  - eexists. reflexivity.
Defined.
