(* ===== verification/GtpAddr.v ===== *)
(** * gtpaddr: replacing an address of the tunnelled packets

    [pcap_packet_handler] and [main] of [filterprograms/gtpaddr.c].  The
    handler changes the packet in its own memory and dumps it; the state is the
    list of packets dumped.  [inet_aton], the source of the packets and whether
    the dump file opens are arguments of [main]. *)
From S2P Require Import Prelude Text GtpTables GtpHeader Pcap Monitor Untunnel.
Import MessageTypes.

(** ** The code *)

Definition offsetof_ip_src : Z := 12.
Definition offsetof_ip_dst : Z := 16.

Section handler.
(** The two addresses, four octets each. *)
Context (old_ip new_ip : list Z).

Definition addr_packet (header : pcap_pkthdr) (data : list Z) : res (list Z) :=
  hdr ← gtpv1_get_header (caplen header) data;
  match hdr with
  | None => mret data
  | Some g =>
      h ← read_gtpv1hdr data g;
      if negb (GTP_EXT_FLAG (flag_options h) =? 0) then mret data else
      let inner_ip_header :=
        if negb (flag_options h =? 0) then g + sizeof_gtpv1hdr + sizeof_gtpv1hdropt
        else g + sizeof_gtpv1hdr in
      if message_type h =? GTPV1_MT_G_PDU then
        src ← rd_bytes data (inner_ip_header + offsetof_ip_src) 4;
        if bool_decide (src = old_ip) then wr_bytes data (inner_ip_header + offsetof_ip_src) new_ip
        else
          dst ← rd_bytes data (inner_ip_header + offsetof_ip_dst) 4;
          if bool_decide (dst = old_ip)
          then wr_bytes data (inner_ip_header + offsetof_ip_dst) new_ip else mret data
      else mret data
  end.

(** [pcap_packet_handler]: the packets dumped so far and this one. *)
Definition addr_handler (dumped : list packet) (header : pcap_pkthdr) (data : list Z)
    : res (list packet) :=
  data ← addr_packet header data; mret (dumped ++ [(header, data)]).
End handler.

Definition gtpaddr_main (pcap_open_offline : pcap_source) (pcap_dump_open : string -> bool)
    (inet_aton : string -> option (list Z)) (argv : list string) : res filter_outcome :=
  if negb (argc argv =? 5) then
    name ← arg argv 0;
    mret (FilterOutcome 2 ("usage: " +:+ name +:+ " in_file out_file old_ip new_ip" +:+ newline
      +:+ "  if in_file or out_file are specified as -, then standard input/standard output is used"
      +:+ newline) None)
  else
    a1 ← arg argv 1; a2 ← arg argv 2; a3 ← arg argv 3; a4 ← arg argv 4;
    match inet_aton a3 with
    | None => mret (FilterOutcome 3
        ("old Internet address " +:+ a3 +:+ " is not valid" +:+ newline) None)
    | Some old_ip =>
    match inet_aton a4 with
    | None => mret (FilterOutcome 3
        ("new Internet address " +:+ a4 +:+ " is not valid" +:+ newline) None)
    | Some new_ip =>
    let said := "starting modification of packet IP addresses" +:+ newline in
    match pcap_open_offline a1 with
    | inl errbuf => mret (FilterOutcome 4 (said +:+ "capture start failed on file " +:+ a1 +:+ ": "
        +:+ errbuf +:+ newline) None)
    | inr packets =>
        if negb (pcap_dump_open a2) then
          mret (FilterOutcome 5 (said +:+ "dump start failed on file " +:+ a2 +:+ newline) None)
        else
          dumped ← handler_calls (addr_handler old_ip new_ip) packets [];
          mret (FilterOutcome 0 (said +:+ "completed modification of packet IP addresses"
            +:+ newline) (Some dumped))
    end end end.

(** ** Reference: the packet with the address replaced *)

(** The tunnelled packet, by octets: the source if it is the old address,
    otherwise the destination if it is. *)
Definition replace_address (old_ip new_ip inner : list Z) : list Z :=
  if bool_decide (take 4 (drop 12 inner) = old_ip) then take 12 inner ++ new_ip ++ drop 16 inner
  else if bool_decide (take 4 (drop 16 inner) = old_ip)
  then take 16 inner ++ new_ip ++ drop 20 inner else inner.

Section replace.
Implicit Types (pre inner slack new_ip : list Z).

(** Reading and writing inside the tunnelled packet. *)
Lemma rd_bytes_inner pre inner slack i : 0 <= i -> i + 4 <= blen inner ->
  rd_bytes (pre ++ inner ++ slack) (blen pre + i) 4 =
    Ok (take 4 (drop (Z.to_nat i) inner)).
Proof.
  intros Hi Hl. pose proof (blen_nonneg pre). pose proof (blen_nonneg slack).
  rewrite rd_bytes_ok by (rewrite ?blen_app; lia). f_equal.
  replace (Z.to_nat (blen pre + i)) with (length pre + Z.to_nat i)%nat by (unfold blen; lia).
  rewrite drop_app_add, drop_app_le by (unfold blen in *; lia).
  rewrite take_app_le; [done|]. rewrite length_drop. unfold blen in *. lia.
Qed.

Lemma wr_bytes_inner new_ip pre inner slack i : blen new_ip = 4 -> 0 <= i -> i + 4 <= blen inner ->
  wr_bytes (pre ++ inner ++ slack) (blen pre + i) new_ip =
    Ok (pre ++ (take (Z.to_nat i) inner ++ new_ip ++ drop (Z.to_nat (i + 4)) inner) ++ slack).
Proof.
  intros Hnew Hi Hl. pose proof (blen_nonneg pre). pose proof (blen_nonneg slack).
  rewrite wr_bytes_ok by (rewrite ?blen_app; lia). f_equal.
  assert (length new_ip = 4%nat) as -> by (unfold blen in Hnew; lia).
  replace (Z.to_nat (blen pre + i)) with (length pre + Z.to_nat i)%nat by (unfold blen; lia).
  rewrite take_app_add', take_app_le by (unfold blen in *; lia || done).
  rewrite <- Nat.add_assoc, drop_app_add, drop_app_le by (unfold blen in *; lia).
  replace (Z.to_nat i + 4)%nat with (Z.to_nat (i + 4)) by lia.
  by rewrite <- !(assoc_L (++)).
Qed.
End replace.

(** ** Properties *)

(** On every GTP V1 message without extension header the handler dumps the
    packet under its own header, with the carried packet's source replaced if
    it is the old address and otherwise its destination if that is, when the
    message is a G-PDU; every other octet is unchanged. *)
Theorem gtpaddr_replaces (old_ip new_ip : list Z) (o : outer) (opts mt : Z)
    (mlen teid opt inner slack : list Z) (h : pcap_pkthdr) (dumped : list packet) :
  outer_ok o -> message_ok opts mt mlen teid opt inner -> opts < 4 ->
  20 <= blen inner -> blen new_ip = 4 ->
  let pkt := fun inner => encapsulate o (gtp_message opts mt mlen teid opt inner) in
  caplen h = blen (pkt inner) -> blen (pkt inner) < 2 ^ 32 ->
  addr_handler old_ip new_ip dumped h (pkt inner ++ slack) =
    Ok (dumped ++ [(h, pkt (if mt =? GTPV1_MT_G_PDU then replace_address old_ip new_ip inner
                            else inner) ++ slack)]).
Proof.
  intros Ho Hm Hopts Hinner Hnew pkt Hc Hl. unfold addr_handler.
  enough (H : addr_packet old_ip new_ip h (pkt inner ++ slack) =
    Ok (pkt (if mt =? GTPV1_MT_G_PDU then replace_address old_ip new_ip inner else inner)
      ++ slack)) by (by rewrite H).
  destruct (message_header_read o opts mt mlen teid opt inner slack Ho Hm)
    as (len & t & r & Hread).
  destruct (message_head_split o opts mt mlen teid opt inner Ho Hm) as (pre & Hpre & Hsplit).
  unfold addr_packet. rewrite Hc. unfold pkt in *.
  rewrite (untunnel_header_found o opts mt mlen teid opt inner slack Ho Hm Hl).
  cbn [mbind res_bind]. rewrite Hread. cbn [mbind res_bind flag_options message_type].
  pose proof (mok_opts _ _ _ _ _ _ Hm).
  rewrite GTP_EXT_FLAG_opts, (proj2 (Z.ltb_lt opts 4)) by lia. cbn [negb].
  replace (if negb (opts =? 0) then gtp_offset o + sizeof_gtpv1hdr + sizeof_gtpv1hdropt
    else gtp_offset o + sizeof_gtpv1hdr) with (blen pre)
    by (rewrite Hpre; unfold inner_offset; destruct (opts =? 0); cbn; lia).
  destruct (mt =? GTPV1_MT_G_PDU); [|done].
  rewrite !Hsplit, <- !(assoc_L (++)). unfold offsetof_ip_src, offsetof_ip_dst, replace_address.
  rewrite (rd_bytes_inner pre inner slack 12) by lia. cbn [mbind res_bind].
  change (Z.to_nat 12) with 12%nat. change (Z.to_nat 16) with 16%nat.
  destruct (bool_decide (take 4 (drop 12 inner) = old_ip)); [by rewrite wr_bytes_inner by (done || lia)|].
  rewrite rd_bytes_inner by lia. cbn [mbind res_bind]. change (Z.to_nat 16) with 16%nat.
  destruct (bool_decide (take 4 (drop 16 inner) = old_ip)); [by rewrite wr_bytes_inner by (done || lia)|done].
Qed.

(** ** Witnesses *)

(** An IPv4 packet from 10.0.0.1 to 10.0.0.2. *)
Definition sample_ip : list Z := [69; 0; 0; 20; 0; 0; 0; 0; 64; 17; 0; 0; 10; 0; 0; 1; 10; 0; 0; 2].

Lemma gtpaddr_replaces_witness :
  addr_handler [10; 0; 0; 2] [192; 168; 0; 9] [] (Pkthdr (Timeval 1 2) 78 78)
    (encapsulate sample_outer (gtp_message 2 255 [0; 24] [0; 0; 0; 7] [0; 1; 0; 0] sample_ip)
      ++ [1])
  = Ok [(Pkthdr (Timeval 1 2) 78 78, encapsulate sample_outer (gtp_message 2 255 [0; 24]
      [0; 0; 0; 7] [0; 1; 0; 0]
      [69; 0; 0; 20; 0; 0; 0; 0; 64; 17; 0; 0; 10; 0; 0; 1; 192; 168; 0; 9]) ++ [1])].
Proof.
  apply (gtpaddr_replaces [10; 0; 0; 2] [192; 168; 0; 9] sample_outer 2 255 [0; 24] [0; 0; 0; 7]
    [0; 1; 0; 0] sample_ip [1] (Pkthdr (Timeval 1 2) 78 78) []);
    [apply sample_outer_ok | | reflexivity | z_compute | reflexivity | reflexivity | reflexivity].
  split; try done; try (split; [reflexivity|bytes_tac]). bytes_tac.
Defined.
