(* ===== verification/UsecTstamp.v ===== *)
(** * usectstamp: renumbering time stamps

    [pcap_packet_handler] and [main] of [filterprograms/usectstamp.c].  The
    state is the last time stamp, kept in two globals that start at zero, and
    the packets dumped. *)
From S2P Require Import Prelude Text Pcap.

(** ** The code *)

Record tstamp_state := TstampState { last_sec : Z; last_usec : Z; redumped : list packet }.

Definition tstamp_handler (s : tstamp_state) (header : pcap_pkthdr) (data : list Z)
    : res tstamp_state :=
  let '(tv_sec', tv_usec') :=
    if last_sec s =? 0 then (tv_sec (ts header), tv_usec (ts header))
    else
      let tv_usec' := last_usec s + 1 in
      if 1000000 <=? tv_usec' then (last_sec s + 1, 0) else (last_sec s, tv_usec') in
  let new_header := Pkthdr (Timeval tv_sec' tv_usec') (caplen header) (len header) in
  mret (TstampState tv_sec' tv_usec' (redumped s ++ [(new_header, data)])).

(** [main].  The test after [pcap_dump_open] is of the input handle, so a dump
    that does not open is used as a null pointer by the first packet. *)
Definition usectstamp_main (pcap_open_offline : pcap_source) (pcap_dump_open : string -> bool)
    (argv : list string) : res filter_outcome :=
  if negb (argc argv =? 3) then
    name ← arg argv 0;
    mret (FilterOutcome 2 ("usage: " +:+ name +:+ " in_file out_file" +:+ newline
      +:+ "  if in_file or out_file are specified as -, then standard input/standard output is used"
      +:+ newline) None)
  else
    a1 ← arg argv 1; a2 ← arg argv 2;
    let said := "starting modification of packet time stamps" +:+ newline in
    match pcap_open_offline a1 with
    | inl errbuf => mret (FilterOutcome 4 (said +:+ "capture start failed on file " +:+ a1 +:+ ": "
        +:+ errbuf +:+ newline) None)
    | inr packets =>
        let completed := said +:+ "completed modification of packet time stamps" +:+ newline in
        if pcap_dump_open a2 then
          s ← handler_calls tstamp_handler packets (TstampState 0 0 []);
          mret (FilterOutcome 0 completed (Some (redumped s)))
        else match packets with
             | [] => mret (FilterOutcome 0 completed None)
             | _ => Fault NullPointer
             end
    end.

(** ** Time in microseconds *)

Definition usecs (t : timeval) : Z := tv_sec t * 1000000 + tv_usec t.
Definition of_usecs (u : Z) : timeval := Timeval (u / 1000000) (u mod 1000000).

(** The packet with its time stamp replaced. *)
Definition restamp (t : timeval) (p : packet) : packet := (Pkthdr t (caplen p.1) (len p.1), p.2).

(** The packets, one microsecond apart from [u] on. *)
Fixpoint restamp_from (u : Z) (packets : list packet) : list packet :=
  match packets with
  | [] => []
  | p :: r => restamp (of_usecs u) p :: restamp_from (u + 1) r
  end.

Lemma of_usecs_step u s us : 0 <= us < 1000000 -> u = s * 1000000 + us ->
  of_usecs (u + 1) = if 1000000 <=? us + 1 then Timeval (s + 1) 0 else Timeval s (us + 1).
Proof.
  intros Hus ->. unfold of_usecs. destruct (Z.leb_spec 1000000 (us + 1)); f_equal;
    Z.to_euclidean_division_equations; lia.
Qed.

Lemma of_usecs_fields u : exists s us, of_usecs u = Timeval s us /\ 0 <= us < 1000000 /\
  u = s * 1000000 + us.
Proof.
  exists (u / 1000000), (u mod 1000000). split; [done|].
  pose proof (Z.div_mod u 1000000). pose proof (Z.mod_pos_bound u 1000000). lia.
Qed.

(** One packet after the first one. *)
Lemma tstamp_next u dumped h d : 1000000 <= u ->
  tstamp_handler (TstampState (tv_sec (of_usecs u)) (tv_usec (of_usecs u)) dumped) h d =
    Ok (TstampState (tv_sec (of_usecs (u + 1))) (tv_usec (of_usecs (u + 1)))
          (dumped ++ [restamp (of_usecs (u + 1)) (h, d)])).
Proof.
  intros Hu. destruct (of_usecs_fields u) as (s & us & Hof & Hus & Heq).
  rewrite (of_usecs_step u s us Hus Heq), Hof. unfold tstamp_handler.
  cbn [last_sec last_usec tv_sec tv_usec redumped].
  rewrite (proj2 (Z.eqb_neq s 0)) by nia. by destruct (1000000 <=? us + 1).
Qed.

Lemma tstamp_rest packets : forall u dumped, 1000000 <= u ->
  exists t, handler_calls tstamp_handler packets
    (TstampState (tv_sec (of_usecs u)) (tv_usec (of_usecs u)) dumped)
    = Ok (TstampState (tv_sec t) (tv_usec t) (dumped ++ restamp_from (u + 1) packets)).
Proof.
  induction packets as [|[h d] r IH]; intros u dumped Hu.
  { exists (of_usecs u). cbn. by rewrite app_nil_r. }
  destruct (IH (u + 1) (dumped ++ [restamp (of_usecs (u + 1)) (h, d)])) as [t Ht]; [lia|].
  exists t. cbn [handler_calls restamp_from]. rewrite tstamp_next by done.
  cbn [mbind res_bind]. rewrite Ht. by rewrite <- (assoc_L (++)).
Qed.

(** ** Properties *)

(** The packets of a capture whose first time stamp has a non-zero second
    are dumped in order, with their data and lengths, one microsecond apart
    from the first time stamp on. *)
Theorem usectstamp_renumbers (p : packet) (r : list packet)
    (pcap_open_offline : pcap_source) (pcap_dump_open : string -> bool) (name fin fout : string) :
  1 <= tv_sec (ts p.1) -> 0 <= tv_usec (ts p.1) < 1000000 ->
  pcap_open_offline fin = inr (p :: r) -> pcap_dump_open fout = true ->
  exists said, usectstamp_main pcap_open_offline pcap_dump_open [name; fin; fout] =
    Ok (FilterOutcome 0 said (Some (restamp_from (usecs (ts p.1)) (p :: r)))).
Proof.
  intros Hs Hus Hin Hout. unfold usectstamp_main. cbn [argc blen]. change (argc _ =? 3) with true.
  cbn [negb arg lookup list_lookup mbind res_bind]. rewrite Hin, Hout. eexists.
  destruct p as [[[s us] cl ln] d]. cbn [tv_sec tv_usec ts fst] in *.
  cbn [handler_calls].
  change (tstamp_handler (TstampState 0 0 []) _ d) with
    (Ok (TstampState s us [(Pkthdr (Timeval s us) cl ln, d)])). cbn [mbind res_bind].
  assert (Hof : of_usecs (s * 1000000 + us) = Timeval s us).
  { unfold of_usecs. f_equal; Z.to_euclidean_division_equations; lia. }
  destruct (tstamp_rest r (s * 1000000 + us) [(Pkthdr (Timeval s us) cl ln, d)]) as [t Ht];
    [lia|]. rewrite Hof in Ht. cbn [tv_sec tv_usec] in Ht. rewrite Ht. cbn.
  unfold usecs. cbn. by rewrite Hof.
Qed.

(** ** Witnesses *)

Lemma usectstamp_renumbers_witness :
  exists said, usectstamp_main
    (fun _ => inr [(Pkthdr (Timeval 5 999999) 1 1, [7]); (Pkthdr (Timeval 9 3) 0 64, [])])
    (fun _ => true) ["usectstamp"; "in"; "out"] =
  Ok (FilterOutcome 0 said (Some
    [(Pkthdr (Timeval 5 999999) 1 1, [7]); (Pkthdr (Timeval 6 0) 0 64, [])])).
Proof.
  apply (usectstamp_renumbers (Pkthdr (Timeval 5 999999) 1 1, [7])
    [(Pkthdr (Timeval 9 3) 0 64, [])]); [z_compute | z_compute | reflexivity | reflexivity].
Defined.

(** A first packet of second zero does not set the start. *)
Example zero_second :
  (redumped <$> handler_calls tstamp_handler
    [(Pkthdr (Timeval 0 5) 0 0, []); (Pkthdr (Timeval 0 9) 0 0, [])] (TstampState 0 0 []))
  = Ok [(Pkthdr (Timeval 0 5) 0 0, []); (Pkthdr (Timeval 0 9) 0 0, [])].
Proof. reflexivity. Qed.
