(* ===== verification/GtpUntunnel.v ===== *)
(** * gtpuntunnel: untunnelling a capture file

    [pcap_packet_handler] and [main] of [filterprograms/gtpuntunnel.c]: the
    untunnelling of every packet, without a session, on a copy of its header. *)
From S2P Require Import Prelude Text GtpHeader GtpFields Pcap Monitor Untunnel.

(** ** The code *)

Definition untunnel_handler (dumped : list packet) (header : pcap_pkthdr) (data : list Z)
    : res (list packet) :=
  let new_header := Pkthdr (ts header) (caplen header) (len header) in
  '(_, new_header, data) ← pcapsession_untunnel_packet None new_header data;
  mret (dumped ++ [(new_header, data)]).

Definition gtpuntunnel_main (pcap_open_offline : pcap_source) (pcap_dump_open : string -> bool)
    (argv : list string) : res filter_outcome :=
  if negb (argc argv =? 3) then
    name ← arg argv 0;
    mret (FilterOutcome 2 ("usage: " +:+ name +:+ " in_file out_file" +:+ newline
      +:+ "  if in_file or out_file are specified as -, then standard input/standard output is used"
      +:+ newline) None)
  else
    a1 ← arg argv 1; a2 ← arg argv 2;
    let said := "starting GTP untunnelling" +:+ newline in
    match pcap_open_offline a1 with
    | inl errbuf => mret (FilterOutcome 4 (said +:+ "capture start failed on file " +:+ a1 +:+ ": "
        +:+ errbuf +:+ newline) None)
    | inr packets =>
        if negb (pcap_dump_open a2) then
          mret (FilterOutcome 5 (said +:+ "dump start failed on file " +:+ a2 +:+ newline) None)
        else
          dumped ← handler_calls untunnel_handler packets [];
          mret (FilterOutcome 0 (said +:+ "completed GTP untunnelling" +:+ newline) (Some dumped))
    end.

(** ** What becomes of a packet *)

(** The octets that are left of a packet: of a GTP message without extension
    header, with room behind the capture, the Ethernet header and the carried
    packet; of a packet without GTP header, all of it. *)
Inductive leaves : packet -> list Z -> Prop :=
  | leaves_carried o opts mt mlen teid opt inner slack h :
      outer_ok o -> message_ok opts mt mlen teid opt inner -> opts < 4 ->
      blen (encapsulate o (gtp_message opts mt mlen teid opt inner)) < 2 ^ 32 ->
      caplen h = blen (encapsulate o (gtp_message opts mt mlen teid opt inner)) ->
      caplen h <= len h < 2 ^ 32 -> blen (ether_bytes o) <= blen slack ->
      leaves (h, encapsulate o (gtp_message opts mt mlen teid opt inner) ++ slack)
        (ether_bytes o ++ inner)
  | leaves_all pkt slack h :
      bytes_ok pkt -> blen pkt < 2 ^ 32 -> caplen h = blen pkt -> truncated_tag pkt = false ->
      truncated_ip pkt = false -> ref_get_header pkt = None -> leaves (h, pkt ++ slack) pkt.

Lemma untunnel_leaves p octets : leaves p octets ->
  exists mon p', pcapsession_untunnel_packet None p.1 p.2 = Ok (mon, p'.1, p'.2) /\
    captured p' = octets /\ ts p'.1 = ts p.1.
Proof.
  intros [o opts mt mlen teid opt inner slack h Ho Hm Hopts Hl Hc Hlen Hslack|
    pkt slack h Hb Hl Hc Ht Hi Hn]; cbn [fst snd].
  - rewrite Hc in Hlen.
    destruct (untunnel_restores o opts mt mlen teid opt inner slack None h)
      as (h' & data' & Hrun & Hcap & _ & _ & Hts & _); [done..|].
    by exists None, (h', data').
  - exists None, (h, pkt ++ slack). cbn. split.
    + pose proof (untunnel_leaves_others pkt slack None h Hb Hl Hc Ht Hi) as Hu.
      by rewrite Hn in Hu.
    + split; [|done]. unfold captured. cbn. rewrite Hc. unfold blen. rewrite Nat2Z.id.
      apply take_app_length.
Qed.

Lemma untunnel_handler_leaves p octets dumped : leaves p octets ->
  exists p', untunnel_handler dumped p.1 p.2 = Ok (dumped ++ [p']) /\
    captured p' = octets /\ ts p'.1 = ts p.1.
Proof.
  intros Hp. destruct (untunnel_leaves p octets Hp) as (mon & p' & Hrun & Hcap & Hts).
  exists p'. split; [|done]. unfold untunnel_handler. destruct p as [[t c n] d]. cbn in *.
  rewrite Hrun. cbn. by destruct p'.
Qed.

Lemma untunnel_handler_calls packets octets : Forall2 leaves packets octets -> forall dumped,
  exists out, handler_calls untunnel_handler packets dumped = Ok (dumped ++ out) /\
    captured <$> out = octets /\ (fun p => ts p.1) <$> out = (fun p => ts p.1) <$> packets.
Proof.
  induction 1 as [|p l packets octets Hp _ IH]; intros dumped.
  - exists []. by rewrite app_nil_r.
  - destruct (untunnel_handler_leaves p l dumped Hp) as (p' & Hrun & Hcap & Hts).
    destruct (IH (dumped ++ [p'])) as (out & Hcalls & Hco & Hto).
    exists (p' :: out). rewrite handler_calls_cons, Hrun. cbn [mbind res_bind].
    rewrite Hcalls, <- (assoc_L (++)). split; [done|]. cbn. by rewrite Hco, Hto, Hts, Hcap.
Qed.

(** C37: gtpuntunnel writes, for every packet of a capture whose packets are GTP
    messages without extension header or no GTP messages, in order and with its
    time stamp, the Ethernet header with the packet the message carries, or the
    packet as it is. *)
Theorem gtpuntunnel_writes_carried (program in_file out_file : string)
    (pcap_open_offline : pcap_source) (pcap_dump_open : string -> bool)
    (packets : list packet) (octets : list (list Z)) :
  pcap_open_offline in_file = inr packets -> pcap_dump_open out_file = true ->
  Forall2 leaves packets octets ->
  exists said dumped,
    gtpuntunnel_main pcap_open_offline pcap_dump_open [program; in_file; out_file]
      = Ok (FilterOutcome 0 said (Some dumped)) /\
    captured <$> dumped = octets /\ (fun p => ts p.1) <$> dumped = (fun p => ts p.1) <$> packets.
Proof.
  intros Hin Hout Hl. destruct (untunnel_handler_calls packets octets Hl []) as (out & Hrun & Hc & Ht).
  unfold gtpuntunnel_main. cbn [argc arg lookup list_lookup blen length mbind res_bind].
  change (argc [program; in_file; out_file]) with 3. cbn [Z.eqb Pos.eqb negb]. cbn.
  rewrite Hin, Hout. cbn. rewrite Hrun. cbn. by eexists _, out.
Qed.

(** ** Witnesses *)

Definition sample_capture : list packet :=
  [(sample_header,
    encapsulate sample_outer (gtp_message 2 255 [0; 24] [0; 0; 0; 7] [0; 1; 0; 0] sample_inner)
      ++ replicate 32 170);
   (Pkthdr (Timeval 101 0) 20 20, replicate 20 0 ++ [1; 2])].

Lemma gtpuntunnel_writes_carried_witness :
  exists said dumped,
    gtpuntunnel_main (fun _ => inr sample_capture) (fun _ => true) ["gtpuntunnel"; "a"; "b"]
      = Ok (FilterOutcome 0 said (Some dumped)) /\
    captured <$> dumped = [ether_bytes sample_outer ++ sample_inner; replicate 20 0] /\
    (fun p => ts p.1) <$> dumped = (fun p => ts p.1) <$> sample_capture.
Proof.
  apply (gtpuntunnel_writes_carried "gtpuntunnel" "a" "b" (fun _ => inr sample_capture)
    (fun _ => true) sample_capture); [reflexivity|reflexivity|].
  apply Forall2_cons. split; [|apply Forall2_cons; split; [|apply Forall2_nil; done]].
  - apply (leaves_carried sample_outer 2 255 [0; 24] [0; 0; 0; 7] [0; 1; 0; 0] sample_inner
      (replicate 32 170) sample_header);
      [apply sample_outer_ok | apply sample_message_ok; lia | lia | z_compute | reflexivity
      | z_compute | z_compute].
  - apply (leaves_all (replicate 20 0) [1; 2]); try reflexivity. bytes_tac.
Defined.
