(* ===== verification/PcapStats.v ===== *)
(** * pcapfilestats: counting the packets of a capture file

    [pcap_packet_handler], [print_pcap_stats] and [main] of
    [filterprograms/pcapfilestats.c].  The state is the four globals and the
    lines printed; [timestamp] is the text [gmtime] and [strftime] give for a
    time stamp, whose format begins with an unknown conversion. *)
From S2P Require Import Prelude Text Pcap.

(** ** The code *)

Record stats := Stats {
  packet_count : Z; byte_count : Z; first_timestamp : timeval; last_timestamp : timeval;
  lines : list string }.

Section stats.
Context (timestamp : Z -> string).

Definition print_pcap_stats (file_name : string) (s : stats) : string :=
  file_name +:+ ",pkts:" +:+ fmt_d (packet_count s) +:+ ",bytes:" +:+ fmt_d (byte_count s) +:+
  ",start:" +:+ timestamp (tv_sec (first_timestamp s)) +:+ "." +:+
  fmt_06lu (tv_usec (first_timestamp s)) +:+
  ",end:" +:+ timestamp (tv_sec (last_timestamp s)) +:+ "." +:+
  fmt_06lu (tv_usec (last_timestamp s)) +:+ newline.

Definition stats_handler (file_name : string) (s : stats) (header : pcap_pkthdr) (data : list Z)
    : res stats :=
  let first := if packet_count s =? 0 then ts header else first_timestamp s in
  let s := Stats (u64 (packet_count s + 1)) (u64 (byte_count s + len header)) first (ts header)
    (lines s) in
  mret (if packet_count s mod 1000000 =? 0
    then Stats (packet_count s) (byte_count s) (first_timestamp s) (last_timestamp s)
           (lines s ++ [print_pcap_stats file_name s])
    else s).

Definition no_stats : stats := Stats 0 0 (Timeval 0 0) (Timeval 0 0) [].

(** [main]: exit status and the lines of standard error. *)
Definition pcapfilestats_main (pcap_open_offline : pcap_source) (argv : list string)
    : res (Z * list string) :=
  if negb (argc argv =? 2) then
    name ← arg argv 0;
    mret (1, ["usage: " +:+ name +:+ " in_file" +:+ newline;
      "  if in_file is specified as -, then standard input/standard output is used" +:+ newline])
  else
    file_name ← arg argv 1;
    match pcap_open_offline file_name with
    | inl errbuf => mret (2, ["capture start failed on file " +:+ file_name +:+ ": " +:+ errbuf
        +:+ newline])
    | inr packets =>
        s ← handler_calls (stats_handler file_name) packets no_stats;
        mret (0, lines s ++ [print_pcap_stats file_name s])
    end.

(** ** The counts of a list of packets *)

Fixpoint total_len (packets : list packet) : Z :=
  match packets with [] => 0 | p :: r => len p.1 + total_len r end.
Definition first_ts (packets : list packet) : timeval :=
  match packets with [] => Timeval 0 0 | p :: _ => ts p.1 end.
Definition last_ts (packets : list packet) : timeval :=
  match last packets with Some p => ts p.1 | None => Timeval 0 0 end.

(** The line for the packets handled so far. *)
Definition line_for (file_name : string) (packets : list packet) : string :=
  print_pcap_stats file_name
    (Stats (blen packets) (total_len packets) (first_ts packets) (last_ts packets) []).

(** The line after every millionth packet. *)
Fixpoint progress_lines (file_name : string) (done todo : list packet) : list string :=
  match todo with
  | [] => []
  | p :: r =>
      (if blen (done ++ [p]) mod 1000000 =? 0 then [line_for file_name (done ++ [p])] else [])
      ++ progress_lines file_name (done ++ [p]) r
  end.

Lemma total_len_app l1 l2 : total_len (l1 ++ l2) = total_len l1 + total_len l2.
Proof. induction l1 as [|p l1 IH]; cbn; [done|]. rewrite IH. lia. Qed.

Lemma total_len_nonneg l : Forall packet_ok l -> 0 <= total_len l.
Proof. induction 1 as [|p l (_ & _ & _ & ?) _ IH]; cbn; lia. Qed.

(** The state after the packets [dn], with the lines [acc]. *)
Definition counted (dn : list packet) (acc : list string) : stats :=
  Stats (blen dn) (total_len dn) (first_ts dn) (last_ts dn) acc.

Lemma stats_step file_name (dn : list packet) acc (p : packet) :
  packet_ok p -> Forall packet_ok dn ->
  blen (dn ++ [p]) < 2 ^ 64 -> total_len (dn ++ [p]) < 2 ^ 64 ->
  stats_handler file_name (counted dn acc) p.1 p.2 =
    Ok (counted (dn ++ [p])
      (acc ++ if blen (dn ++ [p]) mod 1000000 =? 0 then [line_for file_name (dn ++ [p])] else [])).
Proof.
  intros (_ & _ & _ & Hp) Hdn Hl Ht. pose proof (total_len_nonneg _ Hdn).
  pose proof (blen_nonneg dn).
  assert (Hcount : blen (dn ++ [p]) = blen dn + 1) by (by rewrite blen_app).
  assert (Hbytes : total_len (dn ++ [p]) = total_len dn + len p.1)
    by (rewrite total_len_app; cbn; lia).
  assert (Hfirst : (if blen dn =? 0 then ts p.1 else first_ts dn) = first_ts (dn ++ [p])).
  { destruct dn as [|q dn]; [done|]. rewrite blen_cons. pose proof (blen_nonneg dn).
    by rewrite (proj2 (Z.eqb_neq _ _)) by lia. }
  assert (Hlast : ts p.1 = last_ts (dn ++ [p])) by (unfold last_ts; by rewrite last_snoc).
  unfold stats_handler, counted. cbn [packet_count byte_count first_timestamp lines].
  rewrite Hfirst, !u64_small, <- Hcount, <- Hbytes by lia. rewrite Hlast.
  destruct (blen (dn ++ [p]) mod 1000000 =? 0); [done|by rewrite app_nil_r].
Qed.

Lemma stats_run file_name todo : forall dn acc,
  Forall packet_ok todo -> Forall packet_ok dn ->
  blen (dn ++ todo) < 2 ^ 64 -> total_len (dn ++ todo) < 2 ^ 64 ->
  handler_calls (stats_handler file_name) todo (counted dn acc) =
  Ok (counted (dn ++ todo) (acc ++ progress_lines file_name dn todo)).
Proof.
  induction todo as [|p r IH]; intros dn acc Hok Hdn Hl Ht.
  { cbn. by rewrite !app_nil_r. }
  apply Forall_cons in Hok as [Hp Hok].
  assert (Hsplit : dn ++ p :: r = (dn ++ [p]) ++ r) by (by rewrite <- (assoc_L (++))).
  rewrite Hsplit in Hl, Ht |- *.
  pose proof (blen_nonneg r). pose proof (total_len_nonneg _ Hok).
  rewrite blen_app in Hl. rewrite total_len_app in Ht.
  rewrite handler_calls_cons, stats_step by (done || lia).
  cbn [mbind res_bind progress_lines]. rewrite IH.
  - by rewrite <- (assoc_L (++) acc).
  - done.
  - apply Forall_app_2; [done|by apply Forall_cons_2].
  - by rewrite blen_app.
  - by rewrite total_len_app.
Qed.
End stats.

(** ** Properties *)

(** The last line counts every packet and octet of the file and carries its
    first and last time stamps; before it there is one line after each millionth
    packet, with the counts up to there. *)
Theorem pcapfilestats_counts (timestamp : Z -> string) (pcap_open_offline : pcap_source)
    (name file_name : string) (packets : list packet) :
  pcap_open_offline file_name = inr packets -> Forall packet_ok packets ->
  blen packets < 2 ^ 64 -> total_len packets < 2 ^ 64 ->
  pcapfilestats_main timestamp pcap_open_offline [name; file_name] =
    Ok (0, progress_lines timestamp file_name [] packets ++
           [line_for timestamp file_name packets]).
Proof.
  intros Hin Hok Hl Ht. unfold pcapfilestats_main. change (argc _ =? 2) with true.
  cbn [negb arg lookup list_lookup mbind res_bind]. rewrite Hin.
  change no_stats with (counted [] []).
  rewrite stats_run by (done || by constructor). done.
Qed.

Lemma pcapfilestats_counts_witness :
  pcapfilestats_main (fun _ => "T")
    (fun _ => inr [(Pkthdr (Timeval 1 7) 1 60, [0]); (Pkthdr (Timeval 2 9) 0 40, [])])
    ["stats"; "f.pcap"]
  = Ok (0, ["f.pcap,pkts:2,bytes:100,start:T.000007,end:T.000009" +:+ newline]).
Proof.
  apply (pcapfilestats_counts (fun _ => "T")
    (fun _ => inr [(Pkthdr (Timeval 1 7) 1 60, [0]); (Pkthdr (Timeval 2 9) 0 40, [])])
    "stats" "f.pcap"
    [(Pkthdr (Timeval 1 7) 1 60, [0]); (Pkthdr (Timeval 2 9) 0 40, [])]); [reflexivity | | z_compute | z_compute].
  repeat apply Forall_cons_2; try apply Forall_nil_2;
    (split; [bytes_tac|z_compute]).
Defined.
