(* ===== verification/ChunkPcap.v ===== *)
(** * chunkpcapfile: splitting a capture file

    [pcap_packet_handler] and [main] of [filterprograms/chunkpcapfile.c].  The
    state is the globals of the program and the files written so far; the open
    dumper is the name and the packets of the current file.  Which files
    [pcap_dump_open] can open is an argument. *)
From S2P Require Import Prelude Text Pcap Monitor.

(** ** The code *)

Definition MIN_CHUNK_SIZE : Z := 1048576. (* 0x100000 *)

Record chunk_state := ChunkState {
  chunk_no : Z; chunk_used : Z; pcap_dumper : option (string * list packet); closed : list (string * list packet);
  said : string }.

(** The program runs on, or has called [exit]. *)
Inductive chunk_run := Running (s : chunk_state) | Exited (status : Z) (s : chunk_state).

Section handler.
Context (pcap_dump_open : string -> bool) (out_file_name : string) (chunk_max_size : Z).

(** [pcap_dump_close]: of an open dumper. *)
Definition close_chunk (s : chunk_state) : res chunk_state :=
  match pcap_dumper s with
  | None => Fault NullPointer
  | Some f => mret (ChunkState (chunk_no s) 0 None (closed s ++ [f]) (said s))
  end.

(** The name of the next file, in its array. *)
Definition chunk_dump_file (no : Z) : res string :=
  let name := out_file_name +:+ "_" +:+ fmt_06lu no +:+ ".pcap" in
  if FILENAME_MAX <=? Z.of_nat (String.length name) then Fault BufferOverflow else mret name.

Definition open_chunk (s : chunk_state) : res chunk_run :=
  name ← chunk_dump_file (chunk_no s);
  let no := u64 (chunk_no s + 1) in
  if pcap_dump_open name then
    mret (Running (ChunkState no (chunk_used s) (Some (name, [])) (closed s)
      (said s +:+ "dumping to " +:+ name +:+ " . . ." +:+ newline)))
  else
    mret (Exited 1 (ChunkState no (chunk_used s) None (closed s)
      (said s +:+ "dump start failed on file " +:+ out_file_name +:+ newline))).

Definition chunk_packet (s : chunk_state) (header : pcap_pkthdr) (data : list Z)
    : res chunk_run :=
  let used := u64 (u64 (chunk_used s + sizeof_pcap_pkthdr) + caplen header) in
  s ← (if chunk_max_size <? used then close_chunk s else mret s);
  run ← (match pcap_dumper s with None => open_chunk s | Some _ => mret (Running s) end);
  match run with
  | Exited st s => mret (Exited st s)
  | Running s =>
      match pcap_dumper s with
      | None => Fault NullPointer
      | Some (name, ps) =>
          mret (Running (ChunkState (chunk_no s)
            (u64 (u64 (chunk_used s + sizeof_pcap_pkthdr) + caplen header))
            (Some (name, ps ++ [(header, data)])) (closed s) (said s)))
      end
  end.

Definition chunk_handler (r : chunk_run) (header : pcap_pkthdr) (data : list Z) : res chunk_run :=
  match r with Running s => chunk_packet s header data | Exited st s => mret (Exited st s) end.
End handler.

(** [main]: exit status, standard error and the files written. *)
Definition chunkpcapfile_main (pcap_open_offline : pcap_source) (pcap_dump_open : string -> bool)
    (argv : list string) : res (Z * string * list (string * list packet)) :=
  if negb (argc argv =? 4) then
    name ← arg argv 0;
    mret (2, "usage: " +:+ name +:+ " in_file out_file_name chunk_max_size" +:+ newline
      +:+ "  if in_file is specified as -, then standard input is used" +:+ newline
      +:+ "  chunk_max_size is the maximum size of an output PCAP file" +:+ newline, [])
  else
    a1 ← arg argv 1; out_file_name ← arg argv 2; a3 ← arg argv 3;
    let chunk_max_size := u64 (atol a3) in
    if chunk_max_size <? MIN_CHUNK_SIZE then
      mret (3, "  chunk_max_size must be at least " +:+ fmt_d MIN_CHUNK_SIZE +:+ newline, [])
    else
      let text := "starting chunking" +:+ newline in
      match pcap_open_offline a1 with
      | inl errbuf => mret (4, text +:+ "capture start failed on file " +:+ a1 +:+ ": " +:+ errbuf
          +:+ newline, [])
      | inr packets =>
          r ← handler_calls (chunk_handler pcap_dump_open out_file_name chunk_max_size) packets
                (Running (ChunkState 0 0 None [] text));
          match r with
          | Exited st s => mret (st, said s, closed s)
          | Running s => mret (0, said s +:+ "completed chunking" +:+ newline,
              closed s ++ option_list (pcap_dumper s))
          end
      end.

(** ** The files of a run *)

Definition files (s : chunk_state) : list (string * list packet) :=
  closed s ++ option_list (pcap_dumper s).

(** What the program counts for a file, and the size of the file: a header of
    24 octets, and 16 octets and the capture for every packet. *)
Fixpoint counted_size (ps : list packet) : Z :=
  match ps with [] => 0 | p :: r => sizeof_pcap_pkthdr + caplen p.1 + counted_size r end.
Fixpoint records_size (ps : list packet) : Z :=
  match ps with [] => 0 | p :: r => 16 + caplen p.1 + records_size r end.
Definition file_size (ps : list packet) : Z := 24 + records_size ps.

Definition file_name (out_file_name : string) (no : nat) : string :=
  out_file_name +:+ "_" +:+ fmt_06lu (Z.of_nat no) +:+ ".pcap".

Lemma counted_size_snoc ps p :
  counted_size (ps ++ [p]) = counted_size ps + sizeof_pcap_pkthdr + caplen p.1.
Proof. induction ps as [|q ps IH]; cbn in *; lia. Qed.

(** Two numbers never give the same name. *)
Lemma file_name_inj out m n : file_name out m = file_name out n -> m = n.
Proof.
  unfold file_name. intros H. apply str_app_inj_l, str_app_inj_l, str_app_inj_r in H.
  apply fmt_06lu_inj in H; lia.
Qed.

Definition snap_ok (p : packet) : Prop := 0 <= caplen p.1 <= PCAP_MAX_SNAPLEN.

(** A file of at most two packets is small, and for more packets the program
    counts at least the size of the file. *)
Lemma file_size_counted ps max : Forall snap_ok ps -> MIN_CHUNK_SIZE <= max ->
  counted_size ps <= max -> file_size ps <= max.
Proof.
  unfold MIN_CHUNK_SIZE, snap_ok, PCAP_MAX_SNAPLEN. intros Hok Hm Hc.
  assert (H : file_size ps + 8 * blen ps = 24 + counted_size ps).
  { clear. unfold file_size.
    induction ps as [|p ps IH]; [done|]. rewrite blen_cons. cbn. unfold sizeof_pcap_pkthdr. lia. }
  destruct ps as [|p1 [|p2 [|p3 ps]]].
  - unfold file_size. cbn. lia.
  - apply Forall_cons in Hok as [? _]. unfold file_size. cbn. lia.
  - apply Forall_cons in Hok as [? [? _]%Forall_cons]. unfold file_size. cbn. lia.
  - rewrite !blen_cons in H. pose proof (blen_nonneg ps). lia.
Qed.

Lemma counted_size_nonneg ps : Forall snap_ok ps -> 0 <= counted_size ps.
Proof.
  unfold snap_ok. induction 1 as [|p ps Hp _ IH]; cbn; unfold sizeof_pcap_pkthdr; lia.
Qed.

Section chunks.
Context (pcap_dump_open : string -> bool) (out_file_name : string) (max : Z).
Context (packets : list packet).
Context (Hopen : forall name, pcap_dump_open name = true).
Context (Hname : forall no, (no <= length packets)%nat ->
  Z.of_nat (String.length (file_name out_file_name no)) < FILENAME_MAX).
Context (Hmax : MIN_CHUNK_SIZE <= max < 2 ^ 63).
Context (Hlen : blen packets < 2 ^ 63).
Context (Hsnap : Forall snap_ok packets).

(** The files, in order, hold the packets handled; each is named by its number
    and within the limit. *)
Record files_ok (dn : list packet) (fs : list (string * list packet)) : Prop := {
  fo_packets : concat (map snd fs) = dn;
  fo_names : map fst fs = map (file_name out_file_name) (seq 0 (length fs));
  fo_sizes : Forall (fun f => f.2 <> [] /\ counted_size f.2 <= max) fs }.

Definition chunk_inv (dn : list packet) (r : chunk_run) : Prop :=
  exists s, r = Running s /\ chunk_no s = blen (files s) /\ files_ok dn (files s) /\
    match pcap_dumper s with
    | None => closed s = [] /\ chunk_used s = 0
    | Some f => chunk_used s = counted_size f.2
    end.

Lemma files_ok_length dn fs : files_ok dn fs -> (length fs <= length dn)%nat.
Proof.
  intros [<- _ Hs]. induction Hs as [|f fs [Hne _] _ IH]; [done|]. cbn.
  rewrite length_app. destruct f as [n [|p ps]]; [done|]. cbn in *. lia.
Qed.

(** A packet added to the last file, or a file with one packet added. *)
Lemma files_ok_extend dn fs name ps p :
  files_ok dn (fs ++ [(name, ps)]) -> counted_size (ps ++ [p]) <= max ->
  files_ok (dn ++ [p]) (fs ++ [(name, ps ++ [p])]).
Proof.
  intros [Hp Hn Hs] Hc. apply Forall_app in Hs as [Hs _].
  rewrite map_app, concat_app in Hp. cbn in Hp. rewrite app_nil_r in Hp.
  split.
  - rewrite map_app, concat_app. cbn. by rewrite app_nil_r, <- Hp, <- (assoc_L (++)).
  - rewrite length_app, map_app in *. exact Hn.
  - apply Forall_app_2; [done|]. apply Forall_cons_2; [|by apply Forall_nil_2].
    split; [|done]. by destruct ps.
Qed.

Lemma files_ok_new dn fs p : snap_ok p ->
  files_ok dn fs -> files_ok (dn ++ [p]) (fs ++ [(file_name out_file_name (length fs), [p])]).
Proof.
  unfold snap_ok, PCAP_MAX_SNAPLEN. intros Hp [<- Hn Hs]. split.
  - rewrite map_app, concat_app. done.
  - rewrite length_app, map_app. cbn [length map]. rewrite Nat.add_1_r, seq_S, map_app. by rewrite Hn.
  - apply Forall_app_2; [done|]. apply Forall_cons_2; [|by apply Forall_nil_2].
    split; [done|]. cbn. unfold sizeof_pcap_pkthdr, MIN_CHUNK_SIZE in *. lia.
Qed.

Lemma open_chunk_ok s : chunk_no s = blen (closed s) -> (length (closed s) <= length packets)%nat ->
  exists t, open_chunk pcap_dump_open out_file_name s =
    Ok (Running (ChunkState (chunk_no s + 1) (chunk_used s)
      (Some (file_name out_file_name (length (closed s)), [])) (closed s) t)).
Proof.
  intros Hno Hl. unfold open_chunk, chunk_dump_file. rewrite Hno. unfold blen.
  fold (file_name out_file_name (length (closed s))).
  rewrite (proj2 (Z.leb_gt _ _)) by (by apply Hname). cbn [mbind res_bind mret res_ret].
  rewrite Hopen, u64_small by (unfold blen in *; lia). by eexists.
Qed.

(** The last part of the handler: dumping and counting the packet. *)
Definition dump_packet (p : packet) (run : chunk_run) : res chunk_run :=
  match run with
  | Exited st s => mret (Exited st s)
  | Running s =>
      match pcap_dumper s with
      | None => Fault NullPointer
      | Some (name, ps) =>
          mret (Running (ChunkState (chunk_no s)
            (u64 (u64 (chunk_used s + sizeof_pcap_pkthdr) + caplen p.1))
            (Some (name, ps ++ [p])) (closed s) (said s)))
      end
  end.

Lemma used_exact used (p : packet) : 0 <= used <= max -> snap_ok p ->
  u64 (u64 (used + sizeof_pcap_pkthdr) + caplen p.1) = used + sizeof_pcap_pkthdr + caplen p.1.
Proof.
  unfold snap_ok, PCAP_MAX_SNAPLEN, sizeof_pcap_pkthdr. intros.
  rewrite (u64_small (used + 24)) by lia. apply u64_small. lia.
Qed.

(** The packet in a new file, after the files [closed s]. *)
Lemma start_chunk dn p s :
  snap_ok p -> pcap_dumper s = None -> chunk_used s = 0 -> chunk_no s = blen (closed s) ->
  files_ok dn (closed s) -> (length (closed s) <= length packets)%nat ->
  exists s', (open_chunk pcap_dump_open out_file_name s ≫= dump_packet p) = Ok (Running s') /\
    chunk_inv (dn ++ [p]) (Running s').
Proof.
  intros Hp Hd Hu Hno Hok Hl. destruct (open_chunk_ok s Hno Hl) as [t ->].
  cbn [mbind res_bind dump_packet pcap_dumper]. eexists. split; [done|].
  rewrite used_exact by (done || unfold MIN_CHUNK_SIZE in *; cbn; lia).
  eexists. split; [done|]. unfold files. cbn [chunk_no closed pcap_dumper option_list chunk_used].
  split; [|split].
  - rewrite Hno, blen_app. done.
  - by apply files_ok_new.
  - cbn. rewrite Hu. lia.
Qed.

(** One packet. *)
Lemma chunk_packet_ok dn p rest s :
  packets = dn ++ p :: rest -> chunk_inv dn (Running s) ->
  exists s', chunk_packet pcap_dump_open out_file_name max s p.1 p.2 = Ok (Running s') /\
    chunk_inv (dn ++ [p]) (Running s').
Proof.
  intros Heq (s0 & [= <-] & Hno & Hok & Hd).
  assert (Hp : snap_ok p).
  { rewrite Heq in Hsnap. apply Forall_app in Hsnap as [_ Hr]. by apply Forall_cons in Hr as [? _]. }
  pose proof Hp as Hp'. unfold snap_ok, PCAP_MAX_SNAPLEN in Hp'.
  pose proof (files_ok_length _ _ Hok) as Hfl.
  assert (Hl : (length (files s) <= length packets)%nat) by (rewrite Heq, length_app; lia).
  assert (Hused : 0 <= chunk_used s <= max).
  { destruct (pcap_dumper s) as [[name ps]|] eqn:Ed; [|unfold MIN_CHUNK_SIZE in *; lia].
    destruct Hok as [Hps _ Hs]. unfold files in Hs, Hps. rewrite Ed in Hs, Hps.
    apply Forall_app in Hs as [_ [[_ Hs] _]%Forall_cons]. cbn in Hs.
    rewrite Hd. split; [|done]. apply counted_size_nonneg.
    rewrite Heq, <- Hps, map_app, concat_app in Hsnap. cbn in Hsnap.
    rewrite !Forall_app in Hsnap. tauto. }
  assert (Hrun : chunk_packet pcap_dump_open out_file_name max s p.1 p.2 =
    (s ← (if max <? chunk_used s + sizeof_pcap_pkthdr + caplen p.1 then close_chunk s else mret s);
     (match pcap_dumper s with
      | None => open_chunk pcap_dump_open out_file_name s | Some _ => mret (Running s) end)
     ≫= dump_packet p)).
  { unfold chunk_packet. rewrite used_exact by done. by destruct p. }
  rewrite Hrun. unfold files in Hok, Hno, Hl.
  destruct (Z.ltb_spec max (chunk_used s + sizeof_pcap_pkthdr + caplen p.1)) as [Hgt|Hle].
  - destruct (pcap_dumper s) as [f|] eqn:Ed.
    + unfold close_chunk. rewrite Ed. cbn [mbind res_bind mret res_ret pcap_dumper].
      apply start_chunk; done.
    + unfold MIN_CHUNK_SIZE, sizeof_pcap_pkthdr in *. lia.
  - cbn [mbind res_bind mret res_ret]. destruct (pcap_dumper s) as [[name ps]|] eqn:Ed.
    + cbn [mbind res_bind mret res_ret dump_packet]. rewrite Ed. eexists. split; [done|].
      rewrite used_exact by done. eexists. split; [done|]. unfold files.
      cbn [chunk_no closed pcap_dumper option_list chunk_used].
      rewrite blen_app in Hno |- *. split; [done|]. cbn [snd] in Hd. split.
      * apply files_ok_extend; [done|]. rewrite counted_size_snoc, <- Hd. done.
      * rewrite Hd. cbn [snd]. by rewrite counted_size_snoc.
    + destruct Hd as [Hc Hu]. cbn [option_list] in *. rewrite app_nil_r in *.
      by apply start_chunk.
Qed.
End chunks.

(** ** Properties *)

(** C36: the capture is split.  When every file opens, the files hold the packets
    of the capture, in order and each once; they are numbered from 0 under
    distinct names; none is empty, and none is larger than the limit given. *)
Theorem chunkpcapfile_splits (pcap_open_offline : pcap_source) (pcap_dump_open : string -> bool)
    (name fin fout limit : string) (packets : list packet) :
  MIN_CHUNK_SIZE <= atol limit ->
  pcap_open_offline fin = inr packets -> (forall f, pcap_dump_open f = true) ->
  (forall no, (no <= length packets)%nat ->
     Z.of_nat (String.length (file_name fout no)) < FILENAME_MAX) ->
  blen packets < 2 ^ 63 -> Forall snap_ok packets ->
  exists text fs,
    chunkpcapfile_main pcap_open_offline pcap_dump_open [name; fin; fout; limit]
      = Ok (0, text, fs) /\
    concat (map snd fs) = packets /\
    map fst fs = map (file_name fout) (seq 0 (length fs)) /\ NoDup (map fst fs) /\
    Forall (fun f => f.2 <> [] /\ file_size f.2 <= atol limit) fs.
Proof.
  intros Hlim Hin Hopen Hname Hlen Hsnap.
  assert (Hmax : MIN_CHUNK_SIZE <= atol limit < 2 ^ 63) by (split; [done|apply atol_upper]).
  unfold chunkpcapfile_main. change (argc _ =? 4) with true.
  cbn [negb arg lookup list_lookup mbind res_bind]. rewrite Hin.
  rewrite (u64_small (atol limit)) by (unfold MIN_CHUNK_SIZE in *; lia).
  rewrite (proj2 (Z.ltb_ge _ _)) by done.
  destruct (handler_calls_inv (chunk_handler pcap_dump_open fout (atol limit))
    (chunk_inv fout (atol limit)) packets
    (Running (ChunkState 0 0 None [] ("starting chunking" +:+ newline))))
    as (r & Hr & s & -> & _ & [Hp Hn Hs] & _).
  - eexists. split; [done|]. repeat split; try done; by apply Forall_nil_2.
  - intros dn p rest [s|st s] Heq Hinv; [|by destruct Hinv as (? & ? & _)].
    destruct (chunk_packet_ok pcap_dump_open fout (atol limit) packets Hopen Hname Hmax Hlen Hsnap
      dn p rest s Heq Hinv) as (s' & Hs' & Hinv').
    by exists (Running s').
  - rewrite Hr. cbn [mbind res_bind]. eexists _, (files s). split; [done|].
    split; [done|]. split; [done|]. split.
    + rewrite Hn. assert (Inj (=) (=) (file_name fout)) by (intros ??; apply file_name_inj).
      apply (NoDup_fmap_2 (file_name fout)), NoDup_seq.
    + rewrite <- Hp in Hsnap. clear - Hs Hsnap Hlim. induction Hs as [|f fs [Hne Hc] _ IH];
        [by apply Forall_nil_2|]. cbn in Hsnap. apply Forall_app in Hsnap as [Hf Hfs].
      apply Forall_cons_2; [|by apply IH]. split; [done|]. by apply file_size_counted.
Qed.

(** ** Witnesses *)

Definition two_packets : list packet :=
  [(Pkthdr (Timeval 1 0) 2 2, [7; 8]); (Pkthdr (Timeval 2 0) 1 9, [9])].

Lemma chunkpcapfile_splits_witness :
  exists text fs,
    chunkpcapfile_main (fun _ => inr two_packets) (fun _ => true)
      ["chunkpcapfile"; "in"; "out"; "1048576"] = Ok (0, text, fs) /\
    concat (map snd fs) = two_packets /\
    map fst fs = map (file_name "out") (seq 0 (length fs)) /\ NoDup (map fst fs) /\
    Forall (fun f => f.2 <> [] /\ file_size f.2 <= 1048576) fs.
Proof.
  apply (chunkpcapfile_splits (fun _ => inr two_packets) (fun _ => true) "chunkpcapfile" "in" "out"
    "1048576" two_packets); [z_compute | reflexivity | reflexivity | | reflexivity |].
  - intros [|[|[|no]]] Hno; [reflexivity | reflexivity | reflexivity |].
    cbn in Hno. lia.
  - repeat apply Forall_cons_2; try apply Forall_nil_2; z_compute.
Defined.
