(* ===== verification/Config.v ===== *)
(** * The configuration file

    [utilities/config.c]: finding and reading the JSON configuration and looking
    properties up in it.  json-c is a library the source calls: its five
    functions are the operations of a class, on pointers ([option]) and with
    any result; a second class states the documented behaviour on which the
    theorems rest.  The mutex [gate] and the release of JSON objects are not
    modelled; character arrays are lists of characters. *)
From S2P Require Import Prelude Text.

Definition PCAP_SESSION_CONFIG_LOCATION : string :=
  "/opt/ericsson/eniq-analysis/eniq-analysis/etc/filter".
Definition CAPTURE_LOCATION_PROPERTY : string := "capture_location".
Definition HOST_PROPERTY : string := "host".
Definition PORT_PROPERTY : string := "port".
Definition LIVE_CAPTURE_PROPERTY : string := "live".
Definition FILE_CAPTURE_ITERATIONS_PROPERTY : string := "file_capture_iterations".
Definition UNTUNNEL_GTP_PROPERTY : string := "untunnel_gtp".
Definition OUTPUT_PATH_PROPERTY : string := "output_path".
Definition DISTRIBUTION_SERVER_ARRAY_PROPERTY : string := "distribution_server_array".

(** ** The JSON library *)

Class Json (J : Type) := {
  json_object_from_file : string -> option J;   (* [None]: [is_error] *)
  json_object_array_length : option J -> res Z;
  json_object_array_get_idx : option J -> Z -> res (option J);
  json_object_object_get : option J -> string -> res (option J);
  json_object_to_json_string : option J -> res string }.

(** ** The code *)

(** A value returned as [short]. *)
Definition s16 (z : Z) : Z := (z + 2 ^ 15) mod 2 ^ 16 - 2 ^ 15.

(** [get_config_file_path] into an array of [cap] characters: the path and its
    length. *)
Definition get_config_file_path (access : string -> bool) (getenv : string -> option string)
    (cap : Z) (config_file_name : string) : res (string * Z) :=
  let path :=
    if String.prefix "/" config_file_name || access config_file_name then config_file_name
    else
      match getenv "PCAP_SESSION_CONFIG_LOCATION" with
      | None => PCAP_SESSION_CONFIG_LOCATION
      | Some location => location
      end +:+ "/" +:+ config_file_name in
  if cap <=? Z.of_nat (String.length path) then Fault BufferOverflow
  else mret (path, Z.of_nat (String.length path)).

Section config.
Context {J : Type} `{Json J}.

(** The two static variables. *)
Record config_state := ConfigState { config_def : option J; filter_config_read : Z }.

Definition no_config : config_state := ConfigState None 0.

Definition read_filter_config (readable : string -> bool) (config_filename : option string)
    (st : config_state) : res (Z * config_state) :=
  match config_filename with
  | None => mret (-1, st)
  | Some file =>
      if negb (readable file) then mret (-1, st) else
      match json_object_from_file file with
      | None => mret (s16 (-2), ConfigState None (filter_config_read st))
      | Some def =>
          let st := ConfigState (Some def) (s16 (filter_config_read st + 1)) in
          n ← json_object_array_length (config_def st);
          mret (s16 n, st)
      end
  end.

(** The indices of an array of [n] elements; the library's length does not
    change while a loop runs. *)
Definition indices (n : Z) : list Z := seqZ 0 n.

(** The loop of [print_filter_config] over the remaining indices. *)
Fixpoint print_loop (st : config_state) (ids : list Z) (offset : nat)
    (buffer : option (list ascii)) : res (option (list ascii)) :=
  match ids with
  | [] => mret buffer
  | i :: ids =>
      temp_criteria ← json_object_array_get_idx (config_def st) i;
      json_spec_string ← json_object_to_json_string temp_criteria;
      match buffer with
      | None => Fault NullPointer
      | Some buf =>
          buf ← store_string buf offset
            (chars ("criteria:" +:+ fmt_d i +:+ "=" +:+ json_spec_string +:+
              String "010" (String "010" "")));
          l ← strlen buf;
          print_loop st ids (offset + l) (Some buf)
      end
  end.

Definition print_filter_config (st : config_state) (buffer : option (list ascii))
    : res (Z * option (list ascii)) :=
  if (filter_config_read st =? 0) || bool_decide (buffer <> None) then
    n ← json_object_array_length (config_def st);
    buffer ← print_loop st (indices n) 0 buffer;
    mret (0, buffer)
  else mret (-1, buffer).

(** [s + 1] of a C string. *)
Definition string_tail (s : string) : res string :=
  match s with String _ r => mret r | EmptyString => Fault OutOfBounds end.

(** The loop of [get_property] over the remaining elements. *)
Fixpoint property_loop (st : config_state) (ids : list Z) (name : string) (value : list ascii)
    : res (Z * list ascii) :=
  match ids with
  | [] => mret (-1, value)
  | i :: ids =>
      temp_criteria ← json_object_array_get_idx (config_def st) i;
      json_value ← json_object_object_get temp_criteria name;
      match json_value with
      | None => property_loop st ids name value
      | Some _ =>
          text ← json_object_to_json_string json_value;
          tail ← string_tail text;
          value ← store_string value 0 (chars tail);
          l ← strlen value;
          (if bool_decide (l = 0)%nat then Fault OutOfBounds else
           value ← set_char value (l - 1) NUL;
           mret (0, value))
      end
  end.

Definition get_property (st : config_state) (name : option string) (value : option (list ascii))
    : res (Z * option (list ascii)) :=
  match name, value with
  | Some name, Some value =>
      if filter_config_read st =? 0 then mret (-1, Some value) else
      n ← json_object_array_length (config_def st);
      '(result, value) ← property_loop st (indices n) name value;
      mret (result, Some value)
  | _, _ => mret (-1, value)
  end.

(** Whatever the library answers, the buffer keeps its length. *)
Lemma get_property_length st name buf r value :
  get_property st name (Some buf) = Ok (r, value) ->
  exists buf', value = Some buf' /\ length buf' = length buf.
Proof.
  assert (Hloop : forall ids name buf r buf', property_loop st ids name buf = Ok (r, buf') ->
    length buf' = length buf).
  { clear. induction ids as [|i ids IH]; intros name buf r buf'; cbn [property_loop];
      [by intros [= _ <-]|].
    intros Hr. apply res_bind_Ok in Hr as (tmp & _ & Hr). apply res_bind_Ok in Hr as (o & _ & Hr).
    destruct o as [o|]; [|by apply (IH name buf r)].
    apply res_bind_Ok in Hr as (text & _ & Hr). apply res_bind_Ok in Hr as (tail & _ & Hr).
    apply res_bind_Ok in Hr as (b1 & Hst & Hr). apply res_bind_Ok in Hr as (l & _ & Hr).
    case_bool_decide; [done|]. apply res_bind_Ok in Hr as (b2 & Hset & Hr). injection Hr as _ <-.
    by rewrite (set_char_length _ _ _ _ Hset), (store_string_length _ _ _ _ Hst). }
  unfold get_property. destruct name as [name|]; [|intros [= _ <-]; by exists buf].
  destruct (filter_config_read st =? 0); [intros [= _ <-]; by exists buf|].
  intros Hr. apply res_bind_Ok in Hr as (n & _ & Hr). apply res_bind_Ok in Hr as ([r1 b1] & Hl & Hr).
  injection Hr as _ <-. exists b1. split; [done|]. by apply Hloop in Hl.
Qed.

(** The state of the loops of [get_properties]: result, offset and values. *)
Definition props_state : Type := Z * Z * list ascii.

(** The body of the inner loop: one element of the array. *)
Definition inner_property (json_array : option J) (element_size : Z) (prop_name : string)
    (i : Z) (s : props_state) : res props_state :=
  let '(result, offset, values) := s in
  temp_inner ← json_object_array_get_idx json_array i;
  json_value ← json_object_object_get temp_inner prop_name;
  match json_value with
  | None => mret s
  | Some _ =>
      text ← json_object_to_json_string json_value;
      local_value ← string_tail text;
      values ← store_string values (Z.to_nat offset) (chars local_value);
      (if bool_decide (offset + Z.of_nat (String.length local_value) - 1 < 0)
       then Fault OutOfBounds else
       values ← set_char values
         (Z.to_nat (offset + Z.of_nat (String.length local_value) - 1)) NUL;
       mret (if result =? -1 then 1 else result + 1, offset + element_size, values))
  end.

Fixpoint inner_loop (json_array : option J) (element_size : Z) (prop_name : string)
    (ids : list Z) (s : props_state) : res props_state :=
  match ids with
  | [] => mret s
  | i :: ids =>
      s ← inner_property json_array element_size prop_name i s;
      inner_loop json_array element_size prop_name ids s
  end.

Fixpoint outer_loop (st : config_state) (array_name : string) (element_size : Z)
    (prop_name : string) (ids : list Z) (s : props_state) : res props_state :=
  match ids with
  | [] => mret s
  | i :: ids =>
      temp_outer ← json_object_array_get_idx (config_def st) i;
      json_array ← json_object_object_get temp_outer array_name;
      s ← (match json_array with
           | None => mret s
           | Some _ =>
               n ← json_object_array_length json_array;
               inner_loop json_array element_size prop_name (indices n) s
           end);
      outer_loop st array_name element_size prop_name ids s
  end.

Definition get_properties (st : config_state) (array_name : option string) (element_size : Z)
    (prop_name : option string) (values : option (list ascii))
    : res (Z * option (list ascii)) :=
  match array_name, prop_name, values with
  | Some array_name, Some prop_name, Some values =>
      if filter_config_read st =? 0 then mret (-1, Some values) else
      n ← json_object_array_length (config_def st);
      '(result, _, values) ← outer_loop st array_name element_size prop_name (indices n)
        (-1, 0, values);
      mret (s16 result, Some values)
  | _, _, _ => mret (-1, values)
  end.
End config.
Arguments config_state J : clear implicits.

(** ** The documented configuration

    An array of elements; an element is an object of names, with strings or
    arrays of objects as values. *)

Inductive json :=
  | JString (s : string)
  | JArray (l : list json)
  | JObject (members : list (string * json)).

Definition json_lookup (name : string) (members : list (string * json)) : option json :=
  snd <$> List.find (fun m => String.eqb m.1 name) members.

(** A string of printable characters that needs no escapes in JSON; json-c
    still prints each slash with a backslash before it. *)
Definition plain_char (c : ascii) : Prop :=
  (32 <= N_of_ascii c < 127)%N /\ c <> "034"%char /\ c <> "\"%char.
Definition plain (s : string) : Prop := Forall plain_char (chars s).
Fixpoint escaped (s : string) : string :=
  match s with
  | EmptyString => EmptyString
  | String c r =>
      if bool_decide (c = "/"%char) then String "\" (String c (escaped r)) else String c (escaped r)
  end.
Definition quoted (s : string) : string := String "034" (s +:+ String "034" "").

(** What the documentation of json-c says of the values of a configuration. *)
Class JsonLaws (J : Type) `{Json J} := {
  shape : J -> json;
  length_array : forall j l, shape j = JArray l ->
    json_object_array_length (Some j) = Ok (blen l);
  get_idx_array : forall j l i x, shape j = JArray l -> l !! i = Some x ->
    exists j', json_object_array_get_idx (Some j) (Z.of_nat i) = Ok (Some j') /\ shape j' = x;
  get_object : forall j ms name, shape j = JObject ms ->
    exists o, json_object_object_get (Some j) name = Ok o /\ shape <$> o = json_lookup name ms;
  to_string : forall j s, shape j = JString s -> plain s ->
    json_object_to_json_string (Some j) = Ok (quoted (escaped s)) }.

(** Indices of the elements from [i] on. *)
Lemma indices_cons {A} (i : nat) (x : A) (l : list A) :
  seqZ (Z.of_nat i) (blen (x :: l)) = Z.of_nat i :: seqZ (Z.of_nat (S i)) (blen l).
Proof.
  rewrite blen_cons. pose proof (blen_nonneg l). rewrite seqZ_cons by lia.
  f_equal. f_equal; lia.
Qed.

(** ** Looking properties up *)

Section lookup.
Context {J : Type} `{JsonLaws J}.
Implicit Types (st : config_state J) (es : list (list (string * json))).

(** A configuration that has been read, with the members of its elements. *)
Definition config_holds st es : Prop :=
  filter_config_read st <> 0 /\
  exists cfg, config_def st = Some cfg /\ shape cfg = JArray (map JObject es).

Definition first_value (name : string) es : option json :=
  foldr (fun ms found => match json_lookup name ms with Some v => Some v | None => found end)
    None es.

Lemma plain_no_nul s : plain s -> NUL ∉ chars (escaped s).
Proof.
  unfold plain. induction s as [|c s IH]; [intros _; apply not_elem_of_nil|].
  intros [[Hc _] Hs]%Forall_cons. specialize (IH Hs).
  assert (Hn : NUL <> c) by (intros <-; vm_compute in Hc; by destruct Hc).
  cbn [escaped]. case_bool_decide; repeat (apply not_elem_of_cons; split; [done|]); done.
Qed.

(** Dropping the backslashes gives the string back. *)
Lemma escaped_strip s : plain s -> filter (.≠ "\"%char) (chars (escaped s)) = chars s.
Proof.
  unfold plain. induction s as [|c s IH]; [done|]. intros [(_ & _ & Hc) Hs]%Forall_cons.
  specialize (IH Hs). cbn [escaped]. case_bool_decide.
  - change (chars (String "\" (String c (escaped s)))) with
      ("\"%char :: c :: chars (escaped s)).
    rewrite filter_cons_False by (intros Hb; by apply Hb). rewrite filter_cons_True by done.
    by rewrite IH.
  - change (chars (String c (escaped s))) with (c :: chars (escaped s)).
    rewrite filter_cons_True by done. by rewrite IH.
Qed.

(** The string [s] and its NUL at position [off]. *)
Definition holds (buf : list ascii) (off : nat) (s : string) : Prop :=
  take (length (chars s) + 1) (drop off buf) = chars s ++ [NUL].

Lemma holds_cstring buf off s : NUL ∉ chars s -> holds buf off s ->
  cstring (drop off buf) = chars s.
Proof.
  intros Hn Hh. unfold holds in Hh.
  rewrite <- (take_drop (length (chars s) + 1) (drop off buf)), Hh, <- (assoc_L (++)).
  by apply cstring_app.
Qed.

(** Copying the printed value from its second character on and cutting the
    closing quote leaves the value. *)
Lemma copy_value buf off s : (off + String.length s + 2 <= length buf)%nat ->
  exists buf1 buf2, store_string buf off (chars (s +:+ String "034" "")) = Ok buf1 /\
    drop off buf1 = chars s ++ "034"%char :: NUL :: drop (off + String.length s + 2) buf /\
    set_char buf1 (off + String.length s) NUL = Ok buf2 /\
    holds buf2 off s /\ length buf2 = length buf /\ take off buf2 = take off buf.
Proof.
  intros Hl.
  assert (Hq : length (chars (s +:+ String "034" "")) = (String.length s + 1)%nat)
    by (rewrite chars_app, length_app, chars_length; done).
  destruct (store_string buf off (chars (s +:+ String "034" ""))) as [buf1|f] eqn:Hst.
  2:{ rewrite store_string_ok in Hst by lia. done. }
  pose proof (store_string_length _ _ _ _ Hst) as Hlen.
  pose proof (store_string_before _ _ _ _ off Hst ltac:(lia)) as Hbefore.
  pose proof (store_string_at _ _ _ _ Hst) as Hat.
  rewrite Hq, chars_app, <- (assoc_L (++)) in Hat. cbn [chars app] in Hat.
  exists buf1, (<[(off + String.length s)%nat := NUL]> buf1).
  split; [done|]. split; [|split].
  - rewrite Hat. cbn. do 4 f_equal. lia.
  - unfold set_char. by rewrite bool_decide_eq_true_2 by lia.
  - rewrite length_insert, take_insert_ge by lia. split; [|done].
    unfold holds. rewrite drop_insert_ge by lia. rewrite Hat.
    replace (off + String.length s - off)%nat with (length (chars s) + 0)%nat
      by (rewrite chars_length; lia).
    rewrite insert_app_r. cbn. rewrite take_app_add'; [done|done].
Qed.

(** The value of a member, through the library. *)
Lemma element_member st cfg es i ms name : config_def st = Some cfg ->
  shape cfg = JArray (map JObject es) -> es !! i = Some ms ->
  exists tmp o, json_object_array_get_idx (config_def st) (Z.of_nat i) = Ok tmp /\
    json_object_object_get tmp name = Ok o /\ shape <$> o = json_lookup name ms.
Proof.
  intros -> Hs Hi.
  destruct (get_idx_array cfg (map JObject es) i (JObject ms) Hs) as (j & Hj & Hsh).
  { by rewrite list_lookup_fmap, Hi. }
  destruct (get_object j ms name Hsh) as (o & Ho & Hm). by exists (Some j), o.
Qed.

Lemma property_loop_found st cfg all name value : config_def st = Some cfg ->
  shape cfg = JArray (map JObject all) -> forall es pre, all = pre ++ es ->
  match first_value name es with
  | None => property_loop st (seqZ (Z.of_nat (length pre)) (blen es)) name value = Ok (-1, value)
  | Some (JString s) => plain s -> (String.length (escaped s) + 2 <= length value)%nat ->
      exists value', property_loop st (seqZ (Z.of_nat (length pre)) (blen es)) name value
        = Ok (0, value') /\ length value' = length value /\ cstring value' = chars (escaped s)
  | Some _ => True
  end.
Proof.
  intros Hc Hs. induction es as [|ms es IH]; intros pre Hall; [done|].
  rewrite indices_cons. cbn [property_loop first_value foldr].
  destruct (element_member st cfg all (length pre) ms name Hc Hs) as (tmp & o & Ht & Ho & Hm).
  { rewrite Hall. by rewrite list_lookup_middle. }
  rewrite Ht. cbn [mbind res_bind]. rewrite Ho. cbn [mbind res_bind].
  destruct o as [j|]; cbn [fmap option_fmap option_map] in Hm; rewrite <- Hm.
  - destruct (shape j) as [s| |] eqn:Hj; [|done|done]. intros Hp Hl.
    rewrite (to_string j s Hj Hp). cbn [mbind res_bind string_tail quoted mret res_ret].
    destruct (copy_value value 0 (escaped s)) as (b1 & b2 & Hst & Hd & Hset & Hh & Hl2 & _); [lia|].
    rewrite Hst. cbn [mbind res_bind]. change (drop 0 b1) with b1 in Hd.
    assert (Hlen : strlen b1 = Ok (String.length (escaped s) + 1)%nat).
    { rewrite Hd. change (chars (escaped s) ++ "034"%char :: NUL :: ?r) with
        (chars (escaped s) ++ ["034"%char] ++ NUL :: r). rewrite (assoc_L (++)), strlen_app.
      - by rewrite length_app, chars_length.
      - pose proof (plain_no_nul s Hp). set_solver. }
    rewrite Hlen. cbn [mbind res_bind]. rewrite bool_decide_eq_false_2 by lia.
    rewrite Nat.add_sub. cbn [Nat.add] in Hset. rewrite Hset. eexists. split; [done|]. split; [done|].
    apply (holds_cstring b2 0 (escaped s)); [by apply plain_no_nul|done].
  - specialize (IH (pre ++ [ms])). rewrite length_app in IH. cbn in IH.
    rewrite Nat.add_1_r in IH. apply IH. by rewrite <- (assoc_L (++)).
Qed.

(** ** Lists of properties *)

(** The text of the string a member of an object of the array has. *)
Definition member_string (prop_name : string) (x : json) : option string :=
  match x with
  | JObject ms => match json_lookup prop_name ms with Some (JString s) => Some (escaped s) | _ => None end
  | _ => None
  end.

Definition array_strings (array_name prop_name : string) (ms : list (string * json))
    : list string :=
  match json_lookup array_name ms with Some (JArray l) => omap (member_string prop_name) l
  | _ => [] end.

Definition all_strings (array_name prop_name : string) es : list string :=
  es ≫= array_strings array_name prop_name.

(** Values where the documentation wants arrays of objects, and strings. *)
Definition inner_ok (prop_name : string) (x : json) : Prop :=
  exists ms, x = JObject ms /\
    (json_lookup prop_name ms = None \/
     exists s, json_lookup prop_name ms = Some (JString s) /\ plain s).
Definition outer_ok (array_name prop_name : string) (ms : list (string * json)) : Prop :=
  json_lookup array_name ms = None \/
  exists l, json_lookup array_name ms = Some (JArray l) /\ Forall (inner_ok prop_name) l.

Lemma all_strings_no_nul array_name prop_name es : Forall (outer_ok array_name prop_name) es ->
  Forall (fun v => NUL ∉ chars v) (all_strings array_name prop_name es).
Proof.
  intros Hok. apply Forall_forall. intros v Hv. unfold all_strings in Hv.
  apply list_elem_of_bind in Hv as (ms & Hv & Hms). apply (proj1 (Forall_forall _ _) Hok) in Hms.
  unfold array_strings in Hv. destruct Hms as [Hn|(l & Hl & Hin)].
  - rewrite Hn in Hv. by apply not_elem_of_nil in Hv.
  - rewrite Hl in Hv. apply list_elem_of_omap in Hv as (x & Hx & Hm).
    apply (proj1 (Forall_forall _ _) Hin) in Hx as (ms' & -> & Hval). cbn in Hm.
    destruct Hval as [Hn|(s & Hs & Hp)]; [by rewrite Hn in Hm|]. rewrite Hs in Hm.
    injection Hm as <-. by apply plain_no_nul.
Qed.

(** The state of the loops when the strings [vs] have been stored. *)
Definition stored (size : nat) (cap : nat) (vs : list string) (s : props_state) : Prop :=
  let '(result, offset, values) := s in
  result = (if bool_decide (vs = []) then -1 else blen vs) /\
  offset = Z.of_nat (length vs * size) /\ length values = cap /\
  forall i v, vs !! i = Some v -> holds values (i * size) v.

Lemma holds_before buf buf' off n v : take n buf' = take n buf ->
  (off + String.length v + 1 <= n)%nat -> holds buf off v -> holds buf' off v.
Proof.
  unfold holds. intros Ht Hn. rewrite chars_length, !take_drop_commute.
  assert (Hpre : forall l : list ascii, take (off + (String.length v + 1)) l =
    take (off + (String.length v + 1)) (take n l))
    by (intros l; rewrite take_take; f_equal; lia).
  rewrite (Hpre buf), (Hpre buf'), Ht. done.
Qed.

Lemma inner_property_step ja tmp o size cap prop v vs i s :
  stored size cap vs s -> plain v ->
  (String.length (escaped v) + 2 <= size)%nat -> ((length vs + 1) * size <= cap)%nat ->
  Forall (fun w => String.length w + 2 <= size)%nat vs ->
  json_object_array_get_idx ja i = Ok tmp -> json_object_object_get tmp prop = Ok (Some o) ->
  shape o = JString v ->
  exists s', inner_property ja (Z.of_nat size) prop i s = Ok s' /\
    stored size cap (vs ++ [escaped v]) s'.
Proof.
  destruct s as [[result offset] values]. intros (Hr & Hoff & Hlen & Hh) Hp Hv Hcap Hvs Hi Ho Hs.
  unfold inner_property. rewrite Hi. cbn [mbind res_bind]. rewrite Ho. cbn [mbind res_bind].
  rewrite (to_string o v Hs Hp). cbn [mbind res_bind string_tail quoted mret res_ret].
  clear Hs Hp. revert Hv. generalize (escaped v). clear v. intros v Hv.
  destruct (copy_value values (length vs * size) v) as (b1 & b2 & Hst & _ & Hset & Hhold & Hl2 & Ht);
    [lia|].
  rewrite Hoff, Nat2Z.id, Hst. cbn [mbind res_bind].
  rewrite string_app_length. cbn [String.length].
  replace (Z.of_nat (length vs * size) + Z.of_nat (String.length v + 1) - 1) with
    (Z.of_nat (length vs * size + String.length v)) by lia.
  rewrite bool_decide_eq_false_2 by lia. rewrite Nat2Z.id, Hset. cbn [mbind res_bind].
  eexists. split; [done|]. split; [|split; [|split]].
  - rewrite (bool_decide_eq_false_2 (vs ++ [v] = [])) by (by destruct vs).
    rewrite blen_app. change (blen [v]) with 1. rewrite Hr. destruct vs as [|w vs]; [done|].
    rewrite bool_decide_eq_false_2 by done. pose proof (blen_nonneg vs).
    rewrite blen_cons. by rewrite (proj2 (Z.eqb_neq _ _)) by lia.
  - rewrite length_app. cbn [length]. lia.
  - by rewrite Hl2.
  - intros k w Hk. destruct (decide (k < length vs)%nat) as [Hlt|Hge].
    + rewrite lookup_app_l in Hk by done. apply (holds_before values _ _ (length vs * size)).
      * by rewrite Ht.
      * pose proof (proj1 (Forall_lookup _ _) Hvs k w Hk) as Hw. cbn in Hw. nia.
      * by apply Hh.
    + apply lookup_lt_Some in Hk as Hk'. rewrite length_app in Hk'. cbn in Hk'.
      assert (k = length vs) as -> by lia. rewrite list_lookup_middle in Hk by done.
      by injection Hk as <-.
Qed.

(** Room for the strings [vs] in slots of [size] characters. *)
Definition fits (size cap : nat) (vs : list string) : Prop :=
  Forall (fun v => String.length v + 2 <= size)%nat vs /\ (length vs * size <= cap)%nat.

Lemma fits_app_l size cap vs ws : fits size cap (vs ++ ws) -> fits size cap vs.
Proof.
  intros [Hs Hc]. apply Forall_app in Hs as [Hs _]. rewrite length_app in Hc.
  split; [done|nia].
Qed.

Lemma inner_loop_ok j all size cap prop : shape j = JArray all ->
  forall l pre vs s, all = pre ++ l -> Forall (inner_ok prop) l -> stored size cap vs s ->
  fits size cap (vs ++ omap (member_string prop) l) ->
  exists s', inner_loop (Some j) (Z.of_nat size) prop (seqZ (Z.of_nat (length pre)) (blen l)) s
      = Ok s' /\ stored size cap (vs ++ omap (member_string prop) l) s'.
Proof.
  intros Hj. induction l as [|x l IH]; intros pre vs s Hall Hok Hst Hfit.
  { exists s. cbn in *. by rewrite app_nil_r. }
  apply Forall_cons in Hok as [(ms & -> & Hval) Hok]. rewrite indices_cons. cbn [inner_loop].
  destruct (get_idx_array j all (length pre) (JObject ms) Hj) as (tmp & Ht & Hshape).
  { by rewrite Hall, list_lookup_middle. }
  destruct (get_object tmp ms prop Hshape) as (o & Ho & Hm).
  assert (Hstep : exists s1, inner_property (Some j) (Z.of_nat size) prop (Z.of_nat (length pre)) s
      = Ok s1 /\ stored size cap (vs ++ option_list (member_string prop (JObject ms))) s1).
  { unfold member_string in *. destruct Hval as [Hnone|(v & Hv & Hp)].
    - rewrite Hnone in *. destruct o; [done|]. exists s. destruct s as [[r off] vals].
      unfold inner_property. rewrite Ht. cbn [mbind res_bind]. rewrite Ho. cbn.
      by rewrite app_nil_r.
    - rewrite Hv in *. destruct o as [jo|]; [|done]. cbn in Hm. injection Hm as Hm.
      assert (Hfit' : fits size cap (vs ++ [escaped v])).
      { cbn [omap list_omap] in Hfit. rewrite Hv in Hfit. apply (fits_app_l _ _ _
          (omap (member_string prop) l)). by rewrite <- (assoc_L (++)). }
      destruct Hfit' as [Hs Hc]. rewrite length_app in Hc.
      apply Forall_app in Hs as [Hs [Hv2 _]%Forall_cons].
      by apply (inner_property_step (Some j) (Some tmp) jo size cap prop v vs). }
  destruct Hstep as (s1 & -> & Hst1). cbn [mbind res_bind].
  specialize (IH (pre ++ [JObject ms]) _ s1 ltac:(by rewrite <- (assoc_L (++))) Hok Hst1).
  rewrite length_app, Nat.add_1_r in IH. cbn [omap list_omap] in Hfit |- *.
  assert (Heq : vs ++ match member_string prop (JObject ms) with
      | Some y => y :: omap (member_string prop) l | None => omap (member_string prop) l end =
    (vs ++ option_list (member_string prop (JObject ms))) ++ omap (member_string prop) l).
  { rewrite <- (assoc_L (++)). by destruct (member_string prop (JObject ms)). }
  unfold omap in *. rewrite Heq in Hfit |- *. by apply IH.
Qed.

Lemma outer_loop_ok st cfg all arr size cap prop : config_def st = Some cfg ->
  shape cfg = JArray (map JObject all) ->
  forall es pre vs s, all = pre ++ es -> Forall (outer_ok arr prop) es -> stored size cap vs s ->
  fits size cap (vs ++ all_strings arr prop es) ->
  exists s', outer_loop st arr (Z.of_nat size) prop (seqZ (Z.of_nat (length pre)) (blen es)) s
      = Ok s' /\ stored size cap (vs ++ all_strings arr prop es) s'.
Proof.
  intros Hc Hs. induction es as [|ms es IH]; intros pre vs s Hall Hok Hst Hfit.
  { exists s. cbn in *. by rewrite app_nil_r. }
  apply Forall_cons in Hok as [Hms Hok]. rewrite indices_cons. cbn [outer_loop].
  destruct (element_member st cfg all (length pre) ms arr Hc Hs) as (tmp & o & Ht & Ho & Hm).
  { by rewrite Hall, list_lookup_middle. }
  rewrite Ht. cbn [mbind res_bind]. rewrite Ho. cbn [mbind res_bind].
  unfold all_strings in *. cbn [mbind list_bind] in *.
  fold (mbind (M := list) (array_strings arr prop) es) in *.
  rewrite (assoc_L (++)) in Hfit |- *.
  assert (Hstep : exists s1, match o with
      | None => mret s
      | Some _ => n ← json_object_array_length o;
          inner_loop o (Z.of_nat size) prop (indices n) s end = Ok s1 /\
      stored size cap (vs ++ array_strings arr prop ms) s1).
  { unfold array_strings in *. destruct Hms as [Hnone|(l & Hl & Hin)].
    - rewrite Hnone in *. destruct o; [done|]. exists s. by rewrite app_nil_r.
    - rewrite Hl in *. destruct o as [jo|]; [|done]. cbn in Hm. injection Hm as Hm.
      rewrite (length_array jo l Hm). cbn [mbind res_bind]. unfold indices.
      apply (inner_loop_ok jo l size cap prop Hm l [] vs s); try done.
      by apply fits_app_l in Hfit. }
  destruct Hstep as (s1 & -> & Hst1). cbn [mbind res_bind].
  specialize (IH (pre ++ [ms]) _ s1 ltac:(by rewrite <- (assoc_L (++))) Hok Hst1 Hfit).
  by rewrite length_app, Nat.add_1_r in IH.
Qed.
End lookup.

(** ** Printing *)

Definition criterion (i : nat) (text : string) : string :=
  "criteria:" +:+ fmt_d (Z.of_nat i) +:+ "=" +:+ text +:+ String "010" (String "010" "").

Lemma criterion_no_nul i t : NUL ∉ chars t -> NUL ∉ chars (criterion i t).
Proof.
  intros Ht. unfold criterion. rewrite !chars_app.
  pose proof (fmt_d_no_nul (Z.of_nat i) ltac:(lia)) as Hi.
  rewrite !not_elem_of_app. repeat split; try done; set_unfold; naive_solver discriminate.
Qed.

Lemma strlen_take buf head : NUL ∉ head -> take (length head + 1) buf = head ++ [NUL] ->
  strlen buf = Ok (length head) /\ cstring buf = head.
Proof.
  intros Hn Ht. rewrite <- (take_drop (length head + 1) buf), Ht, <- (assoc_L (++)).
  split; [by apply strlen_app|by apply cstring_app].
Qed.

(** Storing right after the text [head]. *)
Lemma store_after buf head s : take (length head) buf = head ->
  (length head + String.length s + 1 <= length buf)%nat ->
  exists buf', store_string buf (length head) (chars s) = Ok buf' /\ length buf' = length buf /\
    take (length (head ++ chars s) + 1) buf' = (head ++ chars s) ++ [NUL].
Proof.
  intros Hh Hl. destruct (store_string buf (length head) (chars s)) as [buf'|f] eqn:Hst.
  2:{ rewrite store_string_ok in Hst; [done|]. by rewrite chars_length. }
  exists buf'. split; [done|]. split; [by apply store_string_length in Hst|].
  pose proof (store_string_at _ _ _ _ Hst) as Hat.
  pose proof (store_string_before _ _ _ _ _ Hst (le_n _)) as Hb. rewrite Hh in Hb.
  rewrite <- (take_drop (length head) buf'), Hb, Hat.
  change (chars s ++ NUL :: ?r) with (chars s ++ [NUL] ++ r). rewrite !(assoc_L (++)).
  apply take_app_length'. by rewrite !length_app.
Qed.

Section print.
Context {J : Type} `{Json J}.
Context (st : config_state J) (texts : list string) (most : nat).
Context (Htexts : forall i t, texts !! i = Some t ->
  (exists j, json_object_array_get_idx (config_def st) (Z.of_nat i) = Ok j /\
     json_object_to_json_string j = Ok t) /\
  (NUL ∉ chars t) /\ (String.length (criterion i t) <= most)%nat).

(** Once the text of the first two criteria is at the start of the buffer, the
    later ones are written behind its NUL. *)
Lemma print_rest head ts : forall k buf offset,
  (forall i t, ts !! i = Some t -> texts !! (k + i)%nat = Some t) ->
  NUL ∉ head -> take (length head + 1) buf = head ++ [NUL] -> (length head + 1 <= offset)%nat ->
  (offset + length ts * length head + most + 1 <= length buf)%nat ->
  exists buf', print_loop st (seqZ (Z.of_nat k) (blen ts)) offset (Some buf) = Ok (Some buf') /\
    take (length head + 1) buf' = head ++ [NUL].
Proof.
  induction ts as [|t ts IH]; intros k buf offset Hts Hn Hhead Hoff Hroom; [by exists buf|].
  rewrite indices_cons. cbn [print_loop].
  destruct (Htexts k t) as ((j & Hj & Htext) & Hnt & Hmost).
  { specialize (Hts 0%nat t eq_refl). by rewrite Nat.add_0_r in Hts. }
  rewrite Hj. cbn [mbind res_bind]. rewrite Htext. cbn [mbind res_bind].
  change (chars _) with (chars (criterion k t)).
  destruct (store_string buf offset (chars (criterion k t))) as [buf1|f] eqn:Hst.
  2:{ rewrite store_string_ok in Hst; [done|]. rewrite chars_length. nia. }
  cbn [mbind res_bind]. pose proof (store_string_length _ _ _ _ Hst) as Hl1.
  pose proof (store_string_before _ _ _ _ _ Hst Hoff) as Hb1. rewrite Hhead in Hb1.
  rewrite (proj1 (strlen_take buf1 head Hn Hb1)). cbn [mbind res_bind].
  apply (IH (S k) buf1); try done; [|lia|cbn [length] in Hroom; nia].
  intros i t' Hi. rewrite Nat.add_succ_comm. by apply Hts.
Qed.
End print.

(** ** Properties *)

Section properties.
Context {J : Type} `{JsonLaws J}.
Implicit Types (st : config_state J) (es : list (list (string * json))).

Lemma get_property_spec st es (name : string) (value : list ascii) :
  config_holds st es ->
  match first_value name es with
  | None => get_property st (Some name) (Some value) = Ok (-1, Some value)
  | Some (JString s) => plain s -> (String.length (escaped s) + 2 <= length value)%nat ->
      exists value', get_property st (Some name) (Some value) = Ok (0, Some value') /\
        length value' = length value /\ cstring value' = chars (escaped s)
  | Some _ => True
  end.
Proof.
  intros (Hr & cfg & Hc & Hs). unfold get_property. rewrite (proj2 (Z.eqb_neq _ _) Hr), Hc.
  rewrite (length_array cfg _ Hs). cbn [mbind res_bind]. unfold indices.
  replace (blen (map JObject es)) with (blen es) by (unfold blen; by rewrite length_map).
  pose proof (property_loop_found st cfg es name value Hc Hs es [] eq_refl) as Hloop.
  change (Z.of_nat (length [])) with 0 in Hloop.
  destruct (first_value name es) as [[s| |]|]; try done.
  - intros Hp Hl. destruct (Hloop Hp Hl) as (v' & -> & Hl' & Hv). by exists v'.
  - by rewrite Hloop.
Qed.

Lemma get_properties_spec st es (array_name prop_name : string) (size : nat)
    (values : list ascii) :
  config_holds st es -> Forall (outer_ok array_name prop_name) es ->
  let vs := all_strings array_name prop_name es in
  fits size (length values) vs -> blen vs < 2 ^ 15 ->
  exists values',
    get_properties st (Some array_name) (Z.of_nat size) (Some prop_name) (Some values)
      = Ok (if bool_decide (vs = []) then -1 else blen vs, Some values') /\
    length values' = length values /\
    forall i v, vs !! i = Some v -> NUL ∉ chars v -> cstring (drop (i * size) values') = chars v.
Proof.
  intros (Hr & cfg & Hc & Hs) Hok vs Hfit Hlen. unfold get_properties.
  rewrite (proj2 (Z.eqb_neq _ _) Hr), Hc, (length_array cfg _ Hs). cbn [mbind res_bind].
  unfold indices.
  replace (blen (map JObject es)) with (blen es) by (unfold blen; by rewrite length_map).
  destruct (outer_loop_ok st cfg es array_name size (length values) prop_name Hc Hs es [] []
    (-1, 0, values) eq_refl Hok) as ([[r off] vals] & Hrun & Hres & _ & Hl & Hh); [|done|].
  { repeat split. intros i v Hv. by rewrite lookup_nil in Hv. }
  change (Z.of_nat (length [])) with 0 in Hrun. rewrite Hrun. cbn [mbind res_bind app] in *.
  exists vals. split; [|split; [done|]].
  - unfold mret, res_ret. do 3 f_equal. rewrite Hres. fold vs.
    destruct (bool_decide (vs = [])); [reflexivity|]. unfold s16. pose proof (blen_nonneg vs).
    rewrite Z.mod_small; lia.
  - intros i v Hv Hp. apply holds_cstring; [done|]. by apply Hh.
Qed.

(** [get_property] finds the first element that has the name.  With a string
    there, the buffer holds its text, each slash escaped, and 0 is returned;
    with no such element, -1 is returned and the buffer is left as it was. *)
Theorem get_property_first st es (name : string) (value : list ascii) :
  config_holds st es ->
  match first_value name es with
  | None => get_property st (Some name) (Some value) = Ok (-1, Some value)
  | Some (JString s) => plain s -> (String.length (escaped s) + 2 <= length value)%nat ->
      exists value', get_property st (Some name) (Some value) = Ok (0, Some value') /\
        length value' = length value /\ cstring value' = chars (escaped s)
  | Some _ => True
  end.
Proof. apply get_property_spec. Qed.

(** [get_properties] collects the text of every string of the name from all
    arrays of the array name, in order: it returns their number, or -1 when
    there is none, and slot [i] of the values holds text [i]. *)
Theorem get_properties_all st es (array_name prop_name : string) (size : nat)
    (values : list ascii) :
  config_holds st es -> Forall (outer_ok array_name prop_name) es ->
  let vs := all_strings array_name prop_name es in
  fits size (length values) vs -> blen vs < 2 ^ 15 ->
  exists values',
    get_properties st (Some array_name) (Z.of_nat size) (Some prop_name) (Some values)
      = Ok (if bool_decide (vs = []) then -1 else blen vs, Some values') /\
    length values' = length values /\
    forall i v, vs !! i = Some v -> NUL ∉ chars v -> cstring (drop (i * size) values') = chars v.
Proof. apply get_properties_spec. Qed.

(** However many elements the configuration has, the string in the buffer
    after [print_filter_config] is that of the first two: the offset of the
    third is computed from the length of the whole buffer. *)
Theorem print_filter_config_first_two st (texts : list string) (most : nat) (t0 t1 : string)
    (buf : list ascii) :
  json_object_array_length (config_def st) = Ok (blen texts) ->
  (forall i t, texts !! i = Some t ->
    (exists j, json_object_array_get_idx (config_def st) (Z.of_nat i) = Ok j /\
       json_object_to_json_string j = Ok t) /\
    (NUL ∉ chars t) /\ (String.length (criterion i t) <= most)%nat) ->
  texts !! 0%nat = Some t0 -> texts !! 1%nat = Some t1 ->
  (length texts * (2 * most) + most + 1 <= length buf)%nat ->
  exists buf', print_filter_config st (Some buf) = Ok (0, Some buf') /\
    cstring buf' = chars (criterion 0 t0 +:+ criterion 1 t1).
Proof.
  intros Hlen Htexts H0t H1t Hroom. unfold print_filter_config.
  rewrite bool_decide_eq_true_2, orb_true_r, Hlen by done. cbn [mbind res_bind].
  destruct texts as [|t0' [|t1' ts]]; [done|done|]. injection H0t as ->. injection H1t as ->.
  unfold indices. change (seqZ 0 ?n) with (seqZ (Z.of_nat 0) n).
  rewrite (indices_cons 0 t0 (t1 :: ts)), (indices_cons 1 t1 ts).
  destruct (Htexts 0%nat t0 eq_refl) as ((j0 & Hj0 & Ht0) & Hn0 & Hm0).
  destruct (Htexts 1%nat t1 eq_refl) as ((j1 & Hj1 & Ht1) & Hn1 & Hm1).
  apply (criterion_no_nul 0) in Hn0. apply (criterion_no_nul 1) in Hn1.
  cbn [length] in Hroom. cbn [print_loop].
  rewrite Hj0. cbn [mbind res_bind]. rewrite Ht0. cbn [mbind res_bind].
  destruct (store_after buf [] (criterion 0 t0)) as (buf1 & Hst1 & Hl1 & Hh1);
    [done|cbn [length]; lia|].
  cbn [length app] in Hst1, Hh1.
  change (store_string buf 0 _) with (store_string buf 0 (chars (criterion 0 t0))).
  rewrite Hst1. cbn [mbind res_bind].
  rewrite (proj1 (strlen_take buf1 _ Hn0 Hh1)). cbn [mbind res_bind].
  rewrite Hj1. cbn [mbind res_bind]. rewrite Ht1. cbn [mbind res_bind].
  destruct (store_after buf1 (chars (criterion 0 t0)) (criterion 1 t1))
    as (buf2 & Hst2 & Hl2 & Hh2).
  { apply (f_equal (take (length (chars (criterion 0 t0))))) in Hh1.
    rewrite take_take, take_app_length, Nat.min_l in Hh1 by lia. done. }
  { rewrite chars_length. lia. }
  cbn [Nat.add]. change (store_string buf1 _ _) with
    (store_string buf1 (length (chars (criterion 0 t0))) (chars (criterion 1 t1))).
  rewrite Hst2. cbn [mbind res_bind].
  assert (Hn2 : NUL ∉ chars (criterion 0 t0) ++ chars (criterion 1 t1)) by set_solver.
  rewrite (proj1 (strlen_take buf2 _ Hn2 Hh2)). cbn [mbind res_bind].
  destruct (print_rest st (t0 :: t1 :: ts) most Htexts
    (chars (criterion 0 t0) ++ chars (criterion 1 t1)) ts 2 buf2
    (length (chars (criterion 0 t0)) + length (chars (criterion 0 t0) ++ chars (criterion 1 t1))))
    as (buf' & Hrun & Hh); try done.
  { rewrite length_app, !chars_length.
    assert (1 <= String.length (criterion 0 t0))%nat
      by (unfold criterion; rewrite string_app_length; cbn [String.length]; lia). lia. }
  { rewrite length_app, !chars_length. nia. }
  rewrite Hrun. cbn [mbind res_bind]. exists buf'. split; [done|].
  rewrite chars_app. by apply (strlen_take buf').
Qed.
End properties.

(** ** A JSON library

    The documented values themselves, with the text of strings: it satisfies
    the laws, so they can hold. *)

Definition json_with (files : string -> option json) : Json json := {|
  json_object_from_file := files;
  json_object_array_length o :=
    match o with Some (JArray l) => Ok (blen l) | _ => Fault NullPointer end;
  json_object_array_get_idx o i :=
    match o with Some (JArray l) => Ok (if i <? 0 then None else l !! Z.to_nat i)
    | _ => Fault NullPointer end;
  json_object_object_get o name :=
    match o with Some (JObject ms) => Ok (json_lookup name ms) | _ => Ok None end;
  json_object_to_json_string o :=
    match o with Some (JString s) => Ok (quoted (escaped s)) | _ => Ok "null" end |}.

Program Definition json_with_laws files : @JsonLaws json (json_with files) := {| shape := id |}.
Next Obligation. cbn. intros files j l H. by rewrite H. Qed.
Next Obligation.
  cbn. intros files j l i x H Hi. rewrite H.
  rewrite (proj2 (Z.ltb_ge _ _)) by lia.
  rewrite Nat2Z.id, Hi. by eexists.
Qed.
Next Obligation.
  cbn. intros files j ms name H. rewrite H. eexists. split; [done|]. apply option_fmap_id.
Qed.
Next Obligation. cbn. intros files j s H _. by rewrite H. Qed.

#[export] Instance json_self : Json json :=
  json_with (fun f => Some (JArray [JObject [(CAPTURE_LOCATION_PROPERTY, JString f)]])).
#[export] Instance json_self_laws : JsonLaws json := json_with_laws _.

(** The example of [config.h]. *)
Definition sample_config : list (list (string * json)) :=
  [[("some", JString "rubbish")];
   [("read_mode", JString "0"); ("capture_location", JString "eth0"); ("port", JString "3000");
    ("server_arr", JArray [JObject [("host", JString "192.168.122.222")];
                           JObject [("host", JString "192.168.122.223")]]);
    ("server_elem_size", JString "20")]].

Definition sample_state : config_state json :=
  ConfigState (Some (JArray (map JObject sample_config))) 1.

Lemma sample_config_holds : config_holds sample_state sample_config.
Proof. split; [discriminate|]. eexists. split; reflexivity. Qed.

Ltac plain_tac :=
  repeat apply Forall_cons_2; try apply Forall_nil_2;
  (split; [vm_compute; split; [discriminate|reflexivity]|split; discriminate]).

Lemma get_property_first_witness :
  exists value', get_property sample_state (Some "capture_location") (Some (replicate 10 "x"%char))
    = Ok (0, Some value') /\ length value' = 10%nat /\ cstring value' = chars "eth0".
Proof.
  apply (get_property_first sample_state sample_config "capture_location"
    (replicate 10 "x"%char)); [apply sample_config_holds | plain_tac | apply Nat.leb_le; reflexivity].
Defined.

Lemma get_properties_all_witness :
  exists values',
    get_properties sample_state (Some "server_arr") 20 (Some "host") (Some (replicate 40 "x"%char))
      = Ok (2, Some values') /\
    length values' = 40%nat /\
    forall i v, ["192.168.122.222"; "192.168.122.223"] !! i = Some v -> NUL ∉ chars v ->
      cstring (drop (i * 20) values') = chars v.
Proof.
  apply (get_properties_all sample_state sample_config "server_arr" "host" 20
    (replicate 40 "x"%char)); [apply sample_config_holds | | | reflexivity].
  - apply Forall_cons_2; [by left|]. apply Forall_cons_2; [|by apply Forall_nil_2].
    right. eexists. split; [reflexivity|].
    repeat apply Forall_cons_2; try apply Forall_nil_2; eexists; (split; [reflexivity|]);
      right; eexists; (split; [reflexivity|plain_tac]).
  - split; [|apply Nat.leb_le; reflexivity].
    repeat apply Forall_cons_2; try apply Forall_nil_2; apply Nat.leb_le; reflexivity.
Defined.

Lemma print_filter_config_first_two_witness :
  exists buf',
    print_filter_config
      (ConfigState (Some (JArray [JString "a"; JString "b"; JString "c"])) 1 : config_state json)
      (Some (replicate 300 NUL)) = Ok (0, Some buf') /\
    cstring buf' = chars (criterion 0 (quoted "a") +:+ criterion 1 (quoted "b")).
Proof.
  apply (print_filter_config_first_two
    (ConfigState (Some (JArray [JString "a"; JString "b"; JString "c"])) 1 : config_state json)
    [quoted "a"; quoted "b"; quoted "c"] 20 (quoted "a") (quoted "b") (replicate 300 NUL));
    [reflexivity | | reflexivity | reflexivity | apply Nat.leb_le; reflexivity].
  intros [|[|[|i]]] t Hi; try (injection Hi as <-); try discriminate Hi;
    (split; [eexists; split; reflexivity|split; [|apply Nat.leb_le; reflexivity]]);
    refine (bool_decide_unpack _ _); vm_compute; exact I.
Defined.
