(* ===== verification/Sys.v ===== *)
(** * The session table and the system around it

    The data of [pcapsession.h] and a small state monad in which the session
    modules are written.  The world holds the session list, the state of
    session handling, the list of connected clients, the per-file copies of the
    monitors' last output time, and the threads.  Every call to the operating
    system or to libpcap goes through [ext]: it is recorded in the trace with
    its result, which an environment ([Env]) chooses from the calls made so far.
    Log messages are not modelled; the mutexes are in [Locks] and [Critical]. *)
From S2P Require Import Prelude Pcap Monitor.

(** ** Constants *)

Definition PCAP_SESSION_MAX_SESSIONS : Z := 128.
Definition PCAP_SESSION_SUPERVISION_INTERVAL : Z := 1.
Definition PCAP_SESSION_SUPERVISION_TRANSITION_INTERVALS : Z := 10.

Definition PCAP_SESSION_UNUSED : Z := 0.
Definition PCAP_SESSION_STOPPED : Z := 1.
Definition PCAP_SESSION_START : Z := 2.
Definition PCAP_SESSION_STARTING : Z := 3.
Definition PCAP_SESSION_RUNNING : Z := 4.
Definition PCAP_SESSION_TERMINATE : Z := 5.
Definition PCAP_SESSION_ABORT : Z := 6.
Definition PCAP_SESSION_TERMINATING : Z := 7.
Definition PCAP_SESSION_ABORTING : Z := 8.

Definition PCAP_SESSION_INVALID : Z := -1.
Definition PCAP_SESSION_UNSUPERVISED_FD : Z := 0.
Definition PCAP_SESSION_SUPERVISED_FD : Z := 1.
Definition PCAP_SESSION_UNTUNNEL_OFF : Z := 0.
Definition PCAP_SESSION_UNTUNNEL_ON : Z := 1.
Definition PCAP_SESSION_ITERATE_INFINITY : Z := -1.

(** Arithmetic on session states. *)
Ltac states_tac :=
  unfold PCAP_SESSION_UNUSED, PCAP_SESSION_STOPPED, PCAP_SESSION_START, PCAP_SESSION_STARTING,
    PCAP_SESSION_RUNNING, PCAP_SESSION_TERMINATE, PCAP_SESSION_ABORT, PCAP_SESSION_TERMINATING,
    PCAP_SESSION_ABORTING, PCAP_SESSION_SUPERVISION_TRANSITION_INTERVALS,
    PCAP_SESSION_UNSUPERVISED_FD, PCAP_SESSION_SUPERVISED_FD, PCAP_SESSION_MAX_SESSIONS in *; lia.

(** ** Sessions *)

(** The modules whose functions [runner] and [stopper] point at. *)
Inductive kind := KServer | KClientConn | KLiveCapture | KFileCapture | KMerger | KClient.

(** [struct sockaddr_in], with the port in host order. *)
Record sockaddr_in := Sockaddr { sin_family : Z; sin_addr : Z; sin_port : Z }.
Definition zero_addr : sockaddr_in := Sockaddr 0 0 0.

(** [struct pcapsession].  A pointer to a session is its position in the
    session list; pcap handles and dumpers are numbers, 0 for the null pointer;
    thread 0 is no thread. *)
Record session := Session {
  s_id : Z; s_description : string; s_state : Z; s_thread : Z; s_fd : Z; s_supervise_fd : Z;
  s_address : sockaddr_in; s_monitor : option monitor; s_pcap_handle : Z; s_pcap_dumper : Z;
  s_runner : option kind; s_stopper : option kind; s_handler : option nat;
  s_interval_counter : Z; s_untunnel : Z; s_iterations : Z }.

(** [memset(..., 0, sizeof(pcapsession_t))] *)
Definition zero_session : session :=
  Session 0 "" 0 0 0 0 zero_addr None 0 0 None None None 0 0 0.

Definition set_id v s := Session v (s_description s) (s_state s) (s_thread s) (s_fd s)
  (s_supervise_fd s) (s_address s) (s_monitor s) (s_pcap_handle s) (s_pcap_dumper s) (s_runner s)
  (s_stopper s) (s_handler s) (s_interval_counter s) (s_untunnel s) (s_iterations s).
Definition set_description v s := Session (s_id s) v (s_state s) (s_thread s) (s_fd s)
  (s_supervise_fd s) (s_address s) (s_monitor s) (s_pcap_handle s) (s_pcap_dumper s) (s_runner s)
  (s_stopper s) (s_handler s) (s_interval_counter s) (s_untunnel s) (s_iterations s).
Definition set_state v s := Session (s_id s) (s_description s) v (s_thread s) (s_fd s)
  (s_supervise_fd s) (s_address s) (s_monitor s) (s_pcap_handle s) (s_pcap_dumper s) (s_runner s)
  (s_stopper s) (s_handler s) (s_interval_counter s) (s_untunnel s) (s_iterations s).
Definition set_thread v s := Session (s_id s) (s_description s) (s_state s) v (s_fd s)
  (s_supervise_fd s) (s_address s) (s_monitor s) (s_pcap_handle s) (s_pcap_dumper s) (s_runner s)
  (s_stopper s) (s_handler s) (s_interval_counter s) (s_untunnel s) (s_iterations s).
Definition set_fd v s := Session (s_id s) (s_description s) (s_state s) (s_thread s) v
  (s_supervise_fd s) (s_address s) (s_monitor s) (s_pcap_handle s) (s_pcap_dumper s) (s_runner s)
  (s_stopper s) (s_handler s) (s_interval_counter s) (s_untunnel s) (s_iterations s).
Definition set_supervise_fd v s := Session (s_id s) (s_description s) (s_state s) (s_thread s)
  (s_fd s) v (s_address s) (s_monitor s) (s_pcap_handle s) (s_pcap_dumper s) (s_runner s)
  (s_stopper s) (s_handler s) (s_interval_counter s) (s_untunnel s) (s_iterations s).
Definition set_address v s := Session (s_id s) (s_description s) (s_state s) (s_thread s) (s_fd s)
  (s_supervise_fd s) v (s_monitor s) (s_pcap_handle s) (s_pcap_dumper s) (s_runner s)
  (s_stopper s) (s_handler s) (s_interval_counter s) (s_untunnel s) (s_iterations s).
Definition set_monitor v s := Session (s_id s) (s_description s) (s_state s) (s_thread s) (s_fd s)
  (s_supervise_fd s) (s_address s) v (s_pcap_handle s) (s_pcap_dumper s) (s_runner s)
  (s_stopper s) (s_handler s) (s_interval_counter s) (s_untunnel s) (s_iterations s).
Definition set_pcap_handle v s := Session (s_id s) (s_description s) (s_state s) (s_thread s)
  (s_fd s) (s_supervise_fd s) (s_address s) (s_monitor s) v (s_pcap_dumper s) (s_runner s)
  (s_stopper s) (s_handler s) (s_interval_counter s) (s_untunnel s) (s_iterations s).
Definition set_pcap_dumper v s := Session (s_id s) (s_description s) (s_state s) (s_thread s)
  (s_fd s) (s_supervise_fd s) (s_address s) (s_monitor s) (s_pcap_handle s) v (s_runner s)
  (s_stopper s) (s_handler s) (s_interval_counter s) (s_untunnel s) (s_iterations s).
Definition set_functions r t s := Session (s_id s) (s_description s) (s_state s) (s_thread s)
  (s_fd s) (s_supervise_fd s) (s_address s) (s_monitor s) (s_pcap_handle s) (s_pcap_dumper s)
  (Some r) (Some t) (s_handler s) (s_interval_counter s) (s_untunnel s) (s_iterations s).
Definition set_handler v s := Session (s_id s) (s_description s) (s_state s) (s_thread s) (s_fd s)
  (s_supervise_fd s) (s_address s) (s_monitor s) (s_pcap_handle s) (s_pcap_dumper s) (s_runner s)
  (s_stopper s) v (s_interval_counter s) (s_untunnel s) (s_iterations s).
Definition set_interval_counter v s := Session (s_id s) (s_description s) (s_state s) (s_thread s)
  (s_fd s) (s_supervise_fd s) (s_address s) (s_monitor s) (s_pcap_handle s) (s_pcap_dumper s)
  (s_runner s) (s_stopper s) (s_handler s) v (s_untunnel s) (s_iterations s).
Definition set_untunnel v s := Session (s_id s) (s_description s) (s_state s) (s_thread s) (s_fd s)
  (s_supervise_fd s) (s_address s) (s_monitor s) (s_pcap_handle s) (s_pcap_dumper s) (s_runner s)
  (s_stopper s) (s_handler s) (s_interval_counter s) v (s_iterations s).
Definition set_iterations v s := Session (s_id s) (s_description s) (s_state s) (s_thread s)
  (s_fd s) (s_supervise_fd s) (s_address s) (s_monitor s) (s_pcap_handle s) (s_pcap_dumper s)
  (s_runner s) (s_stopper s) (s_handler s) (s_interval_counter s) (s_untunnel s) v.

(** ** The world *)

(** Calls to the operating system and to libpcap. *)
Inductive call :=
  | Socket | Setsockopt (fd : Z) | Bind (fd port : Z) | Listen (fd : Z) | Accept (fd : Z)
  | Close (fd : Z) | FcntlGet (fd : Z) | FcntlSet (fd flags : Z)
  | Connect (fd : Z) (address : sockaddr_in) | Select (fd : Z) | Errno | Poll (fd : Z)
  | Gethostbyname (name : string) | Time
  | PthreadCreate (runner : kind) (position : nat) | CreateSupervision | JoinSupervision
  | PthreadCancel (thread : Z) | PthreadJoin (thread : Z)
  | Fdopen (fd : Z) (mode : string)
  | PcapOpenLive (device : string) | PcapOpenOffline (path : string) | PcapFopenOffline (file : Z)
  | PcapOpenDead | PcapSelectableFd (handle : Z) | PcapBreakloop (handle : Z)
  | PcapClose (handle : Z) | PcapGeterr (handle : Z)
  | PcapDumpOpen (handle : Z) (path : string) | PcapDumpFopen (handle file : Z)
  | PcapDumpFile (dumper : Z) | PcapDump (dumper : Z) (header : pcap_pkthdr) (octets : list Z)
  | PcapDumpFlush (dumper : Z) | PcapDumpClose (dumper : Z)
  | Opendir (path : string) | Readdir (directory : Z) | Closedir (directory : Z).

(** A call and its result. *)
Definition event : Type := call * Z.

(** The result of the next call, a number and for [readdir] a name, after the
    calls made so far. *)
Class Env := oracle : list event -> call -> Z * string.

(** The translation units that have a copy of [monitor_last_output_time]. *)
Inductive tu := TuSession | TuClientConn | TuLiveCapture | TuFileCapture | TuMerger | TuClient.
#[export] Instance tu_eq_dec : EqDecision tu.
Proof. solve_decision. Defined.
#[export] Instance kind_eq_dec : EqDecision kind.
Proof. solve_decision. Defined.

(** Where a session thread is: not yet run, or before one of the calls it can
    block in.  A thread that handles a packet can be before the lock of a
    [pcap_mutex]: that of a connection, found in a slot of the list of
    connections, after which it goes on to the next slots and at last to its
    [pcap_loop]; or that of a merger, whose [merge_mutex] it holds. *)
Inductive point :=
  | Spawned
  | Accepting                                  (** [accept] of a server *)
  | Connecting                                 (** [connect] of a client *)
  | Capturing                                  (** [pcap_loop] *)
  | Reading (directory file_count : Z)         (** [readdir] of a file capture *)
  | Streaming (directory file_count : Z)       (** its [pcap_loop] on a file *)
  | Locking (slot client : nat) (header : pcap_pkthdr) (data : list Z) (loop : point)
  | Merging (merger : nat) (header new_header : pcap_pkthdr) (data : list Z).

Record thread := Thread { t_session : nat; t_runner : kind; t_point : point }.

Record world := World {
  session_list : list session;
  session_handling_state : Z;
  clientconnlist : list (option nat);
  clientconnlist_initialized : bool;
  monitor_last_output_time : tu -> Z;
  threads : gmap Z thread;
  next_thread : Z;
  trace : list event }.

(** ** The monad *)

Definition M (A : Type) : Type := world -> res (A * world).

#[export] Instance M_ret : MRet M := fun A a w => Ok (a, w).
#[export] Instance M_bind : MBind M := fun A B k m w =>
  match m w with Ok (a, w) => k a w | Fault f => Fault f end.

Definition fail {A} (f : fault) : M A := fun _ => Fault f.
Definition lift {A} (r : res A) : M A := fun w =>
  match r with Ok a => Ok (a, w) | Fault f => Fault f end.
Definition gets {A} (f : world -> A) : M A := fun w => Ok (f w, w).
Definition modify (f : world -> world) : M unit := fun w => Ok (tt, f w).

Definition set_list v w := World v (session_handling_state w) (clientconnlist w)
  (clientconnlist_initialized w) (monitor_last_output_time w) (threads w) (next_thread w) (trace w).
Definition set_handling v w := World (session_list w) v (clientconnlist w)
  (clientconnlist_initialized w) (monitor_last_output_time w) (threads w) (next_thread w) (trace w).
Definition set_clientconnlist v w := World (session_list w) (session_handling_state w) v
  (clientconnlist_initialized w) (monitor_last_output_time w) (threads w) (next_thread w) (trace w).
Definition set_initialized v w := World (session_list w) (session_handling_state w)
  (clientconnlist w) v (monitor_last_output_time w) (threads w) (next_thread w) (trace w).
Definition set_last_output u v w := World (session_list w) (session_handling_state w)
  (clientconnlist w) (clientconnlist_initialized w)
  (fun x => if decide (x = u) then v else monitor_last_output_time w x) (threads w)
  (next_thread w) (trace w).
Definition set_threads v w := World (session_list w) (session_handling_state w) (clientconnlist w)
  (clientconnlist_initialized w) (monitor_last_output_time w) v (next_thread w) (trace w).
Definition set_next_thread v w := World (session_list w) (session_handling_state w)
  (clientconnlist w) (clientconnlist_initialized w) (monitor_last_output_time w) (threads w) v
  (trace w).
Definition set_trace v w := World (session_list w) (session_handling_state w) (clientconnlist w)
  (clientconnlist_initialized w) (monitor_last_output_time w) (threads w) (next_thread w) v.

(** A field of the session at position [p], and its update. *)
Definition field {A} (p : nat) (f : session -> A) : M A := fun w =>
  match session_list w !! p with Some s => Ok (f s, w) | None => Fault OutOfBounds end.
Definition update (p : nat) (f : session -> session) : M unit := fun w =>
  match session_list w !! p with
  | Some s => Ok (tt, set_list (<[p := f s]> (session_list w)) w)
  | None => Fault OutOfBounds
  end.

(** [session_list[id]] for an integer index. *)
Definition position (id : Z) : M nat := fun w =>
  if (0 <=? id) && (id <? blen (session_list w)) then Ok (Z.to_nat id, w) else Fault OutOfBounds.

(** [clientconnlist[id] = v] *)
Definition set_conn (id : Z) (v : option nat) : M unit := fun w =>
  if (0 <=? id) && (id <? blen (clientconnlist w))
  then Ok (tt, set_clientconnlist (<[Z.to_nat id := v]> (clientconnlist w)) w)
  else Fault OutOfBounds.

(** A pointer that is passed to a library, which follows it. *)
Definition pointer (value : Z) : M unit := if value =? 0 then fail NullPointer else mret tt.

(** [if (b) m] *)
Definition when (b : bool) (m : M unit) : M unit := if b then m else mret tt.

Section ext.
Context `{Env}.

Definition ext_reply (c : call) : M (Z * string) := fun w =>
  let r := oracle (trace w) c in Ok (r, set_trace (trace w ++ [(c, r.1)]) w).
Definition ext (c : call) : M Z := r ← ext_reply c; mret r.1.

(** [monitor_open] and [handle_monitor] with the clock and the copy of the last
    output time of their file. *)
Definition open_monitor (u : tu) (id : Z) (description : string) : M (option monitor) :=
  glob ← gets (fun w => monitor_last_output_time w u);
  now ← (if glob =? 0 then ext Time else mret 0);
  let '(m, glob) := monitor_open now glob id description in
  modify (set_last_output u glob);; mret (Some m).
End ext.

(** [pcapsession_change_state] of [pcapsession.c] *)
Definition pcapsession_change_state (id new_state : Z) : M unit :=
  p ← position id; update p (set_state new_state).
