(* ===== verification/Wp.v ===== *)
(** * Reasoning about the session modules

    [wp m Q w]: run in the world [w], [m] does not fault and ends in a result
    and a world that satisfy [Q].  One rule per operation of the monad, and a
    tactic that applies them in the order of the code. *)
From S2P Require Import Prelude Pcap Monitor Sys.

Definition wp {A} (m : M A) (Q : A -> world -> Prop) (w : world) : Prop :=
  match m w with Ok (a, w') => Q a w' | Fault _ => False end.

Section rules.
Implicit Types (w : world) (p : nat) (s : session).

Lemma wp_run {A} (m : M A) Q w : wp m Q w <-> exists a w', m w = Ok (a, w') /\ Q a w'.
Proof.
  unfold wp. destruct (m w) as [[a w']|f].
  - split; [by eauto|]. by intros (? & ? & [= <- <-] & ?).
  - split; [done|]. by intros (? & ? & ? & _).
Qed.

Lemma wp_mono {A} (m : M A) (Q Q' : A -> world -> Prop) w :
  wp m Q w -> (forall a w', Q a w' -> Q' a w') -> wp m Q' w.
Proof. unfold wp. destruct (m w) as [[a w']|f]; auto. Qed.

Lemma wp_conj {A} (m : M A) (Q Q' : A -> world -> Prop) w :
  wp m Q w -> wp m Q' w -> wp m (fun a w' => Q a w' /\ Q' a w') w.
Proof. unfold wp. destruct (m w) as [[a w']|f]; auto. Qed.

Lemma wp_ret {A} (a : A) Q w : Q a w -> wp (mret a) Q w.
Proof. done. Qed.

Lemma wp_bind {A B} (m : M A) (k : A -> M B) Q w :
  wp m (fun a w' => wp (k a) Q w') w -> wp (m ≫= k) Q w.
Proof. unfold wp, mbind, M_bind. by destruct (m w) as [[a w']|f]. Qed.

Lemma wp_gets {A} (f : world -> A) Q w : Q (f w) w -> wp (gets f) Q w.
Proof. done. Qed.

Lemma wp_modify (f : world -> world) Q w : Q tt (f w) -> wp (modify f) Q w.
Proof. done. Qed.

Lemma wp_lift {A} (r : res A) (a : A) Q w : r = Ok a -> Q a w -> wp (lift r) Q w.
Proof. intros ->. done. Qed.

Lemma wp_field {A} p (f : session -> A) s Q w :
  session_list w !! p = Some s -> Q (f s) w -> wp (field p f) Q w.
Proof. intros Hs HQ. unfold wp, field. by rewrite Hs. Qed.

Lemma wp_update p f s Q w :
  session_list w !! p = Some s ->
  Q tt (set_list (<[p := f s]> (session_list w)) w) -> wp (update p f) Q w.
Proof. intros Hs HQ. unfold wp, update. by rewrite Hs. Qed.

Lemma wp_position p s Q w : session_list w !! p = Some s -> Q p w ->
  wp (position (Z.of_nat p)) Q w.
Proof.
  intros Hs HQ. apply lookup_lt_Some in Hs. unfold wp, position, blen.
  rewrite (proj2 (Z.leb_le _ _)), (proj2 (Z.ltb_lt _ _)) by lia. by rewrite Nat2Z.id.
Qed.

Lemma wp_change_state p new s Q w : session_list w !! p = Some s ->
  Q tt (set_list (<[p := set_state new s]> (session_list w)) w) ->
  wp (pcapsession_change_state (Z.of_nat p) new) Q w.
Proof.
  intros Hs HQ. apply wp_bind, (wp_position p s); [done|]. by apply (wp_update p _ s).
Qed.

Lemma wp_set_conn p v Q w : (p < length (clientconnlist w))%nat ->
  Q tt (set_clientconnlist (<[p := v]> (clientconnlist w)) w) -> wp (set_conn (Z.of_nat p) v) Q w.
Proof.
  intros Hp HQ. unfold wp, set_conn, blen.
  rewrite (proj2 (Z.leb_le _ _)), (proj2 (Z.ltb_lt _ _)) by lia. by rewrite Nat2Z.id.
Qed.

Lemma wp_when (b : bool) (m : M unit) Q w :
  (b = true -> wp m Q w) -> (b = false -> Q tt w) -> wp (when b m) Q w.
Proof. destruct b; cbn; auto. Qed.

Lemma wp_pointer v Q w : v <> 0 -> Q tt w -> wp (pointer v) Q w.
Proof. intros Hv HQ. unfold pointer. by rewrite (proj2 (Z.eqb_neq _ _) Hv). Qed.

Lemma wp_if {A} (b : bool) (m1 m2 : M A) Q w :
  (b = true -> wp m1 Q w) -> (b = false -> wp m2 Q w) -> wp (if b then m1 else m2) Q w.
Proof. destruct b; auto. Qed.
End rules.

Section ext_rules.
Context `{Env}.

(** The result of a call in the world [w]. *)
Definition answer (w : world) (c : call) : Z := (oracle (trace w) c).1.

Lemma wp_ext c Q w :
  Q (answer w c) (set_trace (trace w ++ [(c, answer w c)]) w) -> wp (ext c) Q w.
Proof. done. Qed.

(** Whatever the result is. *)
Lemma wp_ext_any c Q w :
  (forall r, Q r (set_trace (trace w ++ [(c, r)]) w)) -> wp (ext c) Q w.
Proof. intros HQ. apply wp_ext, HQ. Qed.

Lemma wp_ext_reply c Q w :
  Q (oracle (trace w) c) (set_trace (trace w ++ [(c, answer w c)]) w) -> wp (ext_reply c) Q w.
Proof. done. Qed.

(** Opening a monitor touches the clock and its file's last output time. *)
Lemma wp_open_monitor u id description (Q : option monitor -> world -> Prop) w :
  (forall m glob tr, tr = trace w \/ (exists r, tr = trace w ++ [(Time, r)]) ->
     Q (Some m) (set_last_output u glob (set_trace tr w))) ->
  wp (open_monitor u id description) Q w.
Proof.
  intros HQ. apply wp_bind, wp_gets, wp_bind.
  assert (Hw : w = set_trace (trace w) w) by (by destruct w).
  destruct (monitor_last_output_time w u =? 0).
  - apply wp_ext. destruct (monitor_open _ _ _ _) as [m glob]. apply wp_bind, wp_modify, wp_ret.
    apply HQ. right. by eexists.
  - apply wp_ret. destruct (monitor_open _ _ _ _) as [m glob]. apply wp_bind, wp_modify, wp_ret.
    rewrite Hw. apply HQ. by left.
Qed.
End ext_rules.

(** A clock that is not set back. *)
Class Clock `{Env} := {
  clock_range tr : 0 <= (oracle tr Time).1 < 2 ^ 31;
  clock_mono tr tr' : tr `prefix_of` tr' -> (oracle tr Time).1 <= (oracle tr' Time).1 }.

(** ** Local reasoning

    Most of a module's code works on one session.  [only_session T p w w' s']
    says what has changed between [w] and [w']: the session at [p] is now [s'],
    the other sessions and the state of session handling are as they were, time
    went on, and the threads changed as [T] allows. *)

Class Frame (T : world -> world -> Prop) := {
  frame_same w w' : threads w' = threads w -> next_thread w' = next_thread w ->
    monitor_last_output_time w' = monitor_last_output_time w ->
    trace w `prefix_of` trace w' -> T w w';
  frame_trans w1 w2 w3 : T w1 w2 -> T w2 w3 -> T w1 w3 }.

(** No thread is started or stopped; threads may be, with new identifiers.  In
    both cases the last output times stay. *)
Definition same_threads (w w' : world) : Prop :=
  threads w' = threads w /\ next_thread w' = next_thread w /\
  monitor_last_output_time w' = monitor_last_output_time w.
Definition any_threads (w w' : world) : Prop :=
  next_thread w <= next_thread w' /\ monitor_last_output_time w' = monitor_last_output_time w.

(** As the first, but monitors may be opened. *)
Definition run_threads (w w' : world) : Prop :=
  threads w' = threads w /\ next_thread w' = next_thread w /\
  monitor_last_output_time w' TuSession = monitor_last_output_time w TuSession.

#[export] Instance same_threads_frame : Frame same_threads.
Proof. split; [done|]. intros w1 w2 w3 (H1 & H2 & H3) (H4 & H5 & H6). repeat split; congruence. Qed.
#[export] Instance any_threads_frame : Frame any_threads.
Proof. split; unfold any_threads; intros; split; intuition (congruence || lia). Qed.

#[export] Instance run_threads_frame : Frame run_threads.
Proof.
  split; [intros w w' ? ? Hg _; split; [done|split; [done|by rewrite Hg]]|]. intros w1 w2 w3 (H1 & H2 & H3) (H4 & H5 & H6).
  repeat split; congruence.
Qed.

Record only_session (T : world -> world -> Prop) (p : nat) (w w' : world) (s' : session) : Prop := {
  os_list : session_list w' = <[p := s']> (session_list w);
  os_handling : session_handling_state w' = session_handling_state w;
  os_conns : length (clientconnlist w') = length (clientconnlist w);
  os_trace : trace w `prefix_of` trace w';
  os_frame : T w w' }.

Lemma list_insert_insert_eq {A} (l : list A) i x y : <[i := x]> (<[i := y]> l) = <[i := x]> l.
Proof. revert i. induction l as [|z l IH]; intros [|i]; [done..|]. cbn. by rewrite IH. Qed.

Section local.
Context `{Env} (T : world -> world -> Prop) `{Frame T} (p : nat).
Implicit Types (w : world) (s : session).

Lemma only_session_lookup w w' s s' : session_list w !! p = Some s -> only_session T p w w' s' ->
  session_list w' !! p = Some s'.
Proof.
  intros Hs Ho. rewrite (os_list _ _ _ _ _ Ho). apply list_lookup_insert_eq.
  by apply lookup_lt_Some in Hs.
Qed.

Lemma only_session_other q w w' s' : p <> q -> only_session T p w w' s' ->
  session_list w' !! q = session_list w !! q.
Proof. intros Hn Ho. rewrite (os_list _ _ _ _ _ Ho). by apply list_lookup_insert_ne. Qed.

Lemma only_session_length w w' s' : only_session T p w w' s' ->
  length (session_list w') = length (session_list w).
Proof. intros Ho. rewrite (os_list _ _ _ _ _ Ho). apply length_insert. Qed.

Lemma only_session_refl w s : session_list w !! p = Some s -> only_session T p w w s.
Proof.
  intros Hs. split; [|done..|by apply frame_same]. symmetry. by apply list_insert_id.
Qed.

Lemma only_session_trans w w1 w2 s1 s2 :
  only_session T p w w1 s1 -> only_session T p w1 w2 s2 -> only_session T p w w2 s2.
Proof.
  intros [] []. split; [|congruence..|by etrans|by eapply frame_trans].
  rewrite os_list1, os_list0. apply list_insert_insert_eq.
Qed.

(** [local m s Q]: on the session [s] at [p], [m] does not fault, works on that
    session alone, and ends in a result and a session that satisfy [Q]. *)
Definition local {A} (m : M A) (s : session) (Q : A -> session -> Prop) : Prop :=
  forall w, session_list w !! p = Some s -> length (clientconnlist w) = 128%nat ->
    wp m (fun a w' => exists s', only_session T p w w' s' /\ Q a s') w.

Lemma local_mono {A} (m : M A) s (Q Q' : A -> session -> Prop) :
  local m s Q -> (forall a s', Q a s' -> Q' a s') -> local m s Q'.
Proof.
  intros Hm HQ w Hs Hc. eapply wp_mono; [by apply Hm|]. intros a w' (s' & ? & ?). eauto.
Qed.

Lemma local_ret {A} (a : A) s (Q : A -> session -> Prop) : Q a s -> local (mret a) s Q.
Proof. intros HQ w Hs Hc. apply wp_ret. exists s. split; [by apply only_session_refl|done]. Qed.

Lemma local_bind {A B} (m : M A) (k : A -> M B) s Q :
  local m s (fun a s1 => local (k a) s1 Q) -> local (m ≫= k) s Q.
Proof.
  intros Hm w Hs Hc. apply wp_bind. eapply wp_mono; [by apply Hm|].
  intros a w1 (s1 & Ho & Hk). pose proof (only_session_lookup _ _ _ _ Hs Ho) as Hs1.
  eapply wp_mono; [apply (Hk w1 Hs1); by rewrite (os_conns _ _ _ _ _ Ho)|].
  intros b w2 (s2 & Ho2 & HQ). exists s2. split; [by eapply only_session_trans|done].
Qed.

Lemma local_field {A} (f : session -> A) s Q : Q (f s) s -> local (field p f) s Q.
Proof.
  intros HQ w Hs Hc. apply (wp_field _ _ s); [done|]. exists s.
  split; [by apply only_session_refl|done].
Qed.

Lemma only_session_update w s : only_session T p w (set_list (<[p := s]> (session_list w)) w) s.
Proof. split; [done..|by apply frame_same]. Qed.

Lemma local_update (f : session -> session) s (Q : unit -> session -> Prop) :
  Q tt (f s) -> local (update p f) s Q.
Proof.
  intros HQ w Hs Hc. apply (wp_update _ _ s); [done|]. exists (f s).
  split; [apply only_session_update|done].
Qed.

Lemma local_position s (Q : nat -> session -> Prop) : Q p s -> local (position (Z.of_nat p)) s Q.
Proof.
  intros HQ w Hs Hc. apply (wp_position _ s); [done|]. exists s.
  split; [by apply only_session_refl|done].
Qed.

Lemma local_change_state n s (Q : unit -> session -> Prop) : Q tt (set_state n s) ->
  local (pcapsession_change_state (Z.of_nat p) n) s Q.
Proof. intros HQ. by apply local_bind, local_position, local_update. Qed.

Lemma only_session_same w w' s : session_list w !! p = Some s ->
  session_list w' = session_list w -> session_handling_state w' = session_handling_state w ->
  length (clientconnlist w') = length (clientconnlist w) ->
  trace w `prefix_of` trace w' -> T w w' -> only_session T p w w' s.
Proof. intros Hs Hl ? ? ? ?. split; [|done..]. rewrite Hl. symmetry. by apply list_insert_id. Qed.

Lemma local_ext c s (Q : Z -> session -> Prop) : (forall r, Q r s) -> local (ext c) s Q.
Proof.
  intros HQ w Hs Hc. apply wp_ext. exists s. split; [|done].
  apply only_session_same; try done; [by eexists|apply frame_same; by eexists].
Qed.

(** The same when the proof needs what the environment answers. *)
Lemma local_answer c s (Q : Z -> session -> Prop) :
  (forall w, Q (answer w c) s) -> local (ext c) s Q.
Proof.
  intros HQ w Hs Hc. apply wp_ext. exists s. split; [|done].
  apply only_session_same; try done; [by eexists|apply frame_same; by eexists].
Qed.

Lemma local_set_conn v s (Q : unit -> session -> Prop) : (p < 128)%nat -> Q tt s ->
  local (set_conn (Z.of_nat p) v) s Q.
Proof.
  intros Hp HQ w Hs Hc. unfold wp, set_conn, blen.
  rewrite (proj2 (Z.leb_le _ _)), (proj2 (Z.ltb_lt _ _)) by lia. exists s. split; [|done].
  apply only_session_same; try done; [cbn; apply length_insert|by apply frame_same].
Qed.

Lemma local_when (b : bool) (m : M unit) s (Q : unit -> session -> Prop) :
  (b = true -> local m s Q) -> (b = false -> Q tt s) -> local (when b m) s Q.
Proof. destruct b; [auto|]. intros _ HQ. by apply local_ret, HQ. Qed.

Lemma local_if {A} (b : bool) (m1 m2 : M A) s Q :
  (b = true -> local m1 s Q) -> (b = false -> local m2 s Q) -> local (if b then m1 else m2) s Q.
Proof. destruct b; auto. Qed.

End local.

Lemma local_open_monitor `{Env} p u id description s (Q : option monitor -> session -> Prop) :
  u <> TuSession -> (forall m, Q (Some m) s) ->
  local run_threads p (open_monitor u id description) s Q.
Proof.
  intros Hu HQ w Hs Hc. apply wp_bind, wp_gets, wp_bind.
  destruct (monitor_last_output_time w u =? 0); [apply wp_ext|apply wp_ret];
    destruct (monitor_open _ _ _ _) as [m glob]; apply wp_bind, wp_modify, wp_ret;
    exists s; (split; [|done]); apply only_session_same; try done; try (by eexists);
    (split; [done|]); (split; [done|]); cbn; by case_decide.
Qed.

(** A coarser frame. *)
Lemma local_weaken {A} (T T' : world -> world -> Prop) p (m : M A) s Q :
  (forall w w', trace w `prefix_of` trace w' -> T w w' -> T' w w') ->
  local T p m s Q -> local T' p m s Q.
Proof.
  intros HT Hm w Hs Hc. eapply wp_mono; [by apply Hm|]. intros a w' (s' & [] & HQ).
  exists s'. split; [|done]. split; auto.
Qed.

(** One rule, for the first operation of code that works on one session. *)
Ltac local_step :=
  match goal with
  | |- local _ _ (mret _) _ _ => apply local_ret; [apply _|]
  | |- local _ _ (mbind _ _) _ _ => apply local_bind; [apply _|]
  | |- local _ _ (field _ _) _ _ => apply local_field; [apply _|]
  | |- local _ _ (update _ _) _ _ => apply local_update; [apply _|]
  | |- local _ _ (ext _) _ _ => apply local_ext; [apply _|]; intros
  | |- local _ _ (open_monitor _ _ _) _ _ => apply local_open_monitor; [discriminate|]; intros
  | |- local _ _ (when _ _) _ _ => apply local_when; [apply _| |]; intros
  | |- local _ _ (if _ then _ else _) _ _ => apply local_if; intros
  | |- local _ ?p (pcapsession_change_state ?i _) _ _ =>
      first [replace i with (Z.of_nat p) by (cbn; congruence)|idtac];
      apply local_change_state; [apply _|]
  | |- local _ ?p (position ?i) _ _ =>
      first [replace i with (Z.of_nat p) by (cbn; congruence)|idtac];
      apply local_position; [apply _|]
  end; cbn [mbind mret].

(** One rule of the logic, for the first operation of the code. *)
Ltac wp_lookup :=
  cbn; rewrite ?list_lookup_insert_eq by (rewrite ?length_insert; eassumption);
  first [reflexivity | eassumption].
Ltac wp_step :=
  match goal with
  | |- wp (mret _) _ _ => apply wp_ret
  | |- wp (mbind _ _) _ _ => apply wp_bind
  | |- wp (gets _) _ _ => apply wp_gets
  | |- wp (modify _) _ _ => apply wp_modify
  | |- wp (field _ _) _ _ => eapply wp_field; [wp_lookup|]
  | |- wp (update _ _) _ _ => eapply wp_update; [wp_lookup|]
  | |- wp (ext _) _ _ => apply wp_ext_any; intros
  | |- wp (open_monitor _ _ _) _ _ => apply wp_open_monitor; intros
  | |- wp (when _ _) _ _ => apply wp_when; intros
  | |- wp (pointer _) _ _ => apply wp_pointer; [try done; try lia|]
  | |- wp (if _ then _ else _) _ _ => apply wp_if; intros
  end.
