(* ===== verification/Locks.v ===== *)
(** * Threads at the granularity of mutexes

    The steps of [System] are whole packet handlers and whole visits.  Here code
    is cut finer: a thread's code is a sequence of accesses to the session table,
    calls, and operations on mutexes ([prog]); the threads interleave between any
    two of them, a cancelled thread may end at a call that is a cancellation
    point, and then keeps the mutexes it holds. *)
From stdpp Require Import relations well_founded.
From S2P Require Import Prelude Pcap Monitor Sys Wp.

(** The mutexes of [pcapsession_merger.c], of a session, of [pcapsession.c]. *)
Inductive mutex := MergeMutex | PcapMutex (p : nat) | StateMutex.

#[export] Instance mutex_eq_dec : EqDecision mutex.
Proof. solve_decision. Defined.
#[export] Instance mutex_countable : Countable mutex.
Proof.
  refine (inj_countable'
    (fun mu => match mu with MergeMutex => inl true | StateMutex => inl false | PcapMutex p => inr p end)
    (fun x => match x with inl b => if (b : bool) then MergeMutex else StateMutex | inr p => PcapMutex p end) _).
  by intros [].
Defined.

(** ** Code *)

Inductive prog (A : Type) : Type :=
  | Ret (a : A)
  | Act {X : Type} (m : M X) (k : X -> prog A)       (** access to the shared world *)
  | Call (c : call) (k : Z -> prog A)
  | Lock (mu : mutex) (k : prog A)                   (** [pthread_mutex_lock] *)
  | Unlock (mu : mutex) (k : prog A)                 (** [pthread_mutex_unlock] *)
  | Await (k : prog A)                               (** waits for a packet in [pcap_loop] *)
  | Cancel (t : Z) (k : prog A)                      (** [pthread_cancel] *)
  | Join (t : Z) (k : prog A).                       (** [pthread_join] *)
Arguments Ret {A} a.
Arguments Act {A X} m k.
Arguments Call {A} c k.
Arguments Lock {A} mu k.
Arguments Unlock {A} mu k.
Arguments Await {A} k.
Arguments Cancel {A} t k.
Arguments Join {A} t k.

Fixpoint prog_bind {A B} (f : A -> prog B) (c : prog A) : prog B :=
  match c with
  | Ret a => f a
  | Act m k => Act m (fun x => prog_bind f (k x))
  | Call c k => Call c (fun r => prog_bind f (k r))
  | Lock mu k => Lock mu (prog_bind f k)
  | Unlock mu k => Unlock mu (prog_bind f k)
  | Await k => Await (prog_bind f k)
  | Cancel t k => Cancel t (prog_bind f k)
  | Join t k => Join t (prog_bind f k)
  end.

#[export] Instance prog_ret : MRet prog := @Ret.
#[export] Instance prog_mbind : MBind prog := @prog_bind.

Definition act {X} (m : M X) : prog X := Act m Ret.
Definition pthread_mutex_lock (mu : mutex) : prog unit := Lock mu (Ret tt).
Definition pthread_mutex_unlock (mu : mutex) : prog unit := Unlock mu (Ret tt).
Definition syscall (c : call) : prog Z := Call c Ret.
Definition pthread_cancel (t : Z) : prog unit := Cancel t (Ret tt).
Definition pthread_join (t : Z) : prog unit := Join t (Ret tt).
Definition pwhen (b : bool) (c : prog unit) : prog unit := if b then c else Ret tt.

(** ** Threads *)

Record config := Config {
  cf_world : world;
  cf_locks : gmap mutex Z;              (** the thread that holds a mutex *)
  cf_pool : gmap Z (prog unit);         (** the code each thread has left *)
  cf_cancelled : gset Z }.

Section semantics.
Context `{Env}.

(** The code run without other threads; locks are then of no effect. *)
Fixpoint atomically {A} (c : prog A) : M A :=
  match c with
  | Ret a => mret a
  | Act m k => x ← m; atomically (k x)
  | Call c k => r ← ext c; atomically (k r)
  | Lock _ k | Unlock _ k | Await k => atomically k
  | Cancel t k => ext (PthreadCancel t);; atomically k
  | Join t k => ext (PthreadJoin t);; atomically k
  end.

(** Calls at which a cancelled thread may end; POSIX leaves it to the C library
    for most of them, output to a stream among them. *)
Context (cancellation_point : call -> bool).

Definition interruptible {A} (c : prog A) : bool :=
  match c with
  | Call c _ => cancellation_point c
  | Await _ | Join _ _ => true
  | _ => false
  end.

Definition ended (P : gmap Z (prog unit)) (t : Z) : Prop := P !! t = None \/ P !! t = Some (Ret tt).

Inductive fstep : config -> config -> Prop :=
  | fs_act w L P D t X (m : M X) k x w' : P !! t = Some (Act m k) -> m w = Ok (x, w') ->
      fstep (Config w L P D) (Config w' L (<[t := k x]> P) D)
  | fs_call w L P D t c k r w' : P !! t = Some (Call c k) -> ext c w = Ok (r, w') ->
      fstep (Config w L P D) (Config w' L (<[t := k r]> P) D)
  | fs_lock w L P D t mu k : P !! t = Some (Lock mu k) -> L !! mu = None ->
      fstep (Config w L P D) (Config w (<[mu := t]> L) (<[t := k]> P) D)
  | fs_unlock w L P D t mu k : P !! t = Some (Unlock mu k) -> L !! mu = Some t ->
      fstep (Config w L P D) (Config w (delete mu L) (<[t := k]> P) D)
  | fs_await w L P D t k : P !! t = Some (Await k) ->
      fstep (Config w L P D) (Config w L (<[t := k]> P) D)
  | fs_cancel w L P D t t' k r w' : P !! t = Some (Cancel t' k) ->
      ext (PthreadCancel t') w = Ok (r, w') ->
      fstep (Config w L P D) (Config w' L (<[t := k]> P) ({[t']} ∪ D))
  | fs_join w L P D t t' k r w' : P !! t = Some (Join t' k) -> ended P t' ->
      ext (PthreadJoin t') w = Ok (r, w') ->
      fstep (Config w L P D) (Config w' L (<[t := k]> P) D)
  | fs_end w L P D t c : P !! t = Some c -> t ∈ D -> interruptible c = true ->
      fstep (Config w L P D) (Config w L (delete t P) D).

(** A step of the thread [t], or its end, as a function. *)
Definition turn (t : Z) (ends : bool) (cf : config) : option config :=
  let '(Config w L P D) := cf in
  c ← P !! t;
  if ends then
    if bool_decide (t ∈ D) && interruptible c then Some (Config w L (delete t P) D) else None
  else
  match c with
  | Ret _ => None
  | Act m k =>
      match m w with Ok (x, w') => Some (Config w' L (<[t := k x]> P) D) | Fault _ => None end
  | Call c k =>
      match ext c w with Ok (r, w') => Some (Config w' L (<[t := k r]> P) D) | Fault _ => None end
  | Lock mu k =>
      match L !! mu with None => Some (Config w (<[mu := t]> L) (<[t := k]> P) D) | Some _ => None end
  | Unlock mu k =>
      if bool_decide (L !! mu = Some t) then Some (Config w (delete mu L) (<[t := k]> P) D) else None
  | Await k => Some (Config w L (<[t := k]> P) D)
  | Cancel t' k =>
      match ext (PthreadCancel t') w with
      | Ok (_, w') => Some (Config w' L (<[t := k]> P) ({[t']} ∪ D)) | Fault _ => None end
  | Join t' k =>
      if match P !! t' with None | Some (Ret _) => true | _ => false end then
        match ext (PthreadJoin t') w with
        | Ok (_, w') => Some (Config w' L (<[t := k]> P) D) | Fault _ => None end
      else None
  end.

Fixpoint turns (l : list (Z * bool)) (cf : config) : option config :=
  match l with
  | [] => Some cf
  | (t, ends) :: l => cf ← turn t ends cf; turns l cf
  end.

Lemma turn_fstep t ends cf cf' : turn t ends cf = Some cf' -> fstep cf cf'.
Proof.
  destruct cf as [w L P D]. unfold turn. destruct (P !! t) as [c|] eqn:Ht; [|done]. cbn.
  destruct ends.
  - destruct (bool_decide_reflect (t ∈ D)), (interruptible c) eqn:Hi; try done. intros [= <-].
    by eapply fs_end.
  - destruct c; try done.
    + destruct (m w) as [[x w']|] eqn:Hm; [|done]. intros [= <-]. by eapply fs_act.
    + destruct (ext c w) as [[r w']|] eqn:Hm; [|done]. intros [= <-]. by eapply fs_call.
    + destruct (L !! mu) eqn:Hm; [done|]. intros [= <-]. by eapply fs_lock.
    + case_bool_decide; [|done]. intros [= <-]. by eapply fs_unlock.
    + intros [= <-]. by eapply fs_await.
    + destruct (ext _ w) as [[r w']|] eqn:Hm; [|done]. intros [= <-]. by eapply fs_cancel.
    + destruct (P !! t0) as [[[]|?|?|?|?|?|?|?]|] eqn:Hj; try done;
        (destruct (ext _ w) as [[r w']|] eqn:Hm; [|done]); intros [= <-];
        (eapply fs_join; [done|by (left + right)|done]).
Qed.

Lemma turns_fsteps l cf cf' : turns l cf = Some cf' -> rtc fstep cf cf'.
Proof.
  revert cf. induction l as [|[t ends] l IH]; intros cf; cbn; [by intros [= <-]|].
  destruct (turn t ends cf) as [cf1|] eqn:Ht; [|done]. cbn. intros Hl.
  eapply rtc_l; [by eapply turn_fstep|by apply IH].
Qed.

(** Each of the threads in turn, where it can go on. *)
Definition round (ts : list Z) (cf : config) : config :=
  foldl (fun cf t => default cf (turn t false cf)) cf ts.

Lemma round_fsteps ts cf : rtc fstep cf (round ts cf).
Proof.
  revert cf. induction ts as [|t ts IH]; intros cf; [apply rtc_refl|]. cbn.
  destruct (turn t false cf) as [cf1|] eqn:Ht; cbn; [|apply IH].
  eapply rtc_l; [by eapply turn_fstep|apply IH].
Qed.

Lemma rounds_fsteps n ts cf : rtc fstep cf (Nat.iter n (round ts) cf).
Proof. induction n as [|n IH]; [apply rtc_refl|]. cbn. etrans; [exact IH|apply round_fsteps]. Qed.
End semantics.

(** ** Termination

    Code is finite: a step leaves a thread with a part of its code. *)

Definition part {A} (c' c : prog A) : Prop :=
  match c with
  | Ret _ => False
  | Act _ k => exists x, c' = k x
  | Call _ k => exists r, c' = k r
  | Lock _ k | Unlock _ k | Await k | Cancel _ k | Join _ k => c' = k
  end.

Lemma part_wf {A} (c : prog A) : Acc part c.
Proof. induction c; constructor; intros c' Hc; cbn in Hc; by destruct_and?; naive_solver. Qed.

Definition pool_part (P' P : gmap Z (prog unit)) : Prop := exists t c, P !! t = Some c /\
  (P' = delete t P \/ exists c', part c' c /\ P' = <[t := c']> P).

Lemma pool_part_insert i (m : gmap Z (prog unit)) c : Acc pool_part m -> m !! i = None ->
  Acc part c -> Acc pool_part (<[i := c]> m).
Proof.
  intros Hm. revert c. induction Hm as [m Hm IHm]. intros c Hi Hc.
  induction Hc as [c Hc IHc]. constructor. intros P' (t & c0 & Ht & HP').
  destruct (decide (t = i)) as [->|Hne].
  - rewrite lookup_insert_eq in Ht. injection Ht as <-. destruct HP' as [->|(c' & Hp & ->)].
    + rewrite delete_insert_id by done. by constructor.
    + rewrite insert_insert_eq. by apply IHc.
  - rewrite lookup_insert_ne in Ht by done. destruct HP' as [->|(c' & Hp & ->)].
    + rewrite delete_insert_ne by done. apply IHm; [by exists t, c0; auto|..|apply part_wf].
      by rewrite lookup_delete_ne.
    + rewrite insert_insert_ne by done. apply IHm; [|..|apply part_wf].
      * exists t, c0. split; [done|]. right. by exists c'.
      * by rewrite lookup_insert_ne.
Qed.

Lemma pool_part_wf P : Acc pool_part P.
Proof.
  induction P as [|i c P Hi IH] using map_ind.
  - constructor. intros P' (t & c & Ht & _). by rewrite lookup_empty in Ht.
  - by apply pool_part_insert, part_wf.
Qed.

Section termination.
Context `{Env} (cancellation_point : call -> bool).

Lemma fstep_part cf cf' : fstep cancellation_point cf cf' -> pool_part (cf_pool cf') (cf_pool cf).
Proof.
  intros Hs. inversion Hs; subst; cbn; eexists _, _; (split; [done|]);
    first [by left | right; eexists; split; [|done]; first [done | by eexists]].
Qed.

(** There is no infinite run, from any state. *)
Lemma fstep_terminates cf : Acc (flip (fstep cancellation_point)) cf.
Proof.
  remember (cf_pool cf) as P eqn:HP. revert cf HP.
  induction (pool_part_wf P) as [P _ IH]. intros cf ->. constructor. intros cf' Hs.
  by eapply IH; [apply fstep_part|].
Qed.

End termination.

(** ** A mutex whose holder ended *)

Section abandoned.
Context `{Henv : Env} (cancellation_point : call -> bool).
Local Abbreviation fstep := (fstep cancellation_point).

Definition abandoned (mu : mutex) (t : Z) (cf : config) : Prop :=
  cf_locks cf !! mu = Some t /\ cf_pool cf !! t = None.

Lemma abandoned_step mu t cf cf' : abandoned mu t cf -> fstep cf cf' -> abandoned mu t cf'.
Proof.
  intros [Hl Hp] Hs. unfold abandoned. destruct Hs as [| |? ? ? ? u mu' ? Hu HL|? ? ? ? u mu' ? Hu HL| | | |? ? ? ? u]; cbn in *;
    rewrite ?lookup_insert_ne by congruence; try done.
  - rewrite lookup_delete_ne by congruence. done.
  - destruct (decide (u = t)) as [->|]; [by rewrite lookup_delete_eq|]. by rewrite lookup_delete_ne.
Qed.

Lemma abandoned_steps mu t cf cf' : abandoned mu t cf -> rtc fstep cf cf' -> abandoned mu t cf'.
Proof. intros Ha Hs. induction Hs; [done|]. eauto using abandoned_step. Qed.

(** A thread that waits for such a mutex waits for ever. *)
Lemma waits_step mu t u k cf cf' : abandoned mu t cf -> cf_pool cf !! u = Some (Lock mu k) ->
  fstep cf cf' -> cf_pool cf' !! u = Some (Lock mu k).
Proof.
  intros [Hl Hp] Hu Hs. destruct Hs as [? ? ? ? v|? ? ? ? v|? ? ? ? v|? ? ? ? v|? ? ? ? v|? ? ? ? v|? ? ? ? v|? ? ? ? v];
    cbn in *; (destruct (decide (u = v)) as [->|]; [naive_solver|]);
    by rewrite ?lookup_insert_ne, ?lookup_delete_ne by done.
Qed.

Lemma waits_steps mu t u k cf cf' : abandoned mu t cf -> cf_pool cf !! u = Some (Lock mu k) ->
  rtc fstep cf cf' -> cf_pool cf' !! u = Some (Lock mu k).
Proof. intros Ha Hu Hs. induction Hs; [done|]. eauto using abandoned_step, waits_step. Qed.

(** And so does the thread that joins it, unless it is cancelled. *)
Lemma joins_step mu u k v k' cf cf' : cf_pool cf !! u = Some (Lock mu k) ->
  cf_pool cf !! v = Some (Join u k') -> v ∉ cf_cancelled cf ->
  fstep cf cf' -> cf_pool cf' !! v = Some (Join u k').
Proof.
  intros Hu Hv HD Hs.
  destruct Hs as [? ? ? ? x|? ? ? ? x|? ? ? ? x|? ? ? ? x|? ? ? ? x|? ? ? ? x|? ? P ? x ? ? ? ? Hx He|? ? ? ? x];
    cbn in *; (destruct (decide (v = x)) as [->|]; [|by rewrite ?lookup_insert_ne, ?lookup_delete_ne by done]);
    try naive_solver.
  rewrite Hv in Hx. injection Hx as <- <-. unfold ended in He. naive_solver.
Qed.
End abandoned.
