(* ===== verification/Discipline.v ===== *)
(** * A logic for threads with mutexes

    A program logic for the code of [Locks].  Its conditions are checked thread by
    thread: an invariant of the shared world, the mutexes that guard a call, a
    ranking of the mutexes, and the tokens of the visible calls a thread will
    make ([gwp]).  They give, for all interleavings, mutual exclusion, that the
    visible calls are an interleaving of the threads' own, that no thread faults,
    and that threads which rank their mutexes do not block each other for ever. *)
From stdpp Require Import relations well_founded.
From S2P Require Import Prelude Pcap Monitor Sys Wp Locks.

(** ** The logic *)

(** What threads agree on: the invariant of the world, what is visible of a call,
    the visible part of a token, the mutexes that guard a call, the order in
    which mutexes are taken, and the threads that cancel and join others. *)
Record discipline (V T : Type) := Discipline {
  d_inv : world -> Prop;
  d_view : call -> option V;
  d_emits : T -> V;
  d_guards : call -> gset mutex;
  d_rank : mutex -> nat;
  d_supervises : Z -> bool }.
Arguments Discipline {V T}.
Arguments d_inv {V T}.
Arguments d_view {V T}.
Arguments d_emits {V T}.
Arguments d_guards {V T}.
Arguments d_rank {V T}.
Arguments d_supervises {V T}.

Class Lawful `{Env} {V T} (R : discipline V T) := {
  law_trace w c : d_inv R w -> d_inv R (set_trace (trace w ++ [(c, answer w c)]) w);
  law_cancel t : d_view R (PthreadCancel t) = None;
  law_join t : d_view R (PthreadJoin t) = None;
  law_rank : exists n, forall mu, (d_rank R mu < n)%nat }.

Section logic.
Context `{Henv : Env} {V T : Type} (R : discipline V T).

Definition seen (w : world) : list V := omap (fun e => d_view R e.1) (trace w).

Lemma seen_call w c r : seen (set_trace (trace w ++ [(c, r)]) w) = seen w ++ option_list (d_view R c).
Proof. unfold seen. cbn. rewrite omap_app. cbn. by destruct (d_view R c). Qed.

(** The code [c] of the thread [self], holding the mutexes [held] and with the
    tokens [todo] still to come, keeps to the discipline and ends as [Q] says. *)
Fixpoint gwp {A} (self : Z) (c : prog A) (Q : gset mutex -> list T -> A -> Prop)
    (held : gset mutex) (todo : list T) : Prop :=
  match c with
  | Ret a => Q held todo a
  | Act m k => forall w, d_inv R w ->
      wp m (fun x w' => d_inv R w' /\ seen w' = seen w /\ gwp self (k x) Q held todo) w
  | Call c k =>
      d_guards R c ⊆ held /\ (d_guards R c = ∅ -> held = ∅) /\
      match d_view R c with
      | None => forall r, gwp self (k r) Q held todo
      | Some v => exists x rest, todo = x :: rest /\ d_emits R x = v /\
          forall r, gwp self (k r) Q held rest
      end
  | Lock mu k => (forall mu', mu' ∈ held -> d_rank R mu' < d_rank R mu)%nat /\
      gwp self k Q ({[mu]} ∪ held) todo
  | Unlock mu k => mu ∈ held /\ gwp self k Q (held ∖ {[mu]}) todo
  | Await k => held = ∅ /\ gwp self k Q held todo
  | Cancel t k => d_supervises R t = false /\ gwp self k Q held todo
  | Join t k => held = ∅ /\ d_supervises R self = true /\ d_supervises R t = false /\
      gwp self k Q held todo
  end.

Implicit Types (held : gset mutex) (todo : list T) (self : Z).

Lemma gwp_mono {A} self (c : prog A) (Q Q' : gset mutex -> list T -> A -> Prop) held todo :
  gwp self c Q held todo -> (forall h l a, Q h l a -> Q' h l a) -> gwp self c Q' held todo.
Proof.
  intros Hc HQ. revert held todo Hc. induction c as [a|X m k IH|c k IH|mu k IH|mu k IH|k IH|t k IH|t k IH];
    cbn; intros held todo Hc; try solve [naive_solver].
  - intros w Hw. eapply wp_mono; [by apply Hc|]. naive_solver.
  - destruct Hc as (Hg & He & Hc). split; [done|]. split; [done|].
    destruct (d_view R c); [|by eauto]. destruct Hc as (x & rest & ? & ? & Hc). exists x, rest. eauto.
Qed.

Lemma gwp_bind {A B} self (c : prog A) (f : A -> prog B) Q held todo :
  gwp self c (fun h l a => gwp self (f a) Q h l) held todo -> gwp self (c ≫= f) Q held todo.
Proof.
  revert held todo. unfold mbind, prog_mbind.
  induction c as [a|X m k IH|c k IH|mu k IH|mu k IH|k IH|t k IH|t k IH]; cbn; intros held todo Hc;
    try solve [naive_solver].
  - intros w Hw. eapply wp_mono; [by apply Hc|]. naive_solver.
  - destruct Hc as (Hg & He & Hc). split; [done|]. split; [done|].
    destruct (d_view R c); [|by eauto]. destruct Hc as (x & rest & ? & ? & Hc). exists x, rest. eauto.
Qed.

Lemma gwp_ret {A} self (a : A) Q held todo : Q held todo a -> gwp self (mret a) Q held todo.
Proof. done. Qed.

Lemma gwp_act {X} self (m : M X) Q held todo :
  (forall w, d_inv R w -> wp m (fun x w' => d_inv R w' /\ seen w' = seen w /\ Q held todo x) w) ->
  gwp self (act m) Q held todo.
Proof. done. Qed.

(** Reading a field whose value the invariant constrains. *)
Lemma gwp_read {X} self (p : nat) (f : session -> X) (P : X -> Prop) Q held todo :
  (forall w, d_inv R w -> exists s, session_list w !! p = Some s /\ P (f s)) ->
  (forall x, P x -> Q held todo x) -> gwp self (act (field p f)) Q held todo.
Proof.
  intros Hinv HQ. apply gwp_act. intros w Hw. destruct (Hinv w Hw) as (s & Hs & HP).
  eapply wp_field; [done|]. auto.
Qed.

Lemma gwp_lock self mu Q held todo : (forall mu', mu' ∈ held -> d_rank R mu' < d_rank R mu)%nat ->
  Q ({[mu]} ∪ held) todo tt -> gwp self (pthread_mutex_lock mu) Q held todo.
Proof. done. Qed.

Lemma gwp_unlock self mu Q held held' todo : held = {[mu]} ∪ held' -> mu ∉ held' ->
  Q held' todo tt -> gwp self (pthread_mutex_unlock mu) Q held todo.
Proof.
  intros -> Hmu HQ. split; [set_solver|].
  by replace (({[mu]} ∪ held') ∖ {[mu]}) with held' by set_solver.
Qed.
End logic.

(** ** Soundness *)

Definition of_thread {T} (t : Z) (order : list (Z * T)) : list T :=
  omap (fun x => if decide (x.1 = t) then Some x.2 else None) order.

Lemma of_thread_app {T} t (l1 l2 : list (Z * T)) :
  of_thread t (l1 ++ l2) = of_thread t l1 ++ of_thread t l2.
Proof. apply omap_app. Qed.

(** The value at [t] replaced. *)
Definition at_thread {A} (t : Z) (a : A) (f : Z -> A) (u : Z) : A := if decide (u = t) then a else f u.

Lemma at_thread_eq {A} t (a : A) f : at_thread t a f t = a.
Proof. unfold at_thread. by rewrite decide_True. Qed.
Lemma at_thread_ne {A} t (a : A) f u : u <> t -> at_thread t a f u = f u.
Proof. intros. unfold at_thread. by rewrite decide_False. Qed.
Lemma at_thread_same {A} t (f : Z -> A) u : at_thread t (f t) f u = f u.
Proof. unfold at_thread. by destruct (decide (u = t)) as [->|]. Qed.

Section soundness.
Context `{Henv : Env} {V T : Type} (R : discipline V T) `{!Lawful R}.
Context (cancellation_point : call -> bool) (base : list V) (outs : Z -> list T).

Definition finished (held : gset mutex) (todo : list T) (_ : unit) : Prop := held = ∅ /\ todo = [].

(** The threads of [cf] keep to the discipline: [held t] are the mutexes of the
    thread [t], [todo t] its tokens to come, and [order] the tokens spent. *)
Record sound (held : Z -> gset mutex) (todo : Z -> list T) (order : list (Z * T)) (cf : config) : Prop := {
  so_inv : d_inv R (cf_world cf);
  so_thread t c : cf_pool cf !! t = Some c -> gwp R t c finished (held t) (todo t);
  so_lock mu t : cf_locks cf !! mu = Some t <-> mu ∈ held t;
  so_seen : seen R (cf_world cf) = base ++ ((fun x => d_emits R x.2) <$> order);
  so_order t : outs t = of_thread t order ++ todo t;
  so_cancelled t : t ∈ cf_cancelled cf -> d_supervises R t = false;
  so_supervisor t : d_supervises R t = true -> is_Some (cf_pool cf !! t) }.

(** A thread goes on with other mutexes and tokens. *)
Lemma sound_go held todo order w L P D t c c' w' L' held' todo' order' D' :
  sound held todo order (Config w L P D) -> P !! t = Some c ->
  d_inv R w' -> gwp R t c' finished held' todo' ->
  (forall mu u, L' !! mu = Some u <-> mu ∈ at_thread t held' held u) ->
  seen R w' = base ++ ((fun x => d_emits R x.2) <$> order') ->
  (forall u, outs u = of_thread u order' ++ at_thread t todo' todo u) ->
  (forall u, u ∈ D' -> d_supervises R u = false) ->
  sound (at_thread t held' held) (at_thread t todo' todo) order' (Config w' L' (<[t := c']> P) D').
Proof.
  intros [] Ht Hw Hc HL Hs Ho HD. split; cbn in *; try done.
  - intros u cu. destruct (decide (u = t)) as [->|Hne].
    + rewrite lookup_insert_eq, !at_thread_eq. by intros [= <-].
    + rewrite lookup_insert_ne, !at_thread_ne by done. auto.
  - intros u Hu. destruct (decide (u = t)) as [->|Hne]; [rewrite lookup_insert_eq; by eexists|].
    rewrite lookup_insert_ne by done. auto.
Qed.

(** The same with what it has. *)
Lemma sound_on held todo order w L P D t c c' w' D' :
  sound held todo order (Config w L P D) -> P !! t = Some c ->
  d_inv R w' -> seen R w' = seen R w -> gwp R t c' finished (held t) (todo t) ->
  (forall u, u ∈ D' -> d_supervises R u = false) ->
  exists held' todo' order', sound held' todo' order' (Config w' L (<[t := c']> P) D').
Proof.
  intros Hso Ht Hw Hs Hc HD. eexists _, _, order. eapply (sound_go held todo order w L P D t c);
    [done..|apply Hc| | | |done].
  - intros mu u. rewrite at_thread_same. apply (so_lock _ _ _ _ Hso).
  - rewrite Hs. apply (so_seen _ _ _ _ Hso).
  - intros u. rewrite at_thread_same. apply (so_order _ _ _ _ Hso).
Qed.

Lemma seen_other w c r : d_view R c = None -> seen R (set_trace (trace w ++ [(c, r)]) w) = seen R w.
Proof. intros Hc. rewrite seen_call, Hc. apply app_nil_r. Qed.

Lemma ext_inv c w r w' : ext c w = Ok (r, w') -> d_inv R w ->
  w' = set_trace (trace w ++ [(c, r)]) w /\ d_inv R w'.
Proof. intros [= <- <-] Hw. split; [done|by apply law_trace]. Qed.

Lemma sound_lock held todo order w L P D t mu k :
  sound held todo order (Config w L P D) -> P !! t = Some (Lock mu k) -> L !! mu = None ->
  exists held' todo' order', sound held' todo' order' (Config w (<[mu := t]> L) (<[t := k]> P) D).
Proof.
  intros Hso Ht HL. destruct (so_thread _ _ _ _ Hso t _ Ht) as [_ Hk].
  eexists _, _, order. eapply (sound_go held todo order w L P D t); [done..|apply Hso|exact Hk| | | |apply Hso].
  - intros mu' u. pose proof (so_lock _ _ _ _ Hso mu' u) as Hl. cbn in Hl. destruct (decide (mu' = mu)) as [->|Hmu].
    + rewrite lookup_insert_eq. unfold at_thread. destruct (decide (u = t)) as [->|Hne]; [set_solver|].
      split; [by intros [= ->]|]. intros Hin. apply Hl in Hin. congruence.
    + rewrite lookup_insert_ne by done. unfold at_thread. destruct (decide (u = t)) as [->|Hne]; [|done]. set_solver.
  - apply (so_seen _ _ _ _ Hso).
  - intros u. rewrite at_thread_same. apply (so_order _ _ _ _ Hso).
Qed.

Lemma sound_unlock held todo order w L P D t mu k :
  sound held todo order (Config w L P D) -> P !! t = Some (Unlock mu k) -> L !! mu = Some t ->
  exists held' todo' order', sound held' todo' order' (Config w (delete mu L) (<[t := k]> P) D).
Proof.
  intros Hso Ht HL. destruct (so_thread _ _ _ _ Hso t _ Ht) as [_ Hk].
  eexists _, _, order. eapply (sound_go held todo order w L P D t); [done..|apply Hso|exact Hk| | | |apply Hso].
  - intros mu' u. pose proof (so_lock _ _ _ _ Hso mu' u) as Hl. cbn in Hl. destruct (decide (mu' = mu)) as [->|Hmu].
    + rewrite lookup_delete_eq. unfold at_thread. destruct (decide (u = t)) as [->|Hne]; [set_solver|].
      split; [done|]. intros Hin. apply Hl in Hin. congruence.
    + rewrite lookup_delete_ne by done. unfold at_thread. destruct (decide (u = t)) as [->|Hne]; [|done]. set_solver.
  - apply (so_seen _ _ _ _ Hso).
  - intros u. rewrite at_thread_same. apply (so_order _ _ _ _ Hso).
Qed.

Lemma sound_call held todo order w L P D t c k r w' :
  sound held todo order (Config w L P D) -> P !! t = Some (Call c k) -> ext c w = Ok (r, w') ->
  exists held' todo' order', sound held' todo' order' (Config w' L (<[t := k r]> P) D).
Proof.
  intros Hso Ht Hr. destruct (so_thread _ _ _ _ Hso t _ Ht) as (_ & _ & Hk).
  pose proof (so_inv _ _ _ _ Hso) as Hi. destruct (ext_inv c w r w' Hr Hi) as [-> Hi'].
  destruct (d_view R c) as [v|] eqn:Hv.
  - destruct Hk as (x & rest & Htodo & <- & Hk). eexists _, _, (order ++ [(t, x)]).
    eapply (sound_go held todo order w L P D t); [done..|exact (Hk r)| | | |apply Hso].
    + intros mu u. rewrite at_thread_same. apply (so_lock _ _ _ _ Hso).
    + pose proof (so_seen _ _ _ _ Hso) as Hseen. cbn in Hseen.
      by rewrite seen_call, Hv, Hseen, fmap_app, <- (assoc_L (++)).
    + intros u. rewrite (so_order _ _ _ _ Hso u), of_thread_app. unfold at_thread, of_thread. cbn.
      destruct (decide (u = t)) as [->|Hne].
      * rewrite decide_True by done. rewrite Htodo, <- (assoc_L (++)). done.
      * rewrite decide_False by done. by rewrite app_nil_r.
  - eapply (sound_on held todo order w L P D t); [done..|by apply seen_other|apply Hk|apply Hso].
Qed.

Theorem sound_step held todo order cf cf' : sound held todo order cf ->
  fstep cancellation_point cf cf' -> exists held' todo' order', sound held' todo' order' cf'.
Proof.
  intros Hso Hs. destruct Hs as [w L P D t X m k x w' Ht Hm|w L P D t c k r w' Ht Hr
    |w L P D t mu k Ht HL|w L P D t mu k Ht HL|w L P D t k Ht|w L P D t t' k r w' Ht Hr
    |w L P D t t' k r w' Ht He Hr|w L P D t c Ht HD Hc];
    pose proof (so_thread _ _ _ _ Hso t _ Ht) as Hk; pose proof (so_inv _ _ _ _ Hso) as Hi;
    pose proof (so_cancelled _ _ _ _ Hso) as HD'; cbn in Hi, HD'.
  - specialize (Hk w Hi). unfold wp in Hk. rewrite Hm in Hk. destruct Hk as (? & ? & ?).
    by eapply (sound_on held todo order w L P D t).
  - by eapply sound_call.
  - by eapply sound_lock.
  - by eapply sound_unlock.
  - destruct Hk. by eapply (sound_on held todo order w L P D t).
  - destruct Hk, (ext_inv _ _ _ _ Hr Hi) as [-> ?].
    eapply (sound_on held todo order w L P D t); [done..|apply seen_other, law_cancel|done|]. set_solver.
  - destruct Hk as (_ & _ & _ & ?), (ext_inv _ _ _ _ Hr Hi) as [-> ?].
    eapply (sound_on held todo order w L P D t); [done..|apply seen_other, law_join|done|done].
  - exists held, todo, order. destruct Hso. split; cbn in *; try done.
    + intros u cu. destruct (decide (u = t)) as [->|]; [by rewrite lookup_delete_eq|].
      rewrite lookup_delete_ne by done. auto.
    + intros u Hu. rewrite lookup_delete_ne; [auto|]. intros ->. apply HD' in HD. congruence.
Qed.

Lemma sound_steps held todo order cf cf' : sound held todo order cf ->
  rtc (fstep cancellation_point) cf cf' -> exists held' todo' order', sound held' todo' order' cf'.
Proof.
  intros Hso Hs. revert held todo order Hso. induction Hs as [|? ? ? H1 _ IH]; intros held todo order Hso; [by eauto|].
  destruct (sound_step _ _ _ _ _ Hso H1) as (? & ? & ? & Hso'). by eapply IH.
Qed.
End soundness.

(** ** What the discipline gives *)

Definition over (P : gmap Z (prog unit)) : Prop := forall t c, P !! t = Some c -> c = Ret tt.

Definition is_ret {A} (c : prog A) : bool := match c with Ret _ => true | _ => false end.

Lemma over_is_ret P : map_Forall (fun _ c => is_ret c = true) P -> over P.
Proof. intros Hall t c Ht. specialize (Hall t c Ht). by destruct c as [[]| | | | | | |]. Qed.

(** No mutex is held by a thread that ended. *)
Definition orderly (cf : config) : Prop :=
  forall mu t, cf_locks cf !! mu = Some t -> is_Some (cf_pool cf !! t).

Section consequences.
Context `{Henv : Env} {V T : Type} (R : discipline V T) `{!Lawful R}.
Context (cancellation_point : call -> bool) (base : list V) (outs : Z -> list T).
Context (held : Z -> gset mutex) (todo : Z -> list T) (order : list (Z * T)) (cf : config).
Context (Hso : sound R base outs held todo order cf).
Local Abbreviation fstep := (fstep cancellation_point).

(** Two threads are never at calls that one mutex guards. *)
Lemma guarded_calls_exclude t t' c c' k k' mu :
  cf_pool cf !! t = Some (Call c k) -> cf_pool cf !! t' = Some (Call c' k') ->
  mu ∈ d_guards R c -> mu ∈ d_guards R c' -> t = t'.
Proof.
  intros Ht Ht' Hc Hc'. destruct (so_thread _ _ _ _ _ _ _ Hso t _ Ht) as [Hg _].
  destruct (so_thread _ _ _ _ _ _ _ Hso t' _ Ht') as [Hg' _].
  apply Hg, (so_lock _ _ _ _ _ _ _ Hso) in Hc. apply Hg', (so_lock _ _ _ _ _ _ _ Hso) in Hc'. congruence.
Qed.

Lemma guard_held t c k mu : cf_pool cf !! t = Some (Call c k) -> mu ∈ d_guards R c ->
  cf_locks cf !! mu = Some t.
Proof.
  intros Ht Hc. destruct (so_thread _ _ _ _ _ _ _ Hso t _ Ht) as [Hg _].
  by apply (so_lock _ _ _ _ _ _ _ Hso), Hg.
Qed.

Lemma access_runs t X (m : M X) k : cf_pool cf !! t = Some (Act m k) ->
  exists x w', m (cf_world cf) = Ok (x, w').
Proof.
  intros Ht. pose proof (so_thread _ _ _ _ _ _ _ Hso t _ Ht _ (so_inv _ _ _ _ _ _ _ Hso)) as Hm.
  apply wp_run in Hm as (x & w' & Hm & _). by exists x, w'.
Qed.

Lemma unlock_held t mu k : cf_pool cf !! t = Some (Unlock mu k) -> cf_locks cf !! mu = Some t.
Proof.
  intros Ht. destruct (so_thread _ _ _ _ _ _ _ Hso t _ Ht) as [Hm _]. by apply (so_lock _ _ _ _ _ _ _ Hso).
Qed.

(** A thread that neither has ended nor joins another can go on or waits for a
    mutex. *)
Lemma goes_on_or_waits t c : cf_pool cf !! t = Some c -> c <> Ret tt ->
  (forall t' k, c <> Join t' k) ->
  (exists cf', fstep cf cf') \/ exists mu k u, c = Lock mu k /\ cf_locks cf !! mu = Some u.
Proof.
  intros Ht Hr Hj. pose proof (fun X m k => access_runs t X m k) as Hact.
  pose proof (fun mu k => unlock_held t mu k) as Hun. clear Hso.
  destruct cf as [w L P D]. cbn in *. destruct c as [[]|X m k|c k|mu k|mu k|k|t' k|t' k]; try done.
  - destruct (Hact X m k Ht) as (x & w' & Hm). left. eexists. by eapply fs_act.
  - left. eexists. by eapply fs_call.
  - destruct (L !! mu) as [u|] eqn:HL; [right; by exists mu, k, u|left; eexists; by eapply fs_lock].
  - left. eexists. eapply fs_unlock; [done|]. by eapply Hun.
  - left. eexists. by eapply fs_await.
  - left. eexists. by eapply fs_cancel.
  - by destruct (Hj t' k).
Qed.

(** Who holds a mutex can go on, or waits for one of a higher rank. *)
Lemma holder_goes_on mu u : orderly cf -> cf_locks cf !! mu = Some u -> exists cf', fstep cf cf'.
Proof.
  intros Ho. destruct (law_rank (R := R)) as [n Hn].
  remember (n - d_rank R mu)%nat as d eqn:Hd. revert mu u Hd.
  induction d as [d IH] using lt_wf_ind. intros mu u -> Hu. destruct (Ho _ _ Hu) as [c Hc].
  pose proof (so_thread _ _ _ _ _ _ _ Hso u c Hc) as Hg.
  pose proof (proj1 (so_lock _ _ _ _ _ _ _ Hso mu u) Hu) as Hin.
  destruct (goes_on_or_waits u c Hc) as [?|(mu' & k & u' & -> & Hu')]; [| |done|].
  - intros ->. destruct Hg as [He _]. set_solver.
  - intros t' k ->. destruct Hg as [He _]. set_solver.
  - destruct Hg as [Hrank _]. apply Hrank in Hin. eapply (IH _ _ mu' u' eq_refl Hu').
    Unshelve. specialize (Hn mu'). lia.
Qed.

Lemma no_deadlock : orderly cf -> ~ over (cf_pool cf) -> exists cf', fstep cf cf'.
Proof.
  intros Ho Hov.
  assert (Hbusy : forall t c, cf_pool cf !! t = Some c -> c <> Ret tt -> (forall t' k, c <> Join t' k) ->
    exists cf', fstep cf cf').
  { intros t c Ht Hr Hj. destruct (goes_on_or_waits t c Ht Hr Hj) as [?|(mu & k & u & _ & Hu)]; [done|].
    by eapply holder_goes_on. }
  assert (Hex : exists t c, cf_pool cf !! t = Some c /\ c <> Ret tt).
  { destruct (decide (map_Forall (fun _ c => match c with Ret _ => true | _ => false end = true) (cf_pool cf)))
      as [Hall|Hn].
    - by destruct Hov; apply over_is_ret.
    - apply map_not_Forall in Hn as (t & c & Ht & Hc); [|tc_solve]. exists t, c. split; [done|]. by intros ->. }
  destruct Hex as (t & c & Ht & Hr).
  assert ((exists t' k, c = Join t' k) \/ forall t' k, c <> Join t' k) as [(t' & k & ->)|Hj]
    by (destruct c; naive_solver); [|by eapply Hbusy].
  destruct (so_thread _ _ _ _ _ _ _ Hso t _ Ht) as (_ & _ & Hs & _).
  destruct (cf_pool cf !! t') as [c'|] eqn:Ht'.
  - destruct (decide (is_ret c' = true)) as [Hc|Hc].
    + exists (Config (set_trace (trace (cf_world cf) ++ [(PthreadJoin t', answer (cf_world cf) (PthreadJoin t'))])
        (cf_world cf)) (cf_locks cf) (<[t := k]> (cf_pool cf)) (cf_cancelled cf)).
      destruct cf. eapply fs_join; [done|right|done]. by destruct c' as [[]| | | | | | |].
    + apply (Hbusy t' c' Ht'); [by intros ->|]. intros u k' ->.
      destruct (so_thread _ _ _ _ _ _ _ Hso t' _ Ht') as (_ & Hs' & _). congruence.
  - exists (Config (set_trace (trace (cf_world cf) ++ [(PthreadJoin t', answer (cf_world cf) (PthreadJoin t'))])
      (cf_world cf)) (cf_locks cf) (<[t := k]> (cf_pool cf)) (cf_cancelled cf)).
    destruct cf. eapply fs_join; [done|by left|done].
Qed.
End consequences.

Section runs.
Context `{Henv : Env} {V T : Type} (R : discipline V T) `{!Lawful R}.
Context (cancellation_point : call -> bool) (base : list V) (outs : Z -> list T).
Context (Hcalls : forall c, d_guards R c <> ∅ -> cancellation_point c = false).

(** When the guarded calls are no cancellation points, threads end without mutexes. *)
Lemma orderly_step held todo order cf cf' : sound R base outs held todo order cf -> orderly cf ->
  fstep cancellation_point cf cf' -> orderly cf'.
Proof.
  intros Hso Ho Hs.
  assert (Hins : forall t c (P : gmap Z (prog unit)) u, is_Some (P !! u) -> is_Some (<[t := c]> P !! u)).
  { intros t c P u Hu. destruct (decide (u = t)) as [->|]; [rewrite lookup_insert_eq; by eexists|].
    by rewrite lookup_insert_ne. }
  destruct Hs as [| |w L P D t mu k Ht HL|w L P D t mu k Ht HL| | | |w L P D t c Ht HD Hc]; intros mu' u Hu; cbn in *;
    try (apply Hins; by eapply Ho).
  - destruct (decide (mu' = mu)) as [->|]; [|rewrite lookup_insert_ne in Hu by done; apply Hins; by eapply Ho].
    rewrite lookup_insert_eq in Hu. injection Hu as <-. rewrite lookup_insert_eq. by eexists.
  - apply Hins. eapply (Ho mu' u). cbn. destruct (decide (mu' = mu)) as [->|]; [by rewrite lookup_delete_eq in Hu|].
    by rewrite lookup_delete_ne in Hu.
  - rewrite lookup_delete_ne; [by eapply (Ho mu' u)|]. intros <-.
    apply (so_lock _ _ _ _ _ _ _ Hso mu' t) in Hu as Hin. pose proof (so_thread _ _ _ _ _ _ _ Hso t c Ht) as Hg.
    destruct c; try done; cbn in Hc, Hg.
    + destruct Hg as (_ & He & _). rewrite He in Hin; [set_solver|].
      destruct (decide (d_guards R c = ∅)) as [|Hne]; [done|]. apply Hcalls in Hne. congruence.
    + destruct Hg as [He _]. set_solver.
    + destruct Hg as [He _]. set_solver.
Qed.

Lemma orderly_steps held todo order cf cf' : sound R base outs held todo order cf -> orderly cf ->
  rtc (fstep cancellation_point) cf cf' -> orderly cf'.
Proof.
  intros Hso Ho Hs. revert held todo order Hso Ho.
  induction Hs as [|cf cf1 cf2 H1 _ IH]; intros held todo order Hso Ho; [done|].
  destruct (sound_step R cancellation_point base outs _ _ _ _ _ Hso H1) as (? & ? & ? & Hso').
  eapply IH; [done|]. by eapply (orderly_step held todo order cf).
Qed.

(** From every state the threads come to their ends. *)
Lemma runs_to_the_end held todo order cf : sound R base outs held todo order cf -> orderly cf ->
  exists cf', rtc (fstep cancellation_point) cf cf' /\ over (cf_pool cf').
Proof.
  revert held todo order. induction (fstep_terminates cancellation_point cf) as [cf _ IH].
  intros held todo order Hso Ho.
  destruct (decide (map_Forall (fun _ c => is_ret c = true) (cf_pool cf))) as [Hall|Hn].
  - exists cf. split; [apply rtc_refl|by apply over_is_ret].
  - destruct (no_deadlock R cancellation_point base outs _ _ _ _ Hso Ho) as [cf1 H1].
    { intros Hov. apply Hn. intros t c Ht. by rewrite (Hov t c Ht). }
    destruct (sound_step R cancellation_point base outs _ _ _ _ _ Hso H1) as (? & ? & ? & Hso').
    destruct (IH cf1 H1 _ _ _ Hso') as (cf' & Hr & Hov); [by eapply (orderly_step held todo order cf)|].
    exists cf'. split; [by eapply rtc_l|done].
Qed.
End runs.
