(* ===== verification/Tcp.v ===== *)
(** * Sockets

    [utilities/tcp.c] and the inline function of [tcp.h], in the monad of the
    session modules.  The buffer for error texts is its length, [None] for the
    null pointer; its text is not modelled. *)
From S2P Require Import Prelude Text Pcap Monitor Sys Wp.

Definition HIGHEST_IP_PORT : Z := 65535.
Definition MAX_ADDRESSES : Z := 64.
Definition TCP_ERRBUF_SIZE : Z := 200.
Definition AF_INET : Z := 2.
Definition INADDR_ANY : Z := 0.

(** [struct target] *)
Record target := Target { tg_address : sockaddr_in; tg_handle : Z }.

Section tcp.
Context `{Env}.

(** ** The code *)

(** The macro [ERROR_RETURN]. *)
Definition error_return (handle error : Z) : M Z :=
  when (negb (handle =? 0)) (ext (Close handle);; mret tt);; mret error.

(** The tests of [VALIDATE_PORT] and [VALIDATE_ERROR_BUFFER]. *)
Definition invalid_port (port : Z) : bool := (port <? 1) || (HIGHEST_IP_PORT <? port).
Definition invalid_buffer (error_string : option Z) : bool :=
  match error_string with None => true | Some len => len <=? 0 end.

(** [open_server_socket]; [our_addr] stores through the pointer. *)
Definition open_server_socket (port : Z) (our_addr : sockaddr_in -> M unit)
    (error_string : option Z) : M Z :=
  if invalid_port port then mret (-1) else
  if invalid_buffer error_string then mret (-1) else
  handle ← ext Socket;
  if handle =? -1 then error_return handle (-2) else
  our_addr (Sockaddr AF_INET INADDR_ANY (u16 port));;
  r ← ext (Setsockopt handle);
  if r =? -1 then error_return handle (-3) else
  r ← ext (Bind handle (u16 port));
  if r <? 0 then error_return handle (-4) else
  r ← ext (Listen handle);
  if r <? 0 then error_return handle (-5) else
  mret handle.

(** [poll_server_socket].  [accept] is given a length of 0, so it leaves the
    client's address as it was initialised. *)
Definition poll_server_socket (handle : Z) (fn : option (Z -> sockaddr_in -> M Z))
    (error_string : option Z) : M Z :=
  if invalid_buffer error_string then mret (-1) else
  match fn with
  | None => mret (-1)
  | Some fn =>
      if handle <=? 0 then mret (-1) else
      let client_addr := zero_addr in
      unamed_handle ← ext (Accept handle);
      if unamed_handle <? 0 then mret (-2) else
      result ← fn unamed_handle client_addr;
      when (result <=? 0) (ext (Close unamed_handle);; mret tt);;
      mret result
  end.

Definition close_server_socket (handle : Z) (error_string : option Z) : M Z :=
  if invalid_buffer error_string then mret (-1) else
  if handle <=? 0 then mret (-1) else
  r ← ext (Close handle);
  if r <? 0 then mret (-2) else mret 0.

Definition EINPROGRESS : Z := 115.
Definition EALREADY : Z := 114.
Definition EISCONN : Z := 106.

(** [ERROR_RETURN(remote_address->handle, ...)] after [handle = -1]: the new
    handle and the result. *)
Definition connect_failed (error : Z) : M (Z * Z) :=
  r ← error_return (-1) error; mret (-1, r).

(** [connect_to_server_socket]: the handle of [remote_address] afterwards, and
    the result. *)
Definition connect_to_server_socket (remote_address : target) (error_string : option Z)
    : M (Z * Z) :=
  if invalid_buffer error_string then mret (tg_handle remote_address, -1) else
  if negb (tg_handle remote_address <? 0) then mret (tg_handle remote_address, 0) else
  handle ← ext Socket;
  if handle <? 0 then connect_failed (-2) else
  flags ← ext (FcntlGet handle);
  if flags <? 0 then connect_failed (-3) else
  r ← ext (FcntlSet handle (Z.lor flags 2048));
  if r <? 0 then connect_failed (-3) else
  connect_ret ← ext (Connect handle (tg_address remote_address));
  failed ←
    (if connect_ret <? 0 then
       errno ← ext Errno;
       if (errno =? EINPROGRESS) || (errno =? EALREADY) then
         x_err ← ext (Select handle);
         mret (if (x_err =? -1) || (x_err =? 0) then Some (-4) else None)
       else mret (if errno =? EISCONN then Some (-5) else Some (-6))
     else mret None);
  match failed with
  | Some error => connect_failed error
  | None =>
      r ← ext (FcntlSet handle flags);
      if r <? 0 then connect_failed (-6) else
      ext (Setsockopt handle);;
      mret (handle, 0)
  end.

(** [get_sockaddr_in]: the result, and the address if it was stored.  The
    answer of [gethostbyname] is the first address, 0 for the null pointer. *)
Definition get_sockaddr_in (server_name : option string) (port : Z)
    : M (Z * option sockaddr_in) :=
  match server_name with
  | None => mret (-1, None)
  | Some server_name =>
      if invalid_port port then mret (-1, None) else
      server ← ext (Gethostbyname server_name);
      if server =? 0 then mret (-2, None) else
      mret (0, Some (Sockaddr AF_INET server (u16 port)))
  end.

(** The loop of [address_list_from_arguments], for the arguments from [i] on;
    [sp] is the address of the last turn. *)
Fixpoint address_loop (args : list (string * string)) (i : nat) (sp : sockaddr_in)
    (servers : list target) : M (Z * list target) :=
  match args with
  | [] => mret (0, servers)
  | (host, port) :: args =>
      '(result, stored) ← get_sockaddr_in (Some host) (atoi port);
      let sp := default sp stored in
      if negb (result =? 0) then mret (result, servers) else
      match servers !! i with
      | None => fail OutOfBounds
      | Some t =>
          address_loop args (S i) sp (<[i := Target sp (tg_handle t)]> servers)
      end
  end.

(** [address_list_from_arguments]: the result and the servers.  The [memset] of
    [sizeof(servers)] octets clears a pointer's worth of them: the family, port
    and address of the first server. *)
Definition address_list_from_arguments (server_count : Z) (hosts ports : list string)
    (servers : list target) : M (Z * list target) :=
  if MAX_ADDRESSES <? server_count then mret (-1, servers) else
  let servers :=
    match servers with
    | [] => []
    | t :: r => Target zero_addr (tg_handle t) :: r
    end in
  '(result, servers) ← address_loop
    (take (Z.to_nat server_count) (zip hosts ports)) 0 zero_addr servers;
  mret (if result =? 0 then server_count else result, servers).

(** [iotests_fd_open] *)
Definition iotests_fd_open (fd : Z) : M bool := r ← ext (Poll fd); mret (r =? 0).

(** ** Which descriptors are closed *)

(** A computation that leaves the trace as it is. *)
Definition quiet (m : M unit) : Prop :=
  forall w Q, (forall w', trace w' = trace w -> Q tt w') -> wp m Q w.

(** The calls since the world [w]. *)
Definition calls_since (w w' : world) (evs : list event) : Prop := trace w' = trace w ++ evs.

Definition closed (fd : Z) (evs : list event) : Prop := exists x, (Close fd, x) ∈ evs.

Lemma wp_error_return handle error (Q : Z -> world -> Prop) w :
  (handle = 0 -> Q error w) ->
  (handle <> 0 -> Q error (set_trace (trace w ++ [(Close handle, answer w (Close handle))]) w)) ->
  wp (error_return handle error) Q w.
Proof.
  intros H0 H1. unfold error_return. wp_step. apply wp_when; intros Hb.
  - wp_step. apply wp_bind, wp_ext. wp_step. apply H1. apply negb_true_iff, Z.eqb_neq in Hb. done.
  - apply H0. apply negb_false_iff, Z.eqb_eq in Hb. done.
Qed.

(** What [open_server_socket] promises of its result and its calls. *)
Definition no_leak (w : world) (r : Z) (w' : world) : Prop :=
  exists evs, calls_since w w' evs /\
    (0 <= r -> (Socket, r) ∈ evs /\ (exists x, 0 <= x /\ (Listen r, x) ∈ evs) /\
       forall fd, ~ closed fd evs) /\
    (r < 0 -> forall fd, (Socket, fd) ∈ evs -> 0 < fd -> closed fd evs).

Lemma error_path w w1 evs handle error : calls_since w w1 evs -> error < 0 ->
  (forall fd, (Socket, fd) ∈ evs -> fd = handle) ->
  wp (error_return handle error) (no_leak w) w1.
Proof.
  unfold no_leak, calls_since, closed. intros Htr He Hsock. apply wp_error_return; intros Hh.
  - exists evs. split; [done|]. split; [lia|]. intros _ fd Hfd Hpos. apply Hsock in Hfd. lia.
  - eexists. cbn [trace set_trace]. rewrite Htr, <- (assoc_L (++)). split; [done|].
    split; [lia|]. intros _ fd Hfd Hpos. eexists. apply elem_of_app. right.
    apply elem_of_app in Hfd as [Hfd|Hfd].
    + apply Hsock in Hfd. subst. by left.
    + by apply list_elem_of_singleton in Hfd.
Qed.

(** What [connect_to_server_socket] does with its socket. *)
Definition socket_left_open (w : world) (hr : Z * Z) (w' : world) : Prop :=
  exists evs, calls_since w w' evs /\ (forall fd, 0 <= fd -> ~ closed fd evs) /\
    (hr.2 = 0 /\ (Socket, hr.1) ∈ evs /\ 0 <= hr.1 \/ hr.2 < 0 /\ hr.1 = -1).

Lemma connect_failed_path w w1 evs error : calls_since w w1 evs -> error < 0 ->
  (forall fd, ~ closed fd evs) -> wp (connect_failed error) (socket_left_open w) w1.
Proof.
  unfold calls_since, closed. intros Htr He Hopen. apply wp_bind, wp_error_return; [done|].
  intros _. apply wp_ret. eexists. unfold calls_since. cbn [trace set_trace].
  rewrite Htr, <- (assoc_L (++)). split; [done|]. split; [|by right].
  intros fd Hfd [x Hx]. apply elem_of_app in Hx as [Hx|Hx]; [by eapply Hopen; eexists|].
  apply list_elem_of_singleton in Hx. injection Hx as -> _. lia.
Qed.

(** [get_sockaddr_in] of a valid port and a name that resolves. *)
Lemma get_sockaddr_in_resolves name port (Q : Z * option sockaddr_in -> world -> Prop) w :
  invalid_port port = false -> answer w (Gethostbyname name) <> 0 ->
  Q (0, Some (Sockaddr AF_INET (answer w (Gethostbyname name)) port))
    (set_trace (trace w ++ [(Gethostbyname name, answer w (Gethostbyname name))]) w) ->
  wp (get_sockaddr_in (Some name) port) Q w.
Proof.
  intros Hp Ha HQ. unfold get_sockaddr_in. rewrite Hp. apply wp_bind, wp_ext.
  rewrite (proj2 (Z.eqb_neq _ _) Ha). apply wp_ret.
  assert (u16 port = port) as ->; [|done].
  unfold invalid_port, HIGHEST_IP_PORT in Hp. unfold u16. apply Z.mod_small. lia.
Qed.

(** The servers the arguments describe, when a name always resolves alike. *)
Definition described (host_address : string -> Z) (arg : string * string) : sockaddr_in :=
  Sockaddr AF_INET (host_address arg.1) (atoi arg.2).

Lemma address_loop_resolves (host_address : string -> Z) args : forall i sp servers w,
  (forall w name, answer w (Gethostbyname name) = host_address name) ->
  Forall (fun a => host_address a.1 <> 0 /\ invalid_port (atoi a.2) = false) args ->
  (i + length args <= length servers)%nat ->
  wp (address_loop args i sp servers) (fun rs _ => rs.1 = 0 /\
    length rs.2 = length servers /\
    (forall k, (k < i)%nat -> rs.2 !! k = servers !! k) /\
    forall k a, args !! k = Some a ->
      tg_address <$> rs.2 !! (i + k)%nat = Some (described host_address a)) w.
Proof.
  induction args as [|[host port] args IH]; intros i sp servers w Hr Hok Hl;
    [by apply wp_ret|].
  apply Forall_cons in Hok as [[Ha Hp] Hok]. cbn [address_loop fst snd length] in *.
  apply wp_bind, get_sockaddr_in_resolves; [done|by rewrite Hr|].
  cbn [default negb Z.eqb]. destruct (lookup_lt_is_Some_2 servers i) as [t Ht]; [lia|].
  rewrite Ht. eapply wp_mono; [apply IH; [done|done|rewrite length_insert; lia]|].
  intros [r servers'] w' (Hr0 & Hlen & Hbefore & Hafter). cbn [fst snd] in *.
  rewrite length_insert in Hlen. split; [done|]. split; [done|]. split.
  - intros k Hk. rewrite Hbefore by lia. apply list_lookup_insert_ne. lia.
  - intros [|k] a Hk; cbn in Hk.
    + injection Hk as <-. rewrite Nat.add_0_r, Hbefore by lia.
      rewrite list_lookup_insert_eq by lia. cbn. unfold described. cbn. by rewrite Hr.
    + rewrite Nat.add_succ_r, <- Nat.add_succ_l. by apply Hafter.
Qed.
End tcp.

(** Closing of membership goals on the calls of one path. *)
Ltac evs_tac :=
  repeat match goal with
    | H : _ ∈ [] |- _ => apply not_elem_of_nil in H; destruct H
    | H : _ ∈ _ :: _ |- _ => apply elem_of_cons in H; destruct H as [H|H]; simplify_eq
    | H : closed _ _ |- _ => destruct H as [? H]
    end.

(** The calls of a path, from the trace before it. *)
Ltac calls_tac Htr :=
  unfold calls_since; cbn [trace set_trace]; rewrite Htr, <- ?(assoc_L (++)); reflexivity.
Ltac failing_path Htr :=
  eapply error_path; [calls_tac Htr|lia|intros ? Hfd; cbn [app] in Hfd; by evs_tac].

Ltac since_tac :=
  unfold calls_since in *; cbn [trace set_trace];
  repeat match goal with H : trace _ = trace _ ++ _ |- _ => rewrite H; clear H end;
  rewrite <- ?(assoc_L (++)); reflexivity.
Ltac open_tac := intros ? Hfd; cbn [app] in Hfd; by evs_tac.
Ltac lost_path := eapply connect_failed_path; [since_tac|lia|open_tac].

(** ** Properties *)

Section properties.
Context `{Env}.

(** C24: [open_server_socket] never leaks its socket.  It returns the listening
    socket and has closed nothing, or it returns a negative code and has closed
    every positive descriptor it got. *)
Theorem open_server_socket_closes (port len : Z) (our_addr : sockaddr_in -> M unit) (w : world) :
  (forall a, quiet (our_addr a)) -> 0 < len ->
  wp (open_server_socket port our_addr (Some len)) (no_leak w) w.
Proof.
  intros Hstore Hlen. unfold open_server_socket, invalid_buffer.
  wp_step; [wp_step; exists []; split; [by unfold calls_since; rewrite app_nil_r|];
    split; [lia|]; intros _ fd Hfd; evs_tac|].
  rewrite (proj2 (Z.leb_gt len 0)) by done.
  wp_step. apply wp_ext_any. intros handle. set (w1 := set_trace _ w).
  assert (Hsock : trace w1 = trace w ++ [(Socket, handle)]) by done. clearbody w1.
  wp_step; [failing_path Hsock|].
  wp_step. apply Hstore. intros w2 Htr. rewrite Hsock in Htr.
  wp_step. wp_step. wp_step; [failing_path Htr|].
  wp_step. wp_step. wp_step; [failing_path Htr|].
  wp_step. apply wp_ext_any. intros listening. wp_step; [failing_path Htr|].
  wp_step. eexists. split; [calls_tac Htr|]. split.
  - intros Hh. split; [by left|]. split; [|intros fd Hc; cbn [app] in Hc; by evs_tac].
    exists listening. split; [lia|by right; right; right; left].
  - intros Hneg fd Hfd Hpos. cbn [app] in Hfd. evs_tac. lia.
Qed.

(** [connect_to_server_socket] loses its socket when it fails.  It returns
    0 and the new socket, or a negative code and the handle -1, and in both
    cases it has closed no descriptor: the handle is overwritten before the
    macro closes it. *)
Theorem connect_to_server_socket_leaks (t : target) (len : Z) (w : world) :
  tg_handle t < 0 -> 0 < len ->
  wp (connect_to_server_socket t (Some len)) (socket_left_open w) w.
Proof.
  intros Ht Hlen. unfold connect_to_server_socket, invalid_buffer.
  rewrite (proj2 (Z.leb_gt len 0)), (proj2 (Z.ltb_lt _ _) Ht) by done. cbn [negb].
  wp_step. apply wp_ext_any. intros fd. wp_step; [lost_path|].
  wp_step. wp_step. wp_step; [lost_path|]. wp_step. wp_step. wp_step; [lost_path|].
  wp_step. apply wp_ext_any. intros connected. wp_step.
  apply (wp_mono _ (fun (failed : option Z) w' => exists evs,
    calls_since w w' ((Socket, fd) :: evs) /\ (forall fd, ~ closed fd evs) /\
    match failed with Some e => e < 0 | None => True end)).
  - assert (Hpath : forall evs (e : option Z) w1, calls_since w w1 ((Socket, fd) :: evs) ->
      (forall fd, ~ closed fd evs) -> match e with Some e => e < 0 | None => True end ->
      wp (mret e) (fun failed w' => exists evs,
        calls_since w w' ((Socket, fd) :: evs) /\ (forall fd, ~ closed fd evs) /\
        match failed with Some e => e < 0 | None => True end) w1)
      by (intros evs e w1 ? ? ?; apply wp_ret; by exists evs).
    wp_step; [|eapply Hpath; [since_tac|open_tac|done]].
    wp_step. wp_step. wp_step.
    + wp_step. wp_step. eapply Hpath; [since_tac|open_tac|]. destruct ((_ =? -1) || _); cbn; [lia|done].
    + wp_step. eapply Hpath; [since_tac|open_tac|]. destruct (_ =? EISCONN); cbn; lia.
  - intros failed w' (evs & Htr & Hopen & He). destruct failed as [e|].
    + eapply connect_failed_path; [done|lia|]. intros fd' [x Hx].
      apply elem_of_cons in Hx as [Hx|Hx]; [done|]. by apply (Hopen fd'); exists x.
    + wp_step. wp_step. unfold calls_since in Htr. wp_step.
      * eapply connect_failed_path; [since_tac|lia|]. intros fd' [x Hx].
        rewrite ?app_comm_cons in Hx. apply elem_of_app in Hx as [Hx|Hx]; [|evs_tac].
        apply elem_of_cons in Hx as [Hx|Hx]; [done|]. by apply (Hopen fd'); exists x.
      * wp_step. wp_step. wp_step. eexists. split; [since_tac|]. cbn. split.
        { intros fd' _ [x Hx]. rewrite ?app_comm_cons in Hx.
          apply elem_of_app in Hx as [Hx|Hx]; [|evs_tac].
          apply elem_of_cons in Hx as [Hx|Hx]; [done|]. by apply (Hopen fd'); exists x. }
        { left. split; [done|]. split; [by left|lia]. }
Qed.

Lemma get_sockaddr_in_result name port w :
  wp (get_sockaddr_in (Some name) port) (fun ro _ => ro.1 <= 0) w.
Proof.
  unfold get_sockaddr_in. wp_step; [wp_step; cbn; lia|]. wp_step. wp_step.
  wp_step; wp_step; cbn; lia.
Qed.

Lemma address_loop_length args : forall i sp servers w r out w',
  address_loop args i sp servers w = Ok ((r, out), w') -> length out = length servers /\ r <= 0.
Proof.
  induction args as [|[host port] args IH]; intros i sp servers w r out w'; cbn [address_loop].
  - intros [= <- <- _]. split; [done|lia].
  - unfold mbind, M_bind. pose proof (get_sockaddr_in_result host (atoi port) w) as Hs.
    unfold wp in Hs. destruct (get_sockaddr_in _ _ w) as [[[r1 o] w1]|]; [|done]. cbn in Hs.
    destruct (negb (r1 =? 0)); [by intros [= <- <- _]|].
    destruct (servers !! i) as [t|]; [|done]. intros Hr. apply IH in Hr as [Hl Hr].
    by rewrite length_insert in Hl.
Qed.

(** A positive result is the number of servers asked for. *)
Lemma address_list_length n hosts ports servers w r out w' :
  address_list_from_arguments n hosts ports servers w = Ok ((r, out), w') ->
  length out = length servers /\ (0 < r -> r = n /\ n <= MAX_ADDRESSES).
Proof.
  unfold address_list_from_arguments. destruct (Z.ltb_spec MAX_ADDRESSES n).
  - intros [= <- <- _]. split; [done|lia].
  - unfold mbind, M_bind. destruct (address_loop _ _ _ _ w) as [[[r1 o] w1]|] eqn:Hs; [|done].
    apply address_loop_length in Hs as [Hl Hr]. intros [= <- <- _]. split.
    + rewrite Hl. by destruct servers.
    + destruct (Z.eqb_spec r1 0); lia.
Qed.

Lemma address_list_wp (host_address : string -> Z)
    (hosts ports : list string) (servers : list target) (w : world) :
  (forall w name, answer w (Gethostbyname name) = host_address name) ->
  length ports = length hosts -> (length hosts <= length servers)%nat -> blen hosts <= 64 ->
  Forall (fun a => host_address a.1 <> 0 /\ invalid_port (atoi a.2) = false) (zip hosts ports) ->
  wp (address_list_from_arguments (blen hosts) hosts ports servers) (fun rs _ =>
    rs.1 = blen hosts /\ length rs.2 = length servers /\
    forall i a, zip hosts ports !! i = Some a ->
      tg_address <$> rs.2 !! i = Some (described host_address a)) w.
Proof.
  intros Hr Hports Hl H64 Hok. unfold address_list_from_arguments, MAX_ADDRESSES.
  rewrite (proj2 (Z.ltb_ge 64 _)) by done.
  assert (Hz : length (zip hosts ports) = length hosts) by (rewrite length_zip; lia).
  rewrite take_ge by (unfold blen; lia). apply wp_bind.
  eapply wp_mono; [apply (address_loop_resolves host_address); [done|done|]|].
  - destruct servers; cbn in *; lia.
  - intros [r servers'] w' (Hr0 & Hlen & _ & Hk). cbn [fst snd] in *. subst r. apply wp_ret.
    split; [done|]. split; [|done]. cbn. rewrite Hlen. by destruct servers.
Qed.

(** With at most 64 arguments, all valid ports and names that resolve, the
    result is their number and server [i] has the address of argument [i]. *)
Theorem address_list_from_arguments_resolves (host_address : string -> Z)
    (hosts ports : list string) (servers : list target) (w : world) :
  (forall w name, answer w (Gethostbyname name) = host_address name) ->
  length ports = length hosts -> (length hosts <= length servers)%nat -> blen hosts <= 64 ->
  Forall (fun a => host_address a.1 <> 0 /\ invalid_port (atoi a.2) = false) (zip hosts ports) ->
  wp (address_list_from_arguments (blen hosts) hosts ports servers) (fun rs _ =>
    rs.1 = blen hosts /\ length rs.2 = length servers /\
    forall i a, zip hosts ports !! i = Some a ->
      tg_address <$> rs.2 !! i = Some (described host_address a)) w.
Proof. apply address_list_wp. Qed.
End properties.

(** ** A concrete network *)

(** Sockets are descriptor 5, a connection is refused after the selection, and
    two names resolve. *)
Definition sample_network : Env := fun _ c =>
  (match c with
   | Socket => 5
   | Connect _ _ => -1
   | Errno => EINPROGRESS
   | Gethostbyname "alpha" => 10
   | Gethostbyname "beta" => 20
   | _ => 0
   end, "").

Definition empty_world : world := World [] 0 [] false (fun _ => 0) ∅ 1 [].

Lemma open_server_socket_closes_witness :
  (forall a, quiet ((fun _ : sockaddr_in => mret tt) a)) /\ 0 < 200 /\
  wp (open_server_socket (H := sample_network) 4711 (fun _ => mret tt) (Some 200))
    (no_leak empty_world) empty_world.
Proof.
  assert (Hq : forall a, quiet ((fun _ : sockaddr_in => mret tt) a)).
  { intros a w Q HQ. apply HQ. reflexivity. }
  split; [exact Hq|]. split; [lia|].
  apply (@open_server_socket_closes sample_network); [exact Hq|lia].
Defined.

Lemma connect_to_server_socket_leaks_witness :
  tg_handle (Target zero_addr (-1)) < 0 /\
  (exists w, connect_to_server_socket (H := sample_network) (Target zero_addr (-1)) (Some 200)
     empty_world = Ok ((-1, -4), w)) /\
  wp (connect_to_server_socket (H := sample_network) (Target zero_addr (-1)) (Some 200))
    (socket_left_open empty_world) empty_world.
Proof.
  split; [reflexivity|]. split; [eexists; vm_compute; reflexivity|].
  apply (@connect_to_server_socket_leaks sample_network); reflexivity.
Defined.

Lemma address_list_from_arguments_resolves_witness :
  wp (address_list_from_arguments (H := sample_network) 2 ["alpha"; "beta"] ["4711"; "80"]
        (replicate 3 (Target zero_addr (-1)))) (fun rs _ =>
    rs.1 = 2 /\ length rs.2 = 3%nat /\
    forall i a, zip ["alpha"; "beta"] ["4711"; "80"] !! i = Some a ->
      tg_address <$> rs.2 !! i = Some (described
        (fun name => (sample_network [] (Gethostbyname name)).1) a)) empty_world.
Proof.
  apply (@address_list_from_arguments_resolves sample_network
    (fun name => (sample_network [] (Gethostbyname name)).1)
    ["alpha"; "beta"] ["4711"; "80"] (replicate 3 (Target zero_addr (-1)))).
  - intros w name. reflexivity.
  - reflexivity.
  - cbn. lia.
  - vm_compute. discriminate.
  - repeat (constructor; [split; [vm_compute; discriminate|reflexivity]|]). constructor.
Defined.
