(* ===== verification/Session.v ===== *)
(** * Session handling

    [pcapsession/pcapsession.c]: the session table, the life cycle of a session,
    and the supervision loop.  The functions behind the [stopper] pointers are an
    instance of [Stoppers]; the supervisor's theorems are proved against what
    [StoppersSpec] asks of them. *)
From S2P Require Import Prelude Pcap Monitor Sys Wp Tcp.

(** The function a [stopper] pointer calls, on the session at a position. *)
Class Stoppers := stop_session : kind -> nat -> M unit.

Section session.
Context `{Env, Stoppers}.

(** ** The code *)

(** The loop of [pcapsession_handling_get_new], for [n] more slots from
    [session_id] on: the value of [session_id] after it. *)
Fixpoint find_unused (n session_id : nat) : M nat :=
  match n with
  | O => mret session_id
  | S n =>
      state ← field session_id s_state;
      if state =? PCAP_SESSION_UNUSED then mret session_id else find_unused n (S session_id)
  end.

(** What follows the loop: the slot is cleared and marked. *)
Definition claim_slot (session_id : nat) : M (option nat) :=
  if PCAP_SESSION_MAX_SESSIONS <=? Z.of_nat session_id then mret None else
  update session_id (fun _ => zero_session);;
  update session_id (set_id (Z.of_nat session_id));;
  update session_id (set_description "");;
  pcapsession_change_state (Z.of_nat session_id) PCAP_SESSION_STOPPED;;
  mret (Some session_id).

Definition pcapsession_handling_get_new : M (option nat) :=
  session_id ← find_unused (Z.to_nat PCAP_SESSION_MAX_SESSIONS) 0; claim_slot session_id.

Definition pcapsession_handling_add (session_id : Z) : M Z :=
  if (session_id <? 0) || (PCAP_SESSION_MAX_SESSIONS <=? session_id) then mret 0 else
  pcapsession_change_state session_id PCAP_SESSION_START;;
  p ← position session_id; update p (set_id session_id);;
  mret 1.

Definition pcapsession_start (session_id : Z) : M Z :=
  p ← position session_id;
  state ← field p s_state;
  if negb (state =? PCAP_SESSION_STARTING) then mret 0 else
  runner ← field p s_runner;
  match runner with
  | None => fail NullPointer
  | Some k =>
      r ← ext (PthreadCreate k p);
      if negb (r =? 0) then mret 0 else
      t ← gets next_thread;
      modify (fun w => set_next_thread (t + 1) (set_threads (<[t := Thread p k Spawned]> (threads w)) w));;
      update p (set_thread t);;
      mret 1
  end.

Definition pcapsession_stop (session_id : Z) : M unit :=
  p ← position session_id;
  t ← field p s_thread;
  when (negb (t =? 0))
    (ext (PthreadCancel t);; ext (PthreadJoin t);;
     modify (fun w => set_threads (delete t (threads w)) w);;
     update p (set_thread 0));;
  stopper ← field p s_stopper;
  match stopper with None => fail NullPointer | Some k => stop_session k p end;;
  state ← field p s_state;
  when (state =? PCAP_SESSION_STOPPED) (pcapsession_change_state session_id PCAP_SESSION_UNUSED).

(** The wait of [STARTING], [TERMINATING] and [ABORTING]: what to do when the
    intervals have run out, or one more interval. *)
Definition await (p : nat) (timed_out : M unit) : M unit :=
  c ← field p s_interval_counter;
  if PCAP_SESSION_SUPERVISION_TRANSITION_INTERVALS <=? c then timed_out
  else update p (fun s => set_interval_counter (s_interval_counter s + 1) s).

Definition pcapsession_transition_session (session_id : Z) : M unit :=
  p ← position session_id;
  state ← field p s_state;
  if (state =? PCAP_SESSION_UNUSED) || (state =? PCAP_SESSION_STOPPED) then mret tt else
  if state =? PCAP_SESSION_START then
    pcapsession_change_state session_id PCAP_SESSION_STARTING;;
    update p (set_interval_counter 0);;
    pcapsession_start session_id;; mret tt
  else if state =? PCAP_SESSION_STARTING then
    await p (pcapsession_change_state session_id PCAP_SESSION_TERMINATE)
  else if state =? PCAP_SESSION_RUNNING then mret tt
  else if state =? PCAP_SESSION_TERMINATE then
    pcapsession_change_state session_id PCAP_SESSION_TERMINATING;;
    update p (set_interval_counter 0);;
    pcapsession_stop session_id
  else if state =? PCAP_SESSION_ABORT then
    pcapsession_change_state session_id PCAP_SESSION_ABORTING;;
    update p (set_interval_counter 0);;
    pcapsession_stop session_id
  else if (state =? PCAP_SESSION_TERMINATING) || (state =? PCAP_SESSION_ABORTING) then
    await p (pcapsession_change_state session_id PCAP_SESSION_STOPPED;;
             pcapsession_stop session_id)
  else
    pcapsession_change_state session_id PCAP_SESSION_STOPPED;;
    pcapsession_stop session_id.

(** The flush of an idle dumper, and the output of the monitor, of a running
    session. *)
Definition flush_idle (p : nat) : M unit :=
  monitor ← field p s_monitor;
  dumper ← field p s_pcap_dumper;
  match monitor with
  | None => mret tt
  | Some m => when (negb (dumper =? 0) && (m_bytes m =? 0)) (ext (PcapDumpFlush dumper);; mret tt)
  end.

Definition output_monitor (p : nat) : M unit :=
  monitor ← field p s_monitor;
  match monitor with
  | None => mret tt
  | Some m =>
      now ← ext Time;
      glob ← gets (fun w => monitor_last_output_time w TuSession);
      '(m, glob, _) ← lift (handle_monitor now glob m);
      modify (set_last_output TuSession glob);;
      update p (set_monitor (Some m))
  end.

(** The changes of state in the loop over the sessions of
    [pcapsession_supervision_run], and the output of a running session. *)
Definition supervise_states (i : nat) (handling : Z) : M unit :=
  when (negb (handling =? PCAP_SESSION_RUNNING))
    (state ← field i s_state;
     when (negb (state =? PCAP_SESSION_STOPPED) && negb (state =? PCAP_SESSION_ABORTING))
       (pcapsession_change_state (Z.of_nat i) PCAP_SESSION_ABORT));;
  supervise_fd ← field i s_supervise_fd;
  fd ← field i s_fd;
  when ((supervise_fd =? PCAP_SESSION_SUPERVISED_FD) && (2 <? fd))
    (open ← iotests_fd_open fd;
     when (negb open) (pcapsession_change_state (Z.of_nat i) PCAP_SESSION_TERMINATE));;
  pcapsession_transition_session (Z.of_nat i).

Definition supervise_output (i : nat) : M unit :=
  state ← field i s_state;
  when (state =? PCAP_SESSION_RUNNING) (flush_idle i;; output_monitor i).

(** The body of that loop: whether the session counts as running. *)
Definition supervise (i : nat) : M bool :=
  state ← field i s_state;
  if state =? PCAP_SESSION_UNUSED then mret false else
  handling ← gets session_handling_state;
  supervise_states i handling;;
  supervise_output i;;
  mret true.

(** The loop over [n] more sessions from [i] on, with the sessions counted. *)
Fixpoint supervise_from (n i : nat) (sessioncount : Z) : M Z :=
  match n with
  | O => mret sessioncount
  | S n =>
      counted ← supervise i;
      supervise_from n (S i) (if (counted : bool) then sessioncount + 1 else sessioncount)
  end.

(** One turn of the supervision loop: whether it goes on. *)
Definition supervision_pass : M bool :=
  sessioncount ← supervise_from (Z.to_nat PCAP_SESSION_MAX_SESSIONS) 0 0;
  handling ← gets session_handling_state;
  if (sessioncount =? 0) && negb (handling =? PCAP_SESSION_RUNNING) then
    modify (set_handling PCAP_SESSION_STOPPED);; mret false
  else mret true.

(** Some number of turns: whether supervision still runs. *)
Fixpoint supervision_passes (n : nat) : M bool :=
  match n with
  | O => mret true
  | S n => goes_on ← supervision_pass; if (goes_on : bool) then supervision_passes n else mret false
  end.

(** [pcapsession_supervision_run], for at most [n] turns. *)
Definition pcapsession_supervision_run (n : nat) : M bool :=
  modify (set_handling PCAP_SESSION_RUNNING);; supervision_passes n.

(** The loop that marks every session unused. *)
Fixpoint mark_unused (n session_id : nat) : M unit :=
  match n with
  | O => mret tt
  | S n => pcapsession_change_state (Z.of_nat session_id) PCAP_SESSION_UNUSED;; mark_unused n (S session_id)
  end.

(** [pcapsession_handling_init], up to the wait for the new thread to leave
    [STARTING]: [None] when it waits. *)
Definition pcapsession_handling_init : M (option Z) :=
  handling ← gets session_handling_state;
  if handling =? PCAP_SESSION_STOPPED then
    modify (set_handling PCAP_SESSION_STARTING);;
    modify (fun w => set_list (replicate (Z.to_nat PCAP_SESSION_MAX_SESSIONS) zero_session) w);;
    mark_unused (Z.to_nat PCAP_SESSION_MAX_SESSIONS) 0;;
    r ← ext CreateSupervision;
    mret (if negb (r =? 0) then Some 0 else None)
  else mret (Some 1).

Definition pcapsession_handling_close : M unit :=
  modify (set_handling PCAP_SESSION_TERMINATING).
End session.

(** ** What the supervisor asks of a stopper

    It works on its own session, starts and stops no thread, keeps the fields
    the supervisor uses, and leaves the session stopped or awaiting a restart;
    on abort, stopped. *)

Record stopped (s s' : session) : Prop := {
  st_id : s_id s' = s_id s;
  st_thread : s_thread s' = s_thread s;
  st_runner : s_runner s' = s_runner s;
  st_stopper : s_stopper s' = s_stopper s;
  st_counter : s_interval_counter s' = s_interval_counter s;
  st_monitor : s_monitor s' = None \/ s_monitor s' = s_monitor s;
  st_state : s_state s' = PCAP_SESSION_STOPPED \/ s_state s' = PCAP_SESSION_START;
  st_abort : s_state s = PCAP_SESSION_ABORTING -> s_state s' = PCAP_SESSION_STOPPED }.

Class StoppersSpec `{Env, Stoppers} := stop_session_spec : forall k p s,
  (p < 128)%nat -> s_id s = Z.of_nat p ->
  local same_threads p (stop_session k p) s (fun _ s' => stopped s s').

(** ** The life cycle as an automaton

    One visit of the supervisor moves a session from a state and an interval
    count to the next. *)
Inductive lifecycle : Z * Z -> Z * Z -> Prop :=
  | life_stopped c : lifecycle (PCAP_SESSION_STOPPED, c) (PCAP_SESSION_STOPPED, c)
  | life_running c : lifecycle (PCAP_SESSION_RUNNING, c) (PCAP_SESSION_RUNNING, c)
  | life_start c : lifecycle (PCAP_SESSION_START, c) (PCAP_SESSION_STARTING, 0)
  | life_wait st c : st = PCAP_SESSION_STARTING \/ st = PCAP_SESSION_TERMINATING \/
      st = PCAP_SESSION_ABORTING -> c < 10 -> lifecycle (st, c) (st, c + 1)
  | life_start_timeout c : 10 <= c ->
      lifecycle (PCAP_SESSION_STARTING, c) (PCAP_SESSION_TERMINATE, c)
  | life_terminate c st : st = PCAP_SESSION_UNUSED \/ st = PCAP_SESSION_START ->
      lifecycle (PCAP_SESSION_TERMINATE, c) (st, 0)
  | life_abort c : lifecycle (PCAP_SESSION_ABORT, c) (PCAP_SESSION_UNUSED, 0)
  | life_stop_timeout old c st : old = PCAP_SESSION_TERMINATING \/ old = PCAP_SESSION_ABORTING ->
      10 <= c -> st = PCAP_SESSION_UNUSED \/ st = PCAP_SESSION_START -> lifecycle (old, c) (st, c)
  | life_other old c st : 8 < old \/ old < 0 -> st = PCAP_SESSION_UNUSED \/ st = PCAP_SESSION_START ->
      lifecycle (old, c) (st, c).

(** A session that the supervisor may work on: it is free, or it knows its slot
    and, once it was added, what runs and stops it. *)
Record managed (p : nat) (s : session) : Prop := {
  mg_id : s_id s = Z.of_nat p;
  mg_runner : is_Some (s_runner s);
  mg_stopper : s_stopper s = s_runner s;
  mg_monitor : forall m, s_monitor s = Some m -> 0 <= m_last_output_time m }.

Definition session_ok (p : nat) (s : session) : Prop :=
  s_state s = PCAP_SESSION_UNUSED \/ managed p s \/
  s_state s = PCAP_SESSION_STOPPED /\ s_id s = Z.of_nat p /\ s_monitor s = None /\
    s_supervise_fd s = PCAP_SESSION_UNSUPERVISED_FD.

(** What a visit keeps of a managed session. *)
Record kept (s s' : session) : Prop := {
  kp_id : s_id s' = s_id s;
  kp_runner : s_runner s' = s_runner s;
  kp_stopper : s_stopper s' = s_stopper s;
  kp_monitor : s_monitor s' = None \/ s_monitor s' = s_monitor s }.

Lemma kept_managed p s s' : managed p s -> kept s s' -> managed p s'.
Proof.
  intros [] []. split; [congruence..|]. intros m Hm. apply mg_monitor0.
  destruct kp_monitor0; congruence.
Qed.

Section supervisor.
Context `{Henv : Env, Hstop : Stoppers, !StoppersSpec}.
Implicit Types (s : session) (w : world) (p : nat).

(** ** The functions on one session *)

Lemma stop_session_any k p s : (p < 128)%nat -> s_id s = Z.of_nat p ->
  local any_threads p (stop_session k p) s (fun _ s' => stopped s s').
Proof.
  intros Hp Hid. eapply local_weaken; [|by apply stop_session_spec].
  intros w w' _ (_ & Hn & Hg). split; [lia|done].
Qed.

(** What [pcapsession_stop] does to its session. *)
Definition stop_result (s s' : session) : Prop :=
  kept s s' /\ s_thread s' = 0 /\ s_interval_counter s' = s_interval_counter s /\
  (s_state s' = PCAP_SESSION_UNUSED \/ s_state s' = PCAP_SESSION_START) /\
  (s_state s = PCAP_SESSION_ABORTING -> s_state s' = PCAP_SESSION_UNUSED).

Lemma local_delete_thread p t s (Q : unit -> session -> Prop) : Q tt s ->
  local any_threads p (modify (fun w => set_threads (delete t (threads w)) w)) s Q.
Proof.
  intros HQ w Hs Hc. apply wp_modify. exists s. split; [|done].
  apply only_session_same; try done.
Qed.

Lemma pcapsession_stop_local p s : (p < 128)%nat -> managed p s ->
  local any_threads p (pcapsession_stop (Z.of_nat p)) s (fun _ => stop_result s).
Proof.
  intros Hp Hm. destruct (mg_runner _ _ Hm) as [k Hr]. pose proof (mg_stopper _ _ Hm) as Hk.
  rewrite Hr in Hk. unfold pcapsession_stop.
  local_step. local_step. local_step. local_step. local_step.
  assert (Hrest : forall s0, s_thread s0 = 0 -> s0 = set_thread 0 s ->
    local any_threads p
      (stopper ← field p s_stopper;
       match stopper with None => fail NullPointer | Some k => stop_session k p end;;
       state ← field p s_state;
       when (state =? PCAP_SESSION_STOPPED)
         (pcapsession_change_state (Z.of_nat p) PCAP_SESSION_UNUSED)) s0
      (fun _ => stop_result s)).
  { intros s0 Ht ->. local_step. local_step. cbn. rewrite Hk. local_step.
    eapply local_mono; [apply stop_session_any; [done|apply Hm]|]. intros _ s1 [].
    cbn in *. local_step. local_step. local_step; [local_step|].
    - split; [split; cbn; congruence|]. cbn. repeat split; try congruence; by left.
    - split; [split; cbn; congruence|]. destruct st_state0 as [Hst|Hst];
        rewrite Hst in *; [done|]. repeat split; try congruence; [by right|].
      intros Ha. by apply st_abort0 in Ha. }
  local_step.
  - local_step. local_step. local_step. local_step. local_step.
    apply local_delete_thread. local_step. by apply Hrest.
  - apply Hrest; [lia|]. assert (Ht : s_thread s = 0) by lia. destruct s; cbn in *. by rewrite Ht.
Qed.

(** ** The life cycle *)

Definition transition_result (s s' : session) : Prop :=
  kept s s' /\ lifecycle (s_state s, s_interval_counter s) (s_state s', s_interval_counter s').

Lemma local_spawn p k s (Q : Z -> session -> Prop) :
  (forall t, Q 1 (set_thread t s)) ->
  local any_threads p
    (t ← gets next_thread;
     modify (fun w => set_next_thread (t + 1)
       (set_threads (<[t := Thread p k Spawned]> (threads w)) w));;
     update p (set_thread t);;
     mret 1) s Q.
Proof.
  intros HQ w Hs Hc. apply wp_bind, wp_gets, wp_bind, wp_modify, wp_bind.
  eapply wp_update; [done|]. apply wp_ret. eexists. split; [|apply HQ].
  split; try done. split; [cbn; lia|done].
Qed.

Lemma pcapsession_start_local p s : (p < 128)%nat -> managed p s ->
  local any_threads p (pcapsession_start (Z.of_nat p)) s
    (fun _ s' => kept s s' /\ s_state s' = s_state s /\ s_interval_counter s' = s_interval_counter s).
Proof.
  intros Hp Hm. pose proof (mg_runner _ _ Hm) as [k Hk]. unfold pcapsession_start.
  assert (kept s s) by (split; [done..|by right]).
  local_step. local_step. local_step. local_step. local_step; [by local_step|].
  local_step. local_step. cbn. rewrite Hk. local_step. local_step.
  local_step; [by local_step|]. apply local_spawn. intros t.
  split; [split; [done..|by right]|done].
Qed.

Lemma same_kept s s1 : s_id s1 = s_id s -> s_runner s1 = s_runner s ->
  s_stopper s1 = s_stopper s -> s_monitor s1 = s_monitor s -> kept s s1.
Proof. intros. split; [done..|by right]. Qed.

(** Stopping the session after a change of its state and counter. *)
Lemma stop_after p s s1 : (p < 128)%nat -> managed p s -> kept s s1 ->
  local any_threads p (pcapsession_stop (Z.of_nat p)) s1 (fun _ s' =>
    kept s s' /\ s_interval_counter s' = s_interval_counter s1 /\
    (s_state s' = PCAP_SESSION_UNUSED \/ s_state s' = PCAP_SESSION_START) /\
    (s_state s1 = PCAP_SESSION_ABORTING -> s_state s' = PCAP_SESSION_UNUSED)).
Proof.
  intros Hp Hm Hk. eapply local_mono.
  - apply pcapsession_stop_local; [done|]. by eapply kept_managed.
  - intros _ s' ([] & _ & ? & ? & ?). destruct Hk. split; [|done].
    split; [congruence..|]. destruct kp_monitor0, kp_monitor1; (left; congruence) || (right; congruence).
Qed.

(** The same after the state was set, with the counter reset or left. *)
Lemma stop_reset p s n : (p < 128)%nat -> managed p s ->
  local any_threads p
    (pcapsession_change_state (Z.of_nat p) n;; update p (set_interval_counter 0);;
     pcapsession_stop (Z.of_nat p)) s (fun _ s' =>
    kept s s' /\ s_interval_counter s' = 0 /\
    (s_state s' = PCAP_SESSION_UNUSED \/ s_state s' = PCAP_SESSION_START) /\
    (n = PCAP_SESSION_ABORTING -> s_state s' = PCAP_SESSION_UNUSED)).
Proof.
  intros Hp Hm. local_step. local_step. local_step. local_step.
  eapply (stop_after p s); [done..|by apply same_kept].
Qed.

Lemma stop_at_once p s : (p < 128)%nat -> managed p s ->
  local any_threads p
    (pcapsession_change_state (Z.of_nat p) PCAP_SESSION_STOPPED;;
     pcapsession_stop (Z.of_nat p)) s (fun _ s' =>
    kept s s' /\ s_interval_counter s' = s_interval_counter s /\
    (s_state s' = PCAP_SESSION_UNUSED \/ s_state s' = PCAP_SESSION_START)).
Proof.
  intros Hp Hm. local_step. local_step.
  eapply local_mono; [eapply (stop_after p s); [done..|by apply same_kept]|].
  by intros _ s' (? & ? & ? & _).
Qed.

Lemma start_reset p s : (p < 128)%nat -> managed p s ->
  local any_threads p
    (pcapsession_change_state (Z.of_nat p) PCAP_SESSION_STARTING;;
     update p (set_interval_counter 0);; pcapsession_start (Z.of_nat p);; mret tt) s (fun _ s' =>
    kept s s' /\ s_interval_counter s' = 0 /\ s_state s' = PCAP_SESSION_STARTING).
Proof.
  intros Hp Hm. local_step. local_step. local_step. local_step. local_step.
  eapply local_mono; [apply pcapsession_start_local; [done|]|].
  - eapply kept_managed; [done|]. by apply same_kept.
  - intros ? s1 ([] & ? & ?). local_step. cbn in *. split; [by split; congruence|done].
Qed.

(** A wait that has not timed out. *)
Lemma waits p s st : s_state s = st -> st = PCAP_SESSION_STARTING \/ st = PCAP_SESSION_TERMINATING \/
    st = PCAP_SESSION_ABORTING -> s_interval_counter s < 10 ->
  transition_result s (set_interval_counter (s_interval_counter s + 1) s).
Proof. intros Hs Hst Hc. split; [by apply same_kept|]. cbn. apply life_wait; by rewrite ?Hs. Qed.

Lemma pcapsession_transition_local p s : (p < 128)%nat ->
  s_state s <> PCAP_SESSION_UNUSED ->
  s_state s = PCAP_SESSION_STOPPED \/ managed p s ->
  local any_threads p (pcapsession_transition_session (Z.of_nat p)) s
    (fun _ => transition_result s).
Proof.
  intros Hp Hu Hm. unfold pcapsession_transition_session, await, transition_result.
  local_step. local_step. local_step. local_step. local_step.
  { local_step. split; [by apply same_kept|].
    replace (s_state s) with PCAP_SESSION_STOPPED by lia. constructor. }
  destruct Hm as [Hm|Hm]; [lia|]. local_step.
  { eapply local_mono; [by apply start_reset|]. intros _ s' (? & -> & ->). split; [done|].
    replace (s_state s) with PCAP_SESSION_START by lia. constructor. }
  local_step.
  { local_step. local_step.
    local_step; local_step; [split; [by apply same_kept|]; cbn|apply (waits p s _ eq_refl); states_tac].
    replace (s_state s) with PCAP_SESSION_STARTING by lia. apply life_start_timeout. states_tac. }
  local_step.
  { local_step. split; [by apply same_kept|].
    replace (s_state s) with PCAP_SESSION_RUNNING by lia. constructor. }
  local_step.
  { eapply local_mono; [by apply stop_reset|]. intros _ s' (? & -> & ? & _). split; [done|].
    replace (s_state s) with PCAP_SESSION_TERMINATE by lia. by constructor. }
  local_step.
  { eapply local_mono; [by apply stop_reset|]. intros _ s' (? & -> & _ & ->); [|done]. split; [done|].
    replace (s_state s) with PCAP_SESSION_ABORT by lia. constructor. }
  local_step.
  { local_step. local_step. local_step; [|local_step; apply (waits p s _ eq_refl); states_tac].
    eapply local_mono; [by apply stop_at_once|]. intros _ s' (? & -> & ?). split; [done|].
    apply life_stop_timeout; [states_tac|states_tac|done]. }
  eapply local_mono; [by apply stop_at_once|]. intros _ s' (? & -> & ?). split; [done|].
  apply life_other; [states_tac|done].
Qed.

(** ** A visit of the supervisor *)

(** The state of a session after the order to shut down, if there is one. *)
Definition ordered (running : bool) (s : session) : Z :=
  if running || (s_state s =? PCAP_SESSION_STOPPED) || (s_state s =? PCAP_SESSION_ABORTING)
  then s_state s else PCAP_SESSION_ABORT.

(** The state of a session when its transition runs. *)
Definition entered (running fd_open : bool) (s : session) : Z :=
  if (s_supervise_fd s =? PCAP_SESSION_SUPERVISED_FD) && (2 <? s_fd s) && negb fd_open
  then PCAP_SESSION_TERMINATE else ordered running s.

(** What [iotests_fd_open] can have found. *)
Definition fd_tested (fd : Z) (fd_open : bool) : Prop :=
  ((forall w, answer w (Poll fd) = 0) -> fd_open = true) /\
  ((forall w, answer w (Poll fd) <> 0) -> fd_open = false).

(** The session after the visit, when session handling is in the state [h]. *)
Definition visited (p : nat) (h : Z) (s s' : session) : Prop :=
  session_ok p s' /\ exists fd_open, fd_tested (s_fd s) fd_open /\
    lifecycle (entered (h =? PCAP_SESSION_RUNNING) fd_open s, s_interval_counter s)
      (s_state s', s_interval_counter s').

(** A used session of the table is managed, or claimed but not yet added. *)
Definition claimed (p : nat) (s : session) : Prop :=
  s_state s = PCAP_SESSION_STOPPED /\ s_id s = Z.of_nat p /\ s_monitor s = None /\
  s_supervise_fd s = PCAP_SESSION_UNSUPERVISED_FD.

(** The table and the clock as the supervisor finds them. *)
Definition output_ok (w : world) : Prop :=
  0 <= monitor_last_output_time w TuSession <= answer w Time.

Record table_ok (w : world) : Prop := {
  tb_sessions : length (session_list w) = 128%nat;
  tb_conns : length (clientconnlist w) = 128%nat;
  tb_session p s : session_list w !! p = Some s -> session_ok p s;
  tb_output : output_ok w }.

Lemma fd_tested_answer fd w : fd_tested fd (answer w (Poll fd) =? 0).
Proof. split; intros Ha; specialize (Ha w); lia. Qed.

Lemma fd_tested_exists fd : exists fd_open, fd_tested fd fd_open.
Proof. eexists. apply (fd_tested_answer fd (World [] 0 [] false (fun _ => 0) ∅ 1 [])). Qed.

Lemma set_state_managed p s st : managed p s -> managed p (set_state st s).
Proof. intros []. by split. Qed.

Lemma abort_order p s h :
  local any_threads p (when (negb (h =? PCAP_SESSION_RUNNING))
    (state ← field p s_state;
     when (negb (state =? PCAP_SESSION_STOPPED) && negb (state =? PCAP_SESSION_ABORTING))
       (pcapsession_change_state (Z.of_nat p) PCAP_SESSION_ABORT))) s
    (fun _ s' => s' = set_state (ordered (h =? PCAP_SESSION_RUNNING) s) s).
Proof.
  unfold ordered. destruct (h =? PCAP_SESSION_RUNNING); cbn [negb orb].
  - local_step; [done|by destruct s].
  - local_step; [|done]. local_step. local_step. local_step.
    + local_step. destruct (s_state s =? PCAP_SESSION_STOPPED), (s_state s =? PCAP_SESSION_ABORTING);
        done.
    + destruct (s_state s =? PCAP_SESSION_STOPPED), (s_state s =? PCAP_SESSION_ABORTING);
        by destruct s.
Qed.

Lemma ordered_used running s : s_state s <> PCAP_SESSION_UNUSED ->
  ordered running s <> PCAP_SESSION_UNUSED.
Proof. unfold ordered. destruct (_ || _); [done|states_tac]. Qed.

(** The transition from the state a session was told to have. *)
Lemma entered_transition p s h fd_open : (p < 128)%nat -> s_state s <> PCAP_SESSION_UNUSED ->
  session_ok p s -> fd_tested (s_fd s) fd_open ->
  local any_threads p (pcapsession_transition_session (Z.of_nat p))
    (set_state (entered (h =? PCAP_SESSION_RUNNING) fd_open s) s)
    (fun _ s' => exists fd_open, fd_tested (s_fd s) fd_open /\
      transition_result (set_state (entered (h =? PCAP_SESSION_RUNNING) fd_open s) s) s').
Proof.
  intros Hp Hu Hok Ho. eapply local_mono; [apply pcapsession_transition_local; [done|..]|].
  - cbn. unfold entered. destruct (_ && negb fd_open); [states_tac|by apply ordered_used].
  - destruct Hok as [|[Hmg|(Hs & Hid & _ & Hfd)]]; [done|right; by apply set_state_managed|].
    left. cbn. unfold entered, ordered. rewrite Hfd, Hs. cbn. by rewrite orb_true_r.
  - intros u s' Ht. by exists fd_open.
Qed.

Lemma supervise_states_local p s h : (p < 128)%nat -> s_state s <> PCAP_SESSION_UNUSED ->
  session_ok p s ->
  local any_threads p (supervise_states p h) s (fun _ s' => exists fd_open,
    fd_tested (s_fd s) fd_open /\
    transition_result (set_state (entered (h =? PCAP_SESSION_RUNNING) fd_open s) s) s').
Proof.
  intros Hp Hu Hok. unfold supervise_states, iotests_fd_open.
  pose proof (fun fd_open => entered_transition p s h fd_open Hp Hu Hok) as Hgo.
  apply local_bind; [apply _|]. eapply local_mono; [apply abort_order|]. intros _ ? ->.
  local_step. local_step. local_step. local_step. cbn [s_fd s_supervise_fd set_state]. local_step.
  apply local_when; [apply _|..]; intros Hcond.
  - local_step. local_step. apply local_answer; [apply _|]. intros w. local_step.
    specialize (Hgo _ (fd_tested_answer (s_fd s) w)). unfold entered in Hgo at 1.
    rewrite Hcond in Hgo. local_step; rewrite H0 in Hgo; [local_step|]; exact Hgo.
  - destruct (fd_tested_exists (s_fd s)) as [fd_open Ho]. specialize (Hgo _ Ho).
    unfold entered in Hgo at 1. by rewrite Hcond in Hgo.
Qed.

(** The visit of a session that was claimed but not yet added changes nothing. *)
Lemma supervise_states_claimed p s h : claimed p s ->
  local any_threads p (supervise_states p h) s (fun _ s' => s' = s).
Proof.
  intros (Hs & _ & _ & Hfd). unfold supervise_states, pcapsession_transition_session.
  local_step. apply (local_mono _ _ _ _ (fun _ s' => s' = s)).
  - local_step; [|done]. local_step. local_step. rewrite Hs. local_step; [states_tac|done].
  - intros _ ? ->. local_step. local_step. local_step. local_step. local_step. rewrite Hfd.
    local_step; [states_tac|]. local_step. local_step. local_step. local_step.
    local_step; [by local_step|states_tac].
Qed.

Lemma supervise_states_visited p s h : (p < 128)%nat -> s_state s <> PCAP_SESSION_UNUSED ->
  session_ok p s -> local any_threads p (supervise_states p h) s (fun _ s' => visited p h s s').
Proof.
  intros Hp Hu Hok. destruct Hok as [|[Hm|Hcl]] eqn:E; [done|..]; clear E.
  - eapply local_mono; [apply supervise_states_local; [done..|by right; left]|].
    intros u s' (fd_open & Ho & Hk & Hl). split; [|by exists fd_open].
    right. left. eapply kept_managed; [|done]. by apply set_state_managed.
  - eapply local_mono; [by apply supervise_states_claimed|]. intros u s' ->.
    split; [by right; right|]. destruct (fd_tested_exists (s_fd s)) as [fd_open Ho].
    exists fd_open. split; [done|]. destruct Hcl as (Hs & _ & _ & Hfd). unfold entered, ordered.
    rewrite Hfd, Hs. cbn. rewrite orb_true_r. constructor.
Qed.

(** The frame of an output: the threads and the other files' last output times
    stay, and the clock stays ahead of the last output. *)
Definition visit_frame (w w' : world) : Prop :=
  threads w' = threads w /\ next_thread w' = next_thread w /\
  (forall u, u <> TuSession -> monitor_last_output_time w' u = monitor_last_output_time w u) /\
  (output_ok w -> output_ok w').

Lemma output_ok_later `{!Clock} w w' : trace w `prefix_of` trace w' ->
  monitor_last_output_time w' = monitor_last_output_time w -> output_ok w -> output_ok w'.
Proof.
  unfold output_ok, answer. intros Htr -> [? ?]. split; [done|].
  pose proof (clock_mono _ _ Htr). lia.
Qed.

#[export] Instance visit_frame_frame `{!Clock} : Frame visit_frame.
Proof.
  split.
  - intros w w' Ht Hn Hg Htr. split; [done|]. split; [done|].
    split; [by rewrite Hg|by apply output_ok_later].
  - intros w1 w2 w3 (? & ? & Hu1 & ?) (? & ? & Hu2 & ?). split; [congruence|].
    split; [congruence|]. split; [intros u Hu; by rewrite Hu2, Hu1|auto].
Qed.

Lemma flush_idle_local T `{Frame T} p s : local T p (flush_idle p) s (fun _ s' => s' = s).
Proof.
  unfold flush_idle. local_step. local_step. local_step. local_step.
  destruct (s_monitor s); [|by local_step]. local_step; [|done]. local_step. local_step. by local_step.
Qed.

(** The output of a monitor, under a clock that is not set back. *)
Lemma output_monitor_wp `{!Clock} p s w : session_list w !! p = Some s -> output_ok w ->
  (forall m, s_monitor s = Some m -> 0 <= m_last_output_time m) ->
  wp (output_monitor p) (fun _ w' => exists s', only_session visit_frame p w w' s' /\
    (s' = s \/ exists m, s' = set_monitor (Some m) s /\ 0 <= m_last_output_time m)) w.
Proof.
  intros Hs Hout Hm. unfold output_monitor. wp_step. wp_step.
  destruct (s_monitor s) as [m|]; [|wp_step; exists s; split; [apply only_session_refl; [apply _|done]|by left]].
  wp_step. apply wp_ext. wp_step. wp_step. cbn. wp_step.
  destruct Hout as [Hg0 Hg1]. unfold answer in *. pose proof (clock_range (trace w)).
  destruct (handle_monitor_defined (oracle (trace w) Time).1
    (monitor_last_output_time w TuSession) m) as (m' & glob' & r & Hh & Hg & Hlast); [lia|lia|auto|].
  eapply wp_lift; [done|]. cbn. wp_step. wp_step. eapply wp_update; [done|].
  eexists. split.
  - split; [done..|by eexists|]. split; [done|]. split; [done|].
    split; [intros u Hu; cbn; by rewrite decide_False|]. intros _. unfold output_ok, answer. cbn.
    rewrite decide_True by done.
    pose proof (clock_mono (trace w) (trace w ++ [(Time, (oracle (trace w) Time).1)])
      ltac:(by eexists)). lia.
  - right. exists m'. split; [done|]. specialize (Hm m eq_refl). lia.
Qed.

Lemma supervise_output_wp `{!Clock} p s w :
  session_list w !! p = Some s -> length (clientconnlist w) = 128%nat -> output_ok w ->
  (s_state s = PCAP_SESSION_RUNNING -> forall m, s_monitor s = Some m -> 0 <= m_last_output_time m) ->
  wp (supervise_output p) (fun _ w' => exists s', only_session visit_frame p w w' s' /\
    (s' = s \/ s_state s = PCAP_SESSION_RUNNING /\
       exists m, s' = set_monitor (Some m) s /\ 0 <= m_last_output_time m)) w.
Proof.
  intros Hs Hc Hout Hm. unfold supervise_output. wp_step. wp_step. wp_step;
    [|exists s; split; [apply only_session_refl; [apply _|done]|by left]].
  wp_step. eapply wp_mono; [by apply (flush_idle_local visit_frame)|].
  intros _ w1 (? & Ho & ->). pose proof (only_session_lookup _ _ _ _ _ _ Hs Ho) as Hs1.
  eapply wp_mono; [apply (output_monitor_wp p s); [done| |apply Hm; lia]|].
  - by apply (os_frame _ _ _ _ _ Ho).
  - intros _ w2 (s2 & Ho2 & Hs2). exists s2. split; [eapply only_session_trans; [apply _|done|done]|].
    destruct Hs2; [by left|right; split; [lia|done]].
Qed.

Lemma visited_output p h s s1 s2 :
  visited p h s s1 ->
  s2 = s1 \/ s_state s1 = PCAP_SESSION_RUNNING /\
    (exists m, s2 = set_monitor (Some m) s1 /\ 0 <= m_last_output_time m) ->
  visited p h s s2.
Proof.
  intros Hv [->|(Hr & m & -> & Hm)]; [done|]. destruct Hv as [Hok Hl]. split; [|done].
  destruct Hok as [?|[[]|(? & _)]]; [by left|right; left|states_tac].
  split; try done. cbn. by intros ? [= <-].
Qed.

(** A visit never faults, works on its session alone, and follows the automaton. *)
Lemma supervise_wp `{!Clock} p s w : table_ok w -> session_list w !! p = Some s ->
  wp (supervise p) (fun counted w' => table_ok w' /\
    session_handling_state w' = session_handling_state w /\
    (forall q, q <> p -> session_list w' !! q = session_list w !! q) /\
    exists s', session_list w' !! p = Some s' /\
      if counted then s_state s <> PCAP_SESSION_UNUSED /\ visited p (session_handling_state w) s s'
      else s_state s = PCAP_SESSION_UNUSED /\ s' = s) w.
Proof.
  intros Htb Hs. pose proof (lookup_lt_Some _ _ _ Hs) as Hp. destruct Htb as [Hl Hc Hok Hout].
  rewrite Hl in Hp. unfold supervise. wp_step. wp_step.
  destruct (Z.eqb_spec (s_state s) PCAP_SESSION_UNUSED) as [Hu|Hu].
  { wp_step. split; [done|]. split; [done|]. split; [done|]. by exists s. }
  wp_step. wp_step. wp_step. set (h := session_handling_state w).
  eapply wp_mono; [by apply (supervise_states_visited p s h); auto|]. intros _ w1 (s1 & Ho1 & Hv).
  pose proof (only_session_lookup _ _ _ _ _ _ Hs Ho1) as Hs1.
  assert (Hout1 : output_ok w1).
  { destruct Ho1 as [_ _ _ ? [_ Hg]]. by apply (output_ok_later w). }
  wp_step. eapply wp_mono; [apply (supervise_output_wp p s1); [done| |done|]|].
  - by rewrite (os_conns _ _ _ _ _ Ho1).
  - intros Hr. destruct Hv as [[?|[[]|(? & _)]] _]; [states_tac|done|states_tac].
  - intros _ w2 (s2 & Ho2 & Hs2). pose proof (visited_output _ _ _ _ _ Hv Hs2) as Hv2.
    pose proof (only_session_lookup _ _ _ _ _ _ Hs1 Ho2) as Hl2. wp_step.
    assert (Hother : forall q, q <> p -> session_list w2 !! q = session_list w !! q).
    { intros q Hq. by rewrite (only_session_other _ _ _ _ _ _ (not_eq_sym Hq) Ho2),
        (only_session_other _ _ _ _ _ _ (not_eq_sym Hq) Ho1). }
    split; [|split; [|split; [done|by exists s2]]].
    + split.
      * by rewrite (only_session_length _ _ _ _ _ Ho2), (only_session_length _ _ _ _ _ Ho1).
      * by rewrite (os_conns _ _ _ _ _ Ho2), (os_conns _ _ _ _ _ Ho1).
      * intros q s0 Hq. destruct (decide (q = p)) as [->|Hn].
        -- rewrite Hl2 in Hq. injection Hq as <-. by apply Hv2.
        -- rewrite Hother in Hq by done. by apply Hok.
      * by apply (os_frame _ _ _ _ _ Ho2).
    + by rewrite (os_handling _ _ _ _ _ Ho2), (os_handling _ _ _ _ _ Ho1).
Qed.

(** ** A turn of the supervisor *)

Definition used (s : session) : bool := negb (s_state s =? PCAP_SESSION_UNUSED).

(** What became of the session of a slot. *)
Definition visited_if (b : bool) (j : nat) (h : Z) (s s' : session) : Prop :=
  if b && used s then visited j h s s' else s' = s.

Lemma supervise_from_wp `{!Clock} n : forall i c w, table_ok w -> (i + n <= 128)%nat ->
  wp (supervise_from n i c) (fun c' w' => table_ok w' /\
    session_handling_state w' = session_handling_state w /\
    c' = c + blen (filter (fun s => used s = true) (take n (drop i (session_list w)))) /\
    forall j s, session_list w !! j = Some s -> exists s', session_list w' !! j = Some s' /\
      visited_if (bool_decide (i <= j < i + n)%nat) j (session_handling_state w) s s') w.
Proof.
  induction n as [|n IH]; intros i c w Htb Hn.
  { apply wp_ret. split; [done|]. split; [done|]. split; [rewrite take_0, filter_nil; unfold blen; cbn; lia|].
    intros j s Hs. exists s. split; [done|]. unfold visited_if.
    by rewrite bool_decide_false by lia. }
  destruct (lookup_lt_is_Some_2 (session_list w) i) as [si Hsi];
    [rewrite (tb_sessions _ Htb); lia|].
  cbn [supervise_from]. wp_step. eapply wp_mono; [by apply supervise_wp|].
  intros counted w1 (Htb1 & Hh1 & Hother & s1 & Hs1 & Hc).
  eapply wp_mono; [apply IH; [done|lia]|]. intros c' w2 (Htb2 & Hh2 & -> & Hrest).
  rewrite Hh1 in *. split; [done|]. split; [done|]. split.
  - rewrite (drop_S _ _ _ Hsi). cbn [take]. rewrite filter_cons.
    assert (Hd : drop (S i) (session_list w1) = drop (S i) (session_list w)).
    { apply list_eq. intros k. rewrite !lookup_drop. apply Hother. lia. }
    rewrite Hd. destruct counted; destruct Hc as [Hu _]; unfold used;
      case_decide; rewrite ?blen_cons; lia.
  - intros j s Hs. destruct (decide (j = i)) as [->|Hj].
    + rewrite Hsi in Hs. injection Hs as <-.
      destruct (Hrest _ _ Hs1) as (s' & Hs' & Hv). exists s'. split; [done|].
      unfold visited_if in *. rewrite bool_decide_false in Hv by lia. cbn in Hv.
      subst s'. rewrite bool_decide_true by lia. cbn. unfold used.
      destruct counted; destruct Hc as [Hu Hv]; [by rewrite (proj2 (Z.eqb_neq _ _) Hu)|].
      by rewrite (proj2 (Z.eqb_eq _ _) Hu).
    + destruct (Hrest j s) as (s' & Hs' & Hv); [by rewrite Hother|]. exists s'. split; [done|].
      by rewrite (bool_decide_ext (i <= j < i + S n)%nat (S i <= j < S i + n)%nat) by lia.
Qed.

Lemma filter_used_nil l : blen (filter (fun s => used s = true) l) = 0 <->
  Forall (fun s => s_state s = PCAP_SESSION_UNUSED) l.
Proof.
  unfold blen. rewrite Forall_forall. split.
  - intros Hf s Hs. destruct (decide (used s = true)) as [Hu|Hu]; [|unfold used in *; lia].
    assert (Hin : s ∈ filter (fun s => used s = true) l) by (by apply list_elem_of_filter).
    destruct (filter _ l); cbn in *; [by apply not_elem_of_nil in Hin|lia].
  - intros Hall. enough (filter (fun s => used s = true) l = []) as -> by done.
    apply elem_of_nil_inv. intros s [Hu Hs]%list_elem_of_filter. apply Hall in Hs.
    unfold used in Hu. lia.
Qed.

(** One turn: every used session is visited, and supervision ends just when
    session handling is ordered to and no session was in use. *)
Lemma supervision_pass_wp `{!Clock} w : table_ok w ->
  wp supervision_pass (fun goes_on w' => table_ok w' /\
    session_handling_state w' =
      (if (goes_on : bool) then session_handling_state w else PCAP_SESSION_STOPPED) /\
    (goes_on = false <-> session_handling_state w <> PCAP_SESSION_RUNNING /\
       Forall (fun s => s_state s = PCAP_SESSION_UNUSED) (session_list w)) /\
    forall j s, session_list w !! j = Some s -> exists s', session_list w' !! j = Some s' /\
      visited_if true j (session_handling_state w) s s') w.
Proof.
  intros Htb. unfold supervision_pass. wp_step. eapply wp_mono; [by apply supervise_from_wp|].
  intros c w1 (Htb1 & Hh & Hc & Hall). rewrite drop_0, take_ge in Hc
    by (by rewrite (tb_sessions _ Htb)). rewrite Z.add_0_l in Hc.
  assert (Hall' : forall j s, session_list w !! j = Some s ->
    exists s', session_list w1 !! j = Some s' /\ visited_if true j (session_handling_state w) s s').
  { intros j s Hs. destruct (Hall j s Hs) as (s' & Hs' & Hv). exists s'. split; [done|].
    apply lookup_lt_Some in Hs. rewrite (tb_sessions _ Htb) in Hs.
    rewrite bool_decide_true in Hv; [done|]. change (0 + _)%nat with 128%nat. lia. }
  pose proof (filter_used_nil (session_list w)) as Hnil. rewrite <- Hc in Hnil.
  wp_step. wp_step. rewrite Hh. wp_step.
  - wp_step. wp_step. wp_step. split; [by destruct Htb1|]. split; [done|]. split; [|done].
    split; [intros _|done]. split; [lia|]. apply Hnil. lia.
  - wp_step. split; [done|]. split; [done|]. split; [|done]. split; [done|].
    intros [? ?%Hnil]. lia.
Qed.
(** ** Several turns *)

(** An environment in which every descriptor is open. *)
Definition fds_open : Prop := forall w fd, answer w (Poll fd) = 0.

Lemma visited_open p h s s' : fds_open -> visited p h s s' ->
  lifecycle (entered (h =? PCAP_SESSION_RUNNING) true s, s_interval_counter s)
    (s_state s', s_interval_counter s').
Proof. intros Ho (_ & b & [Hb _] & Hl). rewrite Hb in Hl; [done|]. intros w. apply Ho. Qed.

Lemma supervision_passes_S n (Q : bool -> world -> Prop) w :
  wp supervision_pass (fun goes_on w' =>
    if (goes_on : bool) then wp (supervision_passes n) Q w' else Q false w') w ->
  wp (supervision_passes (S n)) Q w.
Proof.
  intros Hw. cbn [supervision_passes]. wp_step. eapply wp_mono; [done|].
  by intros [] w' Hq.
Qed.

(** A session that has to stop when session handling ends. *)
Definition stoppable (s : session) : Prop :=
  s_state s <> PCAP_SESSION_STOPPED /\ s_state s <> PCAP_SESSION_ABORTING.

Lemma visited_stops p h s s' : fds_open -> h <> PCAP_SESSION_RUNNING -> stoppable s ->
  visited_if true p h s s' -> s_state s' = PCAP_SESSION_UNUSED.
Proof.
  intros Ho Hh [Hs Ha] Hv. unfold visited_if in Hv. cbn in Hv.
  destruct (used s) eqn:Hu; [|subst; unfold used in Hu; lia].
  apply (visited_open _ _ _ _ Ho) in Hv. unfold entered, ordered in Hv. cbn [negb] in Hv.
  rewrite andb_false_r, (proj2 (Z.eqb_neq _ _) Hh), (proj2 (Z.eqb_neq _ _) Hs),
    (proj2 (Z.eqb_neq _ _) Ha) in Hv. cbn in Hv.
  inversion Hv; subst; try states_tac.
Qed.

(** Two turns end supervision when session handling is ordered to end. *)
Lemma shutdown_wp `{!Clock} w : fds_open -> table_ok w ->
  session_handling_state w <> PCAP_SESSION_RUNNING -> Forall stoppable (session_list w) ->
  wp (supervision_passes 2) (fun goes_on w' => goes_on = false /\
    session_handling_state w' = PCAP_SESSION_STOPPED /\
    Forall (fun s => s_state s = PCAP_SESSION_UNUSED) (session_list w')) w.
Proof.
  intros Ho Htb Hh Hst. apply supervision_passes_S.
  eapply wp_mono; [by apply supervision_pass_wp|].
  assert (Hun : forall w', table_ok w' -> (forall j s, session_list w !! j = Some s ->
      exists s', session_list w' !! j = Some s' /\ visited_if true j (session_handling_state w) s s') ->
    Forall (fun s => s_state s = PCAP_SESSION_UNUSED) (session_list w')).
  { intros w' Htb' Hall. apply Forall_lookup. intros j s' Hs'.
    destruct (lookup_lt_is_Some_2 (session_list w) j) as [s Hs].
    { rewrite (tb_sessions _ Htb), <- (tb_sessions _ Htb'). by eapply lookup_lt_Some. }
    destruct (Hall j s Hs) as (s1 & Hs1 & Hv). rewrite Hs' in Hs1. injection Hs1 as <-.
    eapply visited_stops; [done..| |done]. by eapply Forall_lookup_1 in Hst. }
  intros [] w1 (Htb1 & Hh1 & _ & Hall); [|split; [done|split; [done|by apply Hun]]].
  specialize (Hun w1 Htb1 Hall). apply supervision_passes_S.
  eapply wp_mono; [by apply supervision_pass_wp|]. intros b w2 (Htb2 & Hh2 & Hend & Hall2).
  assert (b = false) as -> by (apply Hend; split; [by rewrite Hh1|done]).
  split; [done|]. split; [done|]. apply Forall_lookup. intros j s' Hs'.
  destruct (lookup_lt_is_Some_2 (session_list w1) j) as [s Hs].
  { rewrite (tb_sessions _ Htb1), <- (tb_sessions _ Htb2). by eapply lookup_lt_Some. }
  destruct (Hall2 j s Hs) as (s1 & Hs1 & Hv). rewrite Hs' in Hs1. injection Hs1 as <-.
  pose proof (Forall_lookup_1 _ _ _ _ Hun Hs) as Hu. unfold visited_if, used in Hv.
  rewrite Hu in Hv. cbn in Hv. by subst.
Qed.

(** A session whose thread stays away: [n] turns later it still waits, until
    the transition times out. *)
Lemma start_waits_wp `{!Clock} n : forall w p s, fds_open -> table_ok w ->
  session_handling_state w = PCAP_SESSION_RUNNING -> session_list w !! p = Some s ->
  s_state s = PCAP_SESSION_STARTING ->
  0 <= s_interval_counter s <= PCAP_SESSION_SUPERVISION_TRANSITION_INTERVALS ->
  s_interval_counter s + Z.of_nat n <= PCAP_SESSION_SUPERVISION_TRANSITION_INTERVALS + 1 ->
  wp (supervision_passes n) (fun goes_on w' => goes_on = true /\ table_ok w' /\
    exists s', session_list w' !! p = Some s' /\
      if s_interval_counter s + Z.of_nat n <=? PCAP_SESSION_SUPERVISION_TRANSITION_INTERVALS
      then s_state s' = PCAP_SESSION_STARTING /\
        s_interval_counter s' = s_interval_counter s + Z.of_nat n
      else s_state s' = PCAP_SESSION_TERMINATE) w.
Proof.
  induction n as [|n IH]; intros w p s Ho Htb Hh Hs Hst Hc Hn.
  { apply wp_ret. split; [done|]. split; [done|]. exists s. split; [done|].
    rewrite (proj2 (Z.leb_le _ _)) by states_tac. split; [done|lia]. }
  apply supervision_passes_S. eapply wp_mono; [by apply supervision_pass_wp|].
  intros b w1 (Htb1 & Hh1 & Hend & Hall). destruct b; [|by destruct (proj1 Hend eq_refl)].
  destruct (Hall p s Hs) as (s1 & Hs1 & Hv). unfold visited_if, used in Hv. rewrite Hst in Hv.
  cbn in Hv. apply (visited_open _ _ _ _ Ho) in Hv. unfold entered, ordered in Hv. rewrite Hh, Hst in Hv.
  cbn [negb] in Hv. rewrite andb_false_r in Hv. cbn in Hv.
  destruct (decide (s_interval_counter s = PCAP_SESSION_SUPERVISION_TRANSITION_INTERVALS)) as [E|E].
  - assert (n = 0)%nat as -> by lia. apply wp_ret. split; [done|]. split; [done|]. exists s1.
    split; [done|]. rewrite (proj2 (Z.leb_gt _ _)) by lia. inversion Hv; subst; states_tac.
  - assert (s_state s1 = PCAP_SESSION_STARTING /\ s_interval_counter s1 = s_interval_counter s + 1)
      as [Hst1 Hc1] by (inversion Hv; subst; try states_tac; split; congruence).
    eapply wp_mono; [apply (IH w1 p s1); try done; [by rewrite Hh1|lia|lia]|].
    intros b w2 (-> & Htb2 & s2 & Hs2 & Hres). split; [done|]. split; [done|]. exists s2.
    split; [done|]. rewrite Hc1 in Hres.
    by replace (s_interval_counter s + 1 + Z.of_nat n) with (s_interval_counter s + Z.of_nat (S n))
      in Hres by lia.
Qed.
End supervisor.

(** ** Claiming a slot *)

Section claim.
Context `{Henv : Env}.
Implicit Types (s : session) (w : world) (p : nat).

(** The session [pcapsession_handling_get_new] puts in slot [p]. *)
Definition fresh (p : nat) : session :=
  set_state PCAP_SESSION_STOPPED (set_description "" (set_id (Z.of_nat p) zero_session)).

Lemma find_unused_wp n : forall i w, (i + n = length (session_list w))%nat ->
  wp (find_unused n i) (fun r w' => w' = w /\ (i <= r <= i + n)%nat /\
    (forall q s, (i <= q < r)%nat -> session_list w !! q = Some s -> s_state s <> PCAP_SESSION_UNUSED) /\
    ((r < i + n)%nat -> exists s, session_list w !! r = Some s /\ s_state s = PCAP_SESSION_UNUSED)) w.
Proof.
  induction n as [|n IH]; intros i w Hn.
  { apply wp_ret. split; [done|]. split; [lia|]. split; [lia|lia]. }
  destruct (lookup_lt_is_Some_2 (session_list w) i) as [s Hs]; [lia|].
  cbn [find_unused]. wp_step. wp_step.
  destruct (Z.eqb_spec (s_state s) PCAP_SESSION_UNUSED) as [Hu|Hu].
  - apply wp_ret. split; [done|]. split; [lia|]. split; [lia|]. by exists s.
  - eapply wp_mono; [apply IH; lia|]. intros r w' (-> & Hr & Hb & Hf). split; [done|].
    split; [lia|]. split; [|intros; apply Hf; lia]. intros q s' Hq Hs'.
    destruct (decide (q = i)) as [->|]; [congruence|]. apply (Hb q); [lia|done].
Qed.

(** The outcome of [pcapsession_handling_get_new]. *)
Definition claims (w : world) (r : option nat) (w' : world) : Prop :=
  match r with
  | None => w' = w /\ forall q s, session_list w !! q = Some s -> s_state s <> PCAP_SESSION_UNUSED
  | Some p =>
      (exists s, session_list w !! p = Some s /\ s_state s = PCAP_SESSION_UNUSED) /\
      (forall q s, (q < p)%nat -> session_list w !! q = Some s -> s_state s <> PCAP_SESSION_UNUSED) /\
      w' = set_list (<[p := fresh p]> (session_list w)) w
  end.

Lemma set_list_twice l1 l2 w : set_list l2 (set_list l1 w) = set_list l2 w.
Proof. done. Qed.

Lemma claim_slot_wp p s w : session_list w !! p = Some s -> (p < 128)%nat ->
  wp (claim_slot p) (fun r w' => r = Some p /\ w' = set_list (<[p := fresh p]> (session_list w)) w) w.
Proof.
  intros Hs Hp. unfold claim_slot. wp_step; [states_tac|].
  assert (Hlen : forall x, <[p := x]> (session_list w) !! p = Some x)
    by (intros; apply list_lookup_insert_eq; by eapply lookup_lt_Some).
  wp_step. wp_step. wp_step. eapply wp_update; [apply Hlen|]. cbn. rewrite list_insert_insert_eq.
  wp_step. eapply wp_update; [apply Hlen|]. cbn. rewrite list_insert_insert_eq.
  wp_step. eapply wp_change_state; [apply Hlen|]. cbn. rewrite list_insert_insert_eq. done.
Qed.

Lemma get_new_wp w : length (session_list w) = 128%nat ->
  wp pcapsession_handling_get_new (claims w) w.
Proof.
  intros Hl. unfold pcapsession_handling_get_new. wp_step.
  change (Z.to_nat PCAP_SESSION_MAX_SESSIONS) with 128%nat.
  eapply wp_mono; [apply find_unused_wp; lia|]. intros p w' (-> & Hp & Hb & Hf).
  destruct (decide (p < 128)%nat) as [Hp'|Hp'].
  - destruct Hf as (s & Hs & Hu); [lia|]. eapply wp_mono; [by apply (claim_slot_wp p s)|].
    intros r w' [-> ->]. split; [by exists s|]. split; [|done]. intros q s' Hq. apply Hb. lia.
  - unfold claim_slot. wp_step; [|states_tac]. wp_step. split; [done|].
    intros q s Hs. apply (Hb q); [|done]. apply lookup_lt_Some in Hs. lia.
Qed.

(** Nothing keeps two threads from opening sessions at once, the main program
    and the thread of the server for instance.  When both have looked for a slot
    before either claims one, both claim the same: whatever the first stored in
    its session is cleared by the second, and both go on with that slot. *)
Theorem racing_opens_share_a_slot (rest : nat -> M unit) w p s :
  length (session_list w) = 128%nat -> session_list w !! p = Some s ->
  s_state s = PCAP_SESSION_UNUSED ->
  (forall q s', (q < p)%nat -> session_list w !! q = Some s' -> s_state s' <> PCAP_SESSION_UNUSED) ->
  (forall w', length (session_list w') = 128%nat ->
     wp (rest p) (fun _ w2 => length (session_list w2) = 128%nat) w') ->
  let look := find_unused (Z.to_nat PCAP_SESSION_MAX_SESSIONS) 0 in
  wp (one ← look; two ← look; first ← claim_slot one;
      match first with Some q => rest q | None => mret tt end;;
      second ← claim_slot two; mret (first, second))
    (fun r w' => r = (Some p, Some p) /\ session_list w' !! p = Some (fresh p)) w.
Proof.
  intros Hl Hs Hu Hb Hrest look. unfold look. change (Z.to_nat PCAP_SESSION_MAX_SESSIONS) with 128%nat.
  pose proof (lookup_lt_Some _ _ _ Hs) as Hp. rewrite Hl in Hp.
  assert (Hlook : wp (find_unused 128 0) (fun r w' => r = p /\ w' = w) w).
  { eapply wp_mono; [apply find_unused_wp; lia|]. intros r w' (-> & Hr & Hbelow & Hf). split; [|done].
    destruct (Nat.lt_trichotomy r p) as [Hlt|[->|Hlt]]; [|done|].
    - destruct Hf as (s' & Hs' & Hu'); [lia|]. by apply Hb in Hs'.
    - by apply (Hbelow p s) in Hs; [|lia]. }
  wp_step. eapply wp_mono; [exact Hlook|]. intros r1 w1 [-> ->].
  wp_step. eapply wp_mono; [exact Hlook|]. intros r2 w2 [-> ->].
  wp_step. eapply wp_mono; [by apply (claim_slot_wp p s)|]. intros r3 w3 [-> ->].
  wp_step. eapply wp_mono; [apply Hrest; cbn; by rewrite length_insert|]. intros u w4 Hl4. cbn beta in Hl4.
  destruct (lookup_lt_is_Some_2 (session_list w4) p) as [s4 Hs4]; [lia|].
  wp_step. eapply wp_mono; [by apply (claim_slot_wp p s4)|]. intros r5 w5 [-> ->]. wp_step.
  split; [done|]. apply list_lookup_insert_eq. lia.
Qed.
End claim.

(** ** Properties *)

(** [pcapsession_handling_get_new] claims the first unused slot of the table
    and only that one: the slot then holds a cleared session that knows its
    number, in the state [STOPPED]; when every slot is in use it changes
    nothing and returns no session. *)
Theorem get_new_claims_first_unused `{Env} (w : world) :
  length (session_list w) = 128%nat -> wp pcapsession_handling_get_new (claims w) w.
Proof. apply get_new_wp. Qed.

Lemma get_new_claims_first_unused_witness :
  let w := World (replicate 128 zero_session) PCAP_SESSION_RUNNING [] false (fun _ => 0) ∅ 1 [] in
  length (session_list w) = 128%nat /\ wp pcapsession_handling_get_new (claims w) w.
Proof.
  intros w. split; [reflexivity|]. apply (@get_new_claims_first_unused (fun _ _ => (0, "")) w).
  reflexivity.
Defined.
