(* ===== verification/Handler.v ===== *)
(** * What the session modules share

    Every module has an [open] function that claims a session and adds it to
    session handling, a [run] function for the session's thread, cut at the
    calls it can block in, and a [stop] function. *)
From S2P Require Import Prelude Text GenUtils Pcap Monitor Sys Wp Tcp Session.

Section handler.
Context `{Env}.

(** [pcapsession_change_state(pcapsession->id, new_state)] *)
Definition change_own_state (p : nat) (new_state : Z) : M unit :=
  id ← field p s_id; pcapsession_change_state id new_state.

(** [pcapsession_handling_add(pcapsession->id)] *)
Definition add_own (p : nat) : M Z := id ← field p s_id; pcapsession_handling_add id.

(** [inet_ntoa], and the text [sprintf] makes with ["%s:%d"] of an address. *)
Definition inet_ntoa (a : Z) : string :=
  fmt_d (Z.land (Z.shiftr a 24) 255) +:+ "." +:+ fmt_d (Z.land (Z.shiftr a 16) 255) +:+ "." +:+
  fmt_d (Z.land (Z.shiftr a 8) 255) +:+ "." +:+ fmt_d (Z.land a 255).
Definition address_text (a : sockaddr_in) : string :=
  inet_ntoa (sin_addr a) +:+ ":" +:+ fmt_d (sin_port a).

Definition describe_address (p : nat) : M unit :=
  a ← field p s_address; update p (set_description (address_text a)).

(** [strcpy(pcapsession->description, text)] *)
Definition copy_description (p : nat) (text : string) : M unit :=
  if FILENAME_MAX <=? Z.of_nat (String.length text) then fail BufferOverflow
  else update p (set_description text).

(** [pcapsession->monitor = monitor_open(...)] in the file [u]. *)
Definition open_own_monitor (u : tu) (p : nat) : M unit :=
  id ← field p s_id; description ← field p s_description;
  m ← open_monitor u id description; update p (set_monitor m).

(** [monitor_close] of the session's monitor, which is freed and cleared. *)
Definition close_own_monitor (p : nat) : M unit :=
  monitor ← field p s_monitor;
  when (match monitor with Some _ => true | None => false end) (update p (set_monitor None)).

(** [monitor_increment(pcapsession->monitor, 1, header->len)] *)
Definition count_packet (p : nat) (header : pcap_pkthdr) : M unit :=
  update p (fun s => set_monitor (monitor_increment (s_monitor s) 1 (len header)) s).

(** [pcap_dump], which writes through the dumper it is given. *)
Definition pcap_dump (dumper : Z) (header : pcap_pkthdr) (data : list Z) : M unit :=
  if dumper =? 0 then fail NullPointer
  else ext (PcapDump dumper header (captured (header, data)));; mret tt.

(** Whether a pcap handle is closed after some calls: it was closed, and was not
    handed out again. *)
Definition is_closed (handle : Z) (calls : list event) : bool :=
  foldl (fun closed e =>
    match e with
    | (PcapClose h, _) => closed || (h =? handle)
    | (PcapOpenDead, h) | (PcapOpenLive _, h) | (PcapOpenOffline _, h) | (PcapFopenOffline _, h) =>
        closed && negb (h =? handle)
    | _ => closed
    end) false calls.

(** [pcap_geterr], the text of which is in the handle. *)
Definition pcap_geterr (handle : Z) : M unit :=
  pointer handle;;
  closed ← gets (fun w => is_closed handle (trace w));
  if (closed : bool) then fail ClosedHandle else ext (PcapGeterr handle);; mret tt.

(** [pcap_loop] up to the first packet: its handle must not be null. *)
Definition enter_pcap_loop (p : nat) (pt : point) : M (option point) :=
  handle ← field p s_pcap_handle;
  if handle =? 0 then fail NullPointer else mret (Some pt).

(** [pcap_close(pcapsession->pcap_handle); pcapsession->pcap_handle = NULL;] *)
Definition close_own_handle (p : nat) : M unit :=
  handle ← field p s_pcap_handle;
  pointer handle;;
  ext (PcapClose handle);;
  update p (set_pcap_handle 0).

(** The end of a capture in the [stop] functions. *)
Definition break_own_loop (p : nat) : M unit :=
  handle ← field p s_pcap_handle;
  when (negb (handle =? 0)) (ext (PcapBreakloop handle);; close_own_handle p).

(** The closing of the dumper in the [stop] functions, with its two tests. *)
Definition close_own_dumper (p : nat) : M unit :=
  dumper ← field p s_pcap_dumper;
  open ← (if negb (dumper =? 0) then
            fd ← ext (PcapDumpFile dumper); iotests_fd_open fd
          else mret false);
  when open
    (fd ← ext (PcapDumpFile dumper);
     still_open ← iotests_fd_open fd;
     when still_open (ext (PcapDumpClose dumper);; mret tt);;
     update p (set_pcap_dumper 0));;
  update p (set_pcap_dumper 0).

(** The closing of the descriptor in the [stop] functions. *)
Definition close_own_fd (p : nat) : M unit :=
  fd ← field p s_fd;
  open ← (if 0 <? fd then iotests_fd_open fd else mret false);
  when open (ext (Close fd);; mret tt);;
  update p (set_fd 0).

(** The closing of the handle where no loop is broken. *)
Definition close_idle_handle (p : nat) : M unit :=
  handle ← field p s_pcap_handle;
  when (negb (handle =? 0)) (close_own_handle p).

(** The new state at the end of a [stop] function. *)
Definition stop_or_restart (p : nat) (stops : bool) : M unit :=
  change_own_state p (if stops then PCAP_SESSION_STOPPED else PCAP_SESSION_START).
End handler.

(** ** Rules for the shared steps *)

Section rules.
Context `{Env} (T : world -> world -> Prop) `{Frame T} (p : nat).
Implicit Types (s : session) (Q : unit -> session -> Prop).

Lemma local_change_own n s Q : s_id s = Z.of_nat p -> Q tt (set_state n s) ->
  local T p (change_own_state p n) s Q.
Proof.
  intros Hid HQ. unfold change_own_state. local_step. local_step. rewrite Hid. by local_step.
Qed.

Lemma local_stop_or_restart b s Q : s_id s = Z.of_nat p ->
  Q tt (set_state (if (b : bool) then PCAP_SESSION_STOPPED else PCAP_SESSION_START) s) ->
  local T p (stop_or_restart p b) s Q.
Proof. apply local_change_own. Qed.

Lemma local_add_own s (Q : Z -> session -> Prop) : (p < 128)%nat -> s_id s = Z.of_nat p ->
  Q 1 (set_id (Z.of_nat p) (set_state PCAP_SESSION_START s)) -> local T p (add_own p) s Q.
Proof.
  intros Hp Hid HQ. unfold add_own, pcapsession_handling_add. local_step. local_step. rewrite Hid.
  local_step; [states_tac|]. local_step. local_step. local_step. local_step. local_step. local_step.
  by local_step.
Qed.

Lemma local_describe_address s Q : Q tt (set_description (address_text (s_address s)) s) ->
  local T p (describe_address p) s Q.
Proof. intros HQ. unfold describe_address. local_step. local_step. by local_step. Qed.

Lemma local_copy_description text s Q : Z.of_nat (String.length text) < FILENAME_MAX ->
  Q tt (set_description text s) -> local T p (copy_description p text) s Q.
Proof. intros Hl HQ. unfold copy_description. local_step; [lia|]. by local_step. Qed.

Lemma local_close_own_monitor s Q : Q tt (set_monitor None s) -> local T p (close_own_monitor p) s Q.
Proof.
  intros HQ. unfold close_own_monitor. local_step. local_step. local_step; [by local_step|].
  destruct s as [???????[m|]]; [done|]. exact HQ.
Qed.

Lemma local_count_packet h s Q : Q tt (set_monitor (monitor_increment (s_monitor s) 1 (len h)) s) ->
  local T p (count_packet p h) s Q.
Proof. intros HQ. unfold count_packet. by local_step. Qed.

Lemma local_pcap_dump dumper h d s Q : dumper <> 0 -> Q tt s -> local T p (pcap_dump dumper h d) s Q.
Proof.
  intros Hd HQ. unfold pcap_dump. rewrite (proj2 (Z.eqb_neq _ _) Hd).
  local_step. local_step. by local_step.
Qed.

Lemma local_pointer v s Q : v <> 0 -> Q tt s -> local T p (pointer v) s Q.
Proof. intros Hv HQ. unfold pointer. rewrite (proj2 (Z.eqb_neq _ _) Hv). by local_step. Qed.

Lemma local_close_own_handle s Q : s_pcap_handle s <> 0 -> Q tt (set_pcap_handle 0 s) ->
  local T p (close_own_handle p) s Q.
Proof.
  intros Hh HQ. unfold close_own_handle. local_step. local_step. local_step.
  apply local_pointer; [done|]. local_step. local_step. by local_step.
Qed.

Lemma set_pcap_handle_id s : s_pcap_handle s = 0 -> set_pcap_handle 0 s = s.
Proof. by destruct s; cbn; intros ->. Qed.

Lemma local_break_own_loop s Q : Q tt (set_pcap_handle 0 s) -> local T p (break_own_loop p) s Q.
Proof.
  intros HQ. unfold break_own_loop. local_step. local_step. local_step.
  - local_step. local_step. apply local_close_own_handle; [lia|done].
  - rewrite set_pcap_handle_id in HQ by lia. done.
Qed.

Lemma local_close_idle_handle s Q : Q tt (set_pcap_handle 0 s) -> local T p (close_idle_handle p) s Q.
Proof.
  intros HQ. unfold close_idle_handle. local_step. local_step. local_step.
  - apply local_close_own_handle; [lia|done].
  - rewrite set_pcap_handle_id in HQ by lia. done.
Qed.

(** A test of a descriptor that is made only in some cases. *)
Lemma local_tested (m : M Z) (b : bool) (k : Z -> M bool) s (Q : bool -> session -> Prop) :
  (forall P, (forall r, P r s) -> local T p m s P) ->
  (forall r P, (forall r, P r s) -> local T p (k r) s P) ->
  (forall r, Q r s) -> local T p (if b then m ≫= k else mret false) s Q.
Proof. intros Hm Hk HQ. local_step; [|by local_step]. local_step. apply Hm. intros r. by apply Hk. Qed.

Lemma local_iotests fd s (Q : bool -> session -> Prop) : (forall r, Q r s) ->
  local T p (iotests_fd_open fd) s Q.
Proof. intros HQ. unfold iotests_fd_open. local_step. local_step. by local_step. Qed.

Lemma local_close_own_dumper s Q : Q tt (set_pcap_dumper 0 s) -> local T p (close_own_dumper p) s Q.
Proof.
  intros HQ. unfold close_own_dumper. local_step. local_step. local_step.
  apply local_tested; [intros; by local_step|intros; by apply local_iotests|]. intros r.
  local_step. local_step; [|by local_step]. local_step. local_step. local_step.
  apply local_iotests. intros r1. local_step. local_step; [local_step; local_step; local_step|];
    local_step; by local_step.
Qed.

Lemma local_close_own_fd s Q : Q tt (set_fd 0 s) -> local T p (close_own_fd p) s Q.
Proof.
  intros HQ. unfold close_own_fd. local_step. local_step. local_step.
  apply (local_mono _ _ _ _ (fun _ s' => s' = s)).
  - local_step; [by apply local_iotests|by local_step].
  - intros r ? ->. local_step. local_step; [local_step; local_step; local_step|]; by local_step.
Qed.
End rules.

Lemma local_open_own_monitor `{Env} p u s (Q : unit -> session -> Prop) : u <> TuSession ->
  (forall m, Q tt (set_monitor (Some m) s)) -> local run_threads p (open_own_monitor u p) s Q.
Proof.
  intros Hu HQ. unfold open_own_monitor. local_step. local_step. local_step. local_step. local_step.
  apply local_open_monitor; [done|]. intros m. by local_step.
Qed.

(** The rules, for [local_step]'s goals that are shared steps. *)
Ltac handler_step :=
  match goal with
  | |- local _ _ (change_own_state _ _) _ _ => apply local_change_own; [apply _|try done|]
  | |- local _ _ (stop_or_restart _ _) _ _ => apply local_stop_or_restart; [apply _|try done|]
  | |- local _ _ (add_own _) _ _ => apply local_add_own; [apply _|try done|try done|]
  | |- local _ _ (describe_address _) _ _ => apply local_describe_address; [apply _|]
  | |- local _ _ (copy_description _ _) _ _ => apply local_copy_description; [apply _|try done|]
  | |- local _ _ (open_own_monitor _ _) _ _ =>
      apply local_open_own_monitor; [discriminate|]; intros
  | |- local _ _ (close_own_monitor _) _ _ => apply local_close_own_monitor; [apply _|]
  | |- local _ _ (count_packet _ _) _ _ => apply local_count_packet; [apply _|]
  | |- local _ _ (close_own_handle _) _ _ => apply local_close_own_handle; [apply _|try done|]
  | |- local _ _ (pointer _) _ _ => apply local_pointer; [apply _|try done|]
  | |- local _ _ (break_own_loop _) _ _ => apply local_break_own_loop; [apply _|]
  | |- local _ _ (close_idle_handle _) _ _ => apply local_close_idle_handle; [apply _|]
  | |- local _ _ (close_own_dumper _) _ _ => apply local_close_own_dumper; [apply _|]
  | |- local _ _ (close_own_fd _) _ _ => apply local_close_own_fd; [apply _|]
  | |- local _ _ (iotests_fd_open _) _ _ => apply local_iotests; [apply _|]; intros
  | |- local _ ?p (set_conn ?i _) _ _ =>
      first [replace i with (Z.of_nat p) by (cbn; congruence)|idtac];
      apply local_set_conn; [apply _|try done|]
  | _ => local_step
  end; cbn [mbind mret].

(** ** The calls that were made

    The arguments of the calls of [pcap_dump], in order. *)
Definition dump_of (e : event) : option (Z * pcap_pkthdr * list Z) :=
  match e.1 with PcapDump dumper header octets => Some (dumper, header, octets) | _ => None end.
Definition dumps (evs : list event) : list (Z * pcap_pkthdr * list Z) := omap dump_of evs.

Lemma dumps_app l1 l2 : dumps (l1 ++ l2) = dumps l1 ++ dumps l2.
Proof. apply omap_app. Qed.

(** ** Calls that are not made *)

(** The calls that close a descriptor or a dumper. *)
Definition closing (e : event) : bool :=
  match e.1 with Close _ | PcapDumpClose _ => true | _ => false end.

(** Since [w], no call was of the kind [bad]; the session at [p] is now [s]. *)
Definition silent (bad : event -> bool) (w : world) (p : nat) (s : session) (w' : world) : Prop :=
  session_list w' !! p = Some s /\ clientconnlist w' = clientconnlist w /\
  exists evs, calls_since w w' evs /\ Forall (fun e => bad e = false) evs.

Section silent.
Context (bad : event -> bool).
Implicit Types (w : world) (p : nat) (s : session).

Lemma silent_refl w p s : session_list w !! p = Some s -> silent bad w p s w.
Proof.
  intros Hs. split; [done|]. split; [done|]. exists [].
  split; [unfold calls_since; by rewrite app_nil_r|done].
Qed.

Lemma silent_call w p s w' c r : bad (c, r) = false -> silent bad w p s w' ->
  silent bad w p s (set_trace (trace w' ++ [(c, r)]) w').
Proof.
  intros Hc (Hs & Hcl & evs & Htr & Hev). split; [done|]. split; [done|].
  exists (evs ++ [(c, r)]). unfold calls_since in *. cbn. rewrite Htr, <- (assoc_L (++)).
  split; [done|]. apply Forall_app. split; [done|by repeat constructor].
Qed.

Lemma silent_update w p s w' s' : silent bad w p s w' ->
  silent bad w p s' (set_list (<[p := s']> (session_list w')) w').
Proof.
  intros (Hs & Hcl & Hev). split; [|done]. apply list_lookup_insert_eq. by eapply lookup_lt_Some.
Qed.

End silent.

(** When every descriptor test fails, the closing steps clear the fields of the
    session and close nothing. *)
Section lost.
Context `{Env} (lost : forall w fd, answer w (Poll fd) <> 0).
Implicit Types (w : world) (p : nat) (s : session).

Lemma iotests_lost fd w (Q : bool -> world -> Prop) :
  (forall r, Q false (set_trace (trace w ++ [(Poll fd, r)]) w)) -> wp (iotests_fd_open fd) Q w.
Proof.
  intros HQ. apply wp_bind, wp_ext, wp_ret. rewrite (proj2 (Z.eqb_neq _ _)) by apply lost. apply HQ.
Qed.

Lemma close_own_dumper_lost w p s w' : silent closing w p s w' ->
  wp (close_own_dumper p) (fun _ => silent closing w p (set_pcap_dumper 0 s)) w'.
Proof.
  intros Hw. unfold close_own_dumper. pose proof Hw as (Hs & _). wp_step. wp_step. wp_step.
  apply (wp_mono _ (fun b w2 => b = false /\ silent closing w p s w2)).
  - wp_step; [|by wp_step]. wp_step. wp_step. apply iotests_lost. intros r1.
    split; [done|]. by apply silent_call, silent_call.
  - intros b w2 (-> & Hw2). wp_step. wp_step; [done|]. eapply wp_update; [apply Hw2|].
    by eapply silent_update.
Qed.

Lemma close_idle_handle_silent w p s w' : silent closing w p s w' ->
  wp (close_idle_handle p) (fun _ => silent closing w p (set_pcap_handle 0 s)) w'.
Proof.
  intros Hw. unfold close_idle_handle, close_own_handle. pose proof Hw as (Hs & _).
  wp_step. wp_step. wp_step.
  - wp_step. wp_step. wp_step. wp_step. eapply wp_update; [done|].
    eapply silent_update. by apply silent_call.
  - by rewrite set_pcap_handle_id by lia.
Qed.

Lemma close_own_fd_lost w p s w' : silent closing w p s w' ->
  wp (close_own_fd p) (fun _ => silent closing w p (set_fd 0 s)) w'.
Proof.
  intros Hw. unfold close_own_fd. pose proof Hw as (Hs & _). wp_step. wp_step. wp_step.
  apply (wp_mono _ (fun b w2 => b = false /\ silent closing w p s w2)).
  - wp_step; [|by wp_step]. apply iotests_lost. intros r1. split; [done|]. by apply silent_call.
  - intros b w2 (-> & Hw2). wp_step. wp_step; [done|]. eapply wp_update; [apply Hw2|].
    by eapply silent_update.
Qed.

Lemma close_own_monitor_silent w p s w' : silent closing w p s w' ->
  wp (close_own_monitor p) (fun _ => silent closing w p (set_monitor None s)) w'.
Proof.
  intros Hw. unfold close_own_monitor. pose proof Hw as (Hs & _). wp_step. wp_step. wp_step.
  - eapply wp_update; [done|]. by eapply silent_update.
  - by destruct s as [???????[m|]].
Qed.
End lost.

(** ** Opening a session

    What the [open] functions share: the first unused slot is claimed, and the
    rest of the function works on it. *)

Definition first_unused (p : nat) (w : world) : Prop :=
  (exists s, session_list w !! p = Some s /\ s_state s = PCAP_SESSION_UNUSED) /\
  forall q s, (q < p)%nat -> session_list w !! q = Some s -> s_state s <> PCAP_SESSION_UNUSED.

Definition all_used (w : world) : Prop :=
  forall q s, session_list w !! q = Some s -> s_state s <> PCAP_SESSION_UNUSED.

(** The result [none] with nothing changed when every slot is in use, else what
    [Q] says of the claimed slot. *)
Definition opened {A} (T : world -> world -> Prop) (none : A) (Q : nat -> A -> session -> Prop)
    (w : world) (r : A) (w' : world) : Prop :=
  all_used w /\ r = none /\ w' = w \/
  exists p s', first_unused p w /\ only_session T p w w' s' /\ Q p r s'.

Lemma claim_wp `{Env} {A} T `{Frame T} (none : A) (rest : nat -> M A) Q w :
  length (session_list w) = 128%nat -> length (clientconnlist w) = 128%nat ->
  (forall p, (p < 128)%nat -> local T p (rest p) (fresh p) (Q p)) ->
  wp (slot ← pcapsession_handling_get_new;
      match slot with None => mret none | Some p => rest p end) (opened T none Q w) w.
Proof.
  intros Hl Hc HQ. wp_step. eapply wp_mono; [by apply get_new_wp|]. intros [p|] w1 Hcl.
  - destruct Hcl as ((s & Hs & Hu) & Hb & ->). pose proof (lookup_lt_Some _ _ _ Hs) as Hp.
    eapply wp_mono; [apply HQ; [lia| |done]; cbn; by apply list_lookup_insert_eq|].
    intros r w2 (s' & Ho & Hr). right. exists p, s'. split; [by split; [exists s|]|]. split; [|done].
    eapply only_session_trans; [done| |done]. apply only_session_update; apply _.
  - destruct Hcl as [-> Hall]. apply wp_ret. by left.
Qed.
