(* ===== verification/Evolve.v ===== *)
(** * What the threads and the open functions may change

    [evolves w w'] bounds what happens to the world between two visits of the
    supervisor: free slots may be claimed and added, the sessions of running
    threads may be set running or told to terminate, and counters and handles
    may change; threads, slots and the supervisor's data stay.  [thread_safe]
    is the partial correctness of a computation for it. *)
From S2P Require Import Prelude Text Pcap Monitor Untunnel Sys Wp Tcp Session Handler.

(** Partial correctness: what holds when a computation does not fault. *)
Definition wlp {A} (m : M A) (Q : A -> world -> Prop) (w : world) : Prop :=
  forall a w', m w = Ok (a, w') -> Q a w'.

Lemma wlp_wp {A} (m : M A) Q w : wp m Q w -> wlp m Q w.
Proof. intros Hm a w' Hr. unfold wp in Hm. by rewrite Hr in Hm. Qed.

Lemma wlp_mono {A} (m : M A) (Q Q' : A -> world -> Prop) w :
  wlp m Q w -> (forall a w', Q a w' -> Q' a w') -> wlp m Q' w.
Proof. intros Hm HQ a w' Hr. apply HQ. by apply Hm. Qed.

Lemma wlp_bind {A B} (m : M A) (k : A -> M B) Q w :
  wlp m (fun a w' => wlp (k a) Q w') w -> wlp (m ≫= k) Q w.
Proof.
  intros Hm b w' Hr. unfold mbind, M_bind in Hr. destruct (m w) as [[a w1]|] eqn:Hm1; [|done].
  by apply (Hm a w1 Hm1).
Qed.

(** ** Worlds that evolve *)

(** The states a session in use has between two visits of the supervisor, and
    those in which it can have a thread. *)
Definition busy (s : session) : Prop :=
  s_state s = PCAP_SESSION_STARTING \/ s_state s = PCAP_SESSION_RUNNING \/
  s_state s = PCAP_SESSION_TERMINATE.
Definition settled (s : session) : Prop := s_state s = PCAP_SESSION_START \/ busy s.

Definition monitor_ok (s : session) : Prop :=
  forall m, s_monitor s = Some m -> 0 <= m_last_output_time m.

(** The fields only the [open] functions and the supervisor set stay. *)
Record same_role (s s' : session) : Prop := {
  sr_id : s_id s' = s_id s;
  sr_runner : s_runner s' = s_runner s;
  sr_stopper : s_stopper s' = s_stopper s;
  sr_thread : s_thread s' = s_thread s;
  sr_monitor : monitor_ok s -> monitor_ok s' }.

Definition session_evolves (j : nat) (s s' : session) : Prop :=
  s_state s = PCAP_SESSION_UNUSED /\
    (s_state s' = PCAP_SESSION_UNUSED \/ managed j s' /\ s_state s' = PCAP_SESSION_START) \/
  s_state s <> PCAP_SESSION_UNUSED /\ same_role s s' /\
    (s_state s' = s_state s \/
     busy s /\ (s_state s' = PCAP_SESSION_RUNNING \/ s_state s' = PCAP_SESSION_TERMINATE)).

Definition outputs_ok (w : world) : Prop := forall u, 0 <= monitor_last_output_time w u.

Record evolves (w w' : world) : Prop := {
  ev_length : length (session_list w') = length (session_list w);
  ev_conns : length (clientconnlist w') = length (clientconnlist w);
  ev_threads : threads w' = threads w;
  ev_next : next_thread w' = next_thread w;
  ev_trace : trace w `prefix_of` trace w';
  ev_output : monitor_last_output_time w' TuSession = monitor_last_output_time w TuSession;
  ev_outputs : outputs_ok w -> outputs_ok w';
  ev_session j s : session_list w !! j = Some s ->
    exists s', session_list w' !! j = Some s' /\ session_evolves j s s' }.

Lemma same_role_refl s : same_role s s.
Proof. by split. Qed.

Lemma same_role_trans s1 s2 s3 : same_role s1 s2 -> same_role s2 s3 -> same_role s1 s3.
Proof. intros [] []. split; try congruence. auto. Qed.

Lemma managed_role j s s' : managed j s -> same_role s s' -> managed j s'.
Proof. intros [? ? ? ?] [Hid Hr Hst _ Hm]. split; [congruence|by rewrite Hr|by rewrite Hst, Hr|by apply Hm]. Qed.

Lemma session_evolves_refl j s : session_evolves j s s.
Proof.
  destruct (decide (s_state s = PCAP_SESSION_UNUSED)); [by left; auto|right].
  split; [done|]. split; [apply same_role_refl|by left].
Qed.

Lemma session_evolves_trans j s1 s2 s3 :
  session_evolves j s1 s2 -> session_evolves j s2 s3 -> session_evolves j s1 s3.
Proof.
  unfold session_evolves, busy.
  intros [[H1 [H2|[Hm H2]]]|(H1 & Hr & H2)] [[H3 H4]|(H3 & Hr' & H4)]; try states_tac.
  - by left.
  - left. split; [done|]. right. split; [by eapply managed_role|states_tac].
  - right. split; [done|]. split; [by eapply same_role_trans|states_tac].
Qed.

Lemma evolves_refl w : evolves w w.
Proof. split; try done. intros j s Hs. exists s. split; [done|apply session_evolves_refl]. Qed.

Lemma evolves_trans w1 w2 w3 : evolves w1 w2 -> evolves w2 w3 -> evolves w1 w3.
Proof.
  intros E1 E2. pose proof (ev_session _ _ E1) as Hs1. pose proof (ev_session _ _ E2) as Hs2.
  destruct E1, E2. split; [congruence..|by etrans|congruence|auto|].
  intros j s Hs. destruct (Hs1 j s Hs) as (s2 & H2 & Hev). destruct (Hs2 j s2 H2) as (s3 & H3 & Hev').
  exists s3. split; [done|by eapply session_evolves_trans].
Qed.

(** A change of one session. *)
Lemma evolves_session w p s s' : session_list w !! p = Some s -> session_evolves p s s' ->
  evolves w (set_list (<[p := s']> (session_list w)) w).
Proof.
  intros Hs Hev. split; try done; [cbn; by rewrite length_insert|]. intros j sj Hj.
  destruct (decide (j = p)) as [->|Hne]; cbn.
  - rewrite list_lookup_insert_eq by (by eapply lookup_lt_Some). rewrite Hs in Hj.
    injection Hj as <-. by exists s'.
  - rewrite list_lookup_insert_ne by done. exists sj. split; [done|apply session_evolves_refl].
Qed.

(** A change of other parts of the world. *)
Lemma evolves_same w w' : session_list w' = session_list w ->
  length (clientconnlist w') = length (clientconnlist w) -> threads w' = threads w ->
  next_thread w' = next_thread w -> trace w `prefix_of` trace w' ->
  monitor_last_output_time w' TuSession = monitor_last_output_time w TuSession ->
  (outputs_ok w -> outputs_ok w') -> evolves w w'.
Proof.
  intros Hl ? ? ? ? ? ?. split; try done; [by rewrite Hl|]. intros j s Hs. exists s.
  split; [by rewrite Hl|apply session_evolves_refl].
Qed.

(** ** Code that is safe for a thread of the session [p] *)

Definition running_on (p : nat) (w : world) : Prop :=
  exists s, session_list w !! p = Some s /\ managed p s /\ busy s.

Lemma running_on_evolves p w w' : running_on p w -> evolves w w' -> running_on p w'.
Proof.
  intros (s & Hs & Hm & Hb) Hev. destruct (ev_session _ _ Hev p s Hs) as (s' & Hs' & Hse).
  exists s'. split; [done|]. unfold busy in *.
  destruct Hse as [[Hu _]|(_ & Hr & Hst)]; [states_tac|]. split; [by eapply managed_role|states_tac].
Qed.

Definition thread_safe {A} (p : nat) (m : M A) : Prop := forall w,
  running_on p w -> length (session_list w) = 128%nat -> length (clientconnlist w) = 128%nat ->
  outputs_ok w -> wlp m (fun _ w' => evolves w w') w.

Section safe.
Context `{Henv : Env} (p : nat).

Lemma safe_bind {A B} (m : M A) (k : A -> M B) :
  thread_safe p m -> (forall a, thread_safe p (k a)) -> thread_safe p (m ≫= k).
Proof.
  intros Hm Hk w Hr Hl Hc Ho. apply wlp_bind. eapply wlp_mono; [by apply Hm|].
  intros a w1 Hev. eapply wlp_mono; [apply Hk; [by eapply running_on_evolves|..]|].
  - by rewrite (ev_length _ _ Hev).
  - by rewrite (ev_conns _ _ Hev).
  - by apply (ev_outputs _ _ Hev).
  - intros b w2. apply (evolves_trans _ _ _ Hev).
Qed.

Lemma safe_ret {A} (a : A) : thread_safe p (mret a).
Proof. intros w _ _ _ _ b w' [= _ <-]. apply evolves_refl. Qed.

Lemma safe_fail {A} f : thread_safe p (fail f : M A).
Proof. by intros w _ _ _ _ b w'. Qed.

Lemma safe_lift {A} (r : res A) : thread_safe p (lift r).
Proof.
  intros w _ _ _ _ b w'. unfold lift. destruct r; [|done]. intros [= _ <-]. apply evolves_refl.
Qed.

Lemma safe_gets {A} (f : world -> A) : thread_safe p (gets f).
Proof. intros w _ _ _ _ b w' [= _ <-]. apply evolves_refl. Qed.

Lemma safe_field {A} q (f : session -> A) : thread_safe p (field q f).
Proof.
  intros w _ _ _ _ b w'. unfold field. destruct (session_list w !! q); [|done].
  intros [= _ <-]. apply evolves_refl.
Qed.

Lemma safe_ext_reply c : thread_safe p (ext_reply c).
Proof.
  intros w _ _ _ _ b w' [= _ <-]. apply evolves_same; try done. by eexists.
Qed.

Lemma safe_ext c : thread_safe p (ext c).
Proof. apply safe_bind; [apply safe_ext_reply|intros; apply safe_ret]. Qed.

Lemma safe_when b (m : M unit) : (b = true -> thread_safe p m) -> thread_safe p (when b m).
Proof. destruct b; [auto|]. intros _. apply safe_ret. Qed.

Lemma safe_if {A} (b : bool) (m1 m2 : M A) :
  (b = true -> thread_safe p m1) -> (b = false -> thread_safe p m2) ->
  thread_safe p (if b then m1 else m2).
Proof. destruct b; auto. Qed.

(** A store that leaves the role of any session, and its state. *)
Lemma safe_update q f : (forall s, same_role s (f s) /\ s_state (f s) = s_state s) ->
  thread_safe p (update q f).
Proof.
  intros Hf w _ _ _ _ b w'. unfold update. destruct (session_list w !! q) as [s|] eqn:Hs; [|done].
  intros [= _ <-]. apply (evolves_session w q s); [done|]. destruct (Hf s) as [Hr Hst].
  destruct (decide (s_state s = PCAP_SESSION_UNUSED)); [left; split; [done|]; left; congruence|].
  right. split; [done|]. split; [done|by left].
Qed.

Lemma safe_set_conn id v : thread_safe p (set_conn id v).
Proof.
  intros w _ _ _ _ b w'. unfold set_conn. destruct (_ && _); [|done]. intros [= _ <-].
  apply evolves_same; try done. cbn. apply length_insert.
Qed.

Lemma safe_change_own n : n = PCAP_SESSION_RUNNING \/ n = PCAP_SESSION_TERMINATE ->
  thread_safe p (change_own_state p n).
Proof.
  intros Hn w (s & Hs & Hm & Hb) Hl Hc Ho. apply wlp_wp. unfold change_own_state.
  wp_step. wp_step. rewrite (mg_id _ _ Hm). eapply wp_change_state; [done|].
  apply (evolves_session w p s); [done|]. right. unfold busy in *. split; [states_tac|].
  split; [by split|]. right. split; [done|]. cbn. done.
Qed.

Lemma safe_open_own_monitor `{!Clock} u : u <> TuSession -> thread_safe p (open_own_monitor u p).
Proof.
  intros Hu w (s & Hs & Hm & Hb) Hl Hc Ho. apply wlp_wp. unfold open_own_monitor, open_monitor.
  wp_step. wp_step. wp_step. wp_step. wp_step. wp_step. wp_step. wp_step.
  apply (wp_mono _ (fun now w1 => 0 <= now /\ evolves w w1 /\ session_list w1 = session_list w)).
  - wp_step.
    + apply wp_ext. split; [apply clock_range|]. split; [|done].
      apply evolves_same; try done. by eexists.
    + wp_step. split; [lia|]. split; [apply evolves_refl|done].
  - intros now w1 (Hnow & Hev & Hl1). unfold monitor_open.
    set (g := if monitor_last_output_time w u =? 0 then now else monitor_last_output_time w u).
    assert (Hg : 0 <= g) by (unfold g; specialize (Ho u); by case_match).
    wp_step. wp_step. wp_step. eapply wp_update; [cbn; by rewrite Hl1|].
    eapply evolves_trans; [exact Hev|]. eapply evolves_trans.
    + apply (evolves_same w1 (set_last_output u g w1)); try done; cbn; [by rewrite decide_False|].
      intros Hout v. cbn. case_decide; [done|apply Hout].
    + apply (evolves_session _ p s); [cbn; by rewrite Hl1|]. right. unfold busy in *.
      split; [states_tac|]. split; [split; try done|by left]. intros _ m. cbn. by intros [= <-].
Qed.
End safe.

(** The rules, for one operation of a thread's code. *)
Ltac safe_step :=
  match goal with
  | |- thread_safe _ (mret _) => apply safe_ret
  | |- thread_safe _ (fail _) => apply safe_fail
  | |- thread_safe _ (lift _) => apply safe_lift
  | |- thread_safe _ (mbind _ _) => apply safe_bind; [|intros]
  | |- thread_safe _ (gets _) => apply safe_gets
  | |- thread_safe _ (field _ _) => apply safe_field
  | |- thread_safe _ (ext _) => apply safe_ext
  | |- thread_safe _ (ext_reply _) => apply safe_ext_reply
  | |- thread_safe _ (when _ _) => apply safe_when; intros
  | |- thread_safe _ (update _ _) => apply safe_update; intros; by (split; [split|])
  | |- thread_safe _ (set_conn _ _) => apply safe_set_conn
  | |- thread_safe _ (change_own_state _ _) => apply safe_change_own; (by left) || (by right)
  | |- thread_safe _ (open_own_monitor _ _) => apply safe_open_own_monitor; [apply _|discriminate]
  | |- thread_safe _ (iotests_fd_open _) => unfold iotests_fd_open
  | |- thread_safe _ (pointer _) => unfold pointer
  | |- thread_safe _ (if _ then _ else _) => apply safe_if; intros
  | |- thread_safe _ (match ?x with _ => _ end) => destruct x
  | |- thread_safe _ (let '(_, _) := ?x in _) => destruct x
  end.
Ltac safe := repeat safe_step.

Lemma safe_count_packet p q h : thread_safe p (count_packet q h).
Proof.
  unfold count_packet. apply safe_update. intros s. split; [split; try done|done].
  intros Hm m. cbn. destruct (s_monitor s) as [m0|] eqn:E; cbn; [|done]. intros [= <-]. cbn. by apply Hm.
Qed.

Lemma safe_close_own_handle `{Env} p : thread_safe p (close_own_handle p).
Proof. unfold close_own_handle. safe. Qed.

Lemma safe_enter_pcap_loop p pt : thread_safe p (enter_pcap_loop p pt).
Proof. unfold enter_pcap_loop. safe. Qed.

Lemma safe_pcap_dump `{Env} p dumper h d : thread_safe p (pcap_dump dumper h d).
Proof. unfold pcap_dump. safe. Qed.
