(* ===== verification/Threads.v ===== *)
(** * What a visit of the supervisor does to the threads

    A visit leaves the threads alone, cancels and joins the thread of its
    session, or creates one for a session that is to start.  Proved against the
    interface of the stoppers, like the rest of session handling. *)
From S2P Require Import Prelude Text Pcap Monitor Untunnel Sys Wp Tcp Session Handler Evolve.

Section threads.
Context `{Henv : Env, Hstop : Stoppers, !StoppersSpec}.
Implicit Types (s : session) (w : world) (p : nat).

(** The threads without the one of the session. *)
Definition without_thread (s : session) (w : world) : gmap Z thread :=
  if s_thread s =? 0 then threads w else delete (s_thread s) (threads w).

(** From the session [s] in [w] to [s'] in [w']. *)
Inductive thread_change (p : nat) (w w' : world) (s s' : session) : Prop :=
  | tc_keep : threads w' = threads w -> next_thread w' = next_thread w ->
      s_thread s' = s_thread s -> s_runner s' = s_runner s ->
      s_pcap_handle s' = s_pcap_handle s -> busy s' -> thread_change p w w' s s'
  | tc_stop : threads w' = without_thread s w -> next_thread w' = next_thread w ->
      thread_change p w w' s s'
  | tc_start k : s_state s = PCAP_SESSION_START -> s_state s' = PCAP_SESSION_STARTING ->
      s_runner s' = Some k -> s_thread s' = next_thread w ->
      threads w' = <[next_thread w := Thread p k Spawned]> (threads w) ->
      next_thread w' = next_thread w + 1 -> thread_change p w w' s s'.

(** Cancelling and joining. *)
Lemma joined_wp p s w : session_list w !! p = Some s ->
  wp (when (negb (s_thread s =? 0))
    (ext (PthreadCancel (s_thread s));; ext (PthreadJoin (s_thread s));;
     modify (fun w => set_threads (delete (s_thread s) (threads w)) w);;
     update p (set_thread 0)))
    (fun _ w' => threads w' = without_thread s w /\ next_thread w' = next_thread w /\
      length (clientconnlist w') = length (clientconnlist w) /\
      session_list w' = <[p := set_thread 0 s]> (session_list w)) w.
Proof.
  intros Hs. unfold without_thread. wp_step.
  - rewrite (proj1 (negb_true_iff _) H0). wp_step. wp_step. wp_step. wp_step. wp_step. wp_step.
    by wp_step.
  - rewrite (proj1 (negb_false_iff _) H0). assert (Ht : s_thread s = 0) by lia.
    repeat (split; [done|]). symmetry. apply list_insert_id. rewrite Hs. f_equal.
    destruct s; cbn in *. by rewrite Ht.
Qed.

(** Then the stopper: the session's thread is gone. *)
Lemma stop_threads p s w : (p < 128)%nat -> managed p s -> session_list w !! p = Some s ->
  length (clientconnlist w) = 128%nat ->
  wp (pcapsession_stop (Z.of_nat p)) (fun _ w' => threads w' = without_thread s w /\
    next_thread w' = next_thread w /\ exists s', session_list w' !! p = Some s') w.
Proof.
  intros Hp [Hid [k Hr] Hk _] Hs Hc. rewrite Hr in Hk. unfold pcapsession_stop.
  wp_step. apply (wp_position _ s); [done|]. wp_step. wp_step. wp_step.
  eapply wp_mono; [by apply joined_wp|].
  intros _ w1 (Hth & Hn & Hc1 & Hl1). rewrite Hc in Hc1.
  assert (Hs1 : session_list w1 !! p = Some (set_thread 0 s))
    by (rewrite Hl1; apply list_lookup_insert_eq; by eapply lookup_lt_Some).
  wp_step. wp_step. cbn. rewrite Hk. wp_step.
  eapply wp_mono; [exact (stop_session_spec k p (set_thread 0 s) Hp Hid w1 Hs1 Hc1)|].
  intros _ w2 (s2 & Ho & _). pose proof (only_session_lookup _ _ _ _ _ _ Hs1 Ho) as Hs2.
  destruct (os_frame _ _ _ _ _ Ho) as (Ht2 & Hn2 & _). wp_step. wp_step.
  wp_step; [|split; [congruence|]; split; [congruence|by exists s2]].
  eapply wp_change_state; [done|]. cbn. split; [congruence|]. split; [congruence|].
  rewrite list_lookup_insert_eq by (by eapply lookup_lt_Some). by eexists.
Qed.

Lemma start_threads p s w : (p < 128)%nat -> managed p s -> session_list w !! p = Some s ->
  s_state s = PCAP_SESSION_STARTING ->
  wp (pcapsession_start (Z.of_nat p)) (fun _ w' => exists s' k,
    session_list w' !! p = Some s' /\ s_state s' = PCAP_SESSION_STARTING /\ s_runner s' = s_runner s /\
    s_runner s = Some k /\
    (threads w' = threads w /\ next_thread w' = next_thread w /\ s_thread s' = s_thread s /\
       s_pcap_handle s' = s_pcap_handle s \/
     threads w' = <[next_thread w := Thread p k Spawned]> (threads w) /\
     next_thread w' = next_thread w + 1 /\ s_thread s' = next_thread w)) w.
Proof.
  intros Hp [_ [k Hk] _ _] Hs Hst. unfold pcapsession_start.
  wp_step. apply (wp_position _ s); [done|]. wp_step. wp_step. wp_step; [states_tac|].
  wp_step. wp_step. rewrite Hk. wp_step. wp_step. wp_step.
  - wp_step. exists s, k. by repeat (split; [done|]); left.
  - wp_step. wp_step. wp_step. wp_step. wp_step. wp_step. wp_step. exists (set_thread (next_thread w) s), k.
    cbn. rewrite list_lookup_insert_eq by (by eapply lookup_lt_Some).
    by repeat (split; [done|]); right.
Qed.

(** The state and counter of a session set, in place. *)
Lemma wp_set_in_place p s n c Q w : session_list w !! p = Some s ->
  Q tt (set_list (<[p := set_interval_counter c (set_state n s)]> (session_list w)) w) ->
  wp (pcapsession_change_state (Z.of_nat p) n;; update p (set_interval_counter c)) Q w.
Proof.
  intros Hs HQ. pose proof (lookup_lt_Some _ _ _ Hs) as Hp. wp_step.
  eapply wp_change_state; [done|]. eapply wp_update; cbn.
  - by rewrite list_lookup_insert_eq.
  - by rewrite list_insert_insert_eq.
Qed.

Lemma transition_stops p s n w : (p < 128)%nat -> managed p s -> session_list w !! p = Some s ->
  length (clientconnlist w) = 128%nat ->
  wp (pcapsession_change_state (Z.of_nat p) n;; update p (set_interval_counter 0);;
      pcapsession_stop (Z.of_nat p))
    (fun _ w' => exists s', session_list w' !! p = Some s' /\ thread_change p w w' s s') w.
Proof.
  intros Hp Hm Hs Hc. pose proof (lookup_lt_Some _ _ _ Hs) as Hl.
  wp_step. eapply wp_change_state; [done|]. wp_step. eapply wp_update; cbn.
  { by rewrite list_lookup_insert_eq. }
  rewrite list_insert_insert_eq. eapply wp_mono.
  - eapply (stop_threads p); [done| |by cbn; rewrite list_lookup_insert_eq|done].
    destruct Hm. by split.
  - intros _ w' (Ht & Hn & s' & Hs'). exists s'. split; [done|]. by apply tc_stop.
Qed.

Lemma transition_threads p s w : (p < 128)%nat -> managed p s ->
  settled s \/ s_state s = PCAP_SESSION_ABORT -> session_list w !! p = Some s ->
  length (clientconnlist w) = 128%nat ->
  wp (pcapsession_transition_session (Z.of_nat p))
    (fun _ w' => exists s', session_list w' !! p = Some s' /\ thread_change p w w' s s') w.
Proof.
  intros Hp Hm Hst Hs Hc. pose proof (lookup_lt_Some _ _ _ Hs) as Hl.
  unfold pcapsession_transition_session, await, settled, busy in *.
  wp_step. apply (wp_position _ s); [done|]. wp_step. wp_step.
  wp_step; [states_tac|]. wp_step.
  { wp_step. eapply wp_change_state; [done|]. wp_step. eapply wp_update; cbn.
    { by rewrite list_lookup_insert_eq. }
    rewrite list_insert_insert_eq. wp_step. eapply wp_mono.
    - eapply (start_threads p); [done| |by cbn; rewrite list_lookup_insert_eq|done].
      destruct Hm. by split.
    - intros r w' (s' & k & Hs' & Hst' & Hr & Hk & Hcase). wp_step. exists s'. split; [done|].
      destruct Hcase as [(? & ? & ? & ?)|(? & ? & ?)].
      + apply tc_keep; [done..|by left].
      + eapply tc_start; [states_tac|done|by rewrite Hr|done..]. }
  wp_step.
  { wp_step. wp_step. wp_step.
    - eapply wp_change_state; [done|]. eexists. cbn. rewrite list_lookup_insert_eq by done.
      split; [done|]. apply tc_keep; [done..|]. by right; right.
    - wp_step. eexists. cbn. rewrite list_lookup_insert_eq by done.
      split; [done|]. apply tc_keep; [done..|]. left. cbn. states_tac. }
  wp_step.
  { wp_step. exists s. split; [done|]. apply tc_keep; [done..|]. right; left. states_tac. }
  wp_step; [by apply (transition_stops p s)|]. wp_step; [by apply (transition_stops p s)|].
  states_tac.
Qed.

(** What comes before the transition sets the state at most. *)
Definition told (p : nat) (w : world) (s : session) (w' : world) : Prop :=
  exists st, (st = s_state s \/ st = PCAP_SESSION_ABORT \/ st = PCAP_SESSION_TERMINATE) /\
    only_session same_threads p w w' (set_state st s).

Lemma told_refl p w s : session_list w !! p = Some s -> told p w s w.
Proof.
  intros Hs. exists (s_state s). split; [by left|]. replace (set_state _ s) with s by (by destruct s).
  apply only_session_refl; [apply _|done].
Qed.

Lemma told_again p w s w1 n : session_list w !! p = Some s -> told p w s w1 ->
  n = PCAP_SESSION_ABORT \/ n = PCAP_SESSION_TERMINATE ->
  wp (pcapsession_change_state (Z.of_nat p) n) (fun _ => told p w s) w1.
Proof.
  intros Hs (st & _ & Ho) Hn. pose proof (only_session_lookup _ _ _ _ _ _ Hs Ho) as Hs1.
  eapply wp_change_state; [done|]. exists n. split; [by right|].
  eapply only_session_trans; [apply _|done|]. apply only_session_update. apply _.
Qed.

Lemma supervise_states_before p s h w Q : session_list w !! p = Some s ->
  (forall w1, told p w s w1 -> wp (pcapsession_transition_session (Z.of_nat p)) Q w1) ->
  wp (supervise_states p h) Q w.
Proof.
  intros Hs HQ. unfold supervise_states, iotests_fd_open. wp_step.
  apply (wp_mono _ (fun _ => told p w s)).
  - wp_step; [|by apply told_refl]. wp_step. wp_step. wp_step; [|by apply told_refl].
    apply told_again; [done|by apply told_refl|by left].
  - intros _ w1 Ht. pose proof Ht as (st & _ & Ho).
    pose proof (only_session_lookup _ _ _ _ _ _ Hs Ho) as Hs1. wp_step. wp_step. wp_step. wp_step.
    wp_step. apply (wp_mono _ (fun _ => told p w s)); [|by intros _ w2; apply HQ].
    wp_step; [|done]. wp_step. wp_step. wp_step. wp_step.
    assert (Ht2 : told p w s (set_trace (trace w1 ++ [(Poll (s_fd (set_state st s)), r)]) w1)).
    { destruct Ht as (st' & Hst' & Ho'). exists st'. split; [done|].
      pose proof (only_session_lookup _ _ _ _ _ _ Hs Ho').
      eapply only_session_trans; [apply _|done|]. apply only_session_same; try done. by eexists. }
    wp_step; [|done]. apply told_again; [done..|by right].
Qed.

(** A visit. *)
Lemma supervise_threads `{!Clock} p s w : table_ok w -> managed p s -> settled s ->
  session_list w !! p = Some s ->
  wp (supervise p) (fun _ w' =>
    (forall u, u <> TuSession -> monitor_last_output_time w' u = monitor_last_output_time w u) /\
    exists s', session_list w' !! p = Some s' /\ thread_change p w w' s s') w.
Proof.
  intros [Hl Hc Hok Hout] Hm Hst Hs. pose proof (lookup_lt_Some _ _ _ Hs) as Hp. rewrite Hl in Hp.
  unfold supervise. wp_step. wp_step. wp_step; [unfold settled, busy in *; states_tac|].
  wp_step. wp_step. wp_step.
  eapply (wp_mono _ (fun _ w1 => (exists s1, only_session any_threads p w w1 s1 /\
    visited p (session_handling_state w) s s1) /\
    exists s1, session_list w1 !! p = Some s1 /\ thread_change p w w1 s s1)).
  - apply wp_conj.
    + apply (supervise_states_visited p s); [done|unfold settled, busy in *; states_tac|by auto|done..].
    + apply (supervise_states_before p s); [done|]. intros w1 (st & Hcase & Ho).
      pose proof (only_session_lookup _ _ _ _ _ _ Hs Ho) as Hs1.
      destruct (os_frame _ _ _ _ _ Ho) as (Ht1 & Hn1 & _).
      eapply wp_mono; [apply (transition_threads p (set_state st s)); try done|].
      * by apply set_state_managed.
      * unfold settled, busy in *. cbn. destruct Hcase as [-> | [-> | ->] ]; [by left|by right|].
        left. right. right. by right.
      * by rewrite (os_conns _ _ _ _ _ Ho).
      * intros _ w2 (s2 & Hs2 & Htc). exists s2. split; [done|]. destruct Htc; cbn in *.
        -- apply tc_keep; [congruence..|done].
        -- apply tc_stop; [|congruence]. by unfold without_thread in *; rewrite <- Ht1.
        -- eapply tc_start; try done; [states_tac|congruence..].
  - intros _ w1 [(s1 & Ho1 & Hv) (s1' & Hs1 & Htc)].
    pose proof (only_session_lookup _ _ _ _ _ _ Hs Ho1) as E. rewrite Hs1 in E. injection E as ->.
    wp_step. eapply wp_mono; [apply (supervise_output_wp p s1); [done| | |]|].
    + by rewrite (os_conns _ _ _ _ _ Ho1).
    + by apply (output_ok_later w); [apply Ho1|apply Ho1|].
    + intros Hr. destruct Hv as [[?|[[]|(? & _)]] _]; [states_tac|done|states_tac].
    + intros _ w2 (s2 & Ho2 & Hs2). wp_step.
      split.
      { intros u Hu. destruct (os_frame _ _ _ _ _ Ho2) as (_ & _ & Hg & _). rewrite Hg by done.
        by destruct (os_frame _ _ _ _ _ Ho1) as (_ & ->). }
      exists s2. split; [by apply (only_session_lookup _ _ _ _ _ _ Hs1 Ho2)|].
      destruct (os_frame _ _ _ _ _ Ho2) as (Ht2 & Hn2 & _).
      assert (s_thread s2 = s_thread s1 /\ s_runner s2 = s_runner s1 /\ s_state s2 = s_state s1 /\
        s_pcap_handle s2 = s_pcap_handle s1) as (Ht & Hr2 & Hst2 & Hh2)
        by (destruct Hs2 as [->|(_ & m & -> & _)]; done).
      destruct Htc.
      * apply tc_keep; [congruence..|]. unfold busy in *. by rewrite Hst2.
      * apply tc_stop; congruence.
      * apply (tc_start _ _ _ _ _ k); congruence.
Qed.
End threads.
