(* ===== verification/ClientConn.v ===== *)
(** * Client connections of the distributer

    [pcapsession/pcapsession_clientconn.c]: a connection accepted by the server
    becomes a session, and every packet captured is dumped to all of them.  The
    packet handler is there twice: as one operation, and cut at the locks of the
    connections' mutexes, where other threads come between. *)
From S2P Require Import Prelude Text Pcap Monitor Sys Wp Tcp Session Handler.

Section clientconn.
Context `{Env}.

(** The list of connections, cleared before its first use. *)
Definition init_clientconnlist : M unit :=
  initialized ← gets clientconnlist_initialized;
  when (negb initialized)
    (modify (set_clientconnlist (replicate (Z.to_nat PCAP_SESSION_MAX_SESSIONS) None));;
     modify (set_initialized true)).

Definition pcapsession_clientconn_open (client_socket_fd : Z) (client_address : sockaddr_in)
    : M Z :=
  init_clientconnlist;;
  slot ← pcapsession_handling_get_new;
  match slot with
  | None => mret 0
  | Some p =>
      update p (set_functions KClientConn KClientConn);;
      update p (set_fd client_socket_fd);;
      update p (set_supervise_fd PCAP_SESSION_SUPERVISED_FD);;
      update p (set_address client_address);;
      describe_address p;;
      update p (set_monitor None);;
      update p (set_pcap_handle 0);;
      update p (set_pcap_dumper 0);;
      update p (set_handler None);;
      update p (set_untunnel PCAP_SESSION_UNTUNNEL_OFF);;
      update p (set_iterations 0);;
      add_own p
  end.

(** The thread of a connection opens the dumper and ends.  When the dump cannot be
    opened, the error text is taken from the handle that was closed before. *)
Definition pcapsession_clientconn_run (p : nat) : M (option point) :=
  change_own_state p PCAP_SESSION_RUNNING;;
  open_own_monitor TuClientConn p;;
  pcap_dead_handle ← ext PcapOpenDead;
  fd ← field p s_fd;
  client_fd ← ext (Fdopen fd "wb");
  pointer pcap_dead_handle;; pointer client_fd;;
  dumper ← ext (PcapDumpFopen pcap_dead_handle client_fd);
  update p (set_pcap_dumper dumper);;
  when (negb (pcap_dead_handle =? 0)) (ext (PcapClose pcap_dead_handle);; mret tt);;
  (if dumper =? 0 then
     pcap_geterr pcap_dead_handle;;
     change_own_state p PCAP_SESSION_TERMINATE
   else id ← field p s_id; set_conn id (Some p));;
  mret None.

Definition pcapsession_clientconn_stop (p : nat) : M unit :=
  id ← field p s_id; set_conn id None;;
  close_own_dumper p;;
  close_idle_handle p;;
  close_own_fd p;;
  close_own_monitor p;;
  change_own_state p PCAP_SESSION_STOPPED.

(** [pcapsession_clientconn_client_handle_packet] *)
Definition client_handle_packet (client : nat) (header : pcap_pkthdr) (data : list Z) : M unit :=
  state ← field client s_state;
  if negb (state =? PCAP_SESSION_RUNNING) then mret tt else
  fd ← field client s_fd;
  open ← iotests_fd_open fd;
  if (open : bool) then
    dumper ← field client s_pcap_dumper;
    pcap_dump dumper header data;;
    count_packet client header
  else id ← field client s_id; set_conn id None.

(** The loop over the connections from [i] on. *)
Fixpoint distribute (n i : nat) (header : pcap_pkthdr) (data : list Z) : M unit :=
  match n with
  | O => mret tt
  | S n =>
      conns ← gets clientconnlist;
      match conns !! i with
      | None => fail OutOfBounds
      | Some None => mret tt
      | Some (Some client) => client_handle_packet client header data
      end;;
      distribute n (S i) header data
  end.

Definition pcapsession_clientconn_packet_handler (p : nat) (header : pcap_pkthdr)
    (data : list Z) : M unit :=
  count_packet p header;;
  distribute (Z.to_nat PCAP_SESSION_MAX_SESSIONS) 0 header data.

(** *** The handler, cut at the mutexes of the connections

    [pcapsession_clientconn_client_handle_packet] up to the lock: whether the
    packet is to be dumped, and from the lock on. *)
Definition client_test (client : nat) : M bool :=
  state ← field client s_state;
  if negb (state =? PCAP_SESSION_RUNNING) then mret false else
  fd ← field client s_fd;
  open ← iotests_fd_open fd;
  if (open : bool) then mret true
  else id ← field client s_id; set_conn id None;; mret false.

Definition client_dump (client : nat) (header : pcap_pkthdr) (data : list Z) : M unit :=
  dumper ← field client s_pcap_dumper;
  pcap_dump dumper header data;;
  count_packet client header.

(** The loop over the connections from [i] on, up to the next lock: the slot it
    is at and the connection found there, or none when it has ended. *)
Fixpoint offer (n i : nat) : M (option (nat * nat)) :=
  match n with
  | O => mret None
  | S n =>
      conns ← gets clientconnlist;
      match conns !! i with
      | None => fail OutOfBounds
      | Some None => offer n (S i)
      | Some (Some client) =>
          dumps ← client_test client;
          if (dumps : bool) then mret (Some (i, client)) else offer n (S i)
      end
  end.

(** Where a thread is then. *)
Definition waiting (header : pcap_pkthdr) (data : list Z) (loop : point)
    (at_lock : option (nat * nat)) : point :=
  match at_lock with
  | Some (slot, client) => Locking slot client header data loop
  | None => loop
  end.

(** [pcapsession_clientconn_packet_handler] from its start, and from the lock of
    the connection in a slot. *)
Definition packet_arrives (p : nat) (header : pcap_pkthdr) (data : list Z) (loop : point) : M point :=
  count_packet p header;;
  at_lock ← offer (Z.to_nat PCAP_SESSION_MAX_SESSIONS) 0;
  mret (waiting header data loop at_lock).

Definition packet_continues (slot client : nat) (header : pcap_pkthdr) (data : list Z)
    (loop : point) : M point :=
  client_dump client header data;;
  at_lock ← offer (Z.to_nat PCAP_SESSION_MAX_SESSIONS - S slot) (S slot);
  mret (waiting header data loop at_lock).

(** A thread that goes on at every lock, at most [n] times. *)
Fixpoint uninterrupted (n : nat) (pt : point) : M unit :=
  match n, pt with
  | S n, Locking slot client header data loop =>
      next ← packet_continues slot client header data loop; uninterrupted n next
  | _, _ => mret tt
  end.
End clientconn.

(** Uninterrupted, the pieces are the handler. *)
Section cut.
Context `{Env}.

Lemma client_handle_packet_cut client h d w :
  client_handle_packet client h d w = (dumps ← client_test client; when dumps (client_dump client h d)) w.
Proof.
  unfold client_handle_packet, client_test, client_dump, field, mbind, M_bind.
  destruct (session_list w !! client) as [s|] eqn:Hs; [|done].
  destruct (negb (s_state s =? PCAP_SESSION_RUNNING)); [done|]. rewrite Hs.
  destruct (iotests_fd_open (s_fd s) w) as [[[] w1]|]; [done| |done].
  destruct (session_list w1 !! client) as [s1|]; [|done]. by destruct (set_conn (s_id s1) None w1) as [[[] w2]|].
Qed.

Lemma distribute_cut h d loop n : (forall slot client h d l, loop <> Locking slot client h d l) ->
  forall m i w, (n <= m)%nat -> (i + n = 128)%nat ->
  distribute n i h d w = (at_lock ← offer n i; uninterrupted m (waiting h d loop at_lock)) w.
Proof.
  intros Hloop. assert (Hend : forall m w, uninterrupted m loop w = Ok (tt, w)).
  { intros [|m] w; [done|]. destruct loop as [| | | | | |slot c h0 d0 l|]; try done. by destruct (Hloop slot c h0 d0 l). }
  induction n as [|n IH]; intros m i w Hm Hi; [exact (eq_sym (Hend m w))|].
  cbn [distribute offer]. unfold mbind, M_bind. cbn [gets].
  destruct (clientconnlist w !! i) as [[client|]|]; [|by apply IH; lia|done].
  rewrite client_handle_packet_cut. unfold mbind, M_bind.
  destruct (client_test client w) as [[[] w1]|]; [|by apply IH; lia|done]. cbn [when mret M_ret waiting].
  destruct m as [|m]; [lia|]. cbn [uninterrupted]. unfold packet_continues, mbind, M_bind.
  destruct (client_dump client h d w1) as [[u w2]|]; [|done].
  rewrite (IH m) by lia. unfold mbind, M_bind.
  replace (Z.to_nat PCAP_SESSION_MAX_SESSIONS - S i)%nat with n by (change (Z.to_nat PCAP_SESSION_MAX_SESSIONS) with 128%nat; lia).
  by destruct (offer n (S i) w2) as [[r w3]|].
Qed.

Lemma packet_handler_cut p h d loop w : (forall slot client h d l, loop <> Locking slot client h d l) ->
  pcapsession_clientconn_packet_handler p h d w = (next ← packet_arrives p h d loop; uninterrupted 128 next) w.
Proof.
  intros Hloop. unfold pcapsession_clientconn_packet_handler, packet_arrives, mbind, M_bind.
  destruct (count_packet p h w) as [[u w1]|]; [|done].
  change (Z.to_nat PCAP_SESSION_MAX_SESSIONS) with 128%nat.
  rewrite (distribute_cut h d loop 128 Hloop 128) by lia. unfold mbind, M_bind.
  by destruct (offer 128 0 w1) as [[r w2]|].
Qed.
End cut.

(** ** Stopping *)

(** The session after [pcapsession_clientconn_stop]. *)
Definition clientconn_stopped (s : session) : session :=
  set_state PCAP_SESSION_STOPPED (set_monitor None (set_fd 0 (set_pcap_handle 0
    (set_pcap_dumper 0 s)))).

Lemma clientconn_stop_local `{Env} T `{Frame T} p s : (p < 128)%nat -> s_id s = Z.of_nat p ->
  local T p (pcapsession_clientconn_stop p) s (fun _ s' => s' = clientconn_stopped s).
Proof. intros Hp Hid. unfold pcapsession_clientconn_stop. by repeat handler_step. Qed.

(** ** Opening *)

Definition clientconn_session (p : nat) (fd : Z) (address : sockaddr_in) : session :=
  Session (Z.of_nat p) (address_text address) PCAP_SESSION_START 0 fd PCAP_SESSION_SUPERVISED_FD
    address None 0 0 (Some KClientConn) (Some KClientConn) None 0 PCAP_SESSION_UNTUNNEL_OFF 0.

(** The world after the list of connections was prepared. *)
Definition conns_ready (w : world) : world :=
  if clientconnlist_initialized w then w
  else set_initialized true (set_clientconnlist (replicate 128 None) w).

Lemma init_clientconnlist_wp w (Q : unit -> world -> Prop) :
  Q tt (conns_ready w) -> wp init_clientconnlist Q w.
Proof.
  intros HQ. unfold init_clientconnlist, conns_ready in *. wp_step. wp_step.
  destruct (clientconnlist_initialized w); cbn; [done|]. apply wp_bind, wp_modify, wp_modify, HQ.
Qed.

Lemma clientconn_open_wp `{Env} T `{Frame T} fd address w :
  length (session_list w) = 128%nat -> length (clientconnlist w) = 128%nat ->
  wp (pcapsession_clientconn_open fd address)
    (opened T 0 (fun p r s => r = 1 /\ s = clientconn_session p fd address) (conns_ready w)) w.
Proof.
  intros Hl Hc. unfold pcapsession_clientconn_open. wp_step. apply init_clientconnlist_wp.
  apply claim_wp; [apply _|unfold conns_ready; by destruct (clientconnlist_initialized w)..|].
  intros p Hp. by repeat handler_step.
Qed.

(** ** Distribution of a packet *)

Section distribution.
Context `{Env} (is_open : Z -> bool).
Implicit Types (s : session) (w : world) (i j : nat).

(** Slots of the list of connections point at their own sessions, which know
    their number and have a dumper while they run. *)
Definition conns_ok (w : world) : Prop :=
  length (clientconnlist w) = 128%nat /\
  forall j c, clientconnlist w !! j = Some (Some c) -> c = j /\
    exists s, session_list w !! j = Some s /\ s_id s = Z.of_nat j /\
      (s_state s = PCAP_SESSION_RUNNING -> s_pcap_dumper s <> 0).

(** What the distributor decides for the connection in a slot. *)
Inductive decision := Skip | Dump (dumper : Z) | Drop.

Definition decide_conn (w : world) (j : nat) : decision :=
  match clientconnlist w !! j, session_list w !! j with
  | Some (Some _), Some s =>
      if s_state s =? PCAP_SESSION_RUNNING then
        if is_open (s_fd s) then Dump (s_pcap_dumper s) else Drop
      else Skip
  | _, _ => Skip
  end.

Definition dumped_on (d : decision) : option Z := match d with Dump x => Some x | _ => None end.

(** [monitor_increment] of a session for a packet. *)
Definition counted (h : pcap_pkthdr) (s : session) : session :=
  set_monitor (monitor_increment (s_monitor s) 1 (len h)) s.

(** The effect of offering a packet to the connections in the slots [l]. *)
Record offered (h : pcap_pkthdr) (d : list Z) (l : list nat) (w w' : world) : Prop := {
  of_dumps : exists evs, calls_since w w' evs /\
    dumps evs = (fun x => (x, h, captured (h, d))) <$> omap (fun j => dumped_on (decide_conn w j)) l;
  of_sessions j : session_list w' !! j =
    match decide_conn w j with
    | Dump _ => if bool_decide (j ∈ l) then counted h <$> session_list w !! j
                else session_list w !! j
    | _ => session_list w !! j
    end;
  of_conns j : clientconnlist w' !! j =
    match decide_conn w j with
    | Drop => if bool_decide (j ∈ l) then Some None else clientconnlist w !! j
    | _ => clientconnlist w !! j
    end }.

Lemma omap_ext_in {A B} (f g : A -> option B) (l : list A) : (forall x, x ∈ l -> f x = g x) ->
  omap f l = omap g l.
Proof.
  induction l as [|x l IH]; intros Hfg; [done|]. cbn. rewrite (Hfg x) by set_solver.
  rewrite IH by set_solver. done.
Qed.

Lemma offered_nil h d w : offered h d [] w w.
Proof.
  split; [exists []; unfold calls_since; by rewrite app_nil_r|intros j..]; by destruct (decide_conn w j).
Qed.

(** Offering to other slots does not change the decision. *)
Lemma offered_decide h d l w w' j : j ∉ l -> offered h d l w w' ->
  decide_conn w' j = decide_conn w j.
Proof.
  intros Hj [_ Hs Hc]. specialize (Hs j). specialize (Hc j). unfold decide_conn at 1.
  rewrite bool_decide_false in Hs, Hc by done.
  replace (session_list w' !! j) with (session_list w !! j) by (by destruct (decide_conn w j)).
  replace (clientconnlist w' !! j) with (clientconnlist w !! j) by (by destruct (decide_conn w j)).
  done.
Qed.

Lemma offered_app h d l1 l2 w w1 w2 : (forall j, j ∈ l1 -> j ∉ l2) ->
  offered h d l1 w w1 -> offered h d l2 w1 w2 -> offered h d (l1 ++ l2) w w2.
Proof.
  intros Hdis H1 H2. assert (Hd : forall j, j ∈ l2 -> decide_conn w1 j = decide_conn w j).
  { intros j Hj. eapply offered_decide; [|done]. intros Hj1. by apply (Hdis j). }
  assert (Hsame : forall j, j ∉ l1 -> session_list w1 !! j = session_list w !! j /\
    clientconnlist w1 !! j = clientconnlist w !! j).
  { intros j Hj. rewrite (of_sessions _ _ _ _ _ H1 j), (of_conns _ _ _ _ _ H1 j).
    rewrite bool_decide_false by done. by destruct (decide_conn w j). }
  assert (Hlast : forall j, j ∉ l2 -> session_list w2 !! j = session_list w1 !! j /\
    clientconnlist w2 !! j = clientconnlist w1 !! j).
  { intros j Hj. rewrite (of_sessions _ _ _ _ _ H2 j), (of_conns _ _ _ _ _ H2 j).
    rewrite bool_decide_false by done. by destruct (decide_conn w1 j). }
  split.
  - destruct (of_dumps _ _ _ _ _ H1) as (e1 & Hc1 & Hd1).
    destruct (of_dumps _ _ _ _ _ H2) as (e2 & Hc2 & Hd2).
    exists (e1 ++ e2). split; [unfold calls_since in *; by rewrite Hc2, Hc1, (assoc_L (++))|].
    rewrite dumps_app, Hd1, Hd2, omap_app, fmap_app. do 2 f_equal.
    apply omap_ext_in. intros j Hj. by rewrite Hd.
  - intros j. destruct (decide (j ∈ l2)) as [Hj|Hj].
    + rewrite (of_sessions _ _ _ _ _ H2 j), (Hd j Hj).
      destruct (Hsame j) as [-> _]; [intros Hj1; by apply (Hdis j)|].
      rewrite !bool_decide_true by set_solver. done.
    + destruct (Hlast j Hj) as [-> _]. rewrite (of_sessions _ _ _ _ _ H1 j).
      rewrite (bool_decide_ext (j ∈ l1) (j ∈ l1 ++ l2)) by set_solver. done.
  - intros j. destruct (decide (j ∈ l2)) as [Hj|Hj].
    + rewrite (of_conns _ _ _ _ _ H2 j), (Hd j Hj).
      destruct (Hsame j) as [_ ->]; [intros Hj1; by apply (Hdis j)|].
      rewrite !bool_decide_true by set_solver. done.
    + destruct (Hlast j Hj) as [_ ->]. rewrite (of_conns _ _ _ _ _ H1 j).
      rewrite (bool_decide_ext (j ∈ l1) (j ∈ l1 ++ l2)) by set_solver. done.
Qed.

Lemma offered_skip h d j w : decide_conn w j = Skip -> offered h d [j] w w.
Proof.
  intros Hd. split; [exists []; split; [unfold calls_since; by rewrite app_nil_r|cbn; by rewrite Hd]|..];
    intros k; destruct (decide (k = j)) as [->|Hj]; rewrite ?Hd; try done;
    rewrite bool_decide_false by set_solver; by destruct (decide_conn w k).
Qed.

(** The effect on the connection of one slot, when its packet is dumped and when
    it is dropped from the list. *)
Lemma conns_ok_sessions w w' j (f : session -> session) s : conns_ok w ->
  session_list w !! j = Some s -> s_id (f s) = s_id s -> s_state (f s) = s_state s ->
  s_pcap_dumper (f s) = s_pcap_dumper s -> clientconnlist w' = clientconnlist w ->
  session_list w' = <[j := f s]> (session_list w) -> conns_ok w'.
Proof.
  intros [Hl Hall] Hs Hid Hst Hd Hc Hsl. split; [by rewrite Hc|]. intros k c Hk. rewrite Hc in Hk.
  destruct (Hall k c Hk) as (-> & sk & Hsk & Hidk & Hdk). split; [done|]. rewrite Hsl.
  destruct (decide (k = j)) as [->|Hne].
  - rewrite list_lookup_insert_eq by (by eapply lookup_lt_Some). rewrite Hs in Hsk.
    injection Hsk as <-. exists (f s). by rewrite Hid, Hst, Hd.
  - rewrite list_lookup_insert_ne by done. by exists sk.
Qed.

Lemma offered_dump h d j s x evs w w' : decide_conn w j = Dump x -> session_list w !! j = Some s ->
  calls_since w w' evs -> dumps evs = [(x, h, captured (h, d))] ->
  clientconnlist w' = clientconnlist w ->
  session_list w' = <[j := counted h s]> (session_list w) -> offered h d [j] w w'.
Proof.
  intros Hd Hs Hev Hdumps Hc Hsl. split.
  - exists evs. split; [done|]. rewrite Hdumps. cbn. by rewrite Hd.
  - intros k. rewrite Hsl. destruct (decide (k = j)) as [->|Hne].
    + rewrite Hd, bool_decide_true, Hs by set_solver.
      by rewrite list_lookup_insert_eq by (by eapply lookup_lt_Some).
    + rewrite list_lookup_insert_ne, bool_decide_false by set_solver. by destruct (decide_conn w k).
  - intros k. rewrite Hc. destruct (decide (k = j)) as [->|Hne]; [by rewrite Hd|].
    rewrite bool_decide_false by set_solver. by destruct (decide_conn w k).
Qed.

Lemma conns_ok_drop w w' j : conns_ok w -> session_list w' = session_list w ->
  clientconnlist w' = <[j := None]> (clientconnlist w) -> conns_ok w'.
Proof.
  intros [Hl Hall] Hs Hc. split; [by rewrite Hc, length_insert|]. intros k c. rewrite Hc, Hs.
  destruct (decide (k = j)) as [->|Hne].
  - intros Hk. destruct (decide (j < length (clientconnlist w))%nat).
    + by rewrite list_lookup_insert_eq in Hk.
    + rewrite list_insert_ge in Hk by lia. apply lookup_lt_Some in Hk. lia.
  - rewrite list_lookup_insert_ne by done. apply Hall.
Qed.

Lemma offered_drop h d j evs w w' : decide_conn w j = Drop -> (j < length (clientconnlist w))%nat ->
  calls_since w w' evs -> dumps evs = [] -> session_list w' = session_list w ->
  clientconnlist w' = <[j := None]> (clientconnlist w) -> offered h d [j] w w'.
Proof.
  intros Hd Hj Hev Hdumps Hs Hc. split.
  - exists evs. split; [done|]. rewrite Hdumps. cbn. by rewrite Hd.
  - intros k. rewrite Hs. destruct (decide (k = j)) as [->|Hne]; [by rewrite Hd|].
    by destruct (decide_conn w k); rewrite ?bool_decide_false by set_solver.
  - intros k. rewrite Hc. destruct (decide (k = j)) as [->|Hne].
    + rewrite Hd, bool_decide_true by set_solver. by apply list_lookup_insert_eq.
    + rewrite list_lookup_insert_ne, bool_decide_false by set_solver. by destruct (decide_conn w k).
Qed.

Lemma client_handle_packet_wp h d j w : conns_ok w ->
  (forall w fd, (answer w (Poll fd) =? 0) = is_open fd) ->
  clientconnlist w !! j = Some (Some j) ->
  wp (client_handle_packet j h d) (fun _ w' => conns_ok w' /\ offered h d [j] w w') w.
Proof.
  intros Hok Hpoll Hc. pose proof Hok as [Hl Hall].
  destruct (Hall j j Hc) as (_ & s & Hs & Hid & Hdump).
  unfold client_handle_packet, iotests_fd_open, pcap_dump, count_packet. wp_step. wp_step.
  assert (Hd : decide_conn w j = if s_state s =? PCAP_SESSION_RUNNING then
    if is_open (s_fd s) then Dump (s_pcap_dumper s) else Drop else Skip)
    by (unfold decide_conn; by rewrite Hc, Hs).
  wp_step.
  { wp_step. split; [done|]. destruct (s_state s =? PCAP_SESSION_RUNNING); [done|].
    by apply offered_skip. }
  assert (Hr : s_state s = PCAP_SESSION_RUNNING) by lia. rewrite Hr in Hd. cbn in Hd.
  wp_step. wp_step. wp_step. wp_step. apply wp_ext. wp_step.
  rewrite Hpoll. destruct (is_open (s_fd s)) eqn:Ho.
  - wp_step. wp_step. wp_step. rewrite (proj2 (Z.eqb_neq _ _) (Hdump Hr)). wp_step. apply wp_ext.
    wp_step. wp_step. split; [by eapply (conns_ok_sessions w _ j (counted h) s)|].
    eapply (offered_dump h d j s); try done.
    + unfold calls_since. cbn. by rewrite <- (assoc_L (++)).
    + done.
  - wp_step. wp_step. rewrite Hid. pose proof (lookup_lt_Some _ _ _ Hc) as Hj.
    apply wp_set_conn; [done|]. split; [by eapply (conns_ok_drop w)|]. by eapply (offered_drop h d j).
Qed.

Lemma distribute_wp h d n : forall i w, (i + n <= 128)%nat -> conns_ok w ->
  (forall w fd, (answer w (Poll fd) =? 0) = is_open fd) ->
  wp (distribute n i h d) (fun _ w' => conns_ok w' /\ offered h d (seq i n) w w') w.
Proof.
  induction n as [|n IH]; intros i w Hn Hok Hpoll; [apply wp_ret; split; [done|apply offered_nil]|].
  cbn [distribute seq]. wp_step. wp_step. wp_step.
  destruct (lookup_lt_is_Some_2 (clientconnlist w) i) as [c Hc];
    [destruct Hok as [-> _]; lia|]. rewrite Hc.
  apply (wp_mono _ (fun _ w1 => conns_ok w1 /\ offered h d [i] w w1)).
  - destruct c as [c|].
    + destruct Hok as [Hl Hok]. destruct (Hok i c Hc) as [-> _]. by apply client_handle_packet_wp.
    + apply wp_ret. split; [done|]. apply offered_skip. unfold decide_conn. by rewrite Hc.
  - intros _ w1 [Hok1 Ho1]. eapply wp_mono; [apply IH; [lia|done|done]|]. intros _ w2 [Hok2 Ho2].
    split; [done|]. apply (offered_app h d [i] (seq (S i) n) w w1 w2); [|done|done].
    intros j ->%list_elem_of_singleton Hj. apply elem_of_seq in Hj. lia.
Qed.
End distribution.

Section handler.
Context `{Env}.

(** The packet handler offers the packet to all slots. *)
Lemma handler_offers (is_open : Z -> bool) (p : nat) (s : session)
    (h : pcap_pkthdr) (d : list Z) (w : world) :
  (forall w fd, (answer w (Poll fd) =? 0) = is_open fd) -> conns_ok w ->
  session_list w !! p = Some s ->
  wp (pcapsession_clientconn_packet_handler p h d) (fun _ w' => conns_ok w' /\
    offered is_open h d (seq 0 128) (set_list (<[p := counted h s]> (session_list w)) w) w') w.
Proof.
  intros Hpoll [Hl Hok] Hs. unfold pcapsession_clientconn_packet_handler, count_packet. wp_step.
  wp_step. apply distribute_wp; [by apply Nat.leb_le| |done]. split; [done|].
  intros j c Hc. destruct (Hok j c Hc) as (-> & sj & Hsj & Hid & Hd). split; [done|].
  destruct (decide (j = p)) as [->|Hne]; cbn.
  - rewrite list_lookup_insert_eq by (by eapply lookup_lt_Some). rewrite Hs in Hsj.
    injection Hsj as <-. by eexists.
  - rewrite list_lookup_insert_ne by done. by exists sj.
Qed.
End handler.

(** ** Properties *)

Section properties.
Context `{Env}.

(** C21: a captured packet goes to every live connection once.  When the
    descriptors answer alike while the packet is handled, it is counted on the
    capturing session and dumped, as captured and in the order of the slots, to
    exactly the connections that are running and open, which count it too;
    those that lost their descriptor are dropped from the list, and no other
    session or slot changes. *)
Theorem packet_reaches_live_connections (is_open : Z -> bool) (p : nat) (s : session)
    (h : pcap_pkthdr) (d : list Z) (w : world) :
  (forall w fd, (answer w (Poll fd) =? 0) = is_open fd) -> conns_ok w ->
  session_list w !! p = Some s ->
  wp (pcapsession_clientconn_packet_handler p h d) (fun _ w' => conns_ok w' /\
    offered is_open h d (seq 0 128) (set_list (<[p := counted h s]> (session_list w)) w) w') w.
Proof. intros Hpoll Hok Hs. by apply handler_offers. Qed.

(** A connection whose client hung up is leaked.  When the descriptor tests
    find every descriptor closed, [pcapsession_clientconn_stop] leaves the
    session stopped with its descriptor and dumper cleared and off the list of
    connections, but closes neither the descriptor nor the dumper. *)
Theorem hung_up_connection_is_leaked (p : nat) (s : session) (w : world) :
  (forall w fd, answer w (Poll fd) <> 0) -> session_list w !! p = Some s ->
  s_id s = Z.of_nat p -> length (clientconnlist w) = 128%nat -> (p < 128)%nat ->
  wp (pcapsession_clientconn_stop p) (fun _ w' =>
    session_list w' !! p = Some (clientconn_stopped s) /\
    clientconnlist w' !! p = Some None /\
    exists evs, calls_since w w' evs /\
      Forall (fun e => closing e = false) evs) w.
Proof.
  intros Hpoll Hs Hid Hc Hp. unfold pcapsession_clientconn_stop.
  wp_step. wp_step. wp_step. rewrite Hid. apply wp_set_conn; [by rewrite Hc|].
  set (w1 := set_clientconnlist _ w). assert (H1 : silent closing w1 p s w1) by (by apply silent_refl).
  wp_step. eapply wp_mono; [by apply close_own_dumper_lost|]. intros u2 w2 H2.
  wp_step. eapply wp_mono; [eapply close_idle_handle_silent, H2|]. intros u3 w3 H3.
  wp_step. eapply wp_mono; [eapply close_own_fd_lost, H3; done|]. intros u4 w4 H4.
  wp_step. eapply wp_mono; [eapply close_own_monitor_silent, H4|]. intros u5 w5 (Hs5 & Hc5 & H5).
  unfold change_own_state. wp_step. wp_step. cbn. rewrite Hid. eapply wp_change_state; [done|].
  cbn. rewrite list_lookup_insert_eq by (by eapply lookup_lt_Some). split; [done|]. split; [|done].
  rewrite Hc5. apply list_lookup_insert_eq. lia.
Qed.
End properties.

(** ** A concrete distributor *)

(** Descriptor 5 is open, every other one is not. *)
Definition one_open : Env := fun _ c => (match c with Poll 5 => 0 | Poll _ => 1 | _ => 1 end, "").
Definition none_open : Env := fun _ _ => (1, "").

(** A capture in slot 0, and connections in slots 1 and 2, of which the second
    lost its client. *)
Definition sample_conn (j : nat) (fd dumper : Z) : session :=
  set_state PCAP_SESSION_RUNNING (set_pcap_dumper dumper (clientconn_session j fd zero_addr)).
(** Its capture session has no monitor yet. *)
Definition sample_capture : session :=
  set_state PCAP_SESSION_RUNNING (set_functions KLiveCapture KLiveCapture zero_session).
Definition sample_distributor : world :=
  World ([sample_capture; sample_conn 1 5 50; sample_conn 2 6 60] ++ replicate 125 zero_session)
    PCAP_SESSION_RUNNING ([None; Some 1%nat; Some 2%nat] ++ replicate 125 None) true
    (fun _ => 0) ∅ 1 [].
Definition sample_header : pcap_pkthdr := Pkthdr (Timeval 10 20) 3 60.

Lemma sample_distributor_ok : conns_ok sample_distributor.
Proof.
  split; [reflexivity|]. intros j c Hj. destruct j as [|[|[|j]]]; cbn in Hj; try discriminate.
  - injection Hj as <-. split; [reflexivity|]. eexists. repeat split; discriminate.
  - injection Hj as <-. split; [reflexivity|]. eexists. repeat split; discriminate.
  - change (replicate 125 (None : option nat) !! j = Some (Some c)) in Hj.
    apply lookup_replicate in Hj as [Hj _]. discriminate.
Qed.

Lemma packet_reaches_live_connections_witness :
  let w := sample_distributor in
  let s := sample_capture in
  wp (pcapsession_clientconn_packet_handler (H := one_open) 0 sample_header [1; 2; 3])
    (fun _ w' => conns_ok w' /\
       offered (fun fd => fd =? 5) sample_header [1; 2; 3] (seq 0 128)
         (set_list (<[0%nat := counted sample_header s]> (session_list w)) w) w') w /\
  omap (fun j => dumped_on (decide_conn (fun fd => fd =? 5) w j)) (seq 0 128) = [50].
Proof.
  intros w s. split; [|vm_compute; reflexivity].
  apply (@packet_reaches_live_connections one_open).
  - intros w0 fd. destruct (Z.eqb_spec fd 5) as [->|Hne]; [reflexivity|].
    unfold answer, oracle, one_open. destruct fd as [|fd|fd]; try reflexivity.
    do 3 (destruct fd; try reflexivity). congruence.
  - exact sample_distributor_ok.
  - reflexivity.
Defined.

Lemma hung_up_connection_is_leaked_witness :
  let w := sample_distributor in
  wp (pcapsession_clientconn_stop (H := none_open) 2) (fun _ w' =>
    session_list w' !! 2%nat = Some (clientconn_stopped (sample_conn 2 6 60)) /\
    clientconnlist w' !! 2%nat = Some None /\
    exists evs, calls_since w w' evs /\ Forall (fun e => closing e = false) evs) w.
Proof.
  intros w. apply (@hung_up_connection_is_leaked none_open).
  - intros w0 fd. discriminate.
  - reflexivity.
  - reflexivity.
  - reflexivity.
  - lia.
Defined.
