(* ===== verification/Server.v ===== *)
(** * The server of the distributer

    [pcapsession/pcapsession_server.c]: a listening socket whose thread turns
    accepted connections into sessions. *)
From S2P Require Import Prelude Text Pcap Monitor Sys Wp Tcp Session Handler ClientConn.

Definition MAX_CLIENT_BACKLOG : Z := 5.

Section server.
Context `{Env}.

Definition pcapsession_server_open (port : Z) : M Z :=
  slot ← pcapsession_handling_get_new;
  match slot with
  | None => mret 0
  | Some p =>
      update p (set_functions KServer KServer);;
      update p (set_monitor None);;
      update p (set_pcap_handle 0);;
      update p (set_pcap_dumper 0);;
      update p (set_handler None);;
      update p (set_untunnel PCAP_SESSION_UNTUNNEL_OFF);;
      update p (set_iterations 0);;
      fd ← open_server_socket port (fun address => update p (set_address address))
        (Some TCP_ERRBUF_SIZE);
      update p (set_fd fd);;
      if fd <? 0 then
        update p (set_fd 0);; change_own_state p PCAP_SESSION_UNUSED;; mret 0
      else
        update p (set_supervise_fd PCAP_SESSION_UNSUPERVISED_FD);;
        describe_address p;;
        add_own p
  end.

(** The test at the head of the thread's loop. *)
Definition server_loop (p : nat) : M (option point) :=
  state ← field p s_state;
  mret (if state =? PCAP_SESSION_RUNNING then Some Accepting else None).

(** One turn of the loop. *)
Definition server_turn (p : nat) : M (option point) :=
  fd ← field p s_fd;
  result ← poll_server_socket fd (Some pcapsession_clientconn_open) (Some TCP_ERRBUF_SIZE);
  if result <=? 0 then
    change_own_state p PCAP_SESSION_TERMINATE;;
    if result <? 0 then mret None else server_loop p
  else server_loop p.

Definition pcapsession_server_run (p : nat) (pt : point) : M (option point) :=
  match pt with
  | Spawned => change_own_state p PCAP_SESSION_RUNNING;; server_loop p
  | Accepting => server_turn p
  | _ => mret None
  end.

Definition pcapsession_server_stop (p : nat) : M unit :=
  fd ← field p s_fd;
  when (0 <? fd) (close_server_socket fd (Some TCP_ERRBUF_SIZE);; update p (set_fd 0));;
  state ← field p s_state;
  stop_or_restart p (state =? PCAP_SESSION_ABORTING).
End server.

(** ** Stopping *)

(** The session after [pcapsession_server_stop]. *)
Definition server_stopped (s : session) : session :=
  set_state (if s_state s =? PCAP_SESSION_ABORTING then PCAP_SESSION_STOPPED else PCAP_SESSION_START)
    (if 0 <? s_fd s then set_fd 0 s else s).

Lemma server_stop_local `{Env} T `{Frame T} p s : (p < 128)%nat -> s_id s = Z.of_nat p ->
  local T p (pcapsession_server_stop p) s (fun _ s' => s' = server_stopped s).
Proof.
  intros Hp Hid. unfold pcapsession_server_stop, close_server_socket, server_stopped.
  handler_step. handler_step. handler_step.
  apply (local_mono _ _ _ _ (fun _ s' => s' = if 0 <? s_fd s then set_fd 0 s else s)).
  - apply local_when; [apply _|..]; intros ->; [|done]. handler_step.
    apply (local_mono _ _ _ _ (fun _ s' => s' = s)); [by repeat handler_step|].
    intros r ? ->. by handler_step.
  - intros _ s' ->. repeat handler_step; by destruct (0 <? s_fd s).
Qed.

(** ** Opening *)

Definition server_session (p : nat) (fd port : Z) : session :=
  let address := Sockaddr AF_INET INADDR_ANY (u16 port) in
  Session (Z.of_nat p) (address_text address) PCAP_SESSION_START 0 fd PCAP_SESSION_UNSUPERVISED_FD
    address None 0 0 (Some KServer) (Some KServer) None 0 PCAP_SESSION_UNTUNNEL_OFF 0.

(** The session after [pcapsession_server_open], and its result. *)
Definition server_opened (port : Z) (p : nat) (r : Z) (s : session) : Prop :=
  r = 1 /\ (exists fd, 0 <= fd /\ s = server_session p fd port) \/
  r = 0 /\ s_state s = PCAP_SESSION_UNUSED.
(** [open_server_socket] on the session: a socket, with the address stored. *)
Lemma local_open_server_socket `{Env} T `{Frame T} p port s (Q : Z -> session -> Prop) :
  (forall r s', r < 0 -> s_id s' = s_id s -> Q r s') ->
  (forall r, 0 <= r -> Q r (set_address (Sockaddr AF_INET INADDR_ANY (u16 port)) s)) ->
  local T p (open_server_socket port (fun address => update p (set_address address))
    (Some TCP_ERRBUF_SIZE)) s Q.
Proof.
  intros Hneg Hpos. unfold open_server_socket, error_return, invalid_buffer.
  assert (Herr : forall h e s', e < 0 -> s_id s' = s_id s -> local T p
    (when (negb (h =? 0)) (ext (Close h);; mret tt);; mret e) s' Q).
  { intros h e s' He Hid. handler_step. handler_step; [handler_step; handler_step; handler_step|];
      handler_step; auto. }
  handler_step; [handler_step; apply Hneg; [lia|done]|]. cbn [Z.leb].
  handler_step; [handler_step; apply Hneg; [lia|done]|].
  handler_step. handler_step. handler_step; [by apply Herr|]. handler_step. handler_step.
  handler_step. handler_step. handler_step; [by apply Herr|]. handler_step. handler_step.
  handler_step; [by apply Herr|]. handler_step. handler_step. handler_step; [by apply Herr|].
  handler_step. destruct (decide (0 <= r)); [by apply Hpos|apply Hneg; [lia|done]].
Qed.

Lemma server_open_wp `{Env} T `{Frame T} port w :
  length (session_list w) = 128%nat -> length (clientconnlist w) = 128%nat ->
  wp (pcapsession_server_open port) (opened T 0 (server_opened port) w) w.
Proof.
  intros Hl Hc. apply claim_wp; [apply _|done..|]. intros p Hp. do 15 handler_step.
  apply local_open_server_socket; [apply _|..].
  - intros r s' Hr Hid. handler_step. handler_step. handler_step; [|lia].
    do 4 handler_step. handler_step. by right.
  - intros r Hr. handler_step. handler_step. handler_step; [lia|].
    repeat handler_step. left. split; [done|]. by exists r.
Qed.


(** ** After a stop *)

Definition is_accept (e : event) : bool := match e.1 with Accept _ => true | _ => false end.

Section restart.
Context `{Env}.
Implicit Types (w : world) (p : nat) (s : session).

Lemma change_own_state_silent bad w p s n w' : s_id s = Z.of_nat p -> silent bad w p s w' ->
  wp (change_own_state p n) (fun _ => silent bad w p (set_state n s)) w'.
Proof.
  intros Hid Hw. unfold change_own_state. pose proof Hw as [Hs _]. wp_step. wp_step. rewrite Hid.
  eapply wp_change_state; [done|]. by eapply silent_update.
Qed.

Lemma server_stop_silent w p s : session_list w !! p = Some s -> s_id s = Z.of_nat p ->
  wp (pcapsession_server_stop p) (fun _ => silent is_accept w p (server_stopped s)) w.
Proof.
  intros Hs Hid. unfold pcapsession_server_stop, close_server_socket, server_stopped, stop_or_restart.
  set (s1 := if 0 <? s_fd s then set_fd 0 s else s).
  assert (Hw : silent is_accept w p s w) by (by apply silent_refl).
  wp_step. wp_step. wp_step. apply (wp_mono _ (fun _ => silent is_accept w p s1)).
  - unfold s1. wp_step; [|by replace (0 <? s_fd s) with false by lia].
    replace (0 <? s_fd s) with true by lia. wp_step.
    change (invalid_buffer (Some TCP_ERRBUF_SIZE)) with false. cbv iota.
    rewrite (proj2 (Z.leb_gt (s_fd s) 0)) by lia. wp_step. wp_step.
    wp_step; wp_step; (eapply wp_update; [done|]); eapply silent_update; by apply silent_call.
  - intros u w1 Hw1. pose proof Hw1 as [Hs1 _]. wp_step. wp_step.
    replace (s_state s) with (s_state s1) by (unfold s1; by destruct (0 <? s_fd s)).
    apply change_own_state_silent; [|done]. unfold s1. by destruct (0 <? s_fd s).
Qed.

(** A server without a socket runs to [TERMINATE] without a call. *)
Lemma server_run_dead w p s w' : silent is_accept w p s w' -> s_id s = Z.of_nat p -> s_fd s <= 0 ->
  wp (started ← pcapsession_server_run p Spawned;
      polled ← pcapsession_server_run p Accepting;
      mret (started, polled)) (fun r w'' =>
    r = (Some Accepting, None) /\ silent is_accept w p (set_state PCAP_SESSION_TERMINATE s) w'') w'.
Proof.
  intros Hw Hid Hfd. cbn [pcapsession_server_run]. unfold server_loop, server_turn. wp_step. wp_step.
  eapply wp_mono; [by eapply change_own_state_silent|]. intros u w1 Hw1. pose proof Hw1 as [Hs1 _].
  wp_step. wp_step. wp_step. wp_step. wp_step. wp_step. cbn [s_fd set_state].
  unfold poll_server_socket. change (invalid_buffer (Some TCP_ERRBUF_SIZE)) with false. cbv iota.
  rewrite (proj2 (Z.leb_le (s_fd s) 0)) by lia. wp_step. wp_step. wp_step; [|lia]. wp_step.
  eapply wp_mono; [eapply change_own_state_silent, Hw1; done|]. intros u2 w2 Hw2. wp_step; [|lia]. wp_step. by wp_step.
Qed.
End restart.

(** ** Properties *)

(** A server that was stopped to be restarted never accepts again.  Unless
    session handling aborts, its [stop] function leaves it to be started again
    without a socket; the new thread finds that it cannot poll and tells session
    handling to terminate the server, and [accept] is never called. *)
Theorem restarted_server_never_accepts `{Env} (p : nat) (s : session) (w : world) :
  session_list w !! p = Some s -> s_id s = Z.of_nat p -> 0 <= s_fd s ->
  s_state s <> PCAP_SESSION_ABORTING ->
  wp (pcapsession_server_stop p;;
      state ← field p s_state;
      threads ← (started ← pcapsession_server_run p Spawned;
                 polled ← pcapsession_server_run p Accepting;
                 mret (started, polled));
      mret (state, threads)) (fun r w' =>
    r = (PCAP_SESSION_START, (Some Accepting, None)) /\
    (exists s', session_list w' !! p = Some s' /\ s_fd s' = 0 /\
       s_state s' = PCAP_SESSION_TERMINATE) /\
    exists evs, calls_since w w' evs /\ Forall (fun e => is_accept e = false) evs) w.
Proof.
  intros Hs Hid Hfd Hab. wp_step. eapply wp_mono; [by apply server_stop_silent|].
  intros u w1 Hw1. pose proof Hw1 as [Hs1 _]. wp_step. wp_step. wp_step.
  assert (Hf1 : s_fd (server_stopped s) = 0) by (cbn; destruct (Z.ltb_spec 0 (s_fd s)); cbn; lia).
  eapply wp_mono; [eapply (server_run_dead w p); [exact Hw1| |lia]|].
  - cbn. by destruct (0 <? s_fd s).
  - intros r w2 [-> (Hs2 & _ & Hev)]. wp_step. split.
    + cbn. by rewrite (proj2 (Z.eqb_neq _ _) Hab).
    + split; [|done]. eexists. split; [done|]. done.
Qed.

Definition quiet_os : Env := fun _ _ => (0, "").

Lemma restarted_server_never_accepts_witness :
  let s := set_state PCAP_SESSION_TERMINATING (server_session 0 3 4711) in
  let w := World [s] PCAP_SESSION_RUNNING [] true (fun _ => 0) ∅ 1 [] in
  wp (pcapsession_server_stop (H := quiet_os) 0;;
      state ← field 0 s_state;
      threads ← (started ← pcapsession_server_run (H := quiet_os) 0 Spawned;
                 polled ← pcapsession_server_run (H := quiet_os) 0 Accepting;
                 mret (started, polled));
      mret (state, threads)) (fun r w' =>
    r = (PCAP_SESSION_START, (Some Accepting, None)) /\
    (exists s', session_list w' !! 0%nat = Some s' /\ s_fd s' = 0 /\
       s_state s' = PCAP_SESSION_TERMINATE) /\
    exists evs, calls_since w w' evs /\ Forall (fun e => is_accept e = false) evs) w.
Proof.
  intros s w. apply (@restarted_server_never_accepts quiet_os 0 s).
  - reflexivity.
  - reflexivity.
  - discriminate.
  - discriminate.
Defined.
