(* ===== verification/LiveCapture.v ===== *)
(** * Live capture

    [pcapsession/pcapsession_livecapture.c]: packets of a network interface. *)
From S2P Require Import Prelude Text Pcap Monitor Sys Wp Tcp Session Handler ClientConn.

Section livecapture.
Context `{Env}.

Definition pcapsession_livecapture_open (interface_name : string) : M Z :=
  slot ← pcapsession_handling_get_new;
  match slot with
  | None => mret 0
  | Some p =>
      update p (set_functions KLiveCapture KLiveCapture);;
      copy_description p interface_name;;
      description ← field p s_description;
      handle ← ext (PcapOpenLive description);
      update p (set_pcap_handle handle);;
      if handle =? 0 then change_own_state p PCAP_SESSION_UNUSED;; mret 0 else
      fd ← ext (PcapSelectableFd handle);
      update p (set_fd fd);;
      update p (set_supervise_fd PCAP_SESSION_SUPERVISED_FD);;
      update p (set_monitor None);;
      update p (set_pcap_dumper 0);;
      update p (set_handler None);;
      update p (set_untunnel PCAP_SESSION_UNTUNNEL_OFF);;
      update p (set_iterations 0);;
      add_own p
  end.

Definition pcapsession_livecapture_run (p : nat) (pt : point) : M (option point) :=
  match pt with
  | Spawned =>
      change_own_state p PCAP_SESSION_RUNNING;;
      open_own_monitor TuLiveCapture p;;
      enter_pcap_loop p Capturing
  | Capturing =>
      close_own_handle p;;
      change_own_state p PCAP_SESSION_TERMINATE;;
      mret None
  | _ => mret None
  end.

Definition pcapsession_livecapture_stop (p : nat) : M unit :=
  break_own_loop p;;
  close_own_monitor p;;
  state ← field p s_state;
  stop_or_restart p (state =? PCAP_SESSION_ABORTING).
End livecapture.

(** ** Stopping *)

(** The session after [pcapsession_livecapture_stop]: its descriptor stays. *)
Definition livecapture_stopped (s : session) : session :=
  set_state (if s_state s =? PCAP_SESSION_ABORTING then PCAP_SESSION_STOPPED else PCAP_SESSION_START)
    (set_monitor None (set_pcap_handle 0 s)).

Lemma livecapture_stop_local `{Env} T `{Frame T} p s : (p < 128)%nat -> s_id s = Z.of_nat p ->
  local T p (pcapsession_livecapture_stop p) s (fun _ s' => s' = livecapture_stopped s).
Proof. intros Hp Hid. unfold pcapsession_livecapture_stop. by repeat handler_step. Qed.

(** ** Opening *)

Definition livecapture_session (p : nat) (interface_name : string) (handle fd : Z) : session :=
  Session (Z.of_nat p) interface_name PCAP_SESSION_START 0 fd PCAP_SESSION_SUPERVISED_FD
    zero_addr None handle 0 (Some KLiveCapture) (Some KLiveCapture) None 0
    PCAP_SESSION_UNTUNNEL_OFF 0.

(** The session after [pcapsession_livecapture_open], and its result. *)
Definition livecapture_opened (interface_name : string) (p : nat) (r : Z) (s : session) : Prop :=
  r = 1 /\ (exists handle fd, handle <> 0 /\ s = livecapture_session p interface_name handle fd) \/
  r = 0 /\ s_state s = PCAP_SESSION_UNUSED.

Lemma livecapture_open_wp `{Env} T `{Frame T} interface_name w :
  length (session_list w) = 128%nat -> length (clientconnlist w) = 128%nat ->
  Z.of_nat (String.length interface_name) < FILENAME_MAX ->
  wp (pcapsession_livecapture_open interface_name)
    (opened T 0 (livecapture_opened interface_name) w) w.
Proof.
  intros Hl Hc Hn. apply claim_wp; [apply _|done..|]. intros p Hp.
  do 6 handler_step. handler_step. handler_step. handler_step. handler_step. handler_step.
  - handler_step. handler_step. handler_step. by right.
  - repeat handler_step. left. split; [done|]. exists r, r0. split; [lia|done].
Qed.

(** ** Running without a handle *)

Lemma livecapture_null_handle `{Env} p s w : session_list w !! p = Some s -> s_id s = Z.of_nat p ->
  (p < 128)%nat -> length (clientconnlist w) = 128%nat -> s_pcap_handle s = 0 ->
  pcapsession_livecapture_run p Spawned w = Fault NullPointer.
Proof.
  intros Hs Hid Hp Hc Hh. unfold pcapsession_livecapture_run.
  assert (Hl : local run_threads p (change_own_state p PCAP_SESSION_RUNNING;;
    open_own_monitor TuLiveCapture p) s (fun _ s2 => s_pcap_handle s2 = 0)).
  { handler_step. handler_step. by handler_step. }
  destruct (proj1 (wp_run _ _ _) (Hl w Hs Hc)) as (u2 & w2 & Hrun & s2 & Ho & Hh2).
  pose proof (only_session_lookup _ _ _ _ _ _ Hs Ho) as Hs2. unfold mbind, M_bind in Hrun |- *.
  destruct (change_own_state p PCAP_SESSION_RUNNING w) as [[? w3]|]; [|done]. rewrite Hrun.
  unfold enter_pcap_loop, mbind, M_bind, field. by rewrite Hs2, Hh2.
Qed.

(** ** Properties *)

(** A live capture cannot be restarted.  Its [stop] function clears the
    capture handle and leaves it to be started again, but only the [open]
    function makes a handle: the new thread calls [pcap_loop] with a null
    pointer. *)
Theorem restarted_live_capture_faults `{Env} (p : nat) (s : session) (w : world) :
  session_list w !! p = Some s -> s_id s = Z.of_nat p -> (p < 128)%nat ->
  length (clientconnlist w) = 128%nat -> s_state s <> PCAP_SESSION_ABORTING ->
  wp (pcapsession_livecapture_stop p;; field p s_state) (fun state w' =>
    state = PCAP_SESSION_START /\
    pcapsession_livecapture_run p Spawned w' = Fault NullPointer) w.
Proof.
  intros Hs Hid Hp Hc Hab. wp_step. eapply wp_mono; [by apply (livecapture_stop_local same_threads)|].
  intros u w1 (s1 & Ho & ->). pose proof (only_session_lookup _ _ _ _ _ _ Hs Ho) as Hs1.
  wp_step. split; [cbn; by rewrite (proj2 (Z.eqb_neq _ _) Hab)|].
  apply (livecapture_null_handle p _ w1 Hs1); try done. by rewrite (os_conns _ _ _ _ _ Ho).
Qed.

Definition still_os : Env := fun _ _ => (0, "").

Lemma restarted_live_capture_faults_witness :
  let s := set_state PCAP_SESSION_TERMINATING (livecapture_session 0 "eth0" 9 4) in
  let w := World [s] PCAP_SESSION_RUNNING (replicate 128 None) true (fun _ => 0) ∅ 1 [] in
  wp (pcapsession_livecapture_stop (H := still_os) 0;; field 0 s_state) (fun state w' =>
    state = PCAP_SESSION_START /\
    pcapsession_livecapture_run (H := still_os) 0 Spawned w' = Fault NullPointer) w.
Proof.
  intros s w. apply (@restarted_live_capture_faults still_os 0 s).
  - reflexivity.
  - reflexivity.
  - lia.
  - reflexivity.
  - discriminate.
Defined.
