(* ===== verification/FileCapture.v ===== *)
(** * File capture

    [pcapsession/pcapsession_filecapture.c]: the packets of the capture files of
    a directory, for a number of iterations. *)
From S2P Require Import Prelude Text Pcap Monitor Sys Wp Tcp Session Handler ClientConn.

(** The suffix of [s] that [strstr] returns: from the first occurrence of
    [needle]. *)
Fixpoint strstr (s needle : string) : option string :=
  if String.prefix needle s then Some s else
  match s with
  | EmptyString => None
  | String _ s => strstr s needle
  end.

(** The test of the name of a directory entry. *)
Definition is_pcap_file (d_name : string) : bool :=
  match strstr d_name PCAP_FILE_TYPE with
  | None => false
  | Some pcap_extension => String.eqb pcap_extension PCAP_FILE_TYPE
  end.

Section filecapture.
Context `{Env}.

Definition pcapsession_filecapture_open (directory_name : string) (iterations : Z) : M Z :=
  slot ← pcapsession_handling_get_new;
  match slot with
  | None => mret 0
  | Some p =>
      update p (set_functions KFileCapture KFileCapture);;
      copy_description p directory_name;;
      update p (set_fd 0);;
      update p (set_supervise_fd PCAP_SESSION_UNSUPERVISED_FD);;
      update p (set_monitor None);;
      update p (set_pcap_handle 0);;
      update p (set_pcap_dumper 0);;
      update p (set_handler None);;
      update p (set_untunnel PCAP_SESSION_UNTUNNEL_OFF);;
      update p (set_iterations iterations);;
      add_own p
  end.

(** The start of one iteration over the directory. *)
Definition filecapture_iteration (p : nat) : M (option point) :=
  iterations ← field p s_iterations;
  when (negb (iterations =? PCAP_SESSION_ITERATE_INFINITY) && negb (iterations =? 0))
    (update p (fun s => set_iterations (s_iterations s - 1) s));;
  description ← field p s_description;
  pcap_directory ← ext (Opendir description);
  if pcap_directory =? 0 then
    ext Errno;; change_own_state p PCAP_SESSION_TERMINATE;; mret None
  else mret (Some (Reading pcap_directory 0)).

(** The end of an iteration, after the last entry of the directory. *)
Definition filecapture_finish (p : nat) (pcap_directory pcap_file_count : Z) : M (option point) :=
  ext (Closedir pcap_directory);;
  iterations ← field p s_iterations;
  if negb (iterations =? 0) && (0 <? pcap_file_count) then filecapture_iteration p else
  change_own_state p PCAP_SESSION_TERMINATE;;
  mret None.

(** One entry of the directory. *)
Definition filecapture_entry (p : nat) (pcap_directory pcap_file_count : Z) : M (option point) :=
  '(pcap_dir_entry, d_name) ← ext_reply (Readdir pcap_directory);
  if pcap_dir_entry =? 0 then filecapture_finish p pcap_directory pcap_file_count else
  if negb (is_pcap_file d_name) then mret (Some (Reading pcap_directory pcap_file_count)) else
  description ← field p s_description;
  let file_path := description +:+ "/" +:+ d_name in
  if FILENAME_MAX <=? Z.of_nat (String.length file_path) then fail BufferOverflow else
  handle ← ext (PcapOpenOffline file_path);
  update p (set_pcap_handle handle);;
  if handle =? 0 then
    change_own_state p PCAP_SESSION_TERMINATE;;
    ext (Closedir pcap_directory);;
    mret None
  else
    fd ← ext (PcapSelectableFd handle);
    update p (set_fd fd);;
    update p (set_supervise_fd PCAP_SESSION_SUPERVISED_FD);;
    enter_pcap_loop p (Streaming pcap_directory (pcap_file_count + 1)).

(** After the loop over the packets of a file. *)
Definition filecapture_streamed (p : nat) (pcap_directory pcap_file_count : Z) : M (option point) :=
  update p (set_supervise_fd PCAP_SESSION_UNSUPERVISED_FD);;
  update p (set_fd 0);;
  close_own_handle p;;
  mret (Some (Reading pcap_directory pcap_file_count)).

Definition pcapsession_filecapture_run (p : nat) (pt : point) : M (option point) :=
  match pt with
  | Spawned =>
      change_own_state p PCAP_SESSION_RUNNING;;
      open_own_monitor TuFileCapture p;;
      filecapture_iteration p
  | Reading directory file_count => filecapture_entry p directory file_count
  | Streaming directory file_count => filecapture_streamed p directory file_count
  | _ => mret None
  end.

Definition pcapsession_filecapture_stop (p : nat) : M unit :=
  break_own_loop p;;
  close_own_monitor p;;
  state ← field p s_state;
  iterations ← field p s_iterations;
  stop_or_restart p ((state =? PCAP_SESSION_ABORTING) || (iterations =? 0)).
End filecapture.

(** ** Stopping *)

(** The session after [pcapsession_filecapture_stop]. *)
Definition filecapture_stopped (s : session) : session :=
  set_state (if (s_state s =? PCAP_SESSION_ABORTING) || (s_iterations s =? 0)
             then PCAP_SESSION_STOPPED else PCAP_SESSION_START)
    (set_monitor None (set_pcap_handle 0 s)).

Lemma filecapture_stop_local `{Env} T `{Frame T} p s : (p < 128)%nat -> s_id s = Z.of_nat p ->
  local T p (pcapsession_filecapture_stop p) s (fun _ s' => s' = filecapture_stopped s).
Proof. intros Hp Hid. unfold pcapsession_filecapture_stop. by repeat handler_step. Qed.

(** ** Opening *)

Definition filecapture_session (p : nat) (directory_name : string) (iterations : Z) : session :=
  Session (Z.of_nat p) directory_name PCAP_SESSION_START 0 0 PCAP_SESSION_UNSUPERVISED_FD
    zero_addr None 0 0 (Some KFileCapture) (Some KFileCapture) None 0
    PCAP_SESSION_UNTUNNEL_OFF iterations.

Lemma filecapture_open_wp `{Env} T `{Frame T} directory_name iterations w :
  length (session_list w) = 128%nat -> length (clientconnlist w) = 128%nat ->
  Z.of_nat (String.length directory_name) < FILENAME_MAX ->
  wp (pcapsession_filecapture_open directory_name iterations)
    (opened T 0 (fun p r s => r = 1 /\ s = filecapture_session p directory_name iterations) w) w.
Proof.
  intros Hl Hc Hn. apply claim_wp; [apply _|done..|]. intros p Hp. by repeat handler_step.
Qed.

(** ** A run over a directory *)

(** Some turns of the thread, from one point where it can block to another or,
    with no point left, to its end. *)
Inductive file_steps `{Env} (p : nat) : option point -> world -> option point -> world -> Prop :=
  | fs_refl r w : file_steps p r w r w
  | fs_step pt w r1 w1 r w' : pcapsession_filecapture_run p pt w = Ok (r1, w1) ->
      file_steps p r1 w1 r w' -> file_steps p (Some pt) w r w'.

Lemma file_steps_trans `{Env} p r w r1 w1 r2 w2 :
  file_steps p r w r1 w1 -> file_steps p r1 w1 r2 w2 -> file_steps p r w r2 w2.
Proof. induction 1; [done|]. intros. eapply fs_step; eauto. Qed.

(** The entries read since the directory was last opened, and the files that
    were opened. *)
Definition entries_read (tr : list event) : nat :=
  foldl (fun k e => match e.1 with Opendir _ => O | Readdir _ => S k | _ => k end) O tr.
Definition opened_file (e : event) : option string :=
  match e.1 with PcapOpenOffline path => Some path | _ => None end.
Definition files_opened (tr : list event) : list string := omap opened_file tr.

Lemma entries_read_snoc tr e : entries_read (tr ++ [e]) =
  match e.1 with Opendir _ => O | Readdir _ => S (entries_read tr) | _ => entries_read tr end.
Proof. unfold entries_read. by rewrite foldl_app. Qed.

Lemma files_opened_snoc tr e :
  files_opened (tr ++ [e]) = files_opened tr ++ option_list (opened_file e).
Proof. unfold files_opened. rewrite omap_app. cbn. by destruct (opened_file e). Qed.

(** A directory that stays as it is, with readable files. *)
Class Directory `{Env} (names : list string) : Prop := {
  dir_open tr path : (oracle tr (Opendir path)).1 <> 0;
  dir_entry tr d name : names !! entries_read tr = Some name ->
    oracle tr (Readdir d) = (1, name);
  dir_end tr d : names !! entries_read tr = None -> (oracle tr (Readdir d)).1 = 0;
  dir_file tr path : (oracle tr (PcapOpenOffline path)).1 <> 0 }.

(** The paths of the capture files of the directory, in order. *)
Definition capture_files (directory : string) (names : list string) : list string :=
  (fun name => directory +:+ "/" +:+ name) <$> filter (fun name => is_pcap_file name = true) names.

Section scan.
Context `{Henv : Env} (names : list string) `{!Directory names} (p : nat) (directory : string).
Hypothesis paths_fit : forall name, name ∈ names ->
  Z.of_nat (String.length (directory +:+ "/" +:+ name)) < FILENAME_MAX.
Implicit Types (w : world) (s : session).

(** The session of a running capture with [i] more iterations after this one. *)
Record scanning (i : Z) (w : world) (k : nat) (files : list string) : Prop := {
  sc_session : exists s, session_list w !! p = Some s /\ s_id s = Z.of_nat p /\
    s_description s = directory /\ s_iterations s = i;
  sc_read : entries_read (trace w) = k;
  sc_files : files_opened (trace w) = files }.

Ltac scan_trace := cbn; rewrite ?entries_read_snoc, ?files_opened_snoc; cbn;
  rewrite ?app_nil_r; congruence.
Ltac scan_session := cbn; rewrite ?list_insert_insert_eq;
  eexists; split; [rewrite list_lookup_insert_eq by (by eapply lookup_lt_Some); reflexivity|done].

(** The session has a capture file open. *)
Definition streaming (w : world) : Prop :=
  exists s, session_list w !! p = Some s /\ s_pcap_handle s <> 0.

Lemma entry_wp i k files d c name w : scanning i w k files -> names !! k = Some name ->
  wp (filecapture_entry p d c) (fun r w' =>
    if is_pcap_file name
    then r = Some (Streaming d (c + 1)) /\ streaming w' /\
      scanning i w' (S k) (files ++ [directory +:+ "/" +:+ name])
    else r = Some (Reading d c) /\ scanning i w' (S k) files) w.
Proof.
  intros [(s & Hs & Hid & Hdesc & Hi) Hk Hf] Hname. pose proof (lookup_lt_Some _ _ _ Hs) as Hlt.
  unfold filecapture_entry. wp_step.
  apply wp_ext_reply. unfold answer. rewrite <- Hk in Hname.
  rewrite (dir_entry (trace w) d name Hname). cbn [fst snd]. change (1 =? 0) with false. cbv iota.
  destruct (is_pcap_file name); cbn [negb].
  - wp_step. wp_step. rewrite Hdesc. rewrite (proj2 (Z.leb_gt _ _)) by
      (apply paths_fit; by eapply list_elem_of_lookup_2).
    wp_step. apply wp_ext. unfold answer.
    pose proof (dir_file (trace w ++ [(Readdir d, 1)]) (directory +:+ "/" +:+ name)) as Hh.
    cbn [trace set_trace]. set (h := (oracle _ (PcapOpenOffline _)).1) in *. clearbody h.
    wp_step. wp_step. rewrite (proj2 (Z.eqb_neq _ _) Hh). wp_step. wp_step. wp_step. wp_step.
    wp_step. wp_step. unfold enter_pcap_loop. wp_step. wp_step.
    change (s_pcap_handle _) with h. rewrite (proj2 (Z.eqb_neq _ _) Hh). wp_step. split; [done|].
    split; [|split; [scan_session|scan_trace..]]. eexists. cbn.
    rewrite !list_insert_insert_eq, list_lookup_insert_eq by done. split; [reflexivity|exact Hh].
  - wp_step. split; [done|]. split; [by exists s|scan_trace..].
Qed.

Lemma streamed_wp i k files d c w : streaming w -> scanning i w k files ->
  wp (filecapture_streamed p d c) (fun r w' =>
    r = Some (Reading d c) /\ scanning i w' k files) w.
Proof.
  intros (s0 & Hs0 & Hh) [(s & Hs & Hid & Hdesc & Hi) Hk Hf].
  rewrite Hs in Hs0. injection Hs0 as <-. pose proof (lookup_lt_Some _ _ _ Hs) as Hlt.
  unfold filecapture_streamed, close_own_handle. repeat (wp_step; []).
  split; [done|]. split; [scan_session|scan_trace..].
Qed.

(** One turn, from what it does. *)
Lemma file_step_wp pt w Q r w' : wp (pcapsession_filecapture_run p pt) Q w ->
  (forall r1 w1, Q r1 w1 -> file_steps p r1 w1 r w') -> file_steps p (Some pt) w r w'.
Proof. intros (r1 & w1 & Hrun & HQ)%wp_run Hsteps. eapply fs_step; [done|auto]. Qed.

Lemma file_step_exists pt w Q (P : option point -> world -> Prop) :
  wp (pcapsession_filecapture_run p pt) Q w ->
  (forall r1 w1, Q r1 w1 -> exists r w', file_steps p r1 w1 r w' /\ P r w') ->
  exists r w', file_steps p (Some pt) w r w' /\ P r w'.
Proof.
  intros (r1 & w1 & Hrun & HQ)%wp_run Hk. destruct (Hk r1 w1 HQ) as (r & w' & Hs & HP).
  exists r, w'. split; [by eapply fs_step|done].
Qed.

(** The rest of the directory. *)
Definition scanned (i d c : Z) (files : list string) (r : option point) (w : world) : Prop :=
  r = Some (Reading d c) /\ scanning i w (length names) files.

Lemma scan_steps i d rest : forall k files c w, (k <= length names)%nat -> drop k names = rest ->
  scanning i w k files ->
  exists r w', file_steps p (Some (Reading d c)) w r w' /\
    scanned i d (c + blen (capture_files directory rest)) (files ++ capture_files directory rest) r w'.
Proof.
  induction rest as [|name rest IH]; intros k files c w Hk Hrest Hsc.
  - exists (Some (Reading d c)), w. split; [constructor|]. unfold scanned, capture_files, blen. cbn.
    rewrite Z.add_0_r, app_nil_r. split; [done|].
    assert (k = length names) as <-; [|done]. apply (f_equal length) in Hrest.
    rewrite length_drop in Hrest. cbn in Hrest. lia.
  - assert (Hname : names !! k = Some name).
    { rewrite <- (take_drop k names), Hrest. rewrite lookup_app_r by (rewrite length_take; lia).
      rewrite length_take. by replace (k - _)%nat with 0%nat by lia. }
    assert (Hk' : (S k <= length names)%nat) by (apply lookup_lt_Some in Hname; lia).
    assert (Hrest' : drop (S k) names = rest)
      by (replace (S k) with (k + 1)%nat by lia; by rewrite <- drop_drop, Hrest).
    eapply file_step_exists; [by eapply entry_wp|]. cbn beta. unfold capture_files.
    rewrite filter_cons. intros r1 w1 Hr. destruct (is_pcap_file name).
    + destruct Hr as (-> & Hst1 & Hsc1). rewrite decide_True by done. cbn [fmap list_fmap].
      eapply file_step_exists; [by eapply streamed_wp|]. cbn beta. intros r2 w2 [-> Hsc2].
      destruct (IH (S k) _ (c + 1) w2 Hk' Hrest' Hsc2) as (r & w' & Hs & Hend).
      exists r, w'. split; [done|]. rewrite blen_cons. rewrite <- (assoc_L (++)) in Hend.
      by rewrite (Z.add_assoc c 1).
    + destruct Hr as [-> Hsc1]. rewrite decide_False by done. by apply (IH (S k)).
Qed.

(** The start of an iteration. *)
Lemma iteration_wp i w k files : i <> PCAP_SESSION_ITERATE_INFINITY -> scanning i w k files ->
  wp (filecapture_iteration p) (fun r w' => exists d, r = Some (Reading d 0) /\
    scanning (if i =? 0 then 0 else i - 1) w' 0 files) w.
Proof.
  intros Hinf [(s & Hs & Hid & Hdesc & Hi) Hk Hf]. pose proof (lookup_lt_Some _ _ _ Hs) as Hlt.
  unfold filecapture_iteration. wp_step. wp_step. rewrite Hi, (proj2 (Z.eqb_neq _ _) Hinf). wp_step.
  cbn [negb andb].
  apply (wp_mono _ (fun _ w1 => scanning (if i =? 0 then 0 else i - 1) w1 k files)).
  - wp_step.
    + wp_step. rewrite (proj2 (Z.eqb_neq i 0)) by lia. split; [|done..].
      eexists. split; [cbn; by rewrite list_lookup_insert_eq|]. split; [done|]. split; [done|].
      cbn. by rewrite Hi.
    + split; [|done..]. exists s. rewrite (proj2 (Z.eqb_eq i 0)) by lia. repeat split; [done..|lia].
  - intros _ w1 [(s1 & Hs1 & Hid1 & Hdesc1 & Hi1) Hk1 Hf1]. wp_step. wp_step. rewrite Hdesc1.
    wp_step. apply wp_ext. unfold answer. rewrite (proj2 (Z.eqb_neq _ _)) by apply dir_open.
    wp_step. eexists. split; [done|]. split; [by exists s1|scan_trace..].
Qed.
(** The end of the directory: another iteration, or the end of the thread. *)
Definition capture_done (files : list string) (r : option point) (w' : world) : Prop :=
  r = None /\ files_opened (trace w') = files /\
  exists s, session_list w' !! p = Some s /\ s_state s = PCAP_SESSION_TERMINATE /\ s_iterations s = 0.

Lemma end_wp i files d c w : 0 <= i -> 0 < c -> scanning i w (length names) files ->
  wp (filecapture_entry p d c) (fun r w' =>
    if i =? 0 then capture_done files r w'
    else exists d, r = Some (Reading d 0) /\ scanning (i - 1) w' 0 files) w.
Proof.
  intros Hi0 Hc [(s & Hs & Hid & Hdesc & Hi) Hk Hf]. pose proof (lookup_lt_Some _ _ _ Hs) as Hlt.
  unfold filecapture_entry. wp_step. apply wp_ext_reply. unfold answer.
  pose proof (dir_end (trace w) d) as Hend. rewrite Hk in Hend.
  specialize (Hend (lookup_ge_None_2 names (length names) (le_n _))).
  destruct (oracle (trace w) (Readdir d)) as [e n]. cbn [fst] in *. subst e.
  change (0 =? 0) with true. cbv iota. unfold filecapture_finish.
  wp_step. wp_step. wp_step. wp_step. rewrite Hi, (proj2 (Z.ltb_lt 0 c)) by done.
  destruct (Z.eqb_spec i 0) as [->|Hne]; cbn [negb andb].
  - unfold change_own_state. wp_step. wp_step. wp_step. rewrite Hid. eapply wp_change_state; [done|].
    wp_step. split; [done|]. split; [scan_trace|]. eexists.
    split; [cbn; rewrite list_lookup_insert_eq by done; reflexivity|done].
  - set (w1 := set_trace _ _). assert (Hsc : scanning i w1 (entries_read (trace w1)) files).
    { split; [by exists s|done|]. unfold w1. scan_trace. }
    eapply wp_mono; [eapply (iteration_wp i); [unfold PCAP_SESSION_ITERATE_INFINITY; lia|exact Hsc]|].
    cbn beta. intros r2 w2 (d2 & -> & Hsc2). rewrite (proj2 (Z.eqb_neq _ _) Hne) in Hsc2. by exists d2.
Qed.

(** All the iterations from the start of one. *)
Lemma iterations_end d : forall (n : nat) files w,
  capture_files directory names <> [] -> scanning (Z.of_nat n) w 0 files ->
  exists r w', file_steps p (Some (Reading d 0)) w r w' /\
    capture_done (files ++ concat (replicate (S n) (capture_files directory names))) r w'.
Proof.
  intros n. revert d. induction n as [|n IH]; intros d files w Hne Hsc;
    destruct (scan_steps _ d names 0 files 0 w ltac:(lia) eq_refl Hsc) as (r1 & w1 & H1 & -> & Hsc1);
    (assert (Hpos : 0 < 0 + blen (capture_files directory names))
       by (destruct (capture_files directory names); unfold blen; cbn; [done|lia])).
  - destruct (file_step_exists (Reading d (0 + blen (capture_files directory names))) w1 _
      (capture_done (files ++ capture_files directory names))
      (end_wp 0 _ d _ w1 ltac:(lia) Hpos Hsc1)) as (r & w' & Hs & Hend).
    { intros r2 w2 Hr. exists r2, w2. split; [constructor|done]. }
    exists r, w'. split; [by eapply file_steps_trans|]. cbn. by rewrite app_nil_r.
  - destruct (file_step_exists (Reading d (0 + blen (capture_files directory names))) w1 _
      (capture_done ((files ++ capture_files directory names) ++
        concat (replicate (S n) (capture_files directory names))))
      (end_wp (Z.of_nat (S n)) _ d _ w1 ltac:(lia) Hpos Hsc1)) as (r & w' & Hs & Hend).
    { intros r2 w2 Hr. cbn beta in Hr. rewrite (proj2 (Z.eqb_neq (Z.of_nat (S n)) 0)) in Hr by lia.
      destruct Hr as (d2 & -> & Hsc2). replace (Z.of_nat (S n) - 1) with (Z.of_nat n) in Hsc2 by lia.
      by apply IH. }
    exists r, w'. split; [by eapply file_steps_trans|]. rewrite <- (assoc_L (++)) in Hend. done.
Qed.
End scan.

(** ** Properties *)

(** The run of the thread, for at most [n] turns. *)
Fixpoint filecapture_thread `{Env} (n p : nat) (pt : point) : M (option point) :=
  match n with
  | O => mret (Some pt)
  | S n =>
      next ← pcapsession_filecapture_run p pt;
      match next with None => mret None | Some pt => filecapture_thread n p pt end
  end.

Lemma file_steps_thread `{Env} p r w r' w' : file_steps p r w r' w' -> r' = None ->
  forall pt, r = Some pt -> exists n, filecapture_thread n p pt w = Ok (None, w').
Proof.
  induction 1 as [r w|pt0 w r1 w1 r w' Hrun Hs IH]; intros Hr' pt Hpt; [congruence|].
  injection Hpt as ->. destruct r1 as [pt1|].
  - destruct (IH Hr' pt1 eq_refl) as [n Hn]. exists (S n). cbn. unfold mbind, M_bind.
    by rewrite Hrun.
  - inversion Hs; subst. exists 1%nat. cbn. unfold mbind, M_bind. by rewrite Hrun.
Qed.

(** C23: a file capture ends.  In a directory that stays as it is and whose
    capture files can be opened, the thread of a capture told to make [n]
    iterations, [n] finite, comes to its end after some number of turns: it has
    opened the capture files of the directory in order, [n] times over (once,
    when [n] is 0), and asks session handling to terminate with no iteration
    left. *)
Theorem file_capture_iterates `{Henv : Env} (names : list string) `{!Directory names} (p n : nat)
    (s : session) (w : world) :
  (forall name, name ∈ names ->
     Z.of_nat (String.length (s_description s +:+ "/" +:+ name)) < FILENAME_MAX) ->
  capture_files (s_description s) names <> [] -> files_opened (trace w) = [] ->
  session_list w !! p = Some s -> s_id s = Z.of_nat p -> s_iterations s = Z.of_nat n ->
  exists fuel w', filecapture_thread fuel p Spawned w = Ok (None, w') /\
    files_opened (trace w') =
      concat (replicate (Nat.max 1 n) (capture_files (s_description s) names)) /\
    exists s', session_list w' !! p = Some s' /\ s_state s' = PCAP_SESSION_TERMINATE /\
      s_iterations s' = 0.
Proof.
  intros Hfit Hne Hfiles Hs Hid Hi. pose proof (lookup_lt_Some _ _ _ Hs) as Hlt.
  assert (Hstart : wp (pcapsession_filecapture_run p Spawned) (fun r w1 => exists d,
    r = Some (Reading d 0) /\ scanning p (s_description s)
      (if Z.of_nat n =? 0 then 0 else Z.of_nat n - 1) w1 0 []) w).
  { cbn [pcapsession_filecapture_run]. unfold change_own_state, open_own_monitor.
    wp_step. wp_step. wp_step. rewrite Hid. eapply wp_change_state; [done|].
    wp_step. wp_step. wp_step. wp_step. wp_step. wp_step. apply wp_open_monitor. intros m glob tr Htr.
    wp_step. eapply iteration_wp; [done|unfold PCAP_SESSION_ITERATE_INFINITY; lia|].
    split; [|done|].
    - eexists. split; [cbn; rewrite ?list_insert_insert_eq, list_lookup_insert_eq by done; done|done].
    - cbn in *. destruct Htr as [->|[r ->]]; [done|]. rewrite files_opened_snoc. cbn.
      by rewrite app_nil_r. }
  apply wp_run in Hstart as (r & w1 & Hrun & d & -> & Hsc).
  replace (if Z.of_nat n =? 0 then 0 else Z.of_nat n - 1) with (Z.of_nat (Nat.pred n)) in Hsc
    by (destruct (Z.eqb_spec (Z.of_nat n) 0); lia).
  destruct (iterations_end names p (s_description s) Hfit d (Nat.pred n) [] w1 Hne Hsc)
    as (r & w' & Hsteps & -> & Hf & Hend).
  destruct (file_steps_thread p (Some Spawned) w None w') with (pt := Spawned) as [fuel Hfuel];
    [by eapply fs_step|done|done|].
  exists fuel, w'. split; [done|]. split; [|done]. rewrite Hf. cbn [app]. by destruct n.
Qed.

(** [needle] does not start before the position [n] of [s]. *)
Definition not_before (needle s : string) (n : nat) : Prop :=
  forall b r, s = b +:+ r -> (String.length b < n)%nat -> String.prefix needle r = false.

Lemma strstr_spec needle s :
  match strstr s needle with
  | Some r => exists b, s = b +:+ r /\ String.prefix needle r = true /\
      not_before needle s (String.length b)
  | None => not_before needle s (S (String.length s))
  end.
Proof.
  induction s as [|c s IH]; cbn [strstr].
  - destruct (String.prefix needle "") eqn:Hp.
    + exists "". split; [done|]. split; [done|]. intros b r _ Hb. cbn in Hb. lia.
    + intros b r Heq Hb. destruct b; [by rewrite str_app_nil_l in Heq; subst|done].
  - destruct (String.prefix needle (String c s)) eqn:Hp.
    + exists "". split; [done|]. split; [done|]. intros b r _ Hb. cbn in Hb. lia.
    + assert (Hcons : forall n, not_before needle s n -> not_before needle (String c s) (S n)).
      { intros n Hn [|c' b] r Heq Hb; [by rewrite str_app_nil_l in Heq; subst|].
        injection Heq as -> ->. apply (Hn b r); [done|cbn in Hb; lia]. }
      destruct (strstr s needle) as [r|]; [|by apply Hcons].
      destruct IH as (b & -> & Hr & Hn). exists (String c b). split; [done|]. split; [done|].
      by apply Hcons.
Qed.

Lemma prefix_refl s : String.prefix s s = true.
Proof. induction s as [|c s IH]; [done|]. cbn. by destruct (Ascii.ascii_dec c c). Qed.

Lemma append_split (b1 b2 r1 r2 : string) : b1 +:+ r1 = b2 +:+ r2 ->
  String.length b1 = String.length b2 -> b1 = b2 /\ r1 = r2.
Proof.
  revert b2. induction b1 as [|c b1 IH]; intros [|c2 b2]; try done.
  intros [= -> Heq] [= Hl]. by destruct (IH b2 Heq Hl) as [-> ->].
Qed.

(** A directory entry is taken for a capture file exactly when its name ends
    in [".pcap"] and [".pcap"] does not start earlier in it. *)
Theorem is_pcap_file_first_occurrence (d_name : string) :
  is_pcap_file d_name = true <->
  exists stem, d_name = stem +:+ PCAP_FILE_TYPE /\
    not_before PCAP_FILE_TYPE d_name (String.length stem).
Proof.
  unfold is_pcap_file. pose proof (strstr_spec PCAP_FILE_TYPE d_name) as Hspec. split.
  - destruct (strstr d_name PCAP_FILE_TYPE) as [r|]; [|done]. intros ->%String.eqb_eq.
    destruct Hspec as (b & Hb & _ & Hn). by exists b.
  - intros (stem & Heq & Hn). destruct (strstr d_name PCAP_FILE_TYPE) as [r|].
    + destruct Hspec as (b & Hb & Hr & Hnb).
      destruct (lt_eq_lt_dec (String.length b) (String.length stem)) as [[Hlt|He]|Hlt].
      * by rewrite (Hn b r Hb Hlt) in Hr.
      * rewrite Hb in Heq. destruct (append_split _ _ _ _ Heq He) as [_ ->]. apply String.eqb_refl.
      * pose proof (Hnb stem PCAP_FILE_TYPE Heq Hlt) as Hf. by rewrite prefix_refl in Hf.
    + assert (Hf : String.prefix PCAP_FILE_TYPE PCAP_FILE_TYPE = false); [|by rewrite prefix_refl in Hf].
      apply (Hspec stem); [done|]. rewrite Heq, string_app_length. lia.
Qed.

(** So a capture file of a capture file is passed over. *)
Example capture_of_capture : is_pcap_file "trace.pcap.pcap" = false.
Proof. reflexivity. Qed.

(** ** A concrete directory *)

Definition sample_names : list string := ["readme.txt"; "a.pcap"; "b.pcap.gz"; "c.pcap"; "d.pcap.pcap"].
Definition directory_os : Env := fun tr c =>
  match c with
  | Readdir _ =>
      match sample_names !! entries_read tr with Some name => (1, name) | None => (0, "") end
  | _ => (3, "")
  end.

#[export] Instance directory_os_spec : Directory (H := directory_os) sample_names.
Proof.
  split; try done; intros tr d; unfold oracle, directory_os.
  - intros name Hname. by rewrite Hname.
  - intros Hend. by rewrite Hend.
Qed.

Lemma file_capture_iterates_witness :
  let w := World [filecapture_session 0 "/tmp" 2] PCAP_SESSION_RUNNING [] true (fun _ => 0) ∅ 1 [] in
  exists fuel w', filecapture_thread (H := directory_os) fuel 0 Spawned w = Ok (None, w') /\
    files_opened (trace w') = concat (replicate 2 ["/tmp/a.pcap"; "/tmp/c.pcap"]) /\
    exists s', session_list w' !! 0%nat = Some s' /\ s_state s' = PCAP_SESSION_TERMINATE /\
      s_iterations s' = 0.
Proof.
  intros w. apply (@file_capture_iterates directory_os sample_names _ 0 2
    (filecapture_session 0 "/tmp" 2)).
  - intros name Hname. cbn. repeat (apply elem_of_cons in Hname as [->|Hname]; [reflexivity|]).
    apply elem_of_nil in Hname as [].
  - discriminate.
  - reflexivity.
  - reflexivity.
  - reflexivity.
  - reflexivity.
Defined.
