(* ===== verification/Merger.v ===== *)
(** * The merger

    [pcapsession/pcapsession_merger.c]: the single output stream that the packets
    of all clients are dumped on. *)
From S2P Require Import Prelude Text GtpHeader Pcap Monitor Untunnel Sys Wp Tcp Session Handler.

Section merger.
Context `{Env}.

Definition pcapsession_merger_open (filename : string) (untunnel : Z) : M (option nat) :=
  slot ← pcapsession_handling_get_new;
  match slot with
  | None => mret None
  | Some p =>
      update p (set_functions KMerger KMerger);;
      update p (set_untunnel untunnel);;
      update p (set_monitor None);;
      update p (set_pcap_handle 0);;
      update p (set_pcap_dumper 0);;
      update p (set_handler None);;
      update p (set_fd 0);;
      update p (set_supervise_fd PCAP_SESSION_SUPERVISED_FD);;
      update p (set_iterations 0);;
      copy_description p filename;;
      added ← add_own p;
      mret (if added =? 0 then None else Some p)
  end.

(** The thread of the merger opens the dumper and ends.  When the dump cannot be
    opened, the error text is taken from the handle that was closed before. *)
Definition pcapsession_merger_run (p : nat) : M (option point) :=
  change_own_state p PCAP_SESSION_RUNNING;;
  open_own_monitor TuMerger p;;
  pcap_dead_handle ← ext PcapOpenDead;
  description ← field p s_description;
  pointer pcap_dead_handle;;
  dumper ← ext (PcapDumpOpen pcap_dead_handle description);
  update p (set_pcap_dumper dumper);;
  when (negb (pcap_dead_handle =? 0)) (ext (PcapClose pcap_dead_handle);; mret tt);;
  if dumper =? 0 then
    pcap_geterr pcap_dead_handle;;
    change_own_state p PCAP_SESSION_TERMINATE;;
    mret None
  else
    fd ← ext (PcapDumpFile dumper);
    update p (set_fd fd);;
    mret None.

Definition pcapsession_merger_stop (p : nat) : M unit :=
  close_own_dumper p;;
  close_idle_handle p;;
  close_own_fd p;;
  fd ← field p s_fd;
  when (0 <? fd) (ext (Close fd);; update p (set_fd 0));;
  close_own_monitor p;;
  state ← field p s_state;
  stop_or_restart p (state =? PCAP_SESSION_ABORTING).

(** [pcapsession_untunnel_packet] on the merger's monitor. *)
Definition untunnel_on (merger : nat) (header : pcap_pkthdr) (data : list Z)
    : M (pcap_pkthdr * list Z) :=
  monitor ← field merger s_monitor;
  '(monitor, header, data) ← lift (pcapsession_untunnel_packet monitor header data);
  update merger (set_monitor monitor);;
  mret (header, data).

Definition pcapsession_merger_packet_handler (p : nat) (header : pcap_pkthdr) (data : list Z)
    : M unit :=
  handler ← field p s_handler;
  match handler with
  | None => mret tt
  | Some merger =>
      untunnel ← field merger s_untunnel;
      '(new_header, data) ←
        (if untunnel =? PCAP_SESSION_UNTUNNEL_ON then untunnel_on merger header data
         else mret (header, data));
      dumper ← field merger s_pcap_dumper;
      pcap_dump dumper new_header data;;
      count_packet p header;;
      count_packet merger header
  end.

(** The handler up to the lock of the merger's [pcap_mutex], and from there on. *)
Definition merge_arrives (p : nat) (header : pcap_pkthdr) (data : list Z) : M point :=
  handler ← field p s_handler;
  match handler with
  | None => mret Capturing
  | Some merger =>
      untunnel ← field merger s_untunnel;
      '(new_header, data) ←
        (if untunnel =? PCAP_SESSION_UNTUNNEL_ON then untunnel_on merger header data
         else mret (header, data));
      mret (Merging merger header new_header data)
  end.

Definition merge_continues (p merger : nat) (header new_header : pcap_pkthdr) (data : list Z) : M unit :=
  dumper ← field merger s_pcap_dumper;
  pcap_dump dumper new_header data;;
  count_packet p header;;
  count_packet merger header.

(** Uninterrupted, the two are the handler. *)
Lemma merger_handler_cut p h d w :
  pcapsession_merger_packet_handler p h d w =
  (next ← merge_arrives p h d;
   match next with Merging m h h' d => merge_continues p m h h' d | _ => mret tt end) w.
Proof.
  unfold pcapsession_merger_packet_handler, merge_arrives, mbind, M_bind.
  destruct (field p s_handler w) as [[[merger|] w1]|]; [|done|done].
  destruct (field merger s_untunnel w1) as [[u w2]|]; [|done].
  by destruct (if u =? PCAP_SESSION_UNTUNNEL_ON then _ else _) as [[[h' d'] w3]|].
Qed.
End merger.

(** ** Stopping *)

(** The session after [pcapsession_merger_stop]. *)
Definition merger_stopped (s : session) : session :=
  set_state (if s_state s =? PCAP_SESSION_ABORTING then PCAP_SESSION_STOPPED else PCAP_SESSION_START)
    (set_monitor None (set_fd 0 (set_pcap_handle 0 (set_pcap_dumper 0 s)))).

Lemma merger_stop_local `{Env} T `{Frame T} p s : (p < 128)%nat -> s_id s = Z.of_nat p ->
  local T p (pcapsession_merger_stop p) s (fun _ s' => s' = merger_stopped s).
Proof.
  intros Hp Hid. unfold pcapsession_merger_stop. do 9 handler_step.
  handler_step; [cbn in *; lia|]. by repeat handler_step.
Qed.

(** ** Opening *)

Definition merger_session (p : nat) (filename : string) (untunnel : Z) : session :=
  Session (Z.of_nat p) filename PCAP_SESSION_START 0 0 PCAP_SESSION_SUPERVISED_FD
    zero_addr None 0 0 (Some KMerger) (Some KMerger) None 0 untunnel 0.

Lemma merger_open_wp `{Env} T `{Frame T} filename untunnel w :
  length (session_list w) = 128%nat -> length (clientconnlist w) = 128%nat ->
  Z.of_nat (String.length filename) < FILENAME_MAX ->
  wp (pcapsession_merger_open filename untunnel)
    (opened T None (fun p r s => r = Some p /\ s = merger_session p filename untunnel) w) w.
Proof.
  intros Hl Hc Hn. apply claim_wp; [apply _|done..|]. intros p Hp. by repeat handler_step.
Qed.

(** ** Merging *)

(** The packet that is dumped for one a client received. *)
Definition merged_as (untunnel : Z) (h : pcap_pkthdr) (d : list Z) : res packet :=
  if untunnel =? PCAP_SESSION_UNTUNNEL_ON then
    '(_, h, d) ← pcapsession_untunnel_packet None h d; mret (h, d)
  else mret (h, d).

(** Packets and octets a monitor has counted, as [long long] values. *)
Definition totals (m : option monitor) : option (Z * Z) :=
  (fun m => (s64 (m_packets m), s64 (m_bytes m))) <$> m.

(** Counting packets and octets. *)
Definition count_more (packets octets : Z) (t : Z * Z) : Z * Z :=
  (s64 (t.1 + packets), s64 (t.2 + octets)).

Lemma totals_increment m p b : totals (monitor_increment m p b) = count_more p b <$> totals m.
Proof.
  destruct m as [m|]; [|done]. unfold totals, count_more. cbn. rewrite !s64_add_l.
  by rewrite <- (Z.add_0_r (s64 (m_packets m + p))), <- (Z.add_0_r (s64 (m_bytes m + b))),
    !s64_add_l, !Z.add_0_r.
Qed.

Lemma count_more_zero m : count_more 0 0 <$> totals m = totals m.
Proof. destruct m; [|done]. unfold count_more. cbn. by rewrite !s64_add_l, !Z.add_0_r. Qed.

Lemma count_more_twice p b p' b' m :
  count_more p' b' <$> (count_more p b <$> totals m) = count_more (p + p') (b + b') <$> totals m.
Proof.
  destruct m; [|done]. unfold count_more. cbn. by rewrite !s64_add_l, <- !Z.add_assoc, !s64_add_l.
Qed.

(** Untunnelling with a monitor and without. *)
Lemma untunnel_monitor mon h d h' d' mon0 :
  pcapsession_untunnel_packet None h d = Ok (mon0, h', d') ->
  exists mon', pcapsession_untunnel_packet mon h d = Ok (mon', h', d') /\ totals mon' = totals mon.
Proof.
  unfold pcapsession_untunnel_packet. intros Hu. apply res_bind_Ok in Hu as (hdr & -> & Hu). cbn.
  destruct hdr as [g|]; [|injection Hu as <- <- <-; by exists mon].
  apply res_bind_Ok in Hu as (gtp & -> & Hu). cbn in *.
  assert (Ht : forall a b c, totals (monitor_increment_gtp mon a b c) = totals mon) by (by destruct mon).
  destruct (negb (GTP_EXT_FLAG (flag_options gtp) =? 0)); [injection Hu as <- <- <-; by eexists|].
  apply res_bind_Ok in Hu as (ty & -> & Hu). cbn in *.
  apply res_bind_Ok in Hu as (d1 & -> & Hu). cbn. injection Hu as <- <- <-. by eexists.
Qed.

(** What the packet handlers of the clients do with the packets they receive,
    in the order in which they get the lock. *)
Fixpoint receive `{Env} (l : list (nat * packet)) : M unit :=
  match l with
  | [] => mret tt
  | (p, (h, d)) :: l => pcapsession_merger_packet_handler p h d;; receive l
  end.

(** A running merger and its clients. *)
Record merging (m : nat) (dumper untunnel : Z) (clients : list nat) (w : world) (sm : session) : Prop := {
  mr_merger : session_list w !! m = Some sm;
  mr_dumper : s_pcap_dumper sm = dumper;
  mr_untunnel : s_untunnel sm = untunnel;
  mr_clients p : p ∈ clients -> p <> m /\
    exists sp, session_list w !! p = Some sp /\ s_handler sp = Some m }.

Section merging.
Context `{Env} (m : nat) (dumper untunnel : Z) (clients : list nat) (Hdumper : dumper <> 0).
Implicit Types (w : world) (s : session).

Lemma merging_update w sm mon : merging m dumper untunnel clients w sm ->
  merging m dumper untunnel clients
    (set_list (<[m := set_monitor mon sm]> (session_list w)) w) (set_monitor mon sm).
Proof.
  intros [Hm Hd Hu Hcl]. split; [|done..|].
  - apply list_lookup_insert_eq. by eapply lookup_lt_Some.
  - intros p Hp. destruct (Hcl p Hp) as (Hne & sp & Hsp & Hh). split; [done|]. exists sp.
    split; [|done]. cbn. by rewrite list_lookup_insert_ne.
Qed.

(** Counting on a client. *)
Lemma merging_other w sm p sp mon : p ∈ clients -> session_list w !! p = Some sp ->
  merging m dumper untunnel clients w sm ->
  merging m dumper untunnel clients
    (set_list (<[p := set_monitor mon sp]> (session_list w)) w) sm.
Proof.
  intros Hp Hsp [Hm Hd Hu Hcl]. destruct (Hcl p Hp) as (Hpm & sp' & Hsp' & Hhp).
  rewrite Hsp in Hsp'. injection Hsp' as <-. split; [|done..|].
  - cbn. by rewrite list_lookup_insert_ne.
  - intros q Hq. destruct (Hcl q Hq) as (Hne & sq & Hsq & Hh). split; [done|].
    destruct (decide (q = p)) as [->|Hqp]; cbn.
    + exists (set_monitor mon sp). rewrite list_lookup_insert_eq by (by eapply lookup_lt_Some). done.
    + exists sq. by rewrite list_lookup_insert_ne.
Qed.

(** One packet of the client [p]. *)
Lemma packet_handler_wp p h d h' d' w sm : p ∈ clients ->
  merging m dumper untunnel clients w sm -> merged_as untunnel h d = Ok (h', d') ->
  wp (pcapsession_merger_packet_handler p h d) (fun _ w' => exists sm',
    merging m dumper untunnel clients w' sm' /\
    totals (s_monitor sm') = count_more 1 (len h) <$> totals (s_monitor sm) /\
    calls_since w w' [(PcapDump dumper h' (captured (h', d')),
      answer w (PcapDump dumper h' (captured (h', d'))))]) w.
Proof.
  intros Hp [Hm Hd Hu Hcl] Hmerged. destruct (Hcl p Hp) as (Hpm & sp & Hsp & Hh).
  unfold pcapsession_merger_packet_handler. wp_step. wp_step. rewrite Hh. wp_step. wp_step.
  rewrite Hu. wp_step.
  apply (wp_mono _ (fun hd w1 => hd = (h', d') /\ trace w1 = trace w /\ exists sm1,
    merging m dumper untunnel clients w1 sm1 /\ totals (s_monitor sm1) = totals (s_monitor sm))).
  - unfold merged_as in Hmerged. wp_step; rewrite H0 in Hmerged.
    + apply res_bind_Ok in Hmerged as ([[mon0 h1] d1] & Hun & Heq). injection Heq as <- <-.
      destruct (untunnel_monitor (s_monitor sm) h d h1 d1 mon0 Hun) as (mon' & Hmon & Ht).
      unfold untunnel_on. wp_step. wp_step. wp_step. eapply wp_lift; [done|]. cbn. wp_step. wp_step.
      wp_step. split; [done|]. split; [done|]. exists (set_monitor mon' sm). split; [|done].
      by apply merging_update.
    + wp_step. injection Hmerged as <- <-. split; [done|]. split; [done|]. by exists sm.
  - intros hd w1 (-> & Htr & sm1 & Hmg1 & Ht1). cbn. pose proof Hmg1 as [Hm1 Hd1 _ Hcl1].
    destruct (Hcl1 p Hp) as (_ & sp1 & Hsp1 & _).
    wp_step. wp_step. rewrite Hd1. wp_step. unfold pcap_dump. rewrite (proj2 (Z.eqb_neq _ _) Hdumper).
    wp_step. apply wp_ext. wp_step. unfold count_packet. wp_step.
    set (w2 := set_trace _ w1). assert (Hmg2 : merging m dumper untunnel clients w2 sm1)
      by (by destruct Hmg1).
    eapply wp_update; [exact Hsp1|]. pose proof (merging_other w2 sm1 p sp1
      (monitor_increment (s_monitor sp1) 1 (len h)) Hp Hsp1 Hmg2) as Hmg3.
    eapply wp_update; [apply Hmg3|]. eexists. split; [by apply merging_update|].
    split.
    + cbn. rewrite totals_increment. by rewrite Ht1.
    + unfold calls_since, answer, w2, answer. cbn. by rewrite Htr.
Qed.
End merging.

Definition octets_of (l : list (nat * packet)) : Z := foldr (fun x n => len x.2.1 + n) 0 l.

(** All packets, by induction. *)
Lemma receive_wp `{Env} (m : nat) (dumper untunnel : Z) (clients : list nat)
    (l : list (nat * packet)) (outs : list packet) (w : world) (sm : session) :
  dumper <> 0 -> merging m dumper untunnel clients w sm ->
  Forall2 (fun x o => x.1 ∈ clients /\ merged_as untunnel x.2.1 x.2.2 = Ok o) l outs ->
  wp (receive l) (fun _ w' => exists sm', merging m dumper untunnel clients w' sm' /\
    totals (s_monitor sm') =
      count_more (blen l) (octets_of l) <$> totals (s_monitor sm) /\
    exists evs, calls_since w w' evs /\
      dumps evs = (fun o => (dumper, o.1, captured o)) <$> outs) w.
Proof.
  intros Hd Hm Hl. revert w sm Hm.
  induction Hl as [|[p [h d]] [h' d'] l outs [Hp Ho] Hl IH]; intros w sm Hm.
  - apply wp_ret. exists sm. split; [done|]. split.
    + symmetry. apply count_more_zero.
    + exists []. split; [unfold calls_since; by rewrite app_nil_r|done].
  - cbn [receive]. wp_step. eapply wp_mono; [by eapply packet_handler_wp|].
    intros u w1 (sm1 & Hm1 & Ht1 & Hc1). eapply wp_mono; [by apply (IH w1 sm1)|].
    intros u2 w2 (sm2 & Hm2 & Ht2 & evs & Hc2 & Hev). exists sm2. split; [done|]. split.
    + rewrite Ht2, Ht1, blen_cons. apply count_more_twice.
    + eexists. split; [unfold calls_since in *; by rewrite Hc2, Hc1, <- (assoc_L (++))|].
      rewrite dumps_app, Hev. done.
Qed.

(** ** Properties *)

(** C22: the merger loses, repeats and reorders nothing.  The packets that its
    clients receive, in the order in which their threads get the lock, are
    dumped on the merger's dumper in that order, each once and as untunnelled
    when the merger untunnels; the merger's monitor counts all of them with
    their lengths on the wire. *)
Theorem merger_dumps_every_packet `{Env} (m : nat) (dumper untunnel : Z) (clients : list nat)
    (l : list (nat * packet)) (outs : list packet) (w : world) (sm : session) :
  dumper <> 0 -> merging m dumper untunnel clients w sm ->
  Forall2 (fun x o => x.1 ∈ clients /\ merged_as untunnel x.2.1 x.2.2 = Ok o) l outs ->
  wp (receive l) (fun _ w' => exists sm', merging m dumper untunnel clients w' sm' /\
    totals (s_monitor sm') =
      count_more (blen l) (octets_of l) <$> totals (s_monitor sm) /\
    exists evs, calls_since w w' evs /\
      dumps evs = (fun o => (dumper, o.1, captured o)) <$> outs) w.
Proof. apply receive_wp. Qed.

(** ** A concrete merger *)

Definition dumping_os : Env := fun _ _ => (0, "").

(** A merger in slot 0 and two clients of it. *)
Definition sample_merger : session :=
  set_monitor (Some (monitor_open 10 0 0 "out.pcap").1)
    (set_pcap_dumper 77 (set_state PCAP_SESSION_RUNNING (merger_session 0 "out.pcap" 0))).
Definition sample_client (p : nat) : session :=
  set_handler (Some 0%nat) (set_id (Z.of_nat p) (set_state PCAP_SESSION_RUNNING zero_session)).
Definition sample_merge : world :=
  World [sample_merger; sample_client 1; sample_client 2] PCAP_SESSION_RUNNING [] true (fun _ => 0)
    ∅ 1 [].
Definition sample_packet (n : Z) : packet := (Pkthdr (Timeval n 0) 2 60, [n; n]).

Lemma sample_merging : merging 0 77 0 [1%nat; 2%nat] sample_merge sample_merger.
Proof.
  split; [reflexivity|reflexivity|reflexivity|]. intros p Hp.
  apply elem_of_cons in Hp as [->|Hp]; [split; [lia|]; by eexists|].
  apply list_elem_of_singleton in Hp as ->. split; [lia|]. by eexists.
Qed.

Lemma merger_dumps_every_packet_witness :
  let l := [(1%nat, sample_packet 1); (2%nat, sample_packet 2); (1%nat, sample_packet 3)] in
  wp (receive (H := dumping_os) l) (fun _ w' => exists sm', merging 0 77 0 [1%nat; 2%nat] w' sm' /\
    totals (s_monitor sm') =
      count_more (blen l) (octets_of l) <$> totals (s_monitor sample_merger) /\
    exists evs, calls_since sample_merge w' evs /\
      dumps evs = (fun o => (77, o.1, captured o)) <$> (snd <$> l)) sample_merge.
Proof.
  intros l. apply (@merger_dumps_every_packet dumping_os).
  - discriminate.
  - exact sample_merging.
  - repeat (constructor; [split; [set_solver|reflexivity]|]). constructor.
Defined.

(** A packet that arrives while the merger waits for its restart is written
    through a null dumper. *)
Example packet_without_dumper :
  pcapsession_merger_packet_handler (H := dumping_os) 1 (sample_packet 1).1 (sample_packet 1).2
    (set_list [merger_stopped sample_merger; sample_client 1; sample_client 2] sample_merge)
  = Fault NullPointer.
Proof. reflexivity. Qed.
