(* ===== verification/Client.v ===== *)
(** * Clients of the merger

    [pcapsession/pcapsession_client.c]: a connection to a distributer, whose
    packets go to the merger. *)
From S2P Require Import Prelude Text Pcap Monitor Untunnel Sys Wp Tcp Session Handler Merger.

Section client.
Context `{Env}.

Definition pcapsession_client_open (server_address : sockaddr_in) (merger : nat) : M Z :=
  slot ← pcapsession_handling_get_new;
  match slot with
  | None => mret 0
  | Some p =>
      update p (set_functions KClient KClient);;
      update p (set_handler (Some merger));;
      update p (set_address server_address);;
      describe_address p;;
      update p (set_fd 0);;
      update p (set_supervise_fd PCAP_SESSION_SUPERVISED_FD);;
      update p (set_monitor None);;
      update p (set_pcap_handle 0);;
      update p (set_pcap_dumper 0);;
      update p (set_untunnel PCAP_SESSION_UNTUNNEL_OFF);;
      update p (set_iterations 0);;
      add_own p
  end.

(** From the end of [connect] to [pcap_loop]. *)
Definition client_connected (p : nat) : M (option point) :=
  fd ← field p s_fd;
  address ← field p s_address;
  connected ← ext (Connect fd address);
  if connected <? 0 then change_own_state p PCAP_SESSION_TERMINATE;; mret None else
  open_own_monitor TuClient p;;
  server_fd ← ext (Fdopen fd "rb");
  pointer server_fd;;
  handle ← ext (PcapFopenOffline server_fd);
  update p (set_pcap_handle handle);;
  if handle =? 0 then change_own_state p PCAP_SESSION_TERMINATE;; mret None else
  enter_pcap_loop p Capturing.

Definition pcapsession_client_run (p : nat) (pt : point) : M (option point) :=
  match pt with
  | Spawned =>
      change_own_state p PCAP_SESSION_RUNNING;;
      fd ← ext Socket;
      update p (set_fd fd);;
      if fd <? 0 then change_own_state p PCAP_SESSION_TERMINATE;; mret None
      else mret (Some Connecting)
  | Connecting => client_connected p
  | Capturing => change_own_state p PCAP_SESSION_TERMINATE;; mret None
  | _ => mret None
  end.

Definition pcapsession_client_stop (p : nat) : M unit :=
  break_own_loop p;;
  close_own_fd p;;
  close_own_monitor p;;
  state ← field p s_state;
  stop_or_restart p (state =? PCAP_SESSION_ABORTING).
End client.

(** ** Stopping *)

(** The session after [pcapsession_client_stop]. *)
Definition client_stopped (s : session) : session :=
  set_state (if s_state s =? PCAP_SESSION_ABORTING then PCAP_SESSION_STOPPED else PCAP_SESSION_START)
    (set_monitor None (set_fd 0 (set_pcap_handle 0 s))).

Lemma client_stop_local `{Env} T `{Frame T} p s : (p < 128)%nat -> s_id s = Z.of_nat p ->
  local T p (pcapsession_client_stop p) s (fun _ s' => s' = client_stopped s).
Proof. intros Hp Hid. unfold pcapsession_client_stop. by repeat handler_step. Qed.

(** ** Opening *)

Definition client_session (p : nat) (address : sockaddr_in) (merger : nat) : session :=
  Session (Z.of_nat p) (address_text address) PCAP_SESSION_START 0 0 PCAP_SESSION_SUPERVISED_FD
    address None 0 0 (Some KClient) (Some KClient) (Some merger) 0 PCAP_SESSION_UNTUNNEL_OFF 0.

Lemma client_open_wp `{Env} T `{Frame T} address merger w :
  length (session_list w) = 128%nat -> length (clientconnlist w) = 128%nat ->
  wp (pcapsession_client_open address merger)
    (opened T 0 (fun p r s => r = 1 /\ s = client_session p address merger) w) w.
Proof.
  intros Hl Hc. apply claim_wp; [apply _|done..|]. intros p Hp. by repeat handler_step.
Qed.
