(* ===== verification/Supervision.v ===== *)
(** * Supervision of the modules' sessions

    The six modules' [stop] functions behind the [stopper] pointers: they keep
    the contract of [StoppersSpec], so the theorems about the supervisor hold of
    the program. *)
From S2P Require Import Prelude Pcap Monitor Sys Wp Tcp Session Handler.
From S2P Require Import ClientConn Server LiveCapture FileCapture Merger Client.

Section instance.
Context `{Env}.

(** The functions the [open] functions store in [stopper]. *)
#[export] Instance module_stoppers : Stoppers := fun k p =>
  match k with
  | KServer => pcapsession_server_stop p
  | KClientConn => pcapsession_clientconn_stop p
  | KLiveCapture => pcapsession_livecapture_stop p
  | KFileCapture => pcapsession_filecapture_stop p
  | KMerger => pcapsession_merger_stop p
  | KClient => pcapsession_client_stop p
  end.

(** The session each of them leaves. *)
Definition module_stopped (k : kind) (s : session) : session :=
  match k with
  | KServer => server_stopped s
  | KClientConn => clientconn_stopped s
  | KLiveCapture => livecapture_stopped s
  | KFileCapture => filecapture_stopped s
  | KMerger => merger_stopped s
  | KClient => client_stopped s
  end.

Lemma module_stop_local T `{Frame T} k p s : (p < 128)%nat -> s_id s = Z.of_nat p ->
  local T p (stop_session k p) s (fun _ s' => s' = module_stopped k s).
Proof.
  intros Hp Hid. destruct k; [by apply server_stop_local|by apply clientconn_stop_local|
    by apply livecapture_stop_local|by apply filecapture_stop_local|by apply merger_stop_local|
    by apply client_stop_local].
Qed.

Lemma module_stopped_spec k s : stopped s (module_stopped k s).
Proof.
  destruct k; cbn; unfold server_stopped, livecapture_stopped, filecapture_stopped, merger_stopped,
    client_stopped; try (destruct (0 <? s_fd s));
    (split; [done..| | |]; cbn; [by auto|repeat case_match; auto|intros Ha; rewrite ?Ha; done]).
Qed.

#[export] Instance module_stoppers_spec : StoppersSpec.
Proof.
  intros k p s Hp Hid. eapply local_mono; [apply module_stop_local; [apply _|done|done]|].
  intros u s' ->. apply module_stopped_spec.
Qed.
End instance.

(** ** A live capture whose descriptor is lost *)

Section live.
Context `{Henv : Env, !Clock}.
Implicit Types (s : session) (w : world) (p : nat).

(** A live capture session on the descriptor [fd], in use. *)
Record live_on (p : nat) (fd : Z) (s : session) : Prop := {
  lv_managed : managed p s;
  lv_stopper : s_stopper s = Some KLiveCapture;
  lv_fd : s_fd s = fd;
  lv_supervised : s_supervise_fd s = PCAP_SESSION_SUPERVISED_FD;
  lv_used : s_state s <> PCAP_SESSION_UNUSED }.

Definition fd_lost (fd : Z) : Prop := 2 < fd /\ forall w, answer w (Poll fd) <> 0.

(** Terminating such a session makes it await its restart. *)
Lemma terminate_live p fd s : (p < 128)%nat -> live_on p fd s ->
  s_state s = PCAP_SESSION_TERMINATE ->
  local any_threads p (pcapsession_transition_session (Z.of_nat p)) s (fun _ s' =>
    live_on p fd s' /\ s_state s' = PCAP_SESSION_START).
Proof.
  intros Hp [[Hid Hrun Hst Hmon] Hlive Hfd Hsup Hu] Hs. unfold pcapsession_transition_session.
  local_step. local_step. local_step. local_step. rewrite Hs. cbn [Z.eqb orb].
  local_step; [states_tac|]. do 3 (local_step; [states_tac|]). local_step; [|states_tac].
  local_step. local_step. local_step. local_step. unfold pcapsession_stop.
  local_step. local_step. local_step. local_step. local_step.
  apply (local_mono _ _ _ _ (fun _ s' => s' = set_thread 0 (set_interval_counter 0
    (set_state PCAP_SESSION_TERMINATING s)))).
  - local_step.
    + local_step. local_step. local_step. local_step. local_step.
      apply local_delete_thread. by local_step.
    + assert (Ht : s_thread s = 0) by (cbn in *; lia). destruct s. cbn in *. by rewrite Ht.
  - intros _ ? ->. local_step. local_step. cbn [s_stopper set_thread set_interval_counter set_state].
    rewrite Hlive. local_step. eapply local_mono; [apply module_stop_local; [apply _|done|done]|].
    intros _ ? ->. local_step. local_step. cbn. local_step.
    split; [split; [by split|done..]|done].
Qed.

(** Whatever its state, one visit finds its descriptor lost and restarts it. *)
Lemma supervise_live p fd s w : fd_lost fd -> table_ok w -> session_list w !! p = Some s ->
  live_on p fd s ->
  wp (supervise p) (fun _ w' => exists s', session_list w' !! p = Some s' /\ live_on p fd s' /\
    s_state s' = PCAP_SESSION_START) w.
Proof.
  intros [Hfd Hlost] Htb Hs Hlive. pose proof (lookup_lt_Some _ _ _ Hs) as Hp.
  rewrite (tb_sessions _ Htb) in Hp. unfold supervise. wp_step. wp_step.
  rewrite (proj2 (Z.eqb_neq _ _) (lv_used _ _ _ Hlive)). wp_step. wp_step. wp_step.
  eapply (wp_mono _ (fun _ w1 => exists s1, only_session any_threads p w w1 s1 /\
    live_on p fd s1 /\ s_state s1 = PCAP_SESSION_START)).
  - assert (Hl : local any_threads p (supervise_states p (session_handling_state w)) s
      (fun _ s' => live_on p fd s' /\ s_state s' = PCAP_SESSION_START));
      [|by apply Hl, (tb_conns _ Htb)].
    unfold supervise_states, iotests_fd_open. local_step.
    apply (local_mono _ _ _ _ (fun _ s' => live_on p fd s')).
    + local_step; [|done]. local_step. local_step. local_step; [|done]. local_step.
      destruct Hlive as [[] ? ? ? ?]. split; [by split|done..].
    + intros _ s1 Hl1. local_step. local_step. local_step. local_step. local_step.
      rewrite (lv_fd _ _ _ Hl1), (lv_supervised _ _ _ Hl1). local_step; [|states_tac].
      local_step. local_step. apply local_answer; [apply _|]. intros w0. local_step.
      rewrite (proj2 (Z.eqb_neq _ _) (Hlost w0)). local_step; [|done]. local_step.
      apply terminate_live; [done| |done].
      destruct Hl1 as [[] ? ? ? ?]. split; [by split|done..].
  - intros _ w1 (s1 & Ho & Hl1 & Hst). pose proof (only_session_lookup _ _ _ _ _ _ Hs Ho) as Hs1.
    wp_step. unfold supervise_output. wp_step. wp_step. rewrite Hst. wp_step; [states_tac|].
    wp_step. by exists s1.
Qed.

(** A turn keeps what every visit of a slot keeps of it. *)
Lemma supervise_from_slot p (I : session -> Prop) :
  (forall w s, table_ok w -> session_list w !! p = Some s -> I s ->
     wp (supervise p) (fun _ w' => exists s', session_list w' !! p = Some s' /\ I s') w) ->
  forall n i c w s, table_ok w -> (i + n <= 128)%nat -> session_list w !! p = Some s -> I s ->
  wp (supervise_from n i c) (fun _ w' => exists s', session_list w' !! p = Some s' /\ I s') w.
Proof.
  intros HI. induction n as [|n IH]; intros i c w s Htb Hn Hs Hi; [apply wp_ret; by exists s|].
  destruct (lookup_lt_is_Some_2 (session_list w) i) as [si Hsi];
    [rewrite (tb_sessions _ Htb); lia|].
  cbn [supervise_from]. wp_step.
  apply (wp_mono _ (fun _ w1 => table_ok w1 /\
    exists s1, session_list w1 !! p = Some s1 /\ I s1)).
  - destruct (decide (i = p)) as [->|Hne].
    + eapply wp_mono; [apply wp_conj; [by apply (supervise_wp p s w)|by apply (HI w s)]|].
      intros b w1 [(Htb1 & _) Hi1]. done.
    + eapply wp_mono; [by apply (supervise_wp i si w)|].
      intros b w1 (Htb1 & _ & Hother & _). split; [done|]. exists s. by rewrite Hother.
  - intros b w1 (Htb1 & s1 & Hs1 & Hi1). apply (IH _ _ _ s1); [done|lia|done..].
Qed.

Lemma supervision_pass_live p fd s w : fd_lost fd -> table_ok w ->
  session_list w !! p = Some s -> live_on p fd s ->
  wp supervision_pass (fun goes_on w' => goes_on = true /\ table_ok w' /\
    session_handling_state w' = session_handling_state w /\
    exists s', session_list w' !! p = Some s' /\ live_on p fd s') w.
Proof.
  intros Hfd Htb Hs Hl.
  assert (Hp : wp supervision_pass (fun _ w' => exists s', session_list w' !! p = Some s' /\
    live_on p fd s') w).
  { unfold supervision_pass. wp_step. eapply wp_mono.
    - apply (supervise_from_slot p (live_on p fd)) with (s := s); [|done|by apply Nat.leb_le|done..].
      intros w0 s0 Htb0 Hs0 Hl0. eapply wp_mono; [by apply (supervise_live p fd s0)|].
      intros b w1 (s1 & ? & ? & _). by exists s1.
    - intros c w1 Hw1. wp_step. wp_step. wp_step; [|by wp_step]. wp_step. wp_step. by wp_step. }
  eapply wp_mono; [apply wp_conj; [apply Hp|by apply supervision_pass_wp]|].
  intros b w' ((s' & Hs' & Hl') & Htb' & Hh & Hend & _).
  destruct b; [split; [done|]; split; [done|]; split; [done|]; by exists s'|].
  destruct (proj1 Hend eq_refl) as [_ Hall]. pose proof (Forall_lookup_1 _ _ _ _ Hall Hs) as Hu.
  by destruct (lv_used _ _ _ Hl).
Qed.
End live.

(** ** Properties *)

Section properties.
Context `{Henv : Env, !Clock}.

(** C16: one turn of the supervision loop, under a clock that is not set back.
    It never faults and keeps the table well formed; every session in use moves
    as the life-cycle automaton allows from the state the shutdown and the test
    of its descriptor put it in, and the free slots stay as they are;
    supervision ends just when session handling was told to and no session is
    left. *)
Theorem supervision_follows_lifecycle (w : world) : table_ok w ->
  wp supervision_pass (fun goes_on w' => table_ok w' /\
    session_handling_state w' =
      (if (goes_on : bool) then session_handling_state w else PCAP_SESSION_STOPPED) /\
    (goes_on = false <-> session_handling_state w <> PCAP_SESSION_RUNNING /\
       Forall (fun s => s_state s = PCAP_SESSION_UNUSED) (session_list w)) /\
    forall j s, session_list w !! j = Some s -> exists s', session_list w' !! j = Some s' /\
      visited_if true j (session_handling_state w) s s') w.
Proof. apply supervision_pass_wp. Qed.

(** Shutdown ends.  When session handling is no longer running, every
    session was added and none is caught in an abort, and every supervised
    descriptor is open, two turns of the supervisor stop all sessions and end
    supervision. *)
Theorem shutdown_ends_in_two_turns (w : world) :
  fds_open -> table_ok w -> session_handling_state w <> PCAP_SESSION_RUNNING ->
  Forall stoppable (session_list w) ->
  wp (supervision_passes 2) (fun goes_on w' => goes_on = false /\
    session_handling_state w' = PCAP_SESSION_STOPPED /\
    Forall (fun s => s_state s = PCAP_SESSION_UNUSED) (session_list w')) w.
Proof. apply shutdown_wp. Qed.

(** C17: shutdown never ends while a live capture has lost its descriptor: the
    test of the descriptor overrides the abort, and the session's [stop]
    function neither clears the descriptor nor stops for good, so after any
    number of turns the session is still in use and supervision goes on. *)
Theorem lost_live_capture_blocks_shutdown (n p : nat) (fd : Z) (s : session) (w : world) :
  fd_lost fd -> table_ok w -> session_list w !! p = Some s -> live_on p fd s ->
  wp (supervision_passes n) (fun goes_on w' => goes_on = true /\
    session_handling_state w' = session_handling_state w /\
    exists s', session_list w' !! p = Some s' /\ live_on p fd s') w.
Proof.
  intros Hfd. revert w s. induction n as [|n IH]; intros w s Htb Hs Hl.
  - apply wp_ret. split; [done|]. split; [done|]. by exists s.
  - apply supervision_passes_S. eapply wp_mono; [by apply (supervision_pass_live p fd s)|].
    intros b w1 (-> & Htb1 & Hh1 & s1 & Hs1 & Hl1). eapply wp_mono; [by apply (IH w1 s1)|].
    intros b w2 (-> & Hh2 & Hs2). split; [done|]. split; [congruence|done].
Qed.

(** A session whose thread does not report back waits for ten intervals:
    [n] turns after it went to [STARTING] it is still there with [n] intervals
    counted, and in the turn after the tenth it is told to terminate. *)
Theorem start_times_out (n p : nat) (s : session) (w : world) :
  fds_open -> table_ok w -> session_handling_state w = PCAP_SESSION_RUNNING ->
  session_list w !! p = Some s -> s_state s = PCAP_SESSION_STARTING ->
  s_interval_counter s = 0 -> (n <= 11)%nat ->
  wp (supervision_passes n) (fun goes_on w' => goes_on = true /\
    exists s', session_list w' !! p = Some s' /\
      if (Nat.leb n 10) then s_state s' = PCAP_SESSION_STARTING /\
        s_interval_counter s' = Z.of_nat n
      else s_state s' = PCAP_SESSION_TERMINATE) w.
Proof.
  intros Ho Htb Hh Hs Hst Hc Hn. eapply wp_mono; [apply (start_waits_wp n w p s); try done; states_tac|].
  intros b w' (-> & _ & s' & Hs' & Hr). split; [done|]. exists s'. split; [done|]. rewrite Hc in Hr.
  destruct (Nat.leb_spec n 10).
  - rewrite (proj2 (Z.leb_le _ _)) in Hr by states_tac. done.
  - rewrite (proj2 (Z.leb_gt _ _)) in Hr by states_tac. done.
Qed.
End properties.

(** ** A concrete system *)

(** Every call succeeds and every descriptor is open; the same where the other
    end of every descriptor has hung up. *)
Definition calm_os : Env := fun _ c => (match c with Time => 100 | _ => 0 end, "").
Definition lost_os : Env := fun _ c => (match c with Time => 100 | Poll _ => 1 | _ => 0 end, "").

#[export] Instance calm_os_clock : Clock (H := calm_os).
Proof. split; intros; cbn; lia. Qed.
#[export] Instance lost_os_clock : Clock (H := lost_os).
Proof. split; intros; cbn; lia. Qed.

(** A table whose first slots hold the sessions [l]. *)
Definition sample_world (h : Z) (l : list session) : world :=
  World (l ++ replicate (128 - length l) zero_session) h (replicate 128 None) true (fun _ => 0) ∅ 1 [].

Definition sample_session (p : nat) (k : kind) (state fd : Z) : session :=
  set_state state (set_fd fd (set_supervise_fd PCAP_SESSION_SUPERVISED_FD
    (set_functions k k (set_id (Z.of_nat p) zero_session)))).

Lemma sample_managed p k state fd : managed p (sample_session p k state fd).
Proof. split; cbn; [done|by eexists|by eexists|done]. Qed.

Lemma sample_world_ok `{Env} h l : (length l <= 128)%nat -> 0 <= answer (sample_world h l) Time ->
  (forall p s, l !! p = Some s -> managed p s) -> table_ok (sample_world h l).
Proof.
  intros Hl Hclock Hm. split; [cbn; rewrite length_app, length_replicate; lia|done| |done].
  intros p s Hs. cbn in Hs. apply lookup_app_Some in Hs as [Hs|[_ Hs]]; [right; left; by apply Hm|].
  apply lookup_replicate in Hs as [-> _]. by left.
Qed.

Definition two_sessions : list session :=
  [sample_session 0 KServer PCAP_SESSION_RUNNING 3; sample_session 1 KMerger PCAP_SESSION_START 0].

Lemma two_sessions_managed p s : two_sessions !! p = Some s -> managed p s.
Proof. destruct p as [|[|p]]; cbn; intros [= <-]; apply sample_managed. Qed.

Section calm.
#[local] Existing Instance calm_os.

Lemma supervision_follows_lifecycle_witness :
  let w := sample_world PCAP_SESSION_RUNNING two_sessions in
  wp supervision_pass (fun goes_on w' => table_ok w' /\
    session_handling_state w' =
      (if (goes_on : bool) then session_handling_state w else PCAP_SESSION_STOPPED) /\
    (goes_on = false <-> session_handling_state w <> PCAP_SESSION_RUNNING /\
       Forall (fun s => s_state s = PCAP_SESSION_UNUSED) (session_list w)) /\
    forall j s, session_list w !! j = Some s -> exists s', session_list w' !! j = Some s' /\
      visited_if true j (session_handling_state w) s s') w.
Proof.
  intros w. apply (supervision_follows_lifecycle w).
  apply sample_world_ok; [cbn; lia|cbn; lia|apply two_sessions_managed].
Defined.

Lemma shutdown_ends_in_two_turns_witness :
  wp (supervision_passes 2) (fun goes_on w' => goes_on = false /\
    session_handling_state w' = PCAP_SESSION_STOPPED /\
    Forall (fun s => s_state s = PCAP_SESSION_UNUSED) (session_list w'))
    (sample_world PCAP_SESSION_TERMINATING two_sessions).
Proof.
  apply shutdown_ends_in_two_turns.
  - intros w fd. reflexivity.
  - apply sample_world_ok; [cbn; lia|cbn; lia|apply two_sessions_managed].
  - discriminate.
  - cbn. repeat (constructor; [split; discriminate|]). constructor.
Defined.

Lemma start_times_out_witness :
  wp (supervision_passes 11) (fun goes_on w' => goes_on = true /\
    exists s', session_list w' !! 0%nat = Some s' /\
      if (Nat.leb 11 10) then s_state s' = PCAP_SESSION_STARTING /\
        s_interval_counter s' = Z.of_nat 11
      else s_state s' = PCAP_SESSION_TERMINATE)
    (sample_world PCAP_SESSION_RUNNING [sample_session 0 KClient PCAP_SESSION_STARTING 0]).
Proof.
  apply (start_times_out 11 0 (sample_session 0 KClient PCAP_SESSION_STARTING 0)).
  - intros w fd. reflexivity.
  - apply sample_world_ok; [cbn; lia|cbn; lia|].
    intros [|p] s [= <-]. apply sample_managed.
  - reflexivity.
  - reflexivity.
  - reflexivity.
  - reflexivity.
  - lia.
Defined.
End calm.

Section lost.
#[local] Existing Instance lost_os.

Lemma lost_live_capture_blocks_shutdown_witness :
  let w := sample_world PCAP_SESSION_TERMINATING
    [sample_session 0 KLiveCapture PCAP_SESSION_RUNNING 7] in
  wp (supervision_passes 100) (fun goes_on w' => goes_on = true /\
    session_handling_state w' = session_handling_state w /\
    exists s', session_list w' !! 0%nat = Some s' /\ live_on 0 7 s') w.
Proof.
  intros w. apply (lost_live_capture_blocks_shutdown 100 0 7
    (sample_session 0 KLiveCapture PCAP_SESSION_RUNNING 7)).
  - split; [lia|discriminate].
  - apply sample_world_ok; [cbn; lia|cbn; lia|].
    intros [|p] s [= <-]. apply sample_managed.
  - reflexivity.
  - split; [apply sample_managed|reflexivity|reflexivity|reflexivity|discriminate].
Defined.
End lost.
