(* ===== verification/Critical.v ===== *)
(** * The critical sections

    The functions that run at the same time, at the granularity of [Locks]: what
    they read and write, the calls they make, and where they take and release
    the mutexes.  Run without other threads they are the functions of the
    modules. *)
From S2P Require Import Prelude Text GtpHeader Pcap Monitor Untunnel.
From S2P Require Import Sys Wp Locks Tcp Session Handler ClientConn Merger Client Supervision.

Section critical.
Context `{Env}.

(** [pcapsession_change_state] and its use on the session itself. *)
Definition change_state_code (session_id new_state : Z) : prog unit :=
  pthread_mutex_lock StateMutex;;
  act (pcapsession_change_state session_id new_state);;
  pthread_mutex_unlock StateMutex.
Definition change_own_code (p : nat) (new_state : Z) : prog unit :=
  id ← act (field p s_id); change_state_code id new_state.

Definition pcap_dump_code (dumper : Z) (header : pcap_pkthdr) (data : list Z) : prog unit :=
  if dumper =? 0 then act (fail NullPointer)
  else syscall (PcapDump dumper header (captured (header, data)));; mret tt.

(** ** Packets *)

(** [pcapsession_merger_packet_handler] *)
Definition merger_handler_code (p : nat) (header : pcap_pkthdr) (data : list Z) : prog unit :=
  handler ← act (field p s_handler);
  match handler with
  | None => mret tt
  | Some merger =>
      pthread_mutex_lock MergeMutex;;
      untunnel ← act (field merger s_untunnel);
      '(new_header, data) ←
        (if untunnel =? PCAP_SESSION_UNTUNNEL_ON then act (untunnel_on merger header data)
         else mret (header, data));
      pthread_mutex_lock (PcapMutex merger);;
      dumper ← act (field merger s_pcap_dumper);
      pcap_dump_code dumper new_header data;;
      pthread_mutex_unlock (PcapMutex merger);;
      act (count_packet p header);;
      act (count_packet merger header);;
      pthread_mutex_unlock MergeMutex
  end.

(** [pcapsession_clientconn_client_handle_packet] *)
Definition client_handle_code (client : nat) (header : pcap_pkthdr) (data : list Z) : prog unit :=
  state ← act (field client s_state);
  if negb (state =? PCAP_SESSION_RUNNING) then mret tt else
  fd ← act (field client s_fd);
  open ← act (iotests_fd_open fd);
  if (open : bool) then
    pthread_mutex_lock (PcapMutex client);;
    dumper ← act (field client s_pcap_dumper);
    pcap_dump_code dumper header data;;
    pthread_mutex_unlock (PcapMutex client);;
    act (count_packet client header)
  else id ← act (field client s_id); act (set_conn id None).

Definition connection (i : nat) : M (option nat) :=
  conns ← gets clientconnlist;
  match conns !! i with None => fail OutOfBounds | Some c => mret c end.

(** The loop over the connections; a slot is read again for the call. *)
Fixpoint distribute_code (n i : nat) (header : pcap_pkthdr) (data : list Z) : prog unit :=
  match n with
  | O => mret tt
  | S n =>
      listed ← act (connection i);
      match listed with
      | None => mret tt
      | Some _ =>
          client ← act (connection i);
          match client with None => mret tt | Some client => client_handle_code client header data end
      end;;
      distribute_code n (S i) header data
  end.

(** [pcapsession_clientconn_packet_handler] *)
Definition clientconn_handler_code (p : nat) (header : pcap_pkthdr) (data : list Z) : prog unit :=
  act (count_packet p header);;
  distribute_code (Z.to_nat PCAP_SESSION_MAX_SESSIONS) 0 header data.

(** [pcap_loop]: wait for a packet, handle it. *)
Fixpoint pcap_loop_code (handle : pcap_pkthdr -> list Z -> prog unit) (l : list packet) : prog unit :=
  match l with
  | [] => mret tt
  | (h, d) :: l => Await (handle h d;; pcap_loop_code handle l)
  end.

(** ** The supervisor *)

Definition monitor_bytes (i : nat) : M Z :=
  monitor ← field i s_monitor;
  match monitor with None => fail NullPointer | Some m => mret (m_bytes m) end.

(** The flush of an idle output. *)
Definition flush_idle_code (i : nat) : prog unit :=
  monitor ← act (field i s_monitor);
  match monitor with
  | None => mret tt
  | Some _ =>
      dumper ← act (field i s_pcap_dumper);
      if dumper =? 0 then mret tt else
      bytes ← act (monitor_bytes i);
      if bytes =? 0 then
        pthread_mutex_lock (PcapMutex i);;
        dumper ← act (field i s_pcap_dumper);
        (if dumper =? 0 then act (fail NullPointer) else syscall (PcapDumpFlush dumper);; mret tt);;
        pthread_mutex_unlock (PcapMutex i)
      else mret tt
  end.

(** What a visit does to a running session. *)
Definition supervise_output_code (i : nat) : prog unit :=
  state ← act (field i s_state);
  if negb (state =? PCAP_SESSION_RUNNING) then mret tt else
  flush_idle_code i;;
  act (output_monitor i).

(** The [stop] functions of clients, connections and the merger. *)
Definition client_stop_code (p : nat) : prog unit :=
  act (break_own_loop p);;
  act (close_own_fd p);;
  act (close_own_monitor p);;
  state ← act (field p s_state);
  change_own_code p (if state =? PCAP_SESSION_ABORTING then PCAP_SESSION_STOPPED else PCAP_SESSION_START).

Definition clientconn_stop_code (p : nat) : prog unit :=
  id ← act (field p s_id);
  act (set_conn id None);;
  act (close_own_dumper p);;
  act (close_idle_handle p);;
  act (close_own_fd p);;
  act (close_own_monitor p);;
  change_own_code p PCAP_SESSION_STOPPED.

Definition merger_stop_code (p : nat) : prog unit :=
  act (close_own_dumper p);;
  act (close_idle_handle p);;
  act (close_own_fd p);;
  fd ← act (field p s_fd);
  pwhen (0 <? fd) (act (ext (Close fd);; update p (set_fd 0)));;
  act (close_own_monitor p);;
  state ← act (field p s_state);
  change_own_code p (if state =? PCAP_SESSION_ABORTING then PCAP_SESSION_STOPPED else PCAP_SESSION_START).

Definition stopper_code (k : kind) (p : nat) : prog unit :=
  match k with
  | KClient => client_stop_code p
  | KClientConn => clientconn_stop_code p
  | KMerger => merger_stop_code p
  | _ => act (stop_session k p)
  end.

(** [pcapsession_stop] *)
Definition pcapsession_stop_code (session_id : Z) : prog unit :=
  p ← act (position session_id);
  t ← act (field p s_thread);
  pwhen (negb (t =? 0))
    (pthread_cancel t;; pthread_join t;;
     act (modify (fun w => set_threads (delete t (threads w)) w));;
     act (update p (set_thread 0)));;
  stopper ← act (field p s_stopper);
  match stopper with None => act (fail NullPointer) | Some k => stopper_code k p end;;
  state ← act (field p s_state);
  pwhen (state =? PCAP_SESSION_STOPPED) (change_state_code session_id PCAP_SESSION_UNUSED).

(** What the supervisor does to the sessions: visit one that runs, stop one. *)
Inductive duty := Visit (i : nat) | Stop (i : nat).

Definition duty_code (d : duty) : prog unit :=
  match d with
  | Visit i => supervise_output_code i
  | Stop i => pcapsession_stop_code (Z.of_nat i)
  end.

Fixpoint supervisor_code (l : list duty) : prog unit :=
  match l with
  | [] => mret tt
  | d :: l => duty_code d;; supervisor_code l
  end.

(** ** Run alone, the code is the modules' *)

(** Run without other threads, the code [c] is the function [m]. *)
Definition runs_as {A} (c : prog A) (m : M A) : Prop := forall w, atomically c w = m w.

Lemma runs_bind {A B} (c : prog A) (f : A -> prog B) (m : M A) (k : A -> M B) :
  runs_as c m -> (forall a, runs_as (f a) (k a)) -> runs_as (c ≫= f) (m ≫= k).
Proof.
  unfold runs_as. intros Hc Hk w.
  assert (Hb : atomically (c ≫= f) w = (a ← atomically c; atomically (f a)) w).
  - clear Hc. revert w. unfold mbind at 1, prog_mbind.
    induction c as [a|X m' k' IH|c k' IH|mu k' IH|mu k' IH|k' IH|t k' IH|t k' IH]; intros w; cbn; try done;
      unfold mbind, M_bind in *; try (by rewrite IH).
    all: match goal with |- context [match ?r with Ok _ => _ | Fault _ => _ end] =>
      destruct r as [[x w']|]; [apply IH|done] end.
  - rewrite Hb. unfold mbind, M_bind. rewrite Hc. by destruct (m w) as [[a w']|].
Qed.

Lemma runs_act {A} (m : M A) : runs_as (act m) m.
Proof. intros w. cbn. unfold mbind, M_bind. by destruct (m w) as [[a w']|]. Qed.

Lemma runs_syscall c : runs_as (syscall c) (ext c).
Proof. by intros w. Qed.

Lemma runs_ret {A} (a : A) : runs_as (mret a) (mret a).
Proof. by intros w. Qed.

Lemma runs_lock {A} mu (f : unit -> prog A) m : runs_as (f tt) m -> runs_as (pthread_mutex_lock mu ≫= f) m.
Proof. done. Qed.

Lemma runs_unlock {A} mu (f : unit -> prog A) m : runs_as (f tt) m -> runs_as (pthread_mutex_unlock mu ≫= f) m.
Proof. done. Qed.

Lemma runs_cancel {A} t (f : unit -> prog A) m : runs_as (f tt) m ->
  runs_as (pthread_cancel t ≫= f) (ext (PthreadCancel t);; m).
Proof. intros Hf w. cbn. unfold mbind, M_bind. destruct (ext _ w) as [[r w']|]; [apply Hf|done]. Qed.

Lemma runs_join {A} t (f : unit -> prog A) m : runs_as (f tt) m ->
  runs_as (pthread_join t ≫= f) (ext (PthreadJoin t);; m).
Proof. intros Hf w. cbn. unfold mbind, M_bind. destruct (ext _ w) as [[r w']|]; [apply Hf|done]. Qed.

Lemma runs_then_unlock mu (c : prog unit) m : runs_as c m ->
  runs_as (c ≫= fun _ => pthread_mutex_unlock mu) m.
Proof.
  intros Hc w. rewrite (runs_bind c _ m (fun _ => mret tt) Hc); [|done].
  unfold mbind, M_bind. by destruct (m w) as [[[] w']|].
Qed.

Lemma runs_if {A} (b : bool) (c1 c2 : prog A) m1 m2 : runs_as c1 m1 -> runs_as c2 m2 ->
  runs_as (if b then c1 else c2) (if b then m1 else m2).
Proof. by destruct b. Qed.

Lemma runs_when (b : bool) c m : runs_as c m -> runs_as (pwhen b c) (when b m).
Proof. by destruct b. Qed.
End critical.

Ltac runs_step :=
  match goal with
  | |- runs_as (pthread_mutex_lock _ ≫= _) _ => apply runs_lock
  | |- runs_as (pthread_mutex_unlock _ ≫= _) _ => apply runs_unlock
  | |- runs_as (_ ≫= fun _ => pthread_mutex_unlock _) _ => apply runs_then_unlock
  | |- runs_as (pthread_cancel _ ≫= _) _ => apply runs_cancel
  | |- runs_as (pthread_join _ ≫= _) _ => apply runs_join
  | |- runs_as (_ ≫= _) (_ ≫= _) => apply runs_bind; [|intros]
  | |- runs_as (act _) _ => apply runs_act
  | |- runs_as (syscall _) _ => apply runs_syscall
  | |- runs_as (mret _) _ => apply runs_ret
  | |- runs_as (if _ then _ else _) _ => apply runs_if
  | |- runs_as (pwhen _ _) _ => apply runs_when
  | |- runs_as (match ?x with _ => _ end) _ => destruct x
  end; cbv beta.

Section equivalence.
Context `{Env}.

Lemma change_state_runs id new : runs_as (change_state_code id new) (pcapsession_change_state id new).
Proof. unfold change_state_code. by repeat runs_step. Qed.

Lemma change_own_runs p new : runs_as (change_own_code p new) (change_own_state p new).
Proof. unfold change_own_code, change_own_state. repeat runs_step. apply change_state_runs. Qed.

Lemma pcap_dump_runs x h d : runs_as (pcap_dump_code x h d) (pcap_dump x h d).
Proof. unfold pcap_dump_code, pcap_dump. by repeat runs_step. Qed.

Lemma merger_handler_runs_as p h d : runs_as (merger_handler_code p h d)
  (pcapsession_merger_packet_handler p h d).
Proof.
  unfold merger_handler_code, pcapsession_merger_packet_handler. repeat runs_step. apply pcap_dump_runs.
Qed.

Lemma client_handle_runs c h d : runs_as (client_handle_code c h d) (client_handle_packet c h d).
Proof. unfold client_handle_code, client_handle_packet. repeat runs_step. apply pcap_dump_runs. Qed.

(** The second read of a slot finds what the first found. *)
Lemma distribute_runs_as n : forall i h d, runs_as (distribute_code n i h d) (distribute n i h d).
Proof.
  induction n as [|n IH]; intros i h d; [done|]. cbn [distribute_code distribute]. intros w.
  trans ((listed ← connection i; match listed with
    | None => mret tt
    | Some _ => client ← connection i;
        match client with None => mret tt | Some client => client_handle_packet client h d end
    end;; distribute n (S i) h d) w).
  { revert w. change (runs_as (distribute_code (S n) i h d) (listed ← connection i; match listed with
      | None => mret tt
      | Some _ => client ← connection i;
          match client with None => mret tt | Some client => client_handle_packet client h d end
      end;; distribute n (S i) h d)). cbn [distribute_code].
    repeat (runs_step; try apply client_handle_runs; try apply IH). }
  unfold connection, mbind, M_bind, gets, mret, M_ret, fail.
  destruct (clientconnlist w !! i) as [[c|]|] eqn:Hi; [|done..]. by rewrite Hi.
Qed.

Lemma clientconn_handler_runs_as p h d : runs_as (clientconn_handler_code p h d)
  (pcapsession_clientconn_packet_handler p h d).
Proof.
  unfold clientconn_handler_code, pcapsession_clientconn_packet_handler. repeat runs_step.
  apply distribute_runs_as.
Qed.

(** Evaluation in the world [w] as far as its sessions are known. *)
Ltac run_on w := cbn; unfold mbind, M_bind, field, when, mret, M_ret; cbn;
  repeat match goal with E : session_list w !! _ = _ |- _ => rewrite E end; cbn.

Lemma flush_idle_runs i : runs_as (flush_idle_code i) (flush_idle i).
Proof.
  intros w. unfold flush_idle_code, flush_idle, monitor_bytes.
  run_on w. destruct (session_list w !! i) as [s|] eqn:Hs; [|done]. run_on w.
  destruct (s_monitor s) as [m|] eqn:Hm; [|done]. run_on w.
  destruct (Z.eqb_spec (s_pcap_dumper s) 0) as [Hd|Hd]; [done|]. run_on w. rewrite Hm. cbn.
  destruct (m_bytes m =? 0); [|done]. run_on w. by rewrite (proj2 (Z.eqb_neq _ _) Hd).
Qed.

Lemma supervise_output_runs i : runs_as (supervise_output_code i) (supervise_output i).
Proof.
  unfold supervise_output_code, supervise_output. runs_step; [runs_step|].
  destruct (a =? PCAP_SESSION_RUNNING); cbn [negb when]; repeat runs_step. apply flush_idle_runs.
Qed.

Lemma stopper_runs k p : runs_as (stopper_code k p) (stop_session k p).
Proof.
  destruct k; try apply runs_act; cbn [stopper_code stop_session module_stoppers].
  - unfold clientconn_stop_code, pcapsession_clientconn_stop. repeat runs_step. apply change_own_runs.
  - unfold merger_stop_code, pcapsession_merger_stop, stop_or_restart. repeat runs_step. apply change_own_runs.
  - unfold client_stop_code, pcapsession_client_stop, stop_or_restart. repeat runs_step. apply change_own_runs.
Qed.

Lemma pcapsession_stop_runs id : runs_as (pcapsession_stop_code id) (pcapsession_stop id).
Proof.
  unfold pcapsession_stop_code, pcapsession_stop.
  repeat (runs_step; try apply stopper_runs). apply change_state_runs.
Qed.

(** ** Properties *)

End equivalence.
