(* ===== verification/System.v ===== *)
(** * The system of sessions and threads

    The session table with the threads of its sessions, as a step relation: a
    thread runs to the next point, a call it can block in or the lock of an output;
    a packet reaches the handler of a capture loop; the supervisor visits the next
    slot; a session is opened; shutdown is ordered.  The invariants hold in every reachable state. *)
From S2P Require Import Prelude Text GtpTables GtpHeader GenUtils GtpFields Pcap Monitor Untunnel.
From S2P Require Import Sys Wp Tcp Session Handler Evolve Threads.
From S2P Require Import ClientConn Server LiveCapture FileCapture Merger Client Supervision.

Section system.
Context `{Henv : Env}.

(** ** The modules' functions *)

(** The function behind a [runner] pointer, from a point on. *)
Definition run_module (k : kind) (p : nat) (pt : point) : M (option point) :=
  match k with
  | KServer => pcapsession_server_run p pt
  | KClientConn => pcapsession_clientconn_run p
  | KLiveCapture => pcapsession_livecapture_run p pt
  | KFileCapture => pcapsession_filecapture_run p pt
  | KMerger => pcapsession_merger_run p
  | KClient => pcapsession_client_run p pt
  end.

(** A thread from the point it is at to its next one: in its function, or in the
    packet handler it is in. *)
Definition run_session (k : kind) (p : nat) (pt : point) : M (option point) :=
  match pt with
  | Locking slot client h d loop =>
      next ← packet_continues slot client h d loop; mret (Some next)
  | Merging merger h h' d => merge_continues p merger h h' d;; mret (Some Capturing)
  | _ => run_module k p pt
  end.

(** The handler a module passes to [pcap_loop], for a packet that arrives at a
    thread in its loop, up to the first point. *)
Definition handle_packet (k : kind) (p : nat) (loop : point) (h : pcap_pkthdr) (d : list Z) : M point :=
  match k with
  | KLiveCapture | KFileCapture => packet_arrives p h d loop
  | KClient => merge_arrives p h d
  | _ => mret loop
  end.

(** A merging thread has the [merge_mutex], which only clients take, until it is
    past its point. *)
Definition is_merging (pt : point) : bool :=
  match pt with Merging _ _ _ _ => true | _ => false end.
Definition can_enter (k : kind) (w : world) : Prop :=
  k = KClient -> map_Forall (fun _ th => is_merging (t_point th) = false) (threads w).

Definition in_pcap_loop (pt : point) : bool :=
  match pt with Capturing | Streaming _ _ => true | _ => false end.

(** The calls of the [open] functions. *)
Inductive request :=
  | OpenServer (port : Z)
  | OpenConnection (fd : Z) (address : sockaddr_in)
  | OpenLive (interface_name : string)
  | OpenFiles (directory_name : string) (iterations : Z)
  | OpenMerger (filename : string) (untunnel : Z)
  | OpenClient (address : sockaddr_in) (merger : nat).

Definition request_fits (r : request) : Prop :=
  match r with
  | OpenLive n | OpenFiles n _ | OpenMerger n _ => Z.of_nat (String.length n) < FILENAME_MAX
  | _ => True
  end.

Definition request_kind (r : request) : kind :=
  match r with
  | OpenServer _ => KServer
  | OpenConnection _ _ => KClientConn
  | OpenLive _ => KLiveCapture
  | OpenFiles _ _ => KFileCapture
  | OpenMerger _ _ => KMerger
  | OpenClient _ _ => KClient
  end.

(** Whether the session was added. *)
Definition open_request (r : request) : M bool :=
  match r with
  | OpenServer port => r ← pcapsession_server_open port; mret (negb (r =? 0))
  | OpenConnection fd address => r ← pcapsession_clientconn_open fd address; mret (negb (r =? 0))
  | OpenLive n => r ← pcapsession_livecapture_open n; mret (negb (r =? 0))
  | OpenFiles n i => r ← pcapsession_filecapture_open n i; mret (negb (r =? 0))
  | OpenMerger n u => r ← pcapsession_merger_open n u; mret (match r with None => false | Some _ => true end)
  | OpenClient address m => r ← pcapsession_client_open address m; mret (negb (r =? 0))
  end.

(** ** Steps *)

(** Where the supervision thread is: not yet running, about to visit a slot
    with the sessions counted so far, or returned. *)
Inductive supervisor := NotStarted | Supervising (i : nat) (sessioncount : Z) | Finished.

Record system := System { sys_world : world; sys_supervisor : supervisor }.

(** The thread [t] after a turn. *)
Definition advance (t : Z) (th : thread) (next : option point) (w : world) : world :=
  set_threads (match next with
               | Some pt => <[t := Thread (t_session th) (t_runner th) pt]> (threads w)
               | None => delete t (threads w)
               end) w.

(** The end of a turn of the supervision loop. *)
Definition turn_ends (w : world) (sessioncount : Z) : bool :=
  (sessioncount =? 0) && negb (session_handling_state w =? PCAP_SESSION_RUNNING).

(** The supervision thread, [pcapsession_supervision_run], from one visit to the
    next. *)
Inductive supervises : supervisor -> world -> supervisor -> world -> Prop :=
  | supervises_starts w :
      supervises NotStarted w (Supervising 0 0) (set_handling PCAP_SESSION_RUNNING w)
  | supervises_visits i c w counted w' : (i < 128)%nat -> supervise i w = Ok (counted, w') ->
      supervises (Supervising i c) w (Supervising (S i) (if (counted : bool) then c + 1 else c)) w'
  | supervises_sleeps c w : turn_ends w c = false ->
      supervises (Supervising 128 c) w (Supervising 0 0) w
  | supervises_ends c w : turn_ends w c = true ->
      supervises (Supervising 128 c) w Finished (set_handling PCAP_SESSION_STOPPED w).

(** The thread of a session goes on from its point, or a packet arrives at its
    [pcap_loop]. *)
Inductive thread_turn (t : Z) (th : thread) : world -> world -> Prop :=
  | turn_runs w next w' :
      run_session (t_runner th) (t_session th) (t_point th) w = Ok (next, w') ->
      thread_turn t th w (advance t th next w')
  | turn_packet h d w next w' :
      in_pcap_loop (t_point th) = true -> can_enter (t_runner th) w ->
      handle_packet (t_runner th) (t_session th) (t_point th) h d w = Ok (next, w') ->
      thread_turn t th w (advance t th (Some next) w').

(** The interleaving of the main program, which opens sessions and orders the
    shutdown, the threads of the sessions, and the supervision thread. *)
Inductive step : system -> system -> Prop :=
  | step_open r w b w' sup : request_fits r -> open_request r w = Ok (b, w') ->
      step (System w sup) (System w' sup)
  | step_close w sup : step (System w sup) (System (set_handling PCAP_SESSION_TERMINATING w) sup)
  | step_thread t th w w' sup : threads w !! t = Some th -> thread_turn t th w w' ->
      step (System w sup) (System w' sup)
  | step_supervision w sup w' sup' : supervises sup w sup' w' ->
      step (System w sup) (System w' sup').

Lemma step_run t th w next w' sup : threads w !! t = Some th ->
  run_session (t_runner th) (t_session th) (t_point th) w = Ok (next, w') ->
  step (System w sup) (System (advance t th next w') sup).
Proof. intros Ht Hr. by eapply step_thread, turn_runs. Qed.

Lemma step_packet t th h d w next w' sup : threads w !! t = Some th ->
  in_pcap_loop (t_point th) = true -> can_enter (t_runner th) w ->
  handle_packet (t_runner th) (t_session th) (t_point th) h d w = Ok (next, w') ->
  step (System w sup) (System (advance t th (Some next) w') sup).
Proof. intros Ht Hl Hc Hr. by eapply step_thread, turn_packet. Qed.

Lemma step_started w :
  step (System w NotStarted) (System (set_handling PCAP_SESSION_RUNNING w) (Supervising 0 0)).
Proof. apply step_supervision, supervises_starts. Qed.

Lemma step_visit i c w counted w' : (i < 128)%nat -> supervise i w = Ok (counted, w') ->
  step (System w (Supervising i c))
    (System w' (Supervising (S i) (if (counted : bool) then c + 1 else c))).
Proof. intros Hi Hr. by apply step_supervision, supervises_visits. Qed.

Lemma step_sleep c w : turn_ends w c = false ->
  step (System w (Supervising 128 c)) (System w (Supervising 0 0)).
Proof. intros He. by apply step_supervision, supervises_sleeps. Qed.

Lemma step_end c w : turn_ends w c = true ->
  step (System w (Supervising 128 c)) (System (set_handling PCAP_SESSION_STOPPED w) Finished).
Proof. intros He. by apply step_supervision, supervises_ends. Qed.

(** The table as [pcapsession_handling_init] leaves it. *)
Definition initial_world : world :=
  World (replicate 128 zero_session) PCAP_SESSION_STARTING (replicate 128 None) false (fun _ => 0)
    ∅ 1 [].
Definition initial (y : system) : Prop :=
  session_list (sys_world y) = replicate 128 zero_session /\
  clientconnlist (sys_world y) = replicate 128 None /\
  threads (sys_world y) = ∅ /\ next_thread (sys_world y) = 1 /\
  (forall u, monitor_last_output_time (sys_world y) u = 0) /\ sys_supervisor y = NotStarted.

Definition reachable (y : system) : Prop := exists y0, initial y0 /\ rtc step y0 y.

Lemma reachable_step y y' : reachable y -> step y y' -> reachable y'.
Proof. intros (y0 & H0 & Hr) Hs. exists y0. split; [done|]. by eapply rtc_r. Qed.

(** Visits of slots in a row. *)
Lemma visits_reachable n : forall i c w c' w', (i + n <= 128)%nat ->
  supervise_from n i c w = Ok (c', w') -> reachable (System w (Supervising i c)) ->
  reachable (System w' (Supervising (i + n) c')).
Proof.
  induction n as [|n IH]; intros i c w c' w' Hn Hrun Hy.
  - injection Hrun as <- <-. by rewrite Nat.add_0_r.
  - cbn [supervise_from] in Hrun. unfold mbind, M_bind in Hrun.
    destruct (supervise i w) as [[b w1]|] eqn:Hs; [|done].
    replace (i + S n)%nat with (S i + n)%nat by lia. apply (IH (S i) (if b then c + 1 else c) w1 c' w'); [lia|exact Hrun|]. eapply reachable_step; [exact Hy|].
    by apply step_visit; [lia|].
Qed.

Lemma initial_reachable : reachable (System initial_world NotStarted).
Proof. exists (System initial_world NotStarted). split; [by repeat split|]. apply rtc_refl. Qed.

(** ** The modules' code is safe *)

Lemma opened_evolves {A} (none r : A) Q w w' :
  (forall p r s, Q p r s -> s_state s = PCAP_SESSION_UNUSED \/
     managed p s /\ s_state s = PCAP_SESSION_START) ->
  opened same_threads none Q w r w' -> evolves w w'.
Proof.
  intros HQ [(_ & _ & ->)|(p & s' & [(s & Hs & Hu) _] & Ho & Hq)]; [apply evolves_refl|].
  destruct Ho as [Hlist Hh Hc Htr (Ht & Hn & Hout)]. split; try done.
  - by rewrite Hlist, length_insert.
  - by rewrite Hout.
  - intros Hok u. rewrite Hout. apply Hok.
  - intros j sj Hj. rewrite Hlist. destruct (decide (j = p)) as [->|Hne].
    + rewrite list_lookup_insert_eq by (by eapply lookup_lt_Some). exists s'. split; [done|].
      rewrite Hs in Hj. injection Hj as <-. left. split; [done|]. by eapply HQ.
    + rewrite list_lookup_insert_ne by done. exists sj. split; [done|apply session_evolves_refl].
Qed.

Lemma conns_ready_evolves w : length (clientconnlist w) = 128%nat -> evolves w (conns_ready w).
Proof.
  intros Hc. unfold conns_ready. destruct (clientconnlist_initialized w); [apply evolves_refl|].
  by apply evolves_same.
Qed.

Lemma clientconn_open_evolves fd address w :
  length (session_list w) = 128%nat -> length (clientconnlist w) = 128%nat ->
  wp (pcapsession_clientconn_open fd address) (fun _ w' => evolves w w') w.
Proof.
  intros Hl Hc. eapply wp_mono; [by apply (clientconn_open_wp same_threads)|]. intros r w' Ho.
  eapply evolves_trans; [by apply conns_ready_evolves|]. eapply opened_evolves; [|done].
  intros p r0 s [_ ->]. right. split; [by split; eauto|done].
Qed.

Lemma open_request_evolves r w : request_fits r ->
  length (session_list w) = 128%nat -> length (clientconnlist w) = 128%nat ->
  wp (open_request r) (fun _ w' => evolves w w') w.
Proof.
  intros Hfit Hl Hc. destruct r as [port|fd address|n|n i|n u|address m]; cbn [open_request];
    wp_step; eapply wp_mono.
  - by apply (server_open_wp same_threads).
  - intros b w' Ho. wp_step. eapply opened_evolves; [|done].
    intros p r0 s [[_ (fd & _ & ->)]|[_ Hu]]; [right; split; [by split; eauto|done]|by left].
  - by apply clientconn_open_evolves.
  - intros b w' Ho. by wp_step.
  - by apply (livecapture_open_wp same_threads).
  - intros b w' Ho. wp_step. eapply opened_evolves; [|done].
    intros p r0 s [[_ (h & fd & _ & ->)]|[_ Hu]]; [right; split; [by split; eauto|done]|by left].
  - by apply (filecapture_open_wp same_threads).
  - intros b w' Ho. wp_step. eapply opened_evolves; [|done].
    intros p r0 s [_ ->]. right. split; [by split; eauto|done].
  - by apply (merger_open_wp same_threads).
  - intros b w' Ho. wp_step. eapply opened_evolves; [|done].
    intros p r0 s [_ ->]. right. split; [by split; eauto|done].
  - by apply (client_open_wp same_threads).
  - intros b w' Ho. wp_step. eapply opened_evolves; [|done].
    intros p r0 s [_ ->]. right. split; [by split; eauto|done].
Qed.

Lemma safe_clientconn_open p fd address : thread_safe p (pcapsession_clientconn_open fd address).
Proof. intros w _ Hl Hc _. apply wlp_wp. by apply clientconn_open_evolves. Qed.

Lemma safe_server_run p pt : thread_safe p (pcapsession_server_run p pt).
Proof.
  assert (Hloop : thread_safe p (server_loop p)) by (unfold server_loop; safe).
  unfold pcapsession_server_run, server_turn, poll_server_socket.
  destruct pt; safe; try done; apply safe_clientconn_open.
Qed.

Lemma safe_offer p n : forall i, thread_safe p (offer n i).
Proof. induction n as [|n IH]; intros i; cbn [offer]; unfold client_test; safe; apply IH. Qed.

Lemma safe_packet_arrives p h d loop : thread_safe p (packet_arrives p h d loop).
Proof. unfold packet_arrives. safe; [apply safe_count_packet|apply safe_offer]. Qed.

Lemma safe_packet_continues p slot client h d loop :
  thread_safe p (packet_continues slot client h d loop).
Proof.
  unfold packet_continues, client_dump, pcap_dump. safe; [apply safe_count_packet|apply safe_offer].
Qed.

(** Untunnelling keeps the monitor's times. *)
Lemma untunnel_keeps_output_time mon h d mon' h' d' :
  pcapsession_untunnel_packet mon h d = Ok (mon', h', d') ->
  m_last_output_time <$> mon' = m_last_output_time <$> mon.
Proof.
  unfold pcapsession_untunnel_packet. intros Hu. apply res_bind_Ok in Hu as (hdr & _ & Hu).
  destruct hdr as [g|]; [|by injection Hu as <- <- <-].
  apply res_bind_Ok in Hu as (gtp & _ & Hu). cbn in *.
  assert (Ht : forall a b c,
    m_last_output_time <$> monitor_increment_gtp mon a b c = m_last_output_time <$> mon)
    by (by destruct mon).
  destruct (negb (GTP_EXT_FLAG (flag_options gtp) =? 0)); [by injection Hu as <- <- <-|].
  apply res_bind_Ok in Hu as (ty & _ & Hu). cbn in *.
  apply res_bind_Ok in Hu as (d1 & _ & Hu). by injection Hu as <- <- <-.
Qed.

Lemma safe_untunnel p m h d : thread_safe p (untunnel_on m h d).
Proof.
  intros w _ _ _ _. unfold untunnel_on. apply wlp_bind. intros mon w1 Hf.
  unfold field in Hf. destruct (session_list w !! m) as [s|] eqn:Hs; [|done].
  injection Hf as <- <-. apply wlp_bind. intros [[mon' h'] d'] w1 Hl. unfold lift in Hl.
  destruct (pcapsession_untunnel_packet _ h d) as [r|] eqn:Hu; [|done]. injection Hl as -> <-.
  apply untunnel_keeps_output_time in Hu. apply wlp_wp. wp_step. wp_step. wp_step.
  apply (evolves_session w m s); [done|].
  assert (Hr : same_role s (set_monitor mon' s)).
  { split; try done. intros Hm v. cbn. intros ->. cbn in Hu.
    destruct (s_monitor s) as [v0|] eqn:E; [|done]. cbn in Hu. injection Hu as ->. by apply Hm. }
  destruct (decide (s_state s = PCAP_SESSION_UNUSED)); [left; split; [done|by left]|].
  right. split; [done|]. split; [done|by left].
Qed.

Lemma safe_merge_arrives p h d : thread_safe p (merge_arrives p h d).
Proof. unfold merge_arrives. safe. apply safe_untunnel. Qed.

Lemma safe_merge_continues p merger h h' d : thread_safe p (merge_continues p merger h h' d).
Proof. unfold merge_continues, pcap_dump. safe; apply safe_count_packet. Qed.

Lemma safe_run_module `{!Clock} k p pt : thread_safe p (run_module k p pt).
Proof.
  destruct k; cbn [run_module].
  - apply safe_server_run.
  - unfold pcapsession_clientconn_run, pcap_geterr. safe.
  - unfold pcapsession_livecapture_run, enter_pcap_loop, close_own_handle. destruct pt; safe.
  - unfold pcapsession_filecapture_run, filecapture_entry, filecapture_finish,
      filecapture_streamed, filecapture_iteration, enter_pcap_loop, close_own_handle.
    destruct pt; safe.
  - unfold pcapsession_merger_run, pcap_geterr. safe.
  - unfold pcapsession_client_run, client_connected, enter_pcap_loop. destruct pt; safe.
Qed.

Lemma safe_run `{!Clock} k p pt : thread_safe p (run_session k p pt).
Proof.
  destruct pt; cbn [run_session]; try apply safe_run_module.
  - safe. apply safe_packet_continues.
  - safe. apply safe_merge_continues.
Qed.

Lemma safe_handle_packet k p loop h d : thread_safe p (handle_packet k p loop h d).
Proof.
  destruct k; cbn [handle_packet]; try apply safe_ret;
    first [apply safe_packet_arrives | apply safe_merge_arrives].
Qed.

(** ** The invariant *)

Record thread_ok (w : world) (t : Z) (th : thread) : Prop := {
  th_id : 0 < t < next_thread w;
  th_session : exists s, session_list w !! t_session th = Some s /\ managed (t_session th) s /\
    busy s /\ s_thread s = t /\ s_runner s = Some (t_runner th) }.

(** The table is well formed; every session is free or was added and is between
    two visits; every thread is the thread of a session that is starting,
    running or about to be stopped, and runs that session's function. *)
Record system_ok (w : world) : Prop := {
  ok_table : table_ok w;
  ok_outputs : outputs_ok w;
  ok_session p s : session_list w !! p = Some s ->
    s_state s = PCAP_SESSION_UNUSED \/ managed p s /\ settled s;
  ok_next : 0 < next_thread w;
  ok_thread t th : threads w !! t = Some th -> thread_ok w t th }.

Lemma system_ok_handling h w : system_ok w -> system_ok (set_handling h w).
Proof. intros [[] ? ? ? Hth]. split; try done. intros t th Ht. by destruct (Hth t th Ht). Qed.

Lemma session_ok_settled p s :
  s_state s = PCAP_SESSION_UNUSED \/ managed p s /\ settled s -> session_ok p s.
Proof. intros [?|[? _]]; [by left|by right; left]. Qed.

(** A session that evolves stays free or between two visits. *)
Lemma evolved_settled p s s' : s_state s = PCAP_SESSION_UNUSED \/ managed p s /\ settled s ->
  session_evolves p s s' -> s_state s' = PCAP_SESSION_UNUSED \/ managed p s' /\ settled s'.
Proof.
  unfold session_evolves, settled, busy.
  intros [Hu|[Hm Hs]] [[Hu' [He|[Hm' He]]]|(Hu' & Hr & He)]; try states_tac.
  - right. split; [done|by left].
  - right. split; [by eapply managed_role|]. states_tac.
Qed.

Lemma evolves_ok `{!Clock} w w' : system_ok w -> evolves w w' -> system_ok w'.
Proof.
  intros [[Hl Hc Hok Hout] Hos Hss Hn Hth] Hev.
  assert (Hss' : forall p s, session_list w' !! p = Some s ->
    s_state s = PCAP_SESSION_UNUSED \/ managed p s /\ settled s).
  { intros p s' Hs'. destruct (lookup_lt_is_Some_2 (session_list w) p) as [s Hs].
    - rewrite <- (ev_length _ _ Hev). by eapply lookup_lt_Some.
    - destruct (ev_session _ _ Hev p s Hs) as (s1 & Hs1 & Hse). rewrite Hs' in Hs1.
      injection Hs1 as <-. by apply (evolved_settled p s); [apply Hss|]. }
  split; [split| |done| |].
  - by rewrite (ev_length _ _ Hev).
  - by rewrite (ev_conns _ _ Hev).
  - intros p s Hs. by apply session_ok_settled, Hss'.
  - unfold output_ok, answer in *. rewrite (ev_output _ _ Hev).
    pose proof (clock_mono _ _ (ev_trace _ _ Hev)). lia.
  - by apply (ev_outputs _ _ Hev).
  - by rewrite (ev_next _ _ Hev).
  - intros t th Ht. rewrite (ev_threads _ _ Hev) in Ht.
    destruct (Hth t th Ht) as [Hid (s & Hs & Hm & Hb & Hst & Hr)].
    split; [by rewrite (ev_next _ _ Hev)|].
    destruct (ev_session _ _ Hev _ s Hs) as (s' & Hs' & Hse). exists s'. split; [done|].
    unfold busy in *. destruct Hse as [[Hu _]|(_ & Hro & Hst')]; [states_tac|].
    split; [by eapply managed_role|]. split; [states_tac|].
    by rewrite (sr_thread _ _ Hro), (sr_runner _ _ Hro).
Qed.

(** *** A visit *)

Lemma visited_settled p h s s' : settled s -> visited p h s s' ->
  s_state s' = PCAP_SESSION_UNUSED \/ managed p s' /\ settled s'.
Proof.
  unfold settled, busy. intros Hst [Hok (fd_open & _ & Hl)].
  assert (He : entered (h =? PCAP_SESSION_RUNNING) fd_open s = s_state s \/
    entered (h =? PCAP_SESSION_RUNNING) fd_open s = PCAP_SESSION_TERMINATE \/
    entered (h =? PCAP_SESSION_RUNNING) fd_open s = PCAP_SESSION_ABORT)
    by (unfold entered, ordered; repeat case_match; auto).
  assert (Hs' : s_state s' = PCAP_SESSION_UNUSED \/ s_state s' = PCAP_SESSION_START \/
    s_state s' = PCAP_SESSION_STARTING \/ s_state s' = PCAP_SESSION_RUNNING \/
    s_state s' = PCAP_SESSION_TERMINATE)
    by (inversion Hl; subst; states_tac).
  destruct Hok as [?|[Hm|(? & _)]]; [by left| |states_tac].
  destruct Hs' as [Hs'|Hs']; [by left|]. right. split; [done|states_tac].
Qed.

(** The threads after the visit of the session [s] of the slot [p]. *)
Lemma visited_threads p w w' s s' : system_ok w -> session_list w !! p = Some s -> managed p s ->
  settled s -> session_list w' !! p = Some s' -> (busy s' -> managed p s') ->
  (forall q, q <> p -> session_list w' !! q = session_list w !! q) ->
  thread_change p w w' s s' ->
  0 < next_thread w' /\ forall t th, threads w' !! t = Some th -> thread_ok w' t th.
Proof.
  intros [_ _ _ Hn Hth] Hs Hm Hst Hs' Hm' Hother Htc.
  assert (Hkeep : forall t th, threads w !! t = Some th -> t_session th <> p ->
    next_thread w <= next_thread w' -> thread_ok w' t th).
  { intros t th Ht Hp Hle. destruct (Hth t th Ht) as [Hid Hse]. split; [lia|]. by rewrite Hother. }
  assert (Hown : forall t th, threads w !! t = Some th -> t_session th = p ->
    0 < t < next_thread w /\ t = s_thread s /\ busy s /\ s_runner s = Some (t_runner th)).
  { intros t th Ht Hp. destruct (Hth t th Ht) as [Hid (s0 & Hs0 & _ & Hb & Hst0 & Hr)].
    rewrite Hp, Hs in Hs0. injection Hs0 as <-. done. }
  destruct Htc as [Ht Hn' Hst' Hrs _ Hb|Ht Hn'|k Hstart Hst' Hrun Hid Ht Hn'];
    (split; [lia|]); intros t th Hlk; rewrite Ht in Hlk.
  - destruct (decide (t_session th = p)) as [Hp|Hp]; [|apply Hkeep; [done..|lia]].
    destruct (Hown t th Hlk Hp) as (Hid & -> & _ & Hr). split; [lia|]. rewrite Hp.
    exists s'. specialize (Hm' Hb). by rewrite Hrs.
  - unfold without_thread in Hlk. assert (Hlk' : threads w !! t = Some th).
    { destruct (s_thread s =? 0); [done|]. by apply lookup_delete_Some in Hlk as [_ ?]. }
    apply Hkeep; [done| |lia]. intros Hp. destruct (Hown t th Hlk' Hp) as (Hid & -> & _).
    rewrite (proj2 (Z.eqb_neq _ _)) in Hlk by lia. by rewrite lookup_delete_eq in Hlk.
  - apply lookup_insert_Some in Hlk as [[<- <-]|[Hne Hlk]].
    + split; [lia|]. cbn. assert (Hb : busy s') by (by left). exists s'. auto.
    + apply Hkeep; [done| |lia]. intros Hp. destruct (Hown t th Hlk Hp) as (_ & _ & Hb & _).
      unfold busy in *. states_tac.
Qed.

Lemma supervise_ok `{!Clock} p w : (p < 128)%nat -> system_ok w ->
  wp (supervise p) (fun _ w' => system_ok w' /\
    session_handling_state w' = session_handling_state w) w.
Proof.
  intros Hp Hw. pose proof Hw as [Htb Hos Hss Hn Hth].
  destruct (lookup_lt_is_Some_2 (session_list w) p) as [s Hs]; [by rewrite (tb_sessions _ Htb)|].
  destruct (Hss p s Hs) as [Hu|[Hm Hst]].
  { unfold supervise. wp_step. wp_step. rewrite Hu. wp_step; [|states_tac]. by wp_step. }
  assert (Hu : s_state s <> PCAP_SESSION_UNUSED) by (unfold settled, busy in *; states_tac).
  eapply wp_mono; [apply wp_conj|].
  - by apply (supervise_wp p s).
  - by apply (supervise_threads p s).
  - intros counted w' [(Htb' & Hh & Hother & s' & Hs' & Hv) (Hos' & s1 & Hs1 & Htc)].
    rewrite Hs' in Hs1. injection Hs1 as <-. split; [|done].
    destruct counted; destruct Hv as [Hu' Hv]; [|done].
    pose proof (visited_settled _ _ _ _ Hst Hv) as Hset.
    assert (Hth' : 0 < next_thread w' /\ forall t th, threads w' !! t = Some th -> thread_ok w' t th)
      by (apply (visited_threads p w w' s s'); try done; unfold busy; intros; destruct Hset as [?|[? _]]; [states_tac|done]).
    destruct Hth' as [Hn' Hth']. split; try done.
    { intros u. destruct (decide (u = TuSession)) as [->|Hne]; [apply (tb_output _ Htb')|].
      rewrite Hos' by done. apply Hos. }
    intros q sq Hq. destruct (decide (q = p)) as [->|Hne]; [by simplify_eq|].
    rewrite Hother in Hq by done. by apply Hss.
Qed.

Lemma visits_ok `{!Clock} n : forall i c w, (i + n <= 128)%nat -> system_ok w ->
  wp (supervise_from n i c) (fun _ w' => system_ok w' /\
    session_handling_state w' = session_handling_state w) w.
Proof.
  induction n as [|n IH]; intros i c w Hn Hw; [by apply wp_ret|]. cbn [supervise_from]. wp_step.
  eapply wp_mono; [apply supervise_ok; [lia|done]|]. intros b w1 [Hw1 Hh1].
  eapply wp_mono; [apply IH; [lia|done]|]. intros c' w2 [Hw2 Hh2]. split; [done|congruence].
Qed.

Lemma passes_ok `{!Clock} n : forall w, system_ok w ->
  wp (supervision_passes n) (fun _ w' => system_ok w') w.
Proof.
  induction n as [|n IH]; intros w Hw; [by apply wp_ret|]. apply supervision_passes_S.
  unfold supervision_pass. wp_step. eapply wp_mono; [by apply visits_ok; [apply Nat.leb_le|]|].
  intros c w1 [Hw1 _]. wp_step. wp_step. wp_step.
  - wp_step. wp_step. wp_step. by apply system_ok_handling.
  - wp_step. by apply IH.
Qed.

(** *** Every step *)

Lemma thread_running w t th : system_ok w -> threads w !! t = Some th -> running_on (t_session th) w.
Proof.
  intros Hw Ht. destruct (ok_thread _ Hw t th Ht) as [_ (s & Hs & Hm & Hb & _)]. by exists s.
Qed.

Lemma safe_evolves {A} p (m : M A) a w w' : thread_safe p m -> system_ok w -> running_on p w ->
  m w = Ok (a, w') -> evolves w w'.
Proof.
  intros Hm Hw Hr Hrun. destruct (ok_table _ Hw) as [Hl Hc _ _].
  by apply (Hm w Hr Hl Hc (ok_outputs _ Hw) a w').
Qed.

(** The thread moves on, or ends. *)
Lemma advance_ok t th next w : system_ok w -> threads w !! t = Some th ->
  system_ok (advance t th next w).
Proof.
  intros [[] ? ? ? Hth] Ht. split; try done. cbn. intros t' th' Hlk.
  assert (Hold : exists th0, threads w !! t' = Some th0 /\ t_session th' = t_session th0 /\
    t_runner th' = t_runner th0).
  { destruct next as [pt|]; [apply lookup_insert_Some in Hlk|apply lookup_delete_Some in Hlk].
    - destruct Hlk as [[<- <-]|[_ Hlk]]; [by exists th|by exists th'].
    - destruct Hlk as [_ Hlk]. by exists th'. }
  destruct Hold as (th0 & H0 & Hs & Hr). destruct (Hth t' th0 H0) as [Hid Hse].
  split; [done|]. by rewrite Hs, Hr.
Qed.

Definition supervisor_ok (v : supervisor) : Prop :=
  match v with Supervising i c => (i <= 128)%nat /\ 0 <= c | _ => True end.

Lemma step_ok `{!Clock} y y' : step y y' ->
  system_ok (sys_world y) /\ supervisor_ok (sys_supervisor y) ->
  system_ok (sys_world y') /\ supervisor_ok (sys_supervisor y').
Proof.
  intros Hstep [Hw Hv].
  destruct Hstep as [r w b w' sup Hfit Hrun|w sup|t th w w' sup Ht Hturn|w sup w' sup' Hsup];
    cbn [sys_world sys_supervisor] in *.
  - split; [|done]. destruct (ok_table _ Hw) as [Hl Hc _ _]. apply (evolves_ok w); [done|].
    exact (wlp_wp _ _ _ (open_request_evolves r w Hfit Hl Hc) b w' Hrun).
  - split; [by apply system_ok_handling|done].
  - split; [|done]. pose proof (thread_running w t th Hw Ht) as Hr.
    destruct Hturn as [w next w' Hrun|h d w next w' Hpt Hcan Hrun].
    + assert (Hev : evolves w w') by (eapply safe_evolves; [apply safe_run|done..]).
      apply advance_ok; [by apply (evolves_ok w)|by rewrite (ev_threads _ _ Hev)].
    + assert (Hev : evolves w w') by (eapply safe_evolves; [apply safe_handle_packet|done..]).
      apply advance_ok; [by apply (evolves_ok w)|by rewrite (ev_threads _ _ Hev)].
  - destruct Hsup as [w|i c w counted w' Hi Hrun|c w Hend|c w Hend].
    + split; [by apply system_ok_handling|]; split; [lia|done].
    + split; [|destruct Hv; split; [lia|destruct counted; lia]].
      exact (proj1 (wlp_wp _ _ _ (supervise_ok i w Hi Hw) counted w' Hrun)).
    + split; [done|split; [lia|done]].
    + split; [by apply system_ok_handling|done].
Qed.

Lemma initial_ok `{!Clock} y : initial y ->
  system_ok (sys_world y) /\ supervisor_ok (sys_supervisor y).
Proof.
  intros (Hl & Hc & Ht & Hn & Ho & ->). split; [|done].
  assert (Hz : forall p s, session_list (sys_world y) !! p = Some s ->
    s_state s = PCAP_SESSION_UNUSED).
  { intros p s. rewrite Hl. by intros [-> _]%lookup_replicate. }
  split; [split| | | |].
  - by rewrite Hl.
  - by rewrite Hc.
  - intros p s Hs. left. by apply (Hz p).
  - unfold output_ok, answer. rewrite Ho. pose proof (clock_range (trace (sys_world y))). lia.
  - intros u. by rewrite Ho.
  - intros p s Hs. left. by apply (Hz p).
  - lia.
  - intros t th. by rewrite Ht, lookup_empty.
Qed.

Lemma reachable_ok `{!Clock} y : reachable y ->
  system_ok (sys_world y) /\ supervisor_ok (sys_supervisor y).
Proof.
  intros (y0 & H0 & Hsteps). apply initial_ok in H0.
  induction Hsteps as [y|y1 y2 y3 Hstep _ IH]; [done|]. by apply IH, (step_ok y1).
Qed.
End system.

(** ** Properties *)

Section properties.
Context `{Henv : Env, !Clock}.

(** C1: in every state that opening sessions, threads, captured packets, the
    supervisor and the order to shut down can lead to, the table is well formed,
    every session is free or was added and is between two visits, and every
    thread is the only one of a session that is starting, running or about to be
    stopped, whose function it runs. *)
Theorem reachable_states_are_well_formed (y : system) : reachable y ->
  system_ok (sys_world y) /\ supervisor_ok (sys_supervisor y) /\
  forall t1 t2 th1 th2, threads (sys_world y) !! t1 = Some th1 ->
    threads (sys_world y) !! t2 = Some th2 -> t_session th1 = t_session th2 -> t1 = t2.
Proof.
  intros Hy. apply reachable_ok in Hy as [Hw Hv]. split; [done|]. split; [done|].
  intros t1 t2 th1 th2 H1 H2 Hs.
  destruct (ok_thread _ Hw _ _ H1) as [_ (s1 & Hs1 & _ & _ & <- & _)].
  destruct (ok_thread _ Hw _ _ H2) as [_ (s2 & Hs2 & _ & _ & <- & _)]. congruence.
Qed.

(** C3: the supervision loop never gets stuck: in every reachable state in which
    supervision goes on, whatever the other threads did in between, the visit
    of the next slot does not fault, and at the end of a turn it sleeps or
    returns. *)
Theorem supervision_never_stuck (i : nat) (c : Z) (w : world) :
  reachable (System w (Supervising i c)) -> exists w' v', step (System w (Supervising i c)) (System w' v') /\
    match v' with
    | NotStarted => False
    | Supervising j c' => (i < 128)%nat /\ j = S i /\ (c' = c \/ c' = c + 1) \/ i = 128%nat /\ j = O
    | Finished => i = 128%nat /\ session_handling_state w <> PCAP_SESSION_RUNNING
    end.
Proof.
  intros Hy. apply reachable_ok in Hy as [Hw [Hi Hc]]. cbn in Hi.
  destruct (decide (i = 128%nat)) as [->|Hne].
  - destruct (turn_ends w c) eqn:Hend.
    + eexists _, Finished. split; [by apply step_end|]. unfold turn_ends in Hend. split; [done|]. lia.
    + eexists _, (Supervising 0 0). split; [by apply step_sleep|]. by right.
  - assert (Hi' : (i < 128)%nat) by lia. pose proof (supervise_ok i w Hi' Hw) as Hs.
    apply wp_run in Hs as (b & w' & Hrun & _). exists w', (Supervising (S i) (if b then c + 1 else c)).
    split; [by apply step_visit|]. left. split; [done|]. split; [done|]. destruct b; auto.
Qed.

(** C2: shutdown works from every reachable state.  When session handling was
    told to close and the supervised descriptors are open, two turns of the
    supervisor leave every slot free and no thread behind, and supervision has
    ended. *)
Theorem shutdown_from_reachable (y : system) : reachable y -> fds_open ->
  session_handling_state (sys_world y) <> PCAP_SESSION_RUNNING ->
  wp (supervision_passes 2) (fun goes_on w' => goes_on = false /\
    session_handling_state w' = PCAP_SESSION_STOPPED /\
    Forall (fun s => s_state s = PCAP_SESSION_UNUSED) (session_list w') /\ threads w' = ∅)
    (sys_world y).
Proof.
  intros Hy Ho Hh. apply reachable_ok in Hy as [Hw _]. eapply wp_mono.
  - apply wp_conj; [|by apply (passes_ok 2)]. apply shutdown_wp; [done|apply Hw|done|].
    apply Forall_lookup. intros p s Hs. unfold stoppable.
    destruct (ok_session _ Hw p s Hs) as [Hu|[_ Hst]]; unfold settled, busy in *; states_tac.
  - intros b w' [(-> & Hh' & Hall) Hw']. repeat (split; [done|]). apply map_empty. intros t.
    apply eq_None_not_Some. intros [th Ht].
    destruct (ok_thread _ Hw' t th Ht) as [_ (s & Hs & _ & Hb & _)].
    pose proof (Forall_lookup_1 _ _ _ _ Hall Hs) as Hu. cbn in Hu. unfold busy in Hb. states_tac.
Qed.
End properties.

(** ** A run *)

Section run.
#[local] Existing Instance calm_os.

(** A merger is opened, the supervisor starts, visits its slot, and the thread
    it created runs; then session handling is closed. *)
Definition run_result {A} (m : M A) (w : world) : world :=
  match m w with Ok (_, w') => w' | Fault _ => w end.

Lemma run_result_ok {A} (m : M A) (w : world) (a : A) :
  match m w with Ok (b, _) => b = a | Fault _ => False end -> m w = Ok (a, run_result m w).
Proof. unfold run_result. destruct (m w) as [[b w']|]; [by intros ->|done]. Qed.

Definition merger_opened : world := run_result (open_request (OpenMerger "out.pcap" 0)) initial_world.
Definition supervised : world := set_handling PCAP_SESSION_RUNNING merger_opened.
Definition merger_started : world := run_result (supervise 0) supervised.
Definition merger_closed : world := set_handling PCAP_SESSION_TERMINATING merger_started.

Lemma opened_runs :
  open_request (OpenMerger "out.pcap" 0) initial_world = Ok (true, merger_opened).
Proof. unfold merger_opened. apply run_result_ok. vm_compute. reflexivity. Qed.

Lemma started_runs : supervise 0 supervised = Ok (true, merger_started).
Proof. unfold merger_started. apply run_result_ok. vm_compute. reflexivity. Qed.

Lemma merger_opened_reachable : reachable (System merger_opened NotStarted).
Proof.
  apply (reachable_step _ _ initial_reachable).
  refine (step_open (OpenMerger "out.pcap" 0) initial_world true merger_opened NotStarted _ opened_runs).
  reflexivity.
Qed.

Lemma supervised_reachable : reachable (System supervised (Supervising 0 0)).
Proof. apply (reachable_step _ _ merger_opened_reachable). apply step_started. Qed.

Lemma merger_started_reachable : reachable (System merger_started (Supervising 1 1)).
Proof.
  apply (reachable_step _ _ supervised_reachable).
  refine (step_visit 0 0 supervised true merger_started _ started_runs). lia.
Qed.

Lemma merger_closed_reachable : reachable (System merger_closed (Supervising 1 1)).
Proof. eapply reachable_step; [apply merger_started_reachable|apply step_close]. Qed.

Example merger_thread : threads merger_closed !! 1 = Some (Thread 0 KMerger Spawned).
Proof. vm_compute. reflexivity. Qed.

Lemma reachable_states_are_well_formed_witness :
  let y := System merger_started (Supervising 1 1) in
  system_ok (sys_world y) /\ supervisor_ok (sys_supervisor y) /\
  forall t1 t2 th1 th2, threads (sys_world y) !! t1 = Some th1 ->
    threads (sys_world y) !! t2 = Some th2 -> t_session th1 = t_session th2 -> t1 = t2.
Proof. intros y. apply (reachable_states_are_well_formed y), merger_started_reachable. Defined.

Lemma supervision_never_stuck_witness :
  exists w' v', step (System merger_started (Supervising 1 1)) (System w' v') /\
    match v' with
    | NotStarted => False
    | Supervising j c' => (1 < 128)%nat /\ j = 2%nat /\ (c' = 1 \/ c' = 1 + 1) \/ 1%nat = 128%nat /\ j = O
    | Finished => 1%nat = 128%nat /\ session_handling_state merger_started <> PCAP_SESSION_RUNNING
    end.
Proof. apply (supervision_never_stuck 1 1), merger_started_reachable. Defined.

Lemma shutdown_from_reachable_witness :
  wp (supervision_passes 2) (fun goes_on w' => goes_on = false /\
    session_handling_state w' = PCAP_SESSION_STOPPED /\
    Forall (fun s => s_state s = PCAP_SESSION_UNUSED) (session_list w') /\ threads w' = ∅)
    merger_closed.
Proof.
  apply (shutdown_from_reachable (System merger_closed (Supervising 1 1))).
  - apply merger_closed_reachable.
  - intros w fd. reflexivity.
  - discriminate.
Defined.

(** A close ordered before the supervision thread runs is lost: the thread sets
    session handling running again. *)
Example early_close_is_lost : exists y, reachable y /\
  step y (System (set_handling PCAP_SESSION_TERMINATING initial_world) NotStarted) /\
  step (System (set_handling PCAP_SESSION_TERMINATING initial_world) NotStarted)
    (System (set_handling PCAP_SESSION_RUNNING initial_world) (Supervising 0 0)).
Proof.
  exists (System initial_world NotStarted). split; [apply initial_reachable|].
  split; [apply step_close|apply (step_started (set_handling PCAP_SESSION_TERMINATING initial_world))].
Qed.
End run.
