(* ===== verification/Running.v ===== *)
(** * When the turn of a thread goes through

    A thread's code can meet a null or closed pointer: one that a call to the
    operating system or to libpcap returned, one that its own module cleared, or
    the dumper of a session that another thread stopped.  [can_run] lists these
    causes; in every other case the turn goes through, and then it does not. *)
From S2P Require Import Prelude Text GtpTables GtpHeader GenUtils GtpFields Pcap Monitor Untunnel.
From S2P Require Import Sys Wp Tcp Session Handler Evolve Threads.
From S2P Require Import ClientConn Server LiveCapture FileCapture Merger Client Supervision System.

Section running.
Context `{Henv : Env}.
Implicit Types (w : world) (s : session) (tr : list event).

(** The answer to a call after the calls [tr], and the calls then. *)
Definition reply tr (c : call) : Z := (oracle tr c).1.
Definition asked tr (c : call) : list event := tr ++ [(c, reply tr c)].

(** The calls after [monitor_open], which reads the clock when its file has not
    done so before. *)
Definition monitor_asked (u : tu) w tr : list event :=
  if monitor_last_output_time w u =? 0 then asked tr Time else tr.

Definition has_dumper (q : nat) w : Prop :=
  exists s, session_list w !! q = Some s /\ s_pcap_dumper s <> 0.

(** What the next turn of a thread needs: before a [pcap_mutex], that the session
    still has its dumper; for a new connection and a starting merger, that libpcap
    and the operating system open the dump; for a client that could connect, that
    its descriptor becomes a stream; for a starting live capture, its handle; for a
    file capture, that the path of the next capture file fits its array. *)
Definition can_run (k : kind) (pt : point) s w : Prop :=
  match pt, k with
  | Locking _ client _ _ _, _ => has_dumper client w
  | Merging merger _ _ _, _ => has_dumper merger w
  | _, KClientConn =>
      let tr := monitor_asked TuClientConn w (trace w) in
      let handle := reply tr PcapOpenDead in
      let tr := asked tr PcapOpenDead in
      let stream := reply tr (Fdopen (s_fd s) "wb") in
      handle <> 0 /\ stream <> 0 /\
      reply (asked tr (Fdopen (s_fd s) "wb")) (PcapDumpFopen handle stream) <> 0
  | _, KMerger =>
      let tr := monitor_asked TuMerger w (trace w) in
      let handle := reply tr PcapOpenDead in
      handle <> 0 /\ reply (asked tr PcapOpenDead) (PcapDumpOpen handle (s_description s)) <> 0
  | Connecting, KClient =>
      let connect := Connect (s_fd s) (s_address s) in
      0 <= reply (trace w) connect ->
      reply (monitor_asked TuClient w (asked (trace w) connect)) (Fdopen (s_fd s) "rb") <> 0
  | Spawned, KLiveCapture => s_pcap_handle s <> 0
  | Reading directory _, KFileCapture =>
      let '(entry, d_name) := oracle (trace w) (Readdir directory) in
      entry <> 0 -> is_pcap_file d_name = true ->
      Z.of_nat (String.length (s_description s +:+ "/" +:+ d_name)) < FILENAME_MAX
  | _, _ => True
  end.

(** In [pcap_loop], or handling a packet of it. *)
Fixpoint captures (pt : point) : bool :=
  match pt with
  | Capturing | Streaming _ _ | Merging _ _ _ _ => true
  | Locking _ _ _ _ loop => captures loop
  | _ => false
  end.
Definition is_capture (k : kind) : bool :=
  match k with KLiveCapture | KFileCapture => true | _ => false end.

(** *** Both outcomes of a computation

    [Q] of its result, or [F] when it faults. *)
Definition either {A} (m : M A) (Q : A -> world -> Prop) (F : Prop) w : Prop :=
  match m w with Ok (a, w') => Q a w' | Fault _ => F end.

Lemma either_wp {A} (m : M A) Q F w : wp m Q w -> either m Q F w.
Proof. unfold wp, either. by destruct (m w) as [[a w']|]. Qed.

Lemma either_bind {A B} (m : M A) (k : A -> M B) Q F w :
  either m (fun a w' => either (k a) Q F w') F w -> either (m ≫= k) Q F w.
Proof. unfold either, mbind, M_bind. by destruct (m w) as [[a w']|]. Qed.

Lemma either_pointer v (Q : unit -> world -> Prop) (F : Prop) w :
  (v = 0 -> F) -> (v <> 0 -> Q tt w) -> either (pointer v) Q F w.
Proof. unfold either, pointer. intros Hf Hq. destruct (Z.eqb_spec v 0); [by apply Hf|by apply Hq]. Qed.

Lemma either_ext c (Q : Z -> world -> Prop) F w :
  Q (reply (trace w) c) (set_trace (asked (trace w) c) w) -> either (ext c) Q F w.
Proof. done. Qed.

Lemma either_mono {A} (m : M A) (Q Q' : A -> world -> Prop) (F F' : Prop) w :
  either m Q F w -> (forall a w', Q a w' -> Q' a w') -> (F -> F') -> either m Q' F' w.
Proof. unfold either. destruct (m w) as [[a w']|]; auto. Qed.

(** *** The start of a module's function *)

Lemma opened_own_monitor u p s w : session_list w !! p = Some s -> exists m glob,
  open_own_monitor u p w = Ok (tt, set_list (<[p := set_monitor (Some m) s]> (session_list w))
    (set_last_output u glob (set_trace (monitor_asked u w (trace w)) w))).
Proof.
  intros Hs. unfold open_own_monitor, open_monitor, monitor_asked, mbind, M_bind, field. rewrite Hs.
  cbn [gets]. rewrite Hs. unfold gets. destruct (monitor_last_output_time w u =? 0).
  - unfold ext, ext_reply, mbind, M_bind, mret, M_ret.
    destruct (monitor_open _ _ _ _) as [m glob]. unfold modify, update. cbn. rewrite Hs. by eexists _, _.
  - unfold mret, M_ret. destruct (monitor_open _ _ _ _) as [m glob].
    unfold modify, update. cbn. rewrite Hs. exists m, glob. by destruct w.
Qed.

(** After the state was set and the monitor opened. *)
Lemma started_either {A} u p (k : M A) Q F s w : session_list w !! p = Some s -> s_id s = Z.of_nat p ->
  (forall m w1, session_list w1 = <[p := set_monitor (Some m) (set_state PCAP_SESSION_RUNNING s)]>
       (session_list w) -> clientconnlist w1 = clientconnlist w ->
     trace w1 = monitor_asked u w (trace w) -> either k Q F w1) ->
  either (change_own_state p PCAP_SESSION_RUNNING;; open_own_monitor u p;; k) Q F w.
Proof.
  intros Hs Hid Hk. pose proof (lookup_lt_Some _ _ _ Hs) as Hp.
  apply either_bind, either_wp. unfold change_own_state. wp_step. wp_step. rewrite Hid.
  eapply wp_change_state; [done|]. set (s1 := set_state PCAP_SESSION_RUNNING s). set (w0 := set_list _ w).
  apply either_bind. destruct (opened_own_monitor u p s1 w0) as (m & glob & Hop);
    [by apply list_lookup_insert_eq|].
  unfold either at 1. rewrite Hop. apply (Hk m); cbn; [by rewrite list_insert_insert_eq|done..].
Qed.

(** *** Opening a dump *)

Ltac either_step :=
  match goal with
  | |- either (_ ≫= _) _ _ _ => apply either_bind
  | |- either (ext _) _ _ _ => apply either_ext
  | |- either (pointer _) _ _ _ => apply either_pointer; intros
  | |- either _ _ _ _ => apply either_wp
  end.

(** The text of the error cannot be had from a handle that was just closed. *)
Lemma either_geterr_closed Q (F : Prop) handle w :
  is_closed handle (trace w) = true \/ handle = 0 -> F -> either (pcap_geterr handle) Q F w.
Proof.
  intros Hc HF. unfold pcap_geterr, pointer, either, mbind, M_bind.
  destruct (Z.eqb_spec handle 0); [done|]. destruct Hc as [Hc|]; [|done]. cbn. by rewrite Hc.
Qed.

(** The close of the handle of a dump that was opened, or not. *)
Lemma closed_dead handle w Q :
  (forall w', session_list w' = session_list w -> clientconnlist w' = clientconnlist w ->
     is_closed handle (trace w') = true \/ handle = 0 -> Q tt w') ->
  wp (when (negb (handle =? 0)) (ext (PcapClose handle);; mret tt)) Q w.
Proof.
  intros HQ. wp_step.
  - wp_step. wp_step. wp_step. apply HQ; [done..|]. left. cbn. unfold is_closed.
    by rewrite foldl_app; cbn; rewrite Z.eqb_refl, orb_true_r.
  - apply HQ; [done..|]. right. by destruct (Z.eqb_spec handle 0).
Qed.

Lemma clientconn_run_spec p s w : session_list w !! p = Some s -> s_id s = Z.of_nat p ->
  (p < 128)%nat -> length (clientconnlist w) = 128%nat ->
  either (pcapsession_clientconn_run p) (fun next w' => can_run KClientConn Spawned s w /\
      next = None /\ exists s', session_list w' = <[p := s']> (session_list w) /\
      s_runner s' = s_runner s /\ s_fd s' = s_fd s /\ s_state s' = PCAP_SESSION_RUNNING /\
      s_pcap_dumper s' <> 0 /\ clientconnlist w' = <[p := Some p]> (clientconnlist w))
    (~ can_run KClientConn Spawned s w) w.
Proof.
  intros Hs Hid Hp Hc. pose proof (lookup_lt_Some _ _ _ Hs) as Hlt.
  apply (started_either _ _ _ _ _ s); [done..|]. intros m w1 Hl1 Hc1 Htr. cbn [can_run].
  assert (Hs1 : session_list w1 !! p = Some (set_monitor (Some m) (set_state PCAP_SESSION_RUNNING s)))
    by (rewrite Hl1; by apply list_lookup_insert_eq).
  rewrite <- Htr. cbv zeta. do 2 either_step. either_step. either_step. wp_step. do 2 either_step.
  do 2 either_step; [intros (? & _); done|]. either_step. either_step; [intros (_ & ? & _); done|].
  do 2 either_step. cbn [s_fd set_monitor set_state trace set_trace] in *.
  set (h := reply (trace w1) PcapOpenDead) in *. set (tr1 := asked (trace w1) PcapOpenDead) in *.
  set (f := reply tr1 _) in *. set (tr2 := asked tr1 _) in *. set (d := reply tr2 _).
  do 2 either_step. wp_step. do 2 either_step. apply closed_dead. intros w2 Hl2 Hc2 Hcl.
  set (s2 := set_pcap_dumper d _) in *.
  assert (Hl : session_list w2 = <[p := s2]> (session_list w))
    by (rewrite Hl2; cbn; by rewrite Hl1, list_insert_insert_eq).
  assert (Hs2 : session_list w2 !! p = Some s2) by (rewrite Hl; by apply list_lookup_insert_eq).
  apply either_bind. destruct (Z.eqb_spec d 0) as [Hd|Hd].
  - apply either_bind, either_geterr_closed; [done|]. by intros (_ & _ & ?).
  - apply either_wp. wp_step. wp_step. change (s_id s2) with (s_id s). rewrite Hid.
    apply wp_set_conn; [by rewrite Hc2; cbn; rewrite Hc1, Hc|].
    apply either_wp, wp_ret. split; [done|]. split; [done|].
    exists s2. cbn. rewrite Hc2. cbn. rewrite Hc1. by repeat split.
Qed.

Lemma merger_run_spec p s w : session_list w !! p = Some s -> s_id s = Z.of_nat p ->
  either (pcapsession_merger_run p) (fun _ _ => can_run KMerger Spawned s w)
    (~ can_run KMerger Spawned s w) w.
Proof.
  intros Hs Hid. pose proof (lookup_lt_Some _ _ _ Hs) as Hlt.
  apply (started_either _ _ _ _ _ s); [done..|]. intros m w1 Hl1 Hc1 Htr. cbn [can_run].
  assert (Hs1 : session_list w1 !! p = Some (set_monitor (Some m) (set_state PCAP_SESSION_RUNNING s)))
    by (rewrite Hl1; by apply list_lookup_insert_eq).
  rewrite <- Htr. cbv zeta. do 2 either_step. do 2 either_step. wp_step.
  do 2 either_step; [by intros (? & _)|]. do 2 either_step.
  cbn [s_description set_monitor set_state trace set_trace] in *.
  set (h := reply (trace w1) PcapOpenDead) in *. set (d := reply _ (PcapDumpOpen _ _)).
  do 2 either_step. wp_step. do 2 either_step. apply closed_dead. intros w2 Hl2 Hc2 Hcl.
  destruct (Z.eqb_spec d 0) as [Hd|Hd].
  - apply either_bind, either_geterr_closed; [done|]. by intros (_ & ?).
  - apply either_wp. wp_step. wp_step. wp_step. eapply wp_update.
    { cbn. rewrite Hl2. cbn. apply list_lookup_insert_eq. by rewrite Hl1, length_insert. }
    by wp_step.
Qed.
Lemma local_enter_loop T `{Frame T} p pt s (Q : option point -> session -> Prop) :
  s_pcap_handle s <> 0 -> Q (Some pt) s -> local T p (enter_pcap_loop p pt) s Q.
Proof.
  intros Hh HQ. unfold enter_pcap_loop. local_step. local_step.
  rewrite (proj2 (Z.eqb_neq _ _) Hh). by local_step.
Qed.

Ltac run_step :=
  match goal with
  | |- local _ _ (enter_pcap_loop _ _) _ _ => apply local_enter_loop; [apply _|try done|]
  | _ => handler_step
  | |- local _ _ (match ?x with _ => _ end) _ _ => destruct x
  end.

(** Turns that work on the thread's own session, whatever the calls answer. *)
Definition own_point (k : kind) (pt : point) : bool :=
  match k, pt with
  | KServer, Accepting | KFileCapture, Reading _ _ | KClient, Connecting
  | KClientConn, _ | KMerger, _ => false
  | _, _ => true
  end.

(** A capture keeps its handle while it captures. *)
Definition keeps_handle (k : kind) (pt : point) s : Prop :=
  is_capture k = true -> captures pt = true -> s_pcap_handle s <> 0.

Lemma own_run_local k p pt s w : (p < 128)%nat -> s_id s = Z.of_nat p -> own_point k pt = true ->
  keeps_handle k pt s -> can_run k pt s w ->
  local run_threads p (run_module k p pt) s (fun _ _ => True).
Proof.
  intros Hp Hid Hown Hkeep Hrun. unfold keeps_handle in Hkeep. destruct k; try discriminate Hown; cbn [run_module];
    unfold pcapsession_server_run, server_loop,
      pcapsession_livecapture_run, pcapsession_filecapture_run, filecapture_iteration,
      filecapture_streamed, pcapsession_client_run, client_connected;
    destruct pt; try discriminate Hown; cbn in Hkeep; repeat run_step; try done;
    cbn; try lia; by apply Hkeep.
Qed.

Lemma running_local {A} p (m : M A) w : running_on p w -> length (clientconnlist w) = 128%nat ->
  (forall s, s_id s = Z.of_nat p -> local run_threads p m s (fun _ _ => True)) ->
  wp m (fun _ _ => True) w.
Proof.
  intros (s & Hs & Hm & _) Hc Hl. eapply wp_mono; [apply (Hl s); [apply Hm|done|done]|done].
Qed.

Lemma server_turn_runs p w : running_on p w -> length (session_list w) = 128%nat ->
  length (clientconnlist w) = 128%nat -> wp (server_turn p) (fun _ _ => True) w.
Proof.
  intros Hr Hl Hc. pose proof Hr as (s & Hs & Hm & Hb). unfold server_turn, poll_server_socket.
  assert (Hrest : forall r w1, running_on p w1 -> length (clientconnlist w1) = 128%nat ->
    wp (if r <=? 0 then change_own_state p PCAP_SESSION_TERMINATE;;
          if r <? 0 then mret None else server_loop p else server_loop p) (fun _ _ => True) w1).
  { intros r w1 Hr1 Hc1. apply (running_local p); [done|done|]. intros s1 Hid.
    unfold server_loop. by repeat run_step. }
  wp_step. wp_step. wp_step. eapply (wp_mono _ (fun _ w1 => running_on p w1 /\
    length (clientconnlist w1) = 128%nat)); [|by intros r w1 [? ?]; apply Hrest].
  cbn [invalid_buffer]. wp_step; [by wp_step|]. wp_step; [by wp_step|]. wp_step. wp_step.
  assert (Hev : forall tr, running_on p (set_trace tr w)) by (by intros tr; exists s).
  wp_step; [by wp_step|]. wp_step. eapply wp_mono; [by apply clientconn_open_evolves|].
  intros r1 w1 Hw1. assert (Hw : running_on p w1 /\ length (clientconnlist w1) = 128%nat).
  { split; [eapply running_on_evolves; [apply Hev|exact Hw1]|by rewrite (ev_conns _ _ Hw1)]. }
  wp_step. wp_step; [wp_step; wp_step|]; wp_step; [|done].
  destruct Hw as [(s1 & ? & ? & ?) ?]. split; [by exists s1|done].
Qed.

Lemma filecapture_entry_runs p directory count s w : session_list w !! p = Some s ->
  s_id s = Z.of_nat p -> (p < 128)%nat -> length (clientconnlist w) = 128%nat ->
  can_run KFileCapture (Reading directory count) s w ->
  wp (filecapture_entry p directory count) (fun _ _ => True) w.
Proof.
  intros Hs Hid Hp Hc Hrun. unfold filecapture_entry. wp_step. apply wp_ext_reply.
  cbn [can_run] in Hrun. destruct (oracle (trace w) (Readdir directory)) as [entry d_name].
  set (w1 := set_trace _ w).
  assert (Hl : forall m, local run_threads p m s (fun _ _ => True) ->
    wp (m : M (option point)) (fun _ _ => True) w1).
  { intros m Hm. eapply wp_mono; [by apply Hm|done]. }
  apply Hl. unfold filecapture_finish, filecapture_iteration.
  destruct (Z.eqb_spec entry 0) as [|Hentry]; [repeat run_step; try done; lia|].
  destruct (is_pcap_file d_name); cbn [negb]; [|by run_step]. specialize (Hrun Hentry eq_refl).
  repeat run_step; try done; cbn in *; lia.
Qed.

(** *** Packets *)

(** The dump at the lock of a session, and what is counted. *)
Lemma dump_either {A} q h d (k : M A) (Q : A -> world -> Prop) w :
  (forall s x, session_list w !! q = Some s -> s_pcap_dumper s <> 0 ->
     wp k Q (set_trace (trace w ++ [(PcapDump (s_pcap_dumper s) h (captured (h, d)), x)]) w)) ->
  either (dumper ← field q s_pcap_dumper; pcap_dump dumper h d;; k)
    (fun a w' => has_dumper q w /\ Q a w') (~ has_dumper q w) w.
Proof.
  intros HQ. unfold has_dumper. destruct (session_list w !! q) as [s|] eqn:Hs.
  - either_step. either_step. wp_step. unfold pcap_dump.
    destruct (Z.eqb_spec (s_pcap_dumper s) 0) as [Hd|Hd].
    + by intros (? & [= <-] & ?).
    + do 4 either_step. wp_step. apply either_wp. eapply wp_mono; [by apply HQ|].
      intros a w' Ha. split; [by exists s|done].
  - unfold either, field, mbind, M_bind. rewrite Hs. by intros (? & ? & _).
Qed.

Lemma client_test_runs j w : conns_ok w -> clientconnlist w !! j = Some (Some j) ->
  wp (client_test j) (fun dumps w' => conns_ok w' /\
    (dumps = true -> clientconnlist w' !! j = Some (Some j) /\ has_dumper j w')) w.
Proof.
  intros Hok Hc. pose proof Hok as [Hl Hall]. destruct (Hall j j Hc) as (_ & s & Hs & Hid & Hdump).
  unfold client_test, iotests_fd_open. wp_step. wp_step. wp_step; [by wp_step|].
  wp_step. wp_step. wp_step. wp_step. wp_step. wp_step. wp_step.
  - wp_step. split; [done|]. intros _. split; [done|]. exists s. split; [done|]. apply Hdump. lia.
  - wp_step. wp_step. wp_step. rewrite Hid. apply wp_set_conn; [by eapply lookup_lt_Some|].
    wp_step. split; [by eapply (conns_ok_drop w)|done].
Qed.

(** The loop over the connections stops at one that is listed and has a dumper. *)
Definition at_connection (at_lock : option (nat * nat)) w : Prop :=
  match at_lock with
  | Some (slot, client) => clientconnlist w !! slot = Some (Some client) /\ has_dumper client w
  | None => True
  end.

Lemma offer_runs n : forall i w, (i + n <= 128)%nat \/ n = O -> conns_ok w ->
  wp (offer n i) (fun at_lock w' => conns_ok w' /\ at_connection at_lock w') w.
Proof.
  induction n as [|n IH]; intros i w Hn Hok; [by apply wp_ret|]. cbn [offer]. wp_step. wp_step.
  destruct (lookup_lt_is_Some_2 (clientconnlist w) i) as [c Hc]; [destruct Hok as [-> _]; lia|].
  rewrite Hc. destruct c as [c|]; [|apply IH; [lia|done]]. destruct (proj2 Hok i c Hc) as [-> _].
  wp_step. eapply wp_mono; [by apply client_test_runs|]. intros dumps w1 [Hok1 Hd].
  wp_step; [|apply IH; [lia|done]]. wp_step. split; [done|]. by apply Hd.
Qed.

Lemma counted_conns_ok q h s w : conns_ok w -> session_list w !! q = Some s ->
  conns_ok (set_list (<[q := counted h s]> (session_list w)) w).
Proof. intros Hok Hs. by eapply (conns_ok_sessions w _ q (counted h) s). Qed.

Lemma packet_arrives_runs p s h d loop w : conns_ok w -> session_list w !! p = Some s ->
  wp (packet_arrives p h d loop) (fun next w' => exists at_lock,
    next = waiting h d loop at_lock /\ at_connection at_lock w') w.
Proof.
  intros Hok Hs. unfold packet_arrives, count_packet. wp_step. wp_step. wp_step.
  eapply wp_mono; [apply offer_runs; [left; by apply Nat.leb_le|by apply (counted_conns_ok p h s)]|].
  intros at_lock w1 [_ Hat]. wp_step. by exists at_lock.
Qed.

Lemma packet_continues_either slot client h d loop w : conns_ok w ->
  either (packet_continues slot client h d loop) (fun _ _ => has_dumper client w)
    (~ has_dumper client w) w.
Proof.
  intros Hok. unfold packet_continues, client_dump. apply either_bind.
  eapply either_mono; [apply (dump_either client h d _ (fun _ => conns_ok))| |done].
  - intros s x Hs _. unfold count_packet. eapply wp_update; [done|]. by eapply (counted_conns_ok client h s).
  - intros u w1 [Hd Hok1]. apply either_wp. wp_step. eapply wp_mono; [apply offer_runs; [|done]|].
    + change (Z.to_nat PCAP_SESSION_MAX_SESSIONS) with 128%nat. lia.
    + intros at_lock w2 _. by wp_step.
Qed.

Lemma count_runs p h w : is_Some (session_list w !! p) ->
  wp (count_packet p h) (fun _ w' => forall q, is_Some (session_list w !! q) -> is_Some (session_list w' !! q)) w.
Proof.
  intros [s Hs]. unfold count_packet. eapply wp_update; [done|]. intros q [sq Hq]. cbn.
  apply lookup_lt_is_Some_2. rewrite length_insert. by eapply lookup_lt_Some.
Qed.

Lemma merge_continues_either p s merger h h' d w : session_list w !! p = Some s ->
  either (merge_continues p merger h h' d) (fun _ _ => has_dumper merger w)
    (~ has_dumper merger w) w.
Proof.
  intros Hs. unfold merge_continues.
  eapply either_mono; [apply (dump_either merger h' d _ (fun _ _ => True))|by intros ? ? []|done].
  intros sm x Hm _. wp_step. eapply wp_mono; [by apply count_runs; exists s|].
  intros u w1 Hsome. eapply wp_mono; [apply count_runs, Hsome; by exists sm|done].
Qed.

(** *** Every turn *)

Lemma client_connected_either p s w : session_list w !! p = Some s -> s_id s = Z.of_nat p ->
  (p < 128)%nat -> length (clientconnlist w) = 128%nat ->
  either (client_connected p) (fun _ _ => can_run KClient Connecting s w)
    (~ can_run KClient Connecting s w) w.
Proof.
  intros Hs Hid Hp Hc. unfold client_connected. cbn [can_run]. cbv zeta.
  set (connect := Connect (s_fd s) (s_address s)).
  assert (Hown : forall (m : M (option point)) w2 s2 (G F : Prop), session_list w2 !! p = Some s2 ->
    length (clientconnlist w2) = 128%nat -> local run_threads p m s2 (fun _ _ => True) -> G ->
    either m (fun _ _ => G) F w2).
  { intros m w2 s2 G F Hs2 Hc2 Hm HG. apply either_wp. eapply wp_mono; [by apply (Hm w2)|done]. }
  do 2 either_step. wp_step. do 2 either_step. wp_step. do 2 either_step. fold connect.
  set (w1 := set_trace _ w). destruct (Z.ltb_spec (reply (trace w) connect) 0) as [Hneg|Hpos].
  { apply (Hown _ _ s); [done..| |intros; lia]. repeat run_step; done. }
  destruct (opened_own_monitor TuClient p s w1) as (m & glob & Hop); [done|].
  either_step. unfold either at 1. rewrite Hop. do 2 either_step. do 2 either_step.
  { intros Hcan. by apply (Hcan Hpos). }
  apply (Hown _ _ (set_monitor (Some m) s)); [|done| |done].
  - cbn. apply list_lookup_insert_eq. by eapply lookup_lt_Some.
  - repeat run_step; try done; cbn; lia.
Qed.

(** Code that goes through when its condition holds, and only then. *)
Lemma either_iff {A} (m : M A) (can : Prop) w : (can -> wp m (fun _ _ => True) w) ->
  (forall r, m w = Ok r -> can) -> either m (fun _ _ => can) (~ can) w.
Proof.
  unfold wp, either. intros Hruns Hneeds. destruct (m w) as [[a w']|]; [by eapply Hneeds|].
  intros Hcan. by apply Hruns.
Qed.

Lemma entry_needs p directory count s w r : session_list w !! p = Some s ->
  filecapture_entry p directory count w = Ok r -> can_run KFileCapture (Reading directory count) s w.
Proof.
  intros Hs Hrun. cbn [can_run]. unfold filecapture_entry, ext_reply, mbind, M_bind in Hrun.
  destruct (oracle (trace w) (Readdir directory)) as [entry d_name]. intros Hentry Hpcap.
  rewrite (proj2 (Z.eqb_neq _ _) Hentry), Hpcap in Hrun. cbn [negb] in Hrun.
  unfold field in Hrun. cbn [session_list set_trace] in Hrun. rewrite Hs in Hrun.
  destruct (Z.leb_spec FILENAME_MAX (Z.of_nat (String.length (s_description s +:+ "/" +:+ d_name))));
    [done|lia].
Qed.

Lemma module_either k p pt s w : session_list w !! p = Some s -> managed p s -> busy s ->
  length (session_list w) = 128%nat -> length (clientconnlist w) = 128%nat -> keeps_handle k pt s ->
  match pt with Locking _ _ _ _ _ | Merging _ _ _ _ => False | _ => True end ->
  either (run_module k p pt) (fun _ _ => can_run k pt s w) (~ can_run k pt s w) w.
Proof.
  intros Hs Hm Hb Hl Hc Hkeep Hpt. pose proof (mg_id _ _ Hm) as Hid.
  assert (Hp : (p < 128)%nat) by (rewrite <- Hl; by eapply lookup_lt_Some).
  destruct (own_point k pt) eqn:Hown.
  - apply either_iff.
    + intros Hcan. eapply wp_mono; [by apply (own_run_local k p pt s w)|done].
    + intros r Hr. destruct k, pt; try done. intros Hh. cbn [run_module] in Hr.
      by rewrite (livecapture_null_handle p s w Hs Hid Hp Hc Hh) in Hr.
  - destruct k; try discriminate Hown; cbn [run_module].
    + destruct pt; try discriminate Hown. apply either_iff; [|done]. intros _.
      apply server_turn_runs; [by exists s|done..].
    + eapply either_mono; [by apply (clientconn_run_spec p s w)|intros a w' [? _]|]; by destruct pt.
    + destruct pt; try discriminate Hown. apply either_iff.
      * by apply (filecapture_entry_runs _ _ _ s).
      * by intros r; apply entry_needs.
    + eapply either_mono; [by apply (merger_run_spec p s w)|intros a w'|]; by destruct pt.
    + destruct pt; try discriminate Hown. by apply client_connected_either.
Qed.

(** What the next turn of a thread comes to. *)
Lemma run_either k p pt s w : session_list w !! p = Some s -> managed p s -> busy s ->
  length (session_list w) = 128%nat -> conns_ok w -> keeps_handle k pt s ->
  either (run_session k p pt) (fun _ _ => can_run k pt s w) (~ can_run k pt s w) w.
Proof.
  intros Hs Hm Hb Hl Hok Hkeep. pose proof (proj1 Hok) as Hc.
  destruct pt as [| | | | | |slot client h d loop|merger h h' d]; cbn [run_session];
    try by apply module_either.
  - apply either_bind. eapply either_mono; [by apply packet_continues_either|intros next w' Hd|done].
    by apply either_wp, wp_ret.
  - apply either_bind. eapply either_mono; [by apply (merge_continues_either p s)|intros u w' Hd|done].
    by apply either_wp, wp_ret.
Qed.

(** *** Packets that arrive *)

(** The handler of the distributer takes up every packet; that of the merger takes
    up one when it can be untunnelled as configured. *)
Definition can_handle (k : kind) (p : nat) (h : pcap_pkthdr) (d : list Z) w : Prop :=
  match k, session_list w !! p with
  | KClient, Some s =>
      match s_handler s with
      | None => True
      | Some m => exists sm, session_list w !! m = Some sm /\
          (s_untunnel sm = PCAP_SESSION_UNTUNNEL_ON ->
             exists r, pcapsession_untunnel_packet (s_monitor sm) h d = Ok r)
      end
  | _, _ => True
  end.

(** Where the thread is when it has taken up a packet: back in its loop, at a
    connection that is listed and has a dumper, or at the merger. *)
Definition taken_up (k : kind) (loop : point) (h : pcap_pkthdr) (d : list Z) (next : point) w : Prop :=
  match next with
  | Locking slot client h' d' loop' => h' = h /\ d' = d /\ loop' = loop /\
      clientconnlist w !! slot = Some (Some client) /\ has_dumper client w
  | Merging _ h' _ _ => k = KClient /\ h' = h
  | _ => in_pcap_loop next = true
  end.

Lemma merge_arrives_either p s loop h d w : session_list w !! p = Some s ->
  either (merge_arrives p h d) (fun next w' => can_handle KClient p h d w /\
    taken_up KClient loop h d next w') (~ can_handle KClient p h d w) w.
Proof.
  intros Hs. unfold can_handle, merge_arrives. rewrite Hs.
  either_step. either_step. wp_step. destruct (s_handler s) as [m|]; [|done].
  destruct (session_list w !! m) as [sm|] eqn:Hm.
  2:{ unfold either, mbind, M_bind, field. rewrite Hm. by intros (? & ? & _). }
  either_step. either_step. wp_step. apply either_bind.
  destruct (Z.eqb_spec (s_untunnel sm) PCAP_SESSION_UNTUNNEL_ON) as [Hu|Hu].
  - unfold untunnel_on. either_step. either_step. wp_step. apply either_bind.
    unfold either at 1, lift. destruct (pcapsession_untunnel_packet (s_monitor sm) h d) as [[[mon h'] d']|] eqn:Hun.
    + apply either_wp. wp_step. wp_step. wp_step. apply either_wp, wp_ret. split; [|done]. exists sm. eauto.
    + intros (? & [= <-] & Hr). destruct (Hr Hu). congruence.
  - apply either_wp, wp_ret, either_wp, wp_ret. split; [|done]. exists sm. split; [done|]. by intros ?%Hu.
Qed.

Lemma handle_either k p s loop h d w : session_list w !! p = Some s -> conns_ok w ->
  in_pcap_loop loop = true ->
  either (handle_packet k p loop h d) (fun next w' => can_handle k p h d w /\
    taken_up k loop h d next w') (~ can_handle k p h d w) w.
Proof.
  intros Hs Hok Hloop.
  assert (Hcap : either (packet_arrives p h d loop) (fun next w' => True /\ taken_up k loop h d next w') False w).
  { apply either_wp. eapply wp_mono; [by apply (packet_arrives_runs p s)|].
    intros next w' ([[slot client]|] & -> & Hat); (split; [done|]); cbn; [done|]. by destruct loop. }
  assert (Hret : either (mret loop) (fun next w' => True /\ taken_up k loop h d next w') False w)
    by (apply either_wp, wp_ret; split; [done|by destruct loop]).
  destruct (decide (k = KClient)) as [->|Hk].
  - by apply (merge_arrives_either p s).
  - destruct k; try done; cbn [handle_packet]; (eapply either_mono; [first [exact Hcap|exact Hret]|done|done]).
Qed.
End running.
