(* ===== verification/Sharing.v ===== *)
(** * Threads that share the session table

    What the disciplines of the merger and of the distributer have in common: the
    invariant is a condition on every session and on the connection list, and
    most accesses are code on one session that keeps its condition. *)
From stdpp Require Import relations.
From S2P Require Import Prelude Text GtpHeader Pcap Monitor Untunnel.
From S2P Require Import Sys Wp Locks Discipline Tcp Session Handler Evolve Merger Critical.

(** Every session of the table is [ok], every listed connection [listed]. *)
Record shared `{Env} (ok : nat -> session -> Prop) (listed : nat -> nat -> Prop) (w : world) : Prop := {
  sh_length : length (session_list w) = 128%nat;
  sh_conns : length (clientconnlist w) = 128%nat;
  sh_session p s : session_list w !! p = Some s -> ok p s;
  sh_listed j c : clientconnlist w !! j = Some (Some c) -> listed j c;
  sh_output : output_ok w }.

(** The thread 0 is the supervisor; mutexes are taken in the order of
    [pcapsession_merger_packet_handler]. *)
Definition table_rules `{Env} {V T} ok listed (view : call -> option V) (emits : T -> V)
    (guards : call -> gset mutex) : discipline V T := {|
  d_inv := shared ok listed;
  d_view := view;
  d_emits := emits;
  d_guards := guards;
  d_rank mu := match mu with MergeMutex => 0 | PcapMutex _ => 1 | StateMutex => 2 end%nat;
  d_supervises t := t =? 0 |}.

Section rules.
Context `{Henv : Env, !Clock} {V T : Type}.
Context (ok : nat -> session -> Prop) (listed : nat -> nat -> Prop).
Context (view : call -> option V) (emits : T -> V) (guards : call -> gset mutex).
Context (view_cancel : forall t, view (PthreadCancel t) = None) (view_join : forall t, view (PthreadJoin t) = None).
Local Abbreviation R := (table_rules ok listed view emits guards).
Local Abbreviation gwp := (gwp R).
Implicit Types (w : world) (s : session) (p : nat) (t : Z).

Lemma shared_same w w' : session_list w' = session_list w -> clientconnlist w' = clientconnlist w ->
  output_ok w' -> shared ok listed w -> shared ok listed w'.
Proof. intros Hs Hc Ho []. by split; rewrite ?Hs, ?Hc. Qed.

Lemma table_lawful : Lawful R.
Proof using All.
  split; [|done|done|].
  - intros w c Hw. cbn in *. apply (shared_same w); [done..| |done].
    apply (output_ok_later w); [by eexists|done|apply Hw].
  - exists 3%nat. intros []; cbn; lia.
Qed.

(** The session at [p] changed, and perhaps the list lost connections. *)
Lemma shared_change w w' p s' : shared ok listed w -> session_list w' = <[p := s']> (session_list w) ->
  ok p s' -> length (clientconnlist w') = length (clientconnlist w) ->
  (forall j c, clientconnlist w' !! j = Some (Some c) -> listed j c) -> output_ok w' -> shared ok listed w'.
Proof.
  intros [Hl Hc Hok Hli _] Hl' Hok' Hc' Hli' Ho. split; [by rewrite Hl', length_insert|congruence| |done|done].
  intros q s. rewrite Hl'. destruct (decide (p = q)) as [->|Hne].
  - intros Hs. apply list_lookup_insert_Some in Hs as [(_ & <- & _)|[? _]]; done.
  - rewrite list_lookup_insert_ne by done. apply Hok.
Qed.

Lemma here p w : (p < 128)%nat -> shared ok listed w -> exists s, session_list w !! p = Some s /\ ok p s.
Proof.
  intros Hp Hw. destruct (lookup_lt_is_Some_2 (session_list w) p) as [s Hs].
  - rewrite (sh_length _ _ _ Hw). lia.
  - exists s. split; [done|]. by apply (sh_session _ _ _ Hw).
Qed.

(** ** Accesses *)

(** A computation that makes no visible call and leaves the list of connections. *)
Definition calm {A} (x : M A) : Prop :=
  forall w, wlp x (fun _ w' => seen R w' = seen R w /\ clientconnlist w' = clientconnlist w) w.

Lemma calm_bind {A B} (x : M A) (k : A -> M B) : calm x -> (forall a, calm (k a)) -> calm (x ≫= k).
Proof.
  intros Hx Hk w. apply wlp_bind. eapply wlp_mono; [apply Hx|]. intros a w1 [H1 H2].
  eapply wlp_mono; [apply Hk|]. intros b w2 [-> ->]. done.
Qed.
Lemma calm_ret {A} (a : A) : calm (mret a).
Proof. by intros w ? ? [= _ <-]. Qed.
Lemma calm_field {A} p (f : session -> A) : calm (field p f).
Proof. intros w a w'. unfold field. destruct (_ !! p); [|done]. by intros [= _ <-]. Qed.
Lemma calm_update p f : calm (update p f).
Proof. intros w a w'. unfold update. destruct (_ !! p); [|done]. by intros [= _ <-]. Qed.
Lemma calm_ext c : view c = None -> calm (ext c).
Proof. intros Hc w a w' [= _ <-]. split; [|done]. rewrite seen_call. cbn. by rewrite Hc, app_nil_r. Qed.
Lemma calm_when b x : calm x -> calm (when b x).
Proof. destruct b; [done|]. intros _. apply calm_ret. Qed.
Lemma calm_fail {A} f : calm (fail f : M A).
Proof. by intros w a w'. Qed.
Lemma calm_if {A} (b : bool) (x y : M A) : calm x -> calm y -> calm (if b then x else y).
Proof. by destruct b. Qed.
Lemma calm_position i : calm (position i).
Proof. intros w a w'. unfold position. destruct (_ && _); [|done]. by intros [= _ <-]. Qed.
Lemma calm_modify f : (forall w, trace (f w) = trace w /\ clientconnlist (f w) = clientconnlist w) ->
  calm (modify f).
Proof. intros Hf w a w' [= _ <-]. unfold seen. by destruct (Hf w) as [-> ->]. Qed.
Lemma calm_gets {A} (f : world -> A) : calm (gets f).
Proof. by intros w a w' [= _ <-]. Qed.
Lemma calm_lift {A} (r : res A) : calm (lift r).
Proof. intros w a w'. unfold lift. destruct r; [|done]. by intros [= _ <-]. Qed.

(** Code on one session that keeps its condition, and the list of connections. *)
Lemma gwp_session {X} t p (x : M X) (Qx : X -> Prop) Q held todo : (p < 128)%nat ->
  (forall s, ok p s -> local visit_frame p x s (fun a s' => ok p s' /\ Qx a)) -> calm x ->
  (forall a, Qx a -> Q held todo a) -> gwp t (act x) Q held todo.
Proof.
  intros Hp Hx Hcalm HQ. apply gwp_act. intros w Hw. cbn in Hw. destruct (here p w Hp Hw) as (s & Hs & Hok).
  pose proof (Hx s Hok w Hs (sh_conns _ _ _ Hw)) as Hrun.
  apply wp_run in Hrun as (a & w' & Hr & s' & [Hl' _ Hc _ (_ & _ & _ & Hout)] & Hok' & Ha).
  destruct (Hcalm w a w' Hr) as [Hseen Hli].
  apply wp_run. exists a, w'. split; [done|]. split; [|auto].
  apply (shared_change w w' p s'); [done..| |apply Hout, Hw].
  intros j c. rewrite Hli. apply Hw.
Qed.

Lemma gwp_field {X} t p (f : session -> X) (P : X -> Prop) Q held todo : (p < 128)%nat ->
  (forall s, ok p s -> P (f s)) -> (forall x, P x -> Q held todo x) -> gwp t (act (field p f)) Q held todo.
Proof.
  intros Hp Hf HQ. apply (gwp_read R t p f P); [|done]. intros w Hw.
  destruct (here p w Hp Hw) as (s & Hs & Hok). exists s. auto.
Qed.

Lemma gwp_field_any {X} t p (f : session -> X) Q held todo : (p < 128)%nat ->
  (forall x, Q held todo x) -> gwp t (act (field p f)) Q held todo.
Proof. intros Hp HQ. by apply (gwp_field t p f (fun _ => True)). Qed.

Lemma gwp_field_is {X} t p (f : session -> X) x Q held todo : (p < 128)%nat ->
  (forall s, ok p s -> f s = x) -> Q held todo x -> gwp t (act (field p f)) Q held todo.
Proof. intros Hp Hf HQ. apply (gwp_field t p f (fun y => y = x)); [done|done|by intros ? ->]. Qed.
End rules.

Ltac calm :=
  repeat first
    [ done
    | apply calm_ext; done
    | apply calm_bind; [|intros] | apply calm_ret | apply calm_field | apply calm_update
    | apply calm_when | apply calm_fail | apply calm_if | apply calm_position
    | apply calm_modify; done | apply calm_gets | apply calm_lift
    | match goal with |- calm _ _ _ _ _ (match ?x with _ => _ end) => destruct x end ].

(** ** Pieces of code *)

Section pieces.
Context `{Henv : Env, !Clock} {V T : Type}.
Context (ok : nat -> session -> Prop) (listed : nat -> nat -> Prop).
Context (view : call -> option V) (emits : T -> V) (guards : call -> gset mutex).
Context (view_time : view Time = None).
Local Abbreviation R := (table_rules ok listed view emits guards).
Local Abbreviation gwp := (gwp R).

Definition keeps_monitors (p : nat) : Prop := forall s mo, ok p s -> monitor_ok (set_monitor (Some mo) s) ->
  ok p (set_monitor (Some mo) s).

Lemma monitor_ok_counted h s : monitor_ok s ->
  monitor_ok (set_monitor (monitor_increment (s_monitor s) 1 (len h)) s).
Proof.
  intros Hm mo. cbn. destruct (s_monitor s) as [mo0|] eqn:Hmo; [|done]. intros [= <-]. exact (Hm mo0 Hmo).
Qed.

(** Counting a packet. *)
Lemma gwp_count t p h Q held todo : (p < 128)%nat -> keeps_monitors p ->
  (forall s, ok p s -> monitor_ok s) -> Q held todo tt -> gwp t (act (count_packet p h)) Q held todo.
Proof.
  intros Hp Hk Hm HQ. apply (gwp_session _ _ _ _ _ t p _ (fun _ => True)); [done| | |by intros []].
  - intros s Hok. apply local_count_packet; [apply _|]. split; [|done].
    pose proof (monitor_ok_counted h s (Hm s Hok)) as Hmo.
    destruct (s_monitor s) as [mo|] eqn:Hs; [by apply Hk|].
    cbn. replace (set_monitor None s) with s; [done|]. destruct s. cbn in *. by rewrite Hs.
  - unfold count_packet. calm.
Qed.

(** The report of a monitor. *)
Lemma gwp_output t p Q held todo : (p < 128)%nat -> keeps_monitors p ->
  (forall s, ok p s -> monitor_ok s) -> Q held todo tt -> gwp t (act (output_monitor p)) Q held todo.
Proof.
  intros Hp Hk Hm HQ. apply gwp_act. intros w Hw. destruct (here ok listed p w Hp Hw) as (s & Hs & Hok).
  assert (Hcalm : calm ok listed view emits guards (output_monitor p)) by (unfold output_monitor; calm).
  pose proof (output_monitor_wp p s w Hs (sh_output _ _ _ Hw) (Hm s Hok)) as Hrun.
  apply wp_run in Hrun as ([] & w' & Hr & s' & [Hl _ Hc _ (_ & _ & _ & Hout)] & Hs').
  destruct (Hcalm w tt w' Hr) as [Hseen Hli]. apply wp_run. exists tt, w'. split; [done|]. split; [|done].
  apply (shared_change ok listed w w' p s'); [done..| |done| |apply Hout, Hw].
  - destruct Hs' as [->|(mo & -> & Hmo')]; [done|]. apply Hk; [done|]. intros v Hv. cbn in Hv. by injection Hv as <-.
  - intros j c. rewrite Hli. apply Hw.
Qed.

(** The flush of a session whose dumper is [x]. *)
Lemma gwp_flush t p x Q todo : (p < 128)%nat ->
  (forall s, ok p s -> s_pcap_dumper s = x /\ (x <> 0 -> is_Some (s_monitor s))) ->
  (x <> 0 -> guards (PcapDumpFlush x) = {[PcapMutex p]}) -> view (PcapDumpFlush x) = None ->
  Q ∅ todo tt -> gwp t (flush_idle_code p) Q ∅ todo.
Proof.
  intros Hp Hok Hg Hv HQ. unfold flush_idle_code.
  apply gwp_bind, gwp_field_any; [done|]. intros [mo|]; [|done].
  apply gwp_bind, (gwp_field_is _ _ _ _ _ _ p _ x); [done|by intros s [? _]%Hok|].
  destruct (Z.eqb_spec x 0) as [|Hx]; [done|]. apply gwp_bind.
  apply (gwp_session _ _ _ _ _ t p _ (fun _ => True)); [done|..].
  - intros s Hs. destruct (proj2 (Hok s Hs) Hx) as [v Hmo]. unfold monitor_bytes. local_step. local_step.
    rewrite Hmo. by local_step.
  - unfold monitor_bytes. calm.
  - intros b _. destruct (b =? 0); [|done]. apply gwp_bind, gwp_lock; [set_solver|].
    apply gwp_bind, (gwp_field_is _ _ _ _ _ _ p _ x); [done|by intros s [? _]%Hok|].
    rewrite (proj2 (Z.eqb_neq _ _) Hx).
    apply gwp_bind, (gwp_mono R t _ (fun held l _ => held = {[PcapMutex p]} ∪ ∅ /\ l = todo)).
    + cbn. rewrite Hg, Hv by done. split; [set_solver|]. split; [set_solver|done].
    + intros held l [] [-> ->]. apply (gwp_unlock R t _ _ _ ∅); [done|set_solver|done].
Qed.

(** A visit of the session. *)
Lemma gwp_visit t p x Q todo : (p < 128)%nat -> keeps_monitors p ->
  (forall s, ok p s -> monitor_ok s /\ s_pcap_dumper s = x /\ (x <> 0 -> is_Some (s_monitor s))) ->
  (x <> 0 -> guards (PcapDumpFlush x) = {[PcapMutex p]}) -> view (PcapDumpFlush x) = None ->
  Q ∅ todo tt -> gwp t (supervise_output_code p) Q ∅ todo.
Proof.
  intros Hp Hk Hok Hg Hv HQ. unfold supervise_output_code. apply gwp_bind, gwp_field_any; [done|].
  intros st. destruct (negb _); [done|]. apply gwp_bind, (gwp_flush t p x); [done|by intros s [_ ?]%Hok|done..|].
  apply gwp_output; [done|done|by intros s [? _]%Hok|done].
Qed.
End pieces.
