(* ===== verification/Merging.v ===== *)
(** * The threads of the merger

    The clients' threads and the supervisor of a running merger, interleaved at
    every access, call and mutex operation ([Critical]).  The discipline: the
    merger's dumper is written under [merge_mutex] and the merger's [pcap_mutex],
    in this order, and flushed under the latter; the sessions keep what the
    handlers rely on ([session_holds]). *)
From stdpp Require Import relations.
From S2P Require Import Prelude Text GtpHeader Pcap Monitor Untunnel.
From S2P Require Import Sys Wp Locks Discipline Tcp Session Handler Evolve Merger Client Supervision.
From S2P Require Import System Critical Sharing.

(** A packet that a client receives, and what is dumped for it. *)
Definition token : Type := (nat * packet) * packet.

(** What the threads rely on: the merger in slot [m] has its dumper and monitor,
    its clients their place and no dumper. *)
Definition merger_holds (dumper untunnel : Z) (s : session) : Prop :=
  s_pcap_dumper s = dumper /\ s_untunnel s = untunnel /\ monitor_ok s /\ is_Some (s_monitor s).

Definition client_holds (m p : nat) (s : session) : Prop :=
  s_id s = Z.of_nat p /\ s_handler s = Some m /\ s_pcap_dumper s = 0 /\
  s_stopper s = Some KClient /\ monitor_ok s.

Definition session_holds (m : nat) (dumper untunnel : Z) (clients : list nat) (p : nat) (s : session) : Prop :=
  (p = m -> merger_holds dumper untunnel s) /\ (p ∈ clients -> client_holds m p s).

(** A merger and its clients, whatever their states. *)
Record sharing `{Env} (m : nat) (dumper untunnel : Z) (clients : list nat) (w : world) : Prop := {
  sh_slot : (m < 128)%nat;
  sh_clients p : p ∈ clients -> (p < 128)%nat /\ p <> m;
  sh_table : shared (session_holds m dumper untunnel clients) (fun _ _ => True) w }.

Section handlers.
Context `{Henv : Env, !Clock}.
Context (m : nat) (dumper untunnel : Z) (clients : list nat).
Context (Hdumper : dumper <> 0) (Hm : (m < 128)%nat).
Context (Hrange : forall p, p ∈ clients -> (p < 128)%nat /\ p <> m).
Implicit Types (w : world) (s : session) (p : nat) (t : Z).

Definition merging_guards (c : call) : gset mutex :=
  match c with
  | PcapDump x _ _ => if x =? dumper then {[MergeMutex; PcapMutex m]} else ∅
  | PcapDumpFlush x => if x =? dumper then {[PcapMutex m]} else ∅
  | _ => ∅
  end.

Definition merging_rules : discipline (Z * pcap_pkthdr * list Z) token :=
  table_rules (session_holds m dumper untunnel clients) (fun _ _ => True) (fun c => dump_of (c, 0))
    (fun x => (dumper, x.2.1, captured x.2)) merging_guards.

Local Abbreviation R := merging_rules.
Local Abbreviation gwp := (gwp merging_rules).
Local Abbreviation holds := (session_holds m dumper untunnel clients).

#[export] Instance merging_lawful : Lawful merging_rules.
Proof. by apply table_lawful. Qed.

Lemma seen_dumps w : seen merging_rules w = dumps (trace w).
Proof. done. Qed.

Lemma client_here p s : p ∈ clients -> holds p s -> client_holds m p s.
Proof. intros Hp [_ Hc]. by apply Hc. Qed.

Lemma merger_here s : holds m s -> merger_holds dumper untunnel s.
Proof. intros [Hs _]. by apply Hs. Qed.

(** A client's session may change in everything else. *)
Lemma client_keeps p s : p ∈ clients -> client_holds m p s -> holds p s.
Proof. intros Hp Hc. split; [|done]. intros ->. by apply Hrange in Hp as [_ ?]. Qed.

Lemma holds_monitor p : keeps_monitors holds p.
Proof.
  intros s mo [Hs Hc] Hmo. split.
  - intros Hp. destruct (Hs Hp) as (? & ? & _ & _). split; [done|]. split; [done|]. split; [done|by eexists].
  - intros Hp. by destruct (Hc Hp) as (? & ? & ? & ? & _).
Qed.

Definition member p : Prop := p = m \/ p ∈ clients.

Lemma member_range p : member p -> (p < 128)%nat.
Proof. intros [->|Hp]; [done|by apply Hrange]. Qed.

Lemma member_monitor p s : member p -> holds p s -> monitor_ok s.
Proof. intros Hp [Hs Hc]. destruct Hp as [Hp|Hp]; [by apply Hs in Hp as (_ & _ & ? & _)|by apply Hc in Hp as (_ & _ & _ & _ & ?)]. Qed.

(** ** Packets *)

Lemma gwp_read_client {X} t p (f : session -> X) x Q held todo : p ∈ clients ->
  (forall s, client_holds m p s -> f s = x) -> Q held todo x -> gwp t (act (field p f)) Q held todo.
Proof.
  intros Hp Hf HQ. apply (gwp_field_is _ _ _ _ _ _ p _ x); [by apply Hrange| |done].
  intros s Hs. by apply Hf, client_here.
Qed.

Lemma gwp_read_merger {X} t (f : session -> X) x Q held todo :
  (forall s, merger_holds dumper untunnel s -> f s = x) -> Q held todo x -> gwp t (act (field m f)) Q held todo.
Proof.
  intros Hf HQ. apply (gwp_field_is _ _ _ _ _ _ m _ x); [done| |done]. intros s Hs. by apply Hf, merger_here.
Qed.

Lemma gwp_counted t p h Q held todo : member p -> Q held todo tt -> gwp t (act (count_packet p h)) Q held todo.
Proof.
  intros Hp HQ. apply gwp_count; [by apply member_range|apply holds_monitor| |done].
  intros s. by apply member_monitor.
Qed.

Lemma local_lift {A} p (r : res A) a s Q : r = Ok a -> Q a s -> local visit_frame p (lift r) s Q.
Proof.
  intros Hr HQ w Hs _. eapply wp_lift; [done|]. exists s. split; [by apply only_session_refl; [apply _|]|done].
Qed.

Lemma gwp_untunnel t h d o Q held todo : untunnel = PCAP_SESSION_UNTUNNEL_ON ->
  merged_as untunnel h d = Ok o -> Q held todo o -> gwp t (act (untunnel_on m h d)) Q held todo.
Proof.
  intros Hu Ho HQ. apply (gwp_session _ _ _ _ _ t m _ (fun a => a = o)); [done|..|by intros ? ->].
  - intros s Hs. unfold merged_as in Ho. rewrite Hu in Ho. cbn in Ho.
    apply res_bind_Ok in Ho as ([[mon0 h1] d1] & Hun & Heq). injection Heq as <-.
    destruct (untunnel_monitor (s_monitor s) h d h1 d1 mon0 Hun) as (mon' & Hmon & _).
    unfold untunnel_on. local_step. local_step. local_step. apply (local_lift _ _ _ _ _ Hmon).
    local_step. local_step. local_step. split; [|done]. apply untunnel_keeps_output_time in Hmon.
    destruct (merger_here s Hs) as (_ & _ & Hmo & v & Hv). rewrite Hv in Hmon. destruct mon' as [v'|]; [|done].
    apply holds_monitor; [done|]. intros v2 Hv2. cbn in Hv2. injection Hv2 as <-. injection Hmon as ->. exact (Hmo v Hv).
  - unfold untunnel_on. calm.
Qed.

Lemma gwp_dump t x h d rest Q held : x.2 = (h, d) -> {[MergeMutex; PcapMutex m]} ⊆ held ->
  Q held rest tt -> gwp t (pcap_dump_code dumper h d) Q held (x :: rest).
Proof.
  intros Hx Hh HQ. unfold pcap_dump_code. rewrite (proj2 (Z.eqb_neq _ _) Hdumper).
  cbn. rewrite Z.eqb_refl. split; [done|]. split; [set_solver|].
  exists x, rest. split; [done|]. by rewrite Hx.
Qed.

(** A handler spends the token of its packet. *)
Lemma gwp_merger_handler t p h d o rest Q : p ∈ clients -> merged_as untunnel h d = Ok o ->
  Q ∅ rest tt -> gwp t (merger_handler_code p h d) Q ∅ (((p, (h, d)), o) :: rest).
Proof.
  intros Hp Ho HQ. unfold merger_handler_code. apply gwp_bind, (gwp_read_client t p _ (Some m)); [done|by intros s (_ & ? & _)|].
  apply gwp_bind, gwp_lock; [set_solver|]. apply gwp_bind, (gwp_read_merger t _ untunnel); [by intros s (_ & ? & _)|].
  apply gwp_bind, (gwp_mono R t _ (fun held todo a => a = o /\ held = {[MergeMutex]} ∪ ∅ /\ todo = ((p, (h, d)), o) :: rest)).
  - destruct (Z.eqb_spec untunnel PCAP_SESSION_UNTUNNEL_ON) as [Hu|Hu]; [by apply (gwp_untunnel _ _ _ o)|].
    unfold merged_as in Ho. rewrite (proj2 (Z.eqb_neq _ _) Hu) in Ho. by injection Ho as <-.
  - intros held todo [h' d'] (<- & -> & ->). apply gwp_bind, gwp_lock; [set_solver by (cbn; lia)|].
    apply gwp_bind, (gwp_read_merger t _ dumper); [by intros s (? & _)|].
    apply gwp_bind, gwp_dump; [done|set_solver|].
    apply gwp_bind, (gwp_unlock R t _ _ _ ({[MergeMutex]} ∪ ∅)); [done|set_solver|].
    apply gwp_bind, gwp_counted; [by right|]. apply gwp_bind, gwp_counted; [by left|].
    apply (gwp_unlock R t _ _ _ ∅); [done|set_solver|done].
Qed.

(** The packet that is dumped for one that can be merged. *)
Definition mergeable (x : packet) : Prop := exists o, merged_as untunnel x.1 x.2 = Ok o.
Definition merge (x : packet) : packet :=
  match merged_as untunnel x.1 x.2 with Ok o => o | Fault _ => x end.
Definition tokens_of p (l : list packet) : list token := (fun x => ((p, x), merge x)) <$> l.

Lemma merge_merged x : mergeable x -> merged_as untunnel x.1 x.2 = Ok (merge x).
Proof. intros [o Ho]. unfold merge. by rewrite Ho. Qed.

(** The loop of a client on its packets. *)
Lemma gwp_client_loop t p l : p ∈ clients -> Forall mergeable l ->
  gwp t (pcap_loop_code (merger_handler_code p) l) finished ∅ (tokens_of p l).
Proof.
  intros Hp. induction 1 as [|[h d] l Ho _ IH]; [done|]. cbn [pcap_loop_code].
  split; [done|]. apply gwp_bind. apply gwp_merger_handler; [done| |done]. by apply merge_merged in Ho.
Qed.

(** ** The supervisor *)

Lemma gwp_visit_member t i Q todo : member i -> Q ∅ todo tt -> gwp t (supervise_output_code i) Q ∅ todo.
Proof.
  intros Hi HQ. apply (gwp_visit holds (fun _ _ => True) (fun c => dump_of (c, 0)) _ merging_guards eq_refl t i (if decide (i = m) then dumper else 0));
    [by apply member_range|apply holds_monitor|..|done|done].
  - intros s Hs. split; [by eapply member_monitor|]. destruct (decide (i = m)) as [->|Hne].
    + by destruct (merger_here s Hs) as (? & _ & _ & ?).
    + destruct Hi as [|Hi]; [done|]. by destruct (client_here i s Hi Hs) as (_ & _ & ? & _).
  - intros Hx. destruct (decide (i = m)) as [->|]; [|done]. cbn. by rewrite Z.eqb_refl.
Qed.

(** A step of the stop of a client. *)
Lemma gwp_stop_step {X} t p (x : M X) (Qx : X -> Prop) Q held todo : p ∈ clients ->
  (forall s, client_holds m p s -> local visit_frame p x s (fun a s' => client_holds m p s' /\ Qx a)) ->
  calm holds (fun _ _ => True) (fun c => dump_of (c, 0)) (fun x : token => (dumper, x.2.1, captured x.2)) merging_guards x ->
  (forall a, Qx a -> Q held todo a) -> gwp t (act x) Q held todo.
Proof.
  intros Hp Hx Hd HQ. apply (gwp_session _ _ _ _ _ t p _ Qx); [by apply Hrange| |done|done].
  intros s Hs. eapply local_mono; [by apply Hx, client_here|]. intros a s' [Hs' Ha].
  split; [by apply client_keeps|done].
Qed.

Lemma gwp_change_state t p new Q todo : p ∈ clients -> Q ∅ todo tt ->
  gwp t (change_state_code (Z.of_nat p) new) Q ∅ todo.
Proof.
  intros Hp HQ. unfold change_state_code. apply gwp_bind, gwp_lock; [set_solver|].
  apply gwp_bind, (gwp_stop_step t p _ (fun _ => True)); [done| | |].
  - intros s Hs. by local_step.
  - unfold pcapsession_change_state. calm.
  - intros [] _. apply (gwp_unlock R t _ _ _ ∅); [done|set_solver|done].
Qed.

Lemma gwp_change_own t p new Q todo : p ∈ clients -> Q ∅ todo tt ->
  gwp t (change_own_code p new) Q ∅ todo.
Proof.
  intros Hp HQ. unfold change_own_code.
  apply gwp_bind, (gwp_read_client t p _ (Z.of_nat p)); [done|by intros s (? & _)|]. by apply gwp_change_state.
Qed.

Lemma gwp_client_stop t p Q todo : p ∈ clients -> Q ∅ todo tt -> gwp t (client_stop_code p) Q ∅ todo.
Proof.
  intros Hp HQ. unfold client_stop_code.
  apply gwp_bind, (gwp_stop_step t p _ (fun _ => True)); [done|intros s Hs; by handler_step| |].
  { unfold break_own_loop, close_own_handle, pointer. calm. }
  intros [] _. apply gwp_bind, (gwp_stop_step t p _ (fun _ => True)); [done|intros s Hs; by handler_step| |].
  { unfold close_own_fd, iotests_fd_open. calm. }
  intros [] _. apply gwp_bind, (gwp_stop_step t p _ (fun _ => True)); [done| | |].
  { intros s (? & ? & ? & ? & _). handler_step. by repeat split. }
  { unfold close_own_monitor. calm. }
  intros [] _. apply gwp_bind, gwp_field_any; [by apply Hrange|]. intros st. by apply gwp_change_own.
Qed.

Lemma gwp_stop p Q todo : p ∈ clients -> Q ∅ todo tt -> gwp 0 (pcapsession_stop_code (Z.of_nat p)) Q ∅ todo.
Proof.
  intros Hp HQ. unfold pcapsession_stop_code. destruct (Hrange p Hp) as [Hlt _].
  apply gwp_bind, (gwp_stop_step 0 p _ (fun q => q = p)); [done|intros s Hs; by local_step|calm|].
  intros ? ->. apply gwp_bind, gwp_field_any; [done|]. intros u.
  apply gwp_bind, (gwp_mono R 0 _ (fun held l _ => held = ∅ /\ l = todo)).
  - destruct (Z.eqb_spec u 0) as [|Hu]; [done|]. cbn [negb pwhen].
    apply gwp_bind. split; [by apply Z.eqb_neq|]. apply gwp_bind. split; [done|]. split; [done|].
    split; [by apply Z.eqb_neq|]. apply gwp_bind, gwp_act.
    + intros w Hw. apply wp_modify. split; [|split; [done|]].
      * apply (shared_same _ _ w); [done..|apply Hw|done].
      * apply (gwp_stop_step 0 p _ (fun _ => True)); [done|intros s Hs; by local_step|calm|done].
  - intros held l [] [-> ->]. apply gwp_bind, (gwp_read_client 0 p _ (Some KClient)); [done|by intros s (_ & _ & _ & ? & _)|].
    apply gwp_bind, gwp_client_stop; [done|]. apply gwp_bind, gwp_field_any; [done|]. intros st.
    destruct (st =? _); [|done]. by apply gwp_change_state.
Qed.

Definition duty_ok (x : duty) : Prop := match x with Visit i => member i | Stop i => i ∈ clients end.

Lemma gwp_supervisor l : Forall duty_ok l -> gwp 0 (supervisor_code l) finished ∅ [].
Proof.
  induction 1 as [|x l Hx _ IH]; [done|]. cbn [supervisor_code]. apply gwp_bind.
  destruct x; [by apply gwp_visit_member|by apply gwp_stop].
Qed.

(** ** All threads *)

(** The supervisor with its duties, and the threads of clients with the packets
    they will receive. *)
Definition start (w : world) (duties : list duty) (streams : gmap Z (nat * list packet)) : config :=
  Config w ∅ (<[0 := supervisor_code duties]>
    ((fun x => pcap_loop_code (merger_handler_code x.1) x.2) <$> streams)) ∅.

Record stream_ok (streams : gmap Z (nat * list packet)) : Prop := {
  st_supervisor : streams !! 0 = None;
  st_client t p l : streams !! t = Some (p, l) -> p ∈ clients /\ Forall mergeable l }.

Definition stream_tokens (streams : gmap Z (nat * list packet)) (t : Z) : list token :=
  match streams !! t with Some (p, l) => tokens_of p l | None => [] end.

Lemma start_sound w duties streams : sharing m dumper untunnel clients w -> Forall duty_ok duties -> stream_ok streams ->
  sound R (dumps (trace w)) (stream_tokens streams) (fun _ => ∅) (stream_tokens streams) []
    (start w duties streams).
Proof.
  intros Hw Hd [H0 Hs]. split; cbn; try done.
  - apply Hw.
  - intros t c Ht. destruct (decide (t = 0)) as [->|Hne].
    + rewrite lookup_insert_eq in Ht. injection Ht as <-. unfold stream_tokens. rewrite H0. by apply gwp_supervisor.
    + rewrite lookup_insert_ne, lookup_fmap in Ht by done. unfold stream_tokens.
      destruct (streams !! t) as [[p l]|] eqn:Hst; [|done]. injection Ht as <-.
      destruct (Hs t p l Hst). by apply gwp_client_loop.
  - by rewrite app_nil_r.
  - intros t Ht. apply Z.eqb_eq in Ht as ->. rewrite lookup_insert_eq. by eexists.
Qed.

Lemma start_orderly w duties streams : orderly (start w duties streams).
Proof. by intros mu t. Qed.
End handlers.
