(* ===== verification/Contention.v ===== *)
(** * What the mutexes of the merger achieve

    Theorems about all interleavings of the clients' threads and the supervisor
    of a running merger ([Merging]): the handlers take effect one at a time, the
    dumper is used by one thread at a time, all threads come to their ends, and
    what happens when a client is cancelled while it writes. *)
From stdpp Require Import relations.
From S2P Require Import Prelude Text GtpHeader Pcap Monitor Untunnel.
From S2P Require Import Sys Wp Locks Discipline Tcp Session Handler Evolve Merger Client Supervision.
From S2P Require Import System Critical Sharing Merging.

(** The calls that use a dumper. *)
Definition uses (dumper : Z) (c : call) : Prop :=
  c = PcapDumpFlush dumper \/ exists h d, c = PcapDump dumper h d.

Lemma of_thread_fmap {A B} (f : A -> B) t (l : list (Z * A)) :
  of_thread t ((fun x => (x.1, f x.2)) <$> l) = f <$> of_thread t l.
Proof.
  unfold of_thread. induction l as [|[u a] l IH]; [done|]. cbn. destruct (decide (u = t)); cbn; by rewrite IH.
Qed.

Lemma of_thread_elem {A} t (a : A) l : (t, a) ∈ l -> a ∈ of_thread t l.
Proof.
  unfold of_thread. induction l as [|[u b] l IH]; [set_solver|]. cbn. intros [[= <- <-]|Hin]%elem_of_cons.
  - rewrite decide_True by done. set_solver.
  - destruct (decide (u = t)); set_solver.
Qed.

Lemma sharing_merging `{Env} m dumper untunnel clients w : sharing m dumper untunnel clients w ->
  exists sm, merging m dumper untunnel clients w sm.
Proof.
  intros [Hm Hcl Ht]. destruct (here _ _ m w Hm Ht) as (sm & Hsm & Hs & _).
  destruct (Hs eq_refl) as (? & ? & _). exists sm. split; [done..|]. intros p Hp.
  destruct (Hcl p Hp) as [Hp' Hne]. split; [done|]. destruct (here _ _ p w Hp' Ht) as (s & ? & _ & Hc).
  exists s. split; [done|]. by apply Hc.
Qed.

Section contention.
Context `{Henv : Env, !Clock} (cancellation_point : call -> bool).
Context (m : nat) (dumper untunnel : Z) (clients : list nat).
Context (w : world) (duties : list duty) (streams : gmap Z (nat * list packet)).
Context (Hdumper : dumper <> 0) (Hw : sharing m dumper untunnel clients w).
Context (Hduties : Forall (duty_ok m clients) duties) (Hstreams : stream_ok untunnel clients streams).
Local Abbreviation fstep := (fstep cancellation_point).
Local Abbreviation R := (merging_rules m dumper untunnel clients).

Lemma reached_sound cf : rtc fstep (start w duties streams) cf -> exists held todo order,
  sound R (dumps (trace w)) (stream_tokens untunnel streams) held todo order cf.
Proof.
  intros Hr. eapply (sound_steps R cancellation_point _ _ _ _ _ _ _ ltac:(apply start_sound; [done|apply Hw..|done|done|done]) Hr).
Qed.

(** The tokens of a thread, spent and to come, are those of its packets. *)
Lemma spent_packets held todo order cf t : sound R (dumps (trace w)) (stream_tokens untunnel streams) held todo order cf ->
  match streams !! t with
  | Some (p, l) => exists k, of_thread t ((fun x => (x.1, x.2.1)) <$> order) = pair p <$> take k l /\
      (cf_pool cf !! t = Some (Ret tt) -> (length l <= k)%nat)
  | None => of_thread t order = []
  end.
Proof.
  intros Hso. pose proof (so_order _ _ _ _ _ _ _ Hso t) as Ho. unfold stream_tokens in Ho.
  destruct (streams !! t) as [[p l]|]; [|by destruct (of_thread t order)].
  exists (length (of_thread t order)). rewrite of_thread_fmap.
  assert (Hlen : tokens_of untunnel p (take (length (of_thread t order)) l) = of_thread t order).
  { unfold tokens_of in *. rewrite fmap_take, Ho. by rewrite take_app_length. }
  split.
  - trans (fst <$> tokens_of untunnel p (take (length (of_thread t order)) l)); [by rewrite Hlen|].
    unfold tokens_of. by rewrite <- list_fmap_compose.
  - intros Hend. destruct (so_thread _ _ _ _ _ _ _ Hso t _ Hend) as [_ Htodo].
    rewrite Htodo, app_nil_r in Ho. rewrite <- Ho. unfold tokens_of. by rewrite length_fmap.
Qed.

Lemma spent_tokens held todo order cf t x : sound R (dumps (trace w)) (stream_tokens untunnel streams) held todo order cf ->
  (t, x) ∈ order -> x.1.1 ∈ clients /\ merged_as untunnel x.1.2.1 x.1.2.2 = Ok x.2.
Proof.
  intros Hso Hin. apply of_thread_elem in Hin. pose proof (so_order _ _ _ _ _ _ _ Hso t) as Ho.
  assert (Hx : x ∈ stream_tokens untunnel streams t) by (rewrite Ho; set_solver). unfold stream_tokens in Hx.
  destruct (streams !! t) as [[p l]|] eqn:Hst; [|set_solver].
  destruct (st_client _ _ _ Hstreams t p l Hst) as [Hp Hl]. apply list_elem_of_fmap in Hx as (y & -> & Hy).
  split; [done|]. apply merge_merged. by eapply Forall_forall in Hl.
Qed.

(** C8: the handlers of the clients take effect one at a time.  Let the threads
    of clients and the supervisor of a running merger interleave at every access,
    call and mutex operation, with any of the threads cancelled on the way.  At
    any time there is an order of the packets handled so far, in which each
    thread has handled a beginning of its packets in their order, and all of
    them when it has returned, such that handling these packets one after the
    other makes the same calls of [pcap_dump]. *)
Theorem merging_is_atomic (cf : config) : rtc fstep (start w duties streams) cf ->
  exists order : list (Z * (nat * packet)),
    (forall t p l, streams !! t = Some (p, l) -> exists k, of_thread t order = pair p <$> take k l /\
      (cf_pool cf !! t = Some (Ret tt) -> of_thread t order = pair p <$> l)) /\
    (forall t, streams !! t = None -> of_thread t order = []) /\
    wp (receive order.*2) (fun _ w' => dumps (trace w') = dumps (trace (cf_world cf))) w.
Proof.
  intros Hr. destruct (reached_sound cf Hr) as (held & todo & order & Hso).
  exists ((fun x => (x.1, x.2.1)) <$> order). split; [|split].
  - intros t p l Hst. pose proof (spent_packets _ _ _ _ t Hso) as Hp. rewrite Hst in Hp.
    destruct Hp as (k & Hk & Hend). exists k. split; [done|]. intros He. rewrite Hk.
    by rewrite take_ge by auto.
  - intros t Hst. pose proof (spent_packets _ _ _ _ t Hso) as Hp. rewrite Hst in Hp.
    rewrite (of_thread_fmap (A := token) fst). by rewrite Hp.
  - destruct (sharing_merging m dumper untunnel clients w Hw) as [sm Hmg].
    rewrite <- list_fmap_compose. eapply wp_mono.
    + apply (receive_wp m dumper untunnel clients _ ((fun x => x.2.2) <$> order) w sm); [done..|].
      apply Forall2_fmap, Forall_Forall2_diag, Forall_forall. intros [t x] Hin. by eapply spent_tokens.
    + intros u w' (_ & _ & _ & evs & Hc & Hev). rewrite Hc, dumps_app, Hev.
      pose proof (so_seen _ _ _ _ _ _ _ Hso) as Hseen. rewrite seen_dumps in Hseen.
      by rewrite Hseen, <- list_fmap_compose.
Qed.

Lemma uses_guarded c : uses dumper c -> PcapMutex m ∈ d_guards R c.
Proof. intros [->|(h & d & ->)]; cbn; rewrite Z.eqb_refl; set_solver. Qed.

(** C9: one thread uses the dumper at a time, and no thread faults.  At any time
    of these interleavings at most one thread is at a call of [pcap_dump] or
    [pcap_dump_flush] on the merger's dumper, and it holds the merger's
    [pcap_mutex]; every access a thread is at goes well; and a thread only
    releases mutexes it holds. *)
Theorem dumper_is_used_by_one (cf : config) : rtc fstep (start w duties streams) cf ->
  (forall t t' c c' k k', cf_pool cf !! t = Some (Call c k) -> cf_pool cf !! t' = Some (Call c' k') ->
     uses dumper c -> uses dumper c' -> t = t' /\ cf_locks cf !! PcapMutex m = Some t) /\
  (forall t X (x : M X) k, cf_pool cf !! t = Some (Act x k) -> exists a w', x (cf_world cf) = Ok (a, w')) /\
  (forall t mu k, cf_pool cf !! t = Some (Unlock mu k) -> cf_locks cf !! mu = Some t).
Proof.
  intros Hr. destruct (reached_sound cf Hr) as (held & todo & order & Hso). split; [|split].
  - intros t t' c c' k k' Ht Ht' Hc%uses_guarded Hc'%uses_guarded. split; [by eapply guarded_calls_exclude|].
    by eapply guard_held.
  - intros t X x k Ht. by eapply access_runs.
  - intros t mu k Ht. by eapply unlock_held.
Qed.

(** C10: nobody waits for ever.  When output to a stream is no cancellation
    point, every interleaving ends, whatever is cancelled on the way, and it ends
    with the supervisor through with its duties and every thread returned or
    cancelled: while a thread has not, some thread can go on. *)
Theorem merging_threads_end (cf : config) : (forall c, uses dumper c -> cancellation_point c = false) ->
  rtc fstep (start w duties streams) cf ->
  Acc (flip fstep) cf /\
  ((exists cf', fstep cf cf') \/ cf_pool cf !! 0 = Some (Ret tt) /\ over (cf_pool cf)) /\
  exists cf', rtc fstep cf cf' /\ over (cf_pool cf').
Proof.
  intros Hcp Hr. split; [apply fstep_terminates|].
  destruct (reached_sound cf Hr) as (held & todo & order & Hso).
  assert (Hg : forall c, d_guards R c <> ∅ -> cancellation_point c = false).
  { intros c Hc. apply Hcp. destruct c; cbn in Hc; try done;
      match type of Hc with context [?x =? _] => destruct (Z.eqb_spec x dumper) as [Heq|]; [|done]; rewrite Heq end.
    - right. by eexists _, _.
    - by left. }
  assert (Ho : orderly cf).
  { eapply (orderly_steps R); [exact Hg| |apply start_orderly|exact Hr]. apply start_sound; [done|apply Hw..|done|done|done]. }
  split; [|by eapply (runs_to_the_end R)].
  destruct (decide (map_Forall (fun _ c => is_ret c = true) (cf_pool cf))) as [Hall|Hn].
  - right. assert (Hov : over (cf_pool cf)) by (by apply over_is_ret).
    destruct (so_supervisor _ _ _ _ _ _ _ Hso 0 eq_refl) as [c Hc]. by rewrite Hc, (Hov 0 c Hc).
  - left. eapply (no_deadlock R); [done|done|]. intros Hov. apply Hn. intros t c Ht. by rewrite (Hov t c Ht).
Qed.

(** Without the holder of [merge_mutex] nothing is dumped. *)
Lemma nothing_dumped held todo order cf cf' t :
  sound R (dumps (trace w)) (stream_tokens untunnel streams) held todo order cf ->
  abandoned MergeMutex t cf -> fstep cf cf' -> dumps (trace (cf_world cf')) = dumps (trace (cf_world cf)).
Proof.
  intros Hso [Hl Hp] Hs.
  assert (Hother : forall w0 c r w1, dump_of (c, 0) = None -> ext c w0 = Ok (r, w1) -> dumps (trace w1) = dumps (trace w0)).
  { intros w0 c r w1 Hc [= <- <-]. rewrite <- !(seen_dumps m dumper untunnel clients). by apply (seen_other R). }
  destruct Hs as [w0 L P D u X x k a w1 Hu Hx|w0 L P D u c k r w1 Hu Hx| | | |w0 L P D u u' k r w1 Hu Hx
    |w0 L P D u u' k r w1 Hu He Hx|]; cbn in *; try done.
  - pose proof (so_thread _ _ _ _ _ _ _ Hso u _ Hu w0 (so_inv _ _ _ _ _ _ _ Hso)) as Hg.
    unfold wp in Hg. rewrite Hx in Hg. by destruct Hg as (_ & Hd & _).
  - destruct (dump_of (c, 0)) as [v|] eqn:Hc; [|by eapply Hother].
    destruct (so_thread _ _ _ _ _ _ _ Hso u _ Hu) as (Hg & _ & Hv). cbn in Hg, Hv. rewrite Hc in Hv.
    destruct Hv as (x & rest & _ & <- & _). destruct c; try discriminate. injection Hc as -> _ _.
    cbn in Hg. rewrite Z.eqb_refl in Hg. assert (Hin : MergeMutex ∈ held u) by set_solver.
    apply (so_lock _ _ _ _ _ _ _ Hso) in Hin. cbn in Hin. congruence.
  - by apply (Hother w0 (PthreadCancel u') r w1).
  - by apply (Hother w0 (PthreadJoin u') r w1).
Qed.

Lemma nothing_dumped_later cf cf' t : rtc fstep (start w duties streams) cf -> abandoned MergeMutex t cf ->
  rtc fstep cf cf' -> dumps (trace (cf_world cf')) = dumps (trace (cf_world cf)).
Proof.
  intros Hr Ha Hs. induction Hs as [|cf cf1 cf2 H1 _ IH]; [done|].
  destruct (reached_sound cf Hr) as (held & todo & order & Hso).
  rewrite IH; [by eapply nothing_dumped|by eapply rtc_r|by eapply abandoned_step].
Qed.

(** The supervisor is never cancelled: it waits for a thread that waits. *)
Lemma joins_later cf cf' t u k k' : rtc fstep (start w duties streams) cf -> abandoned MergeMutex t cf ->
  cf_pool cf !! u = Some (Lock MergeMutex k) -> cf_pool cf !! 0 = Some (Join u k') ->
  rtc fstep cf cf' -> cf_pool cf' !! 0 = Some (Join u k').
Proof.
  intros Hr Ha Hu H0 Hs. induction Hs as [|cf cf1 cf2 H1 _ IH]; [done|].
  destruct (reached_sound cf Hr) as (held & todo & order & Hso).
  apply IH; [by eapply rtc_r|by eapply abandoned_step|by eapply waits_step|].
  eapply joins_step; [exact Hu|done| |done]. intros Hin. by apply (so_cancelled _ _ _ _ _ _ _ Hso) in Hin.
Qed.

(** C11: a client that is cancelled while it writes stops the merger for good.
    When [pcap_dump] is a cancellation point, a client that was cancelled may end
    in it, and [merge_mutex] is then never released: no packet is dumped any
    more, threads that wait for the mutex wait for ever, and a supervisor that
    joins one of them never comes back. *)
Theorem cancelled_writer_stops_merging (cf : config) (t : Z) (h : pcap_pkthdr) (d : list Z) (k : Z -> prog unit) :
  rtc fstep (start w duties streams) cf -> cf_pool cf !! t = Some (Call (PcapDump dumper h d) k) ->
  t ∈ cf_cancelled cf -> cancellation_point (PcapDump dumper h d) = true ->
  exists cf1, fstep cf cf1 /\ forall cf2, rtc fstep cf1 cf2 ->
    dumps (trace (cf_world cf2)) = dumps (trace (cf_world cf)) /\
    forall u k2, cf_pool cf2 !! u = Some (Lock MergeMutex k2) -> forall cf3, rtc fstep cf2 cf3 ->
      cf_pool cf3 !! u = Some (Lock MergeMutex k2) /\
      forall k3, cf_pool cf2 !! 0 = Some (Join u k3) -> cf_pool cf3 !! 0 = Some (Join u k3).
Proof.
  intros Hr Ht HD Hcp. destruct (reached_sound cf Hr) as (held & todo & order & Hso).
  assert (Hl : cf_locks cf !! MergeMutex = Some t).
  { eapply (guard_held R); [exact Hso|exact Ht|]. cbn. rewrite Z.eqb_refl. set_solver. }
  set (cf1 := Config (cf_world cf) (cf_locks cf) (delete t (cf_pool cf)) (cf_cancelled cf)).
  assert (H1 : fstep cf cf1) by (destruct cf; by eapply fs_end).
  exists cf1. split; [done|].
  assert (Ha : abandoned MergeMutex t cf1) by (split; [done|apply lookup_delete_eq]).
  assert (Hr1 : rtc fstep (start w duties streams) cf1) by (by eapply rtc_r).
  intros cf2 H2. split; [by eapply (nothing_dumped_later cf1)|].
  assert (Ha2 : abandoned MergeMutex t cf2) by (by eapply abandoned_steps).
  intros u k2 Hu cf3 H3. split; [by eapply waits_steps|].
  intros k3 H0. eapply (joins_later cf2); [by etrans|done..].
Qed.
End contention.

(** ** A concrete merger *)

Definition still_os : Env := fun _ _ => (0, "").

#[export] Instance still_clock : @Clock still_os.
Proof. split; intros; cbn; lia. Qed.

(** A merger in slot 0 and two clients with a packet each, whose threads are 1
    and 2. *)
Definition merging_client (p : nat) : session :=
  set_thread (Z.of_nat p) (set_functions KClient KClient (sample_client p)).
Definition merging_world : world :=
  World ([sample_merger; merging_client 1; merging_client 2] ++ replicate 125 zero_session)
    PCAP_SESSION_RUNNING (replicate 128 None) true (fun _ => 0) ∅ 3 [].
Definition merging_streams : gmap Z (nat * list packet) :=
  {[1 := (1%nat, [sample_packet 1]); 2 := (2%nat, [sample_packet 2])]}.
Definition merging_duties : list duty := [Visit 0; Stop 1; Stop 2].

Lemma merging_world_sharing : @sharing still_os 0 77 0 [1%nat; 2%nat] merging_world.
Proof.
  assert (Hin : forall p, p ∈ [1%nat; 2%nat] -> p = 1%nat \/ p = 2%nat) by set_solver.
  split; [lia|intros p [->| ->]%Hin; lia|]. split; [reflexivity|reflexivity|..|split; cbn; lia].
  - intros p s Hs. split.
    + intros ->. injection Hs as <-. repeat split; [|by eexists]. intros mo [= <-]. cbn. lia.
    + intros [->| ->]%Hin; injection Hs as <-; (repeat split); by intros mo.
  - done.
Qed.

Lemma merging_duties_ok : Forall (duty_ok 0 [1%nat; 2%nat]) merging_duties.
Proof. unfold merging_duties, duty_ok, member. repeat (apply Forall_cons; split); [by left|set_solver..|done]. Qed.

Lemma merging_streams_ok : stream_ok 0 [1%nat; 2%nat] merging_streams.
Proof.
  split; [vm_compute; reflexivity|]. intros t p l. unfold merging_streams.
  rewrite lookup_insert_Some, lookup_singleton_Some. intros [[<- [= <- <-]]|[_ [<- [= <- <-]]]];
    (split; [set_solver|]); repeat constructor; by eexists.
Qed.

(** The client in slot 1 is in [pcap_dump]; the supervisor has cancelled it. *)
Definition at_dump : config :=
  let c := start (Henv := still_os) merging_world [Stop 1; Stop 2] merging_streams in
  default c (turns (H := still_os) (fun _ => true)
    [(1, false); (1, false); (1, false); (1, false); (1, false); (1, false);
     (0, false); (0, false); (0, false)] c).

Lemma at_dump_reached : rtc (fstep (H := still_os) (fun _ => true))
  (start (Henv := still_os) merging_world [Stop 1; Stop 2] merging_streams) at_dump.
Proof.
  unfold at_dump. destruct (turns _ _ _) as [c|] eqn:Hc; [by eapply turns_fsteps|apply rtc_refl].
Qed.

(** The call a thread is at. *)
Definition call_at (t : Z) (cf : config) : option call :=
  match cf_pool cf !! t with Some (Call c _) => Some c | _ => None end.

Lemma call_at_Some t cf c : call_at t cf = Some c -> exists k, cf_pool cf !! t = Some (Call c k).
Proof.
  unfold call_at. destruct (cf_pool cf !! t) as [[]|]; try done. intros [= ->]. by eexists.
Qed.

Lemma cancelled_writer_stops_merging_witness :
  1 ∈ cf_cancelled at_dump /\
  exists cf1, fstep (H := still_os) (fun _ => true) at_dump cf1 /\
    forall cf2, rtc (fstep (H := still_os) (fun _ => true)) cf1 cf2 ->
    dumps (trace (cf_world cf2)) = dumps (trace (cf_world at_dump)) /\
    forall u k2, cf_pool cf2 !! u = Some (Lock MergeMutex k2) ->
      forall cf3, rtc (fstep (H := still_os) (fun _ => true)) cf2 cf3 ->
      cf_pool cf3 !! u = Some (Lock MergeMutex k2) /\
      forall k3, cf_pool cf2 !! 0 = Some (Join u k3) -> cf_pool cf3 !! 0 = Some (Join u k3).
Proof.
  assert (Hc : 1 ∈ cf_cancelled at_dump).
  { apply (bool_decide_eq_true_1 (1 ∈ cf_cancelled at_dump)). vm_compute. reflexivity. }
  split; [exact Hc|].
  destruct (call_at_Some 1 at_dump (PcapDump 77 (sample_packet 1).1 (sample_packet 1).2)) as [k Hk];
    [vm_compute; reflexivity|].
  refine (@cancelled_writer_stops_merging still_os still_clock (fun _ => true) 0 77 0 [1%nat; 2%nat]
    merging_world [Stop 1; Stop 2] merging_streams _ _ _ _ at_dump 1
    (sample_packet 1).1 (sample_packet 1).2 k _ _ _ _).
  - discriminate.
  - exact merging_world_sharing.
  - repeat (apply Forall_cons; split); cbn; [set_solver..|done].
  - exact merging_streams_ok.
  - exact at_dump_reached.
  - exact Hk.
  - exact Hc.
  - reflexivity.
Defined.

Lemma merging_is_atomic_witness :
  exists order : list (Z * (nat * packet)),
    (forall t p l, merging_streams !! t = Some (p, l) -> exists k, of_thread t order = pair p <$> take k l /\
      (cf_pool at_dump !! t = Some (Ret tt) -> of_thread t order = pair p <$> l)) /\
    (forall t, merging_streams !! t = None -> of_thread t order = []) /\
    wp (receive (H := still_os) order.*2)
      (fun _ w' => dumps (trace w') = dumps (trace (cf_world at_dump))) merging_world.
Proof.
  refine (@merging_is_atomic still_os still_clock (fun _ => true) 0 77 0 [1%nat; 2%nat]
    merging_world [Stop 1; Stop 2] merging_streams _ _ _ _ at_dump at_dump_reached).
  - discriminate.
  - exact merging_world_sharing.
  - repeat (apply Forall_cons; split); cbn; [set_solver..|done].
  - exact merging_streams_ok.
Defined.

Lemma dumper_is_used_by_one_witness :
  (forall t t' c c' k k', cf_pool at_dump !! t = Some (Call c k) -> cf_pool at_dump !! t' = Some (Call c' k') ->
     uses 77 c -> uses 77 c' -> t = t' /\ cf_locks at_dump !! PcapMutex 0 = Some t) /\
  (forall t X (x : M X) k, cf_pool at_dump !! t = Some (Act x k) ->
     exists a w', x (cf_world at_dump) = Ok (a, w')) /\
  (forall t mu k, cf_pool at_dump !! t = Some (Unlock mu k) -> cf_locks at_dump !! mu = Some t).
Proof.
  refine (@dumper_is_used_by_one still_os still_clock (fun _ => true) 0 77 0 [1%nat; 2%nat]
    merging_world [Stop 1; Stop 2] merging_streams _ _ _ _ at_dump at_dump_reached).
  - discriminate.
  - exact merging_world_sharing.
  - repeat (apply Forall_cons; split); cbn; [set_solver..|done].
  - exact merging_streams_ok.
Defined.

(** The threads take turns until both packets are merged and both clients are
    stopped. *)
Definition merged : config :=
  Nat.iter 60 (round (H := still_os) (fun _ => false) [1; 2; 0])
    (start (Henv := still_os) merging_world merging_duties merging_streams).

Example merged_both : dumps (trace (cf_world merged)) =
  (fun x => (77, x.1, captured x)) <$> [sample_packet 1; sample_packet 2].
Proof. vm_compute. reflexivity. Qed.

Lemma merging_threads_end_witness :
  Acc (flip (fstep (H := still_os) (fun _ => false))) merged /\
  ((exists cf', fstep (H := still_os) (fun _ => false) merged cf') \/
   cf_pool merged !! 0 = Some (Ret tt) /\ over (cf_pool merged)) /\
  exists cf', rtc (fstep (H := still_os) (fun _ => false)) merged cf' /\ over (cf_pool cf').
Proof.
  refine (@merging_threads_end still_os still_clock (fun _ => false) 0 77 0 [1%nat; 2%nat]
    merging_world merging_duties merging_streams _ _ _ _ merged _ _).
  - discriminate.
  - exact merging_world_sharing.
  - exact merging_duties_ok.
  - exact merging_streams_ok.
  - reflexivity.
  - apply rounds_fsteps.
Defined.

(** In that run all threads have ended. *)
Example merged_over : map_Forall (fun _ c => is_ret c = true) (cf_pool merged).
Proof. apply (bool_decide_eq_true_1 (map_Forall _ _)). vm_compute. reflexivity. Qed.
