(* ===== verification/Distributing.v ===== *)
(** * The threads of the distributer

    Captures that distribute packets to the connections while the supervisor
    visits them, interleaved at every access, call and mutex operation
    ([Critical]).  The discipline: the dumper of a connection is written and
    flushed under the [pcap_mutex] of its session.  It does not cover the stop of a
    connection, which takes no mutex; what that leads to is shown last. *)
From stdpp Require Import relations.
From S2P Require Import Prelude Text GtpHeader Pcap Monitor Untunnel.
From S2P Require Import Sys Wp Locks Discipline Tcp Session Handler Evolve ClientConn Merger Supervision.
From S2P Require Import Critical Sharing Merging Contention.

Section distributing.
Context `{Henv : Env, !Clock}.

(** The dumper of each slot's session, 0 for none; [owner] finds the slot. *)
Context (dumper_of : nat -> Z) (owner : Z -> option nat).
Implicit Types (w : world) (s : session) (p i : nat) (t : Z).

Definition connection_holds p s : Prop :=
  s_pcap_dumper s = dumper_of p /\ monitor_ok s /\
  (dumper_of p <> 0 -> s_id s = Z.of_nat p /\ is_Some (s_monitor s)).

Definition live_slot i (c : nat) : Prop := c = i /\ dumper_of i <> 0.

Definition distributing_guards (c : call) : gset mutex :=
  match c with
  | PcapDump x _ _ | PcapDumpFlush x => match owner x with Some p => {[PcapMutex p]} | None => ∅ end
  | _ => ∅
  end.

Definition distributing_rules : discipline unit unit :=
  table_rules connection_holds live_slot (fun _ => None) id distributing_guards.

Local Abbreviation R := distributing_rules.
Local Abbreviation gwp := (gwp distributing_rules).

#[export] Instance distributing_lawful : Lawful distributing_rules.
Proof. by apply table_lawful. Qed.

Context (Howner : forall x p, owner x = Some p <-> dumper_of p = x /\ x <> 0).

Lemma owner_of p : dumper_of p <> 0 -> owner (dumper_of p) = Some p.
Proof. intros Hp. by apply Howner. Qed.

Lemma connection_monitor p : keeps_monitors connection_holds p.
Proof.
  intros s mo (Hd & _ & Hl) Hmo. split; [done|]. split; [done|]. intros Hp. destruct (Hl Hp) as [? _].
  split; [done|by eexists].
Qed.

Lemma gwp_counted_packet t p h Q held todo : (p < 128)%nat -> Q held todo tt ->
  gwp t (act (count_packet p h)) Q held todo.
Proof. intros Hp HQ. apply gwp_count; [done|apply connection_monitor|by intros s (_ & ? & _)|done]. Qed.

Lemma gwp_connection t i (Q : gset mutex -> list unit -> option nat -> Prop) held todo : (i < 128)%nat ->
  (forall oc, (forall c, oc = Some c -> live_slot i c) -> Q held todo oc) -> gwp t (act (connection i)) Q held todo.
Proof.
  intros Hi HQ. apply gwp_act. intros w Hw. unfold connection. wp_step. wp_step.
  destruct (lookup_lt_is_Some_2 (clientconnlist w) i) as [oc Hoc]; [by rewrite (sh_conns _ _ _ Hw)|].
  rewrite Hoc. wp_step. split; [done|]. split; [done|]. apply HQ. intros c ->. exact (sh_listed _ _ _ Hw i c Hoc).
Qed.

(** Taking a connection off the list. *)
Lemma gwp_unlist t i Q held todo : (i < 128)%nat -> Q held todo tt ->
  gwp t (act (set_conn (Z.of_nat i) None)) Q held todo.
Proof.
  intros Hi HQ. apply gwp_act. intros w Hw. apply wp_set_conn; [by rewrite (sh_conns _ _ _ Hw)|].
  split; [|done]. destruct Hw. split; cbn; try done; [by rewrite length_insert|].
  intros j c Hj. apply list_lookup_insert_Some in Hj as [(_ & ? & _)|[_ Hj]]; [done|eauto].
Qed.

Lemma gwp_client_handle t i h d Q todo : (i < 128)%nat -> dumper_of i <> 0 -> Q ∅ todo tt ->
  gwp t (client_handle_code i h d) Q ∅ todo.
Proof.
  intros Hi Hd HQ. unfold client_handle_code. apply gwp_bind, gwp_field_any; [done|]. intros st.
  destruct (negb _); [done|]. apply gwp_bind, gwp_field_any; [done|]. intros fd.
  apply gwp_bind, (gwp_session _ _ _ _ _ t i _ (fun _ => True)); [done| | |].
  - intros s Hs. unfold iotests_fd_open. local_step. local_step. by local_step.
  - unfold iotests_fd_open. calm.
  - intros [] _.
    + apply gwp_bind, gwp_lock; [set_solver|].
      apply gwp_bind, (gwp_field_is _ _ _ _ _ _ i _ (dumper_of i)); [done|by intros s (? & _)|].
      unfold pcap_dump_code. rewrite (proj2 (Z.eqb_neq _ _) Hd).
      apply gwp_bind, (gwp_mono R t _ (fun held l _ => held = {[PcapMutex i]} ∪ ∅ /\ l = todo)).
      * cbn. rewrite owner_of by done. split; [set_solver|]. split; [set_solver|done].
      * intros held l [] [-> ->]. apply gwp_bind, (gwp_unlock R t _ _ _ ∅); [done|set_solver|].
        by apply gwp_counted_packet.
    + apply gwp_bind, (gwp_field_is _ _ _ _ _ _ i _ (Z.of_nat i)); [done|by intros s (_ & _ & [? _]%(fun f => f Hd))|].
      by apply gwp_unlist.
Qed.

Lemma gwp_distribute t h d Q todo n : forall i, (i + n <= 128)%nat -> Q ∅ todo tt ->
  gwp t (distribute_code n i h d) Q ∅ todo.
Proof.
  induction n as [|n IH]; intros i Hi HQ; [done|]. cbn [distribute_code].
  assert (Hrest : gwp t (distribute_code n (S i) h d) Q ∅ todo) by (apply IH; [lia|done]).
  apply gwp_bind, gwp_connection; [lia|]. intros [c|] _; [|by apply gwp_bind].
  apply gwp_bind, gwp_bind, gwp_connection; [lia|]. intros [c'|] Hl; [|done].
  destruct (Hl c' eq_refl) as [-> Hd]. by apply gwp_client_handle; [lia|..].
Qed.

(** The loop of a capture. *)
Lemma gwp_capture t p l : (p < 128)%nat ->
  gwp t (pcap_loop_code (clientconn_handler_code p) l) finished ∅ [].
Proof.
  intros Hp. induction l as [|[h d] l IH]; [done|]. cbn [pcap_loop_code]. split; [done|]. apply gwp_bind.
  unfold clientconn_handler_code. apply gwp_bind, gwp_counted_packet; [done|].
  apply gwp_distribute; [by vm_compute|done].
Qed.

Lemma gwp_visits t l : Forall (fun i => (i < 128)%nat) l ->
  gwp t (supervisor_code (Visit <$> l)) finished ∅ [].
Proof.
  induction 1 as [|i l Hi _ IH]; [done|]. cbn [fmap list_fmap supervisor_code]. apply gwp_bind.
  apply (gwp_visit _ _ _ _ _ eq_refl t i (dumper_of i)); [done|apply connection_monitor|..|done|done].
  - intros s (Hd & Hm & Hl). split; [done|]. split; [done|]. intros Hx. by destruct (Hl Hx).
  - intros Hx. cbn. by rewrite owner_of.
Qed.

(** ** All threads *)

Definition distribution (w : world) (visits : list nat) (captures : gmap Z (nat * list packet)) : config :=
  Config w ∅ (<[0 := supervisor_code (Visit <$> visits)]>
    ((fun x => pcap_loop_code (clientconn_handler_code x.1) x.2) <$> captures)) ∅.

Lemma distribution_sound w visits captures : shared connection_holds live_slot w ->
  Forall (fun i => (i < 128)%nat) visits -> captures !! 0 = None ->
  (forall t p l, captures !! t = Some (p, l) -> (p < 128)%nat) ->
  sound R [] (fun _ => []) (fun _ => ∅) (fun _ => []) [] (distribution w visits captures).
Proof.
  intros Hw Hv H0 Hc. split; cbn; try done.
  - intros t c Ht. destruct (decide (t = 0)) as [->|Hne].
    + rewrite lookup_insert_eq in Ht. injection Ht as <-. by apply gwp_visits.
    + rewrite lookup_insert_ne, lookup_fmap in Ht by done.
      destruct (captures !! t) as [[p l]|] eqn:Hst; [|done]. injection Ht as <-. by eapply gwp_capture, Hc.
  - unfold seen. by induction (trace w).
  - intros t Ht. apply Z.eqb_eq in Ht as ->. rewrite lookup_insert_eq. by eexists.
Qed.

(** ** Properties *)

(** C12: captures distribute side by side.  Let captures hand packets to the
    connections, each on a dumper of its own, while the supervisor visits them,
    interleaved at every access, call and mutex operation.  At any time at most
    one thread is at a call on the dumper of a connection, and it holds that
    session's [pcap_mutex]; every access goes well; and when output to a stream
    is no cancellation point, every interleaving ends with all packets
    distributed and all visits made. *)
Theorem captures_share_connections (cancellation_point : call -> bool) (w : world) (visits : list nat)
    (captures : gmap Z (nat * list packet)) (cf : config) :
  shared connection_holds live_slot w -> Forall (fun i => (i < 128)%nat) visits ->
  captures !! 0 = None -> (forall t p l, captures !! t = Some (p, l) -> (p < 128)%nat) ->
  rtc (fstep cancellation_point) (distribution w visits captures) cf ->
  (forall p t t' c c' k k', dumper_of p <> 0 -> uses (dumper_of p) c -> uses (dumper_of p) c' ->
     cf_pool cf !! t = Some (Call c k) -> cf_pool cf !! t' = Some (Call c' k') ->
     t = t' /\ cf_locks cf !! PcapMutex p = Some t) /\
  (forall t X (x : M X) k, cf_pool cf !! t = Some (Act x k) -> exists a w', x (cf_world cf) = Ok (a, w')) /\
  ((forall p c, dumper_of p <> 0 -> uses (dumper_of p) c -> cancellation_point c = false) ->
   Acc (flip (fstep cancellation_point)) cf /\
   ((exists cf', fstep cancellation_point cf cf') \/ over (cf_pool cf))).
Proof.
  intros Hw Hv H0 Hc Hr. pose proof (distribution_sound w visits captures Hw Hv H0 Hc) as Hs0.
  destruct (sound_steps R cancellation_point _ _ _ _ _ _ _ Hs0 Hr) as (held & todo & order & Hso).
  assert (Hg : forall p c, dumper_of p <> 0 -> uses (dumper_of p) c -> PcapMutex p ∈ d_guards R c).
  { intros p c Hd [->|(h & d & ->)]; cbn; rewrite owner_of by done; set_solver. }
  split; [|split].
  - intros p t t' c c' k k' Hd Hu Hu' Ht Ht'. split; [eapply guarded_calls_exclude; eauto|]. eapply guard_held; eauto.
  - intros t X x k Ht. by eapply access_runs.
  - intros Hcp. split; [apply fstep_terminates|].
    assert (Hguards : forall c, d_guards R c <> ∅ -> cancellation_point c = false).
    { intros c Hne. destruct c; cbn in Hne; try done;
        match type of Hne with context [owner ?x] => destruct (owner x) as [p|] eqn:Hp; [|done] end;
        apply Howner in Hp as [Heq Hx]; apply (Hcp p); try congruence; rewrite Heq;
        first [by left | right; by eexists _, _]. }
    assert (Ho : orderly cf).
    { eapply (orderly_steps R); [exact Hguards|exact Hs0| |exact Hr]. by intros mu t. }
    destruct (decide (map_Forall (fun _ c => is_ret c = true) (cf_pool cf))) as [Hall|Hn].
    + right. by apply over_is_ret.
    + left. eapply (no_deadlock R); [done|done|]. intros Hov. apply Hn. intros t c Ht. by rewrite (Hov t c Ht).
Qed.
End distributing.

(** ** A concrete distributer *)

(** A capture in slot 0 and connections in the slots 1 and 2. *)
Definition capturing : session := set_state PCAP_SESSION_RUNNING (set_functions KLiveCapture KLiveCapture zero_session).
Definition connected (p : nat) (dumper : Z) : session :=
  set_id (Z.of_nat p) (set_state PCAP_SESSION_RUNNING (set_functions KClientConn KClientConn
    (set_monitor (Some (monitor_open 10 0 (Z.of_nat p) "peer").1) (set_pcap_dumper dumper zero_session)))).
Definition distributing_world : world :=
  World ([capturing; connected 1 50; connected 2 51] ++ replicate 125 zero_session)
    PCAP_SESSION_RUNNING ([None; Some 1%nat; Some 2%nat] ++ replicate 125 None) true (fun _ => 0) ∅ 3 [].

Definition sample_dumpers (p : nat) : Z := match p with 1%nat => 50 | 2%nat => 51 | _ => 0 end.
Definition sample_owner (x : Z) : option nat :=
  if x =? 50 then Some 1%nat else if x =? 51 then Some 2%nat else None.

Lemma distributing_world_shared :
  @shared still_os (connection_holds sample_dumpers) (live_slot sample_dumpers) distributing_world.
Proof.
  split; [reflexivity|reflexivity|..|split; cbn; lia].
  - intros p s Hs. destruct p as [|[|[|p]]]; [injection Hs as <-..|].
    + split; [done|]. split; [by intros mo|done].
    + split; [done|]. split; [intros mo [= <-]; cbn; lia|]. intros _. split; [done|by eexists].
    + split; [done|]. split; [intros mo [= <-]; cbn; lia|]. intros _. split; [done|by eexists].
    + change (replicate 125 zero_session !! p = Some s) in Hs. apply lookup_replicate in Hs as [-> _].
      split; [done|]. split; [by intros mo|done].
  - intros j c Hj. destruct j as [|[|[|j]]]; [done|by injection Hj as <-..|].
    change (replicate 125 (None : option nat) !! j = Some (Some c)) in Hj. by apply lookup_replicate in Hj as [? _].
Qed.

Lemma sample_owner_spec x p : sample_owner x = Some p <-> sample_dumpers p = x /\ x <> 0.
Proof.
  unfold sample_owner. destruct (Z.eqb_spec x 50) as [->|H1]; [|destruct (Z.eqb_spec x 51) as [->|H2]].
  - split; [by intros [= <-]|]. by destruct p as [|[|[|p]]]; cbn; intros [? _].
  - split; [by intros [= <-]|]. by destruct p as [|[|[|p]]]; cbn; intros [? _].
  - split; [done|]. destruct p as [|[|[|p]]]; cbn; intros [? ?]; congruence.
Qed.

Definition sample_captures : gmap Z (nat * list packet) :=
  {[1 := (0%nat, [sample_packet 1; sample_packet 2]); 2 := (0%nat, [sample_packet 3])]}.

(** Both captures and the supervisor take turns. *)
Definition distributed : config :=
  Nat.iter 40 (round (H := still_os) (fun _ => false) [1; 2; 0])
    (distribution (Henv := still_os) distributing_world [1%nat; 2%nat] sample_captures).

Lemma captures_share_connections_witness :
  (forall p t t' c c' k k', sample_dumpers p <> 0 -> uses (sample_dumpers p) c -> uses (sample_dumpers p) c' ->
     cf_pool distributed !! t = Some (Call c k) -> cf_pool distributed !! t' = Some (Call c' k') ->
     t = t' /\ cf_locks distributed !! PcapMutex p = Some t) /\
  (forall t X (x : M X) k, cf_pool distributed !! t = Some (Act x k) ->
     exists a w', x (cf_world distributed) = Ok (a, w')) /\
  ((forall p c, sample_dumpers p <> 0 -> uses (sample_dumpers p) c -> false = false) ->
   Acc (flip (fstep (H := still_os) (fun _ => false))) distributed /\
   ((exists cf', fstep (H := still_os) (fun _ => false) distributed cf') \/ over (cf_pool distributed))).
Proof.
  refine (@captures_share_connections still_os still_clock sample_dumpers sample_owner sample_owner_spec
    (fun _ => false) distributing_world [1%nat; 2%nat] sample_captures distributed _ _ _ _ _).
  - exact distributing_world_shared.
  - repeat constructor; lia.
  - vm_compute. reflexivity.
  - intros t p l. unfold sample_captures. rewrite lookup_insert_Some, lookup_singleton_Some.
    intros [[_ [= <- _]]|[_ [_ [= <- _]]]]; lia.
  - apply rounds_fsteps.
Defined.

(** ** A connection that is stopped under a packet

    [pcapsession_clientconn_stop] takes no mutex.  When the supervisor stops a
    connection after a capture has found it running and open, the capture writes
    through a null dumper. *)
Definition stopped_under_packet : config :=
  let c := Config distributing_world ∅
    (<[0 := supervisor_code (H := still_os) [Stop 1]]>
      {[1 := pcap_loop_code (clientconn_handler_code (H := still_os) 0) [sample_packet 1]]}) ∅ in
  default c (turns (H := still_os) (fun _ => false)
    (replicate 8 (1, false) ++ replicate 17 (0, false) ++ replicate 2 (1, false)) c).

(** The fault of the access a thread is at. *)
Definition fault_at (t : Z) (cf : config) : option fault :=
  match cf_pool cf !! t with
  | Some (Act x _) => match x (cf_world cf) with Ok _ => None | Fault f => Some f end
  | _ => None
  end.

Theorem stopped_connection_faults : fault_at 1 stopped_under_packet = Some NullPointer.
Proof. vm_compute. reflexivity. Qed.
