(* ===== verification/Connections.v ===== *)
(** * The list of connections in the running system

    [clientconnlist] is written by the threads of the connections, by the stop
    functions the supervisor calls and by the packet handlers of the captures,
    without a lock.  The invariant here says what it holds in every reachable
    state; with it the turns of threads and the arrival of packets fault for the
    causes of [can_run] and [can_handle] only. *)
From S2P Require Import Prelude Text GtpTables GtpHeader GenUtils GtpFields Pcap Monitor Untunnel.
From S2P Require Import Sys Wp Tcp Session Handler Evolve Threads.
From S2P Require Import ClientConn Server LiveCapture FileCapture Merger Client Supervision System Running.

(** A thread that handles a packet. *)
Definition handling (pt : point) : bool :=
  match pt with Locking _ _ _ _ _ | Merging _ _ _ _ => true | _ => false end.

Definition listed (w : world) (j : nat) : Prop := exists c, clientconnlist w !! j = Some (Some c).

(** ** Code that leaves the connections alone

    [undisturbed X w w']: nobody was put on the list, and outside the slots [X] the
    sessions in use stay in use and keep their dumper and their handle. *)
Record undisturbed (X : nat -> Prop) (w w' : world) : Prop := {
  qt_length : length (session_list w') = length (session_list w);
  qt_conns : length (clientconnlist w') = length (clientconnlist w);
  qt_slot j c : clientconnlist w' !! j = Some (Some c) -> clientconnlist w !! j = Some (Some c);
  qt_session j s : ~ X j -> session_list w !! j = Some s -> s_state s <> PCAP_SESSION_UNUSED ->
    exists s', session_list w' !! j = Some s' /\ s_state s' <> PCAP_SESSION_UNUSED /\
      s_pcap_dumper s' = s_pcap_dumper s /\ s_pcap_handle s' = s_pcap_handle s }.

Lemma undisturbed_same X w w' : session_list w' = session_list w -> clientconnlist w' = clientconnlist w ->
  undisturbed X w w'.
Proof. intros Hs Hc. split; rewrite ?Hs, ?Hc; [done..|]. intros j s _ Hj Hu. by exists s. Qed.

Lemma undisturbed_trans X w1 w2 w3 : undisturbed X w1 w2 -> undisturbed X w2 w3 -> undisturbed X w1 w3.
Proof.
  intros Q1 Q2. split.
  - by rewrite (qt_length _ _ _ Q2), (qt_length _ _ _ Q1).
  - by rewrite (qt_conns _ _ _ Q2), (qt_conns _ _ _ Q1).
  - intros j c Hc. by apply (qt_slot _ _ _ Q1), (qt_slot _ _ _ Q2).
  - intros j s Hj Hs Hu. destruct (qt_session _ _ _ Q1 j s Hj Hs Hu) as (s1 & Hs1 & Hu1 & <- & <-).
    by apply (qt_session _ _ _ Q2).
Qed.

(** A change of one session, and of the list at one slot. *)
Definition pcap_kept (s s' : session) : Prop := s_state s <> PCAP_SESSION_UNUSED ->
  s_state s' <> PCAP_SESSION_UNUSED /\ s_pcap_dumper s' = s_pcap_dumper s /\
  s_pcap_handle s' = s_pcap_handle s.

Lemma undisturbed_session (X : nat -> Prop) q w s s' : session_list w !! q = Some s ->
  X q \/ pcap_kept s s' -> undisturbed X w (set_list (<[q := s']> (session_list w)) w).
Proof.
  intros Hs Hq. split; [apply length_insert|done..|]. intros j sj Hj Hsj Hu. cbn.
  destruct (decide (j = q)) as [->|Hne].
  - rewrite Hs in Hsj. injection Hsj as <-. exists s'.
    rewrite list_lookup_insert_eq by (by eapply lookup_lt_Some). destruct Hq as [?|Hq]; [done|].
    destruct (Hq Hu). auto.
  - exists sj. by rewrite list_lookup_insert_ne.
Qed.

Lemma unlist_lookup w q j c :
  <[q := None]> (clientconnlist w) !! j = Some (Some c) -> clientconnlist w !! j = Some (Some c).
Proof.
  destruct (decide (j = q)) as [->|Hne]; [|by rewrite list_lookup_insert_ne].
  intros H. destruct (decide (q < length (clientconnlist w))%nat).
  - by rewrite list_lookup_insert_eq in H.
  - by rewrite list_insert_ge in H by lia.
Qed.

Lemma undisturbed_unlist X q w : undisturbed X w (set_clientconnlist (<[q := None]> (clientconnlist w)) w).
Proof.
  split; [done|apply length_insert|intros j c; apply unlist_lookup|].
  intros j s _ Hs Hu. by exists s.
Qed.

(** Claiming a free slot, when only a slot of [w0] was claimed and [w0] has the
    sessions of [w]. *)
Definition one_claimed (w w' : world) : Prop := exists w0, session_list w0 = session_list w /\
  (w' = w0 \/ exists p s', first_unused p w0 /\ only_session same_threads p w0 w' s').

Lemma opened_claimed {A} (none r : A) Q w w0 w' : session_list w0 = session_list w ->
  opened same_threads none Q w0 r w' -> one_claimed w w'.
Proof.
  intros Hl [(_ & _ & ->)|(p & s' & Hp & Ho & _)]; exists w0; (split; [done|]); [by left|].
  right. by exists p, s'.
Qed.

Lemma undisturbed_claimed X w w' : one_claimed w w' -> undisturbed (fun _ => True) w w' -> undisturbed X w w'.
Proof.
  intros (w0 & Hl & Hcl) [Hlen Hc Hq _]. split; [done..|]. intros j s _ Hj Hu. exists s.
  rewrite <- Hl in Hj. destruct Hcl as [->|(p & s' & [(sp & Hsp & Hup) _] & Ho)]; [done|].
  assert (Hne : p <> j) by (intros ->; rewrite Hsp in Hj; by injection Hj as <-).
  by rewrite (only_session_other _ p j w0 w' s' Hne Ho).
Qed.

(** ** Discreet code *)

Definition sized (w : world) : Prop :=
  length (session_list w) = 128%nat /\ length (clientconnlist w) = 128%nat.

Definition discreet {A} (X : nat -> Prop) (m : M A) : Prop := forall w,
  sized w -> wlp m (fun _ w' => undisturbed X w w') w.

Section discreet.
Context `{Henv : Env} (X : nat -> Prop).

Lemma discreet_same {A} (m : M A) : (forall w a w', m w = Ok (a, w') ->
  session_list w' = session_list w /\ clientconnlist w' = clientconnlist w) -> discreet X m.
Proof. intros Hm w _ a w' Hr. destruct (Hm w a w' Hr). by apply undisturbed_same. Qed.

Lemma discreet_bind {A B} (m : M A) (k : A -> M B) :
  discreet X m -> (forall a, discreet X (k a)) -> discreet X (m ≫= k).
Proof.
  intros Hm Hk w Hw. apply wlp_bind. eapply wlp_mono; [by apply Hm|]. intros a w1 H1.
  eapply wlp_mono; [apply Hk|intros b w2; by apply undisturbed_trans].
  destruct Hw. split; [by rewrite (qt_length _ _ _ H1)|by rewrite (qt_conns _ _ _ H1)].
Qed.

Lemma discreet_ret {A} (a : A) : discreet X (mret a).
Proof. apply discreet_same. by intros w b w' [= _ <-]. Qed.

Lemma discreet_fail {A} f : discreet X (fail f : M A).
Proof. by intros w _ b w'. Qed.

Lemma discreet_lift {A} (r : res A) : discreet X (lift r).
Proof. apply discreet_same. intros w b w'. unfold lift. destruct r; [|done]. by intros [= _ <-]. Qed.

Lemma discreet_gets {A} (f : world -> A) : discreet X (gets f).
Proof. apply discreet_same. by intros w b w' [= _ <-]. Qed.

Lemma discreet_modify f : (forall w, session_list (f w) = session_list w /\
  clientconnlist (f w) = clientconnlist w) -> discreet X (modify f).
Proof. intros Hf. apply discreet_same. intros w b w' [= _ <-]. apply Hf. Qed.

Lemma discreet_field {A} q (f : session -> A) : discreet X (field q f).
Proof.
  apply discreet_same. intros w b w'. unfold field. destruct (session_list w !! q); [|done].
  by intros [= _ <-].
Qed.

Lemma discreet_position id : discreet X (position id).
Proof. apply discreet_same. intros w b w'. unfold position. case_match; [|done]. by intros [= _ <-]. Qed.

Lemma discreet_ext_reply c : discreet X (ext_reply c).
Proof. apply discreet_same. by intros w b w' [= _ <-]. Qed.

Lemma discreet_ext c : discreet X (ext c).
Proof. apply discreet_bind; [apply discreet_ext_reply|intros; apply discreet_ret]. Qed.

Lemma discreet_when b (m : M unit) : discreet X m -> discreet X (when b m).
Proof. destruct b; [auto|]. intros _. apply discreet_ret. Qed.

Lemma discreet_update q f : X q \/ (forall s, pcap_kept s (f s)) -> discreet X (update q f).
Proof.
  intros Hf w _ u w'. unfold update. destruct (session_list w !! q) as [s|] eqn:Hs; [|done].
  intros [= _ <-]. apply (undisturbed_session X q w s); [done|]. destruct Hf; auto.
Qed.

Lemma discreet_change_state id n : (forall q, X q) \/ n <> PCAP_SESSION_UNUSED ->
  discreet X (pcapsession_change_state id n).
Proof.
  intros Hn. unfold pcapsession_change_state. apply discreet_bind; [apply discreet_position|].
  intros q. apply discreet_update. destruct Hn; [by left|by right].
Qed.

(** The code works on the slot whose number it has. *)
Lemma discreet_slot {A} p (k : nat -> M A) : discreet X (k p) ->
  discreet X (position (Z.of_nat p) ≫= k).
Proof.
  intros Hk w Hw. apply wlp_bind. intros q w1 Hq. unfold position in Hq. case_match; [|done].
  injection Hq as <- <-. rewrite Nat2Z.id. by apply Hk.
Qed.

Lemma discreet_change_slot p n : X p -> discreet X (pcapsession_change_state (Z.of_nat p) n).
Proof. intros Hp. apply discreet_slot, discreet_update. by left. Qed.

Lemma discreet_unlist id : discreet X (set_conn id None).
Proof.
  intros w _ u w'. unfold set_conn. destruct (_ && _); [|done]. intros [= _ <-]. apply undisturbed_unlist.
Qed.
End discreet.

Ltac discreet_step :=
  match goal with
  | |- discreet _ (mret _) => apply discreet_ret
  | |- discreet _ (fail _) => apply discreet_fail
  | |- discreet _ (lift _) => apply discreet_lift
  | |- discreet _ (mbind _ (position (Z.of_nat _))) => apply discreet_slot
  | |- discreet _ (mbind _ _) => apply discreet_bind; [|intros]
  | |- discreet _ (gets _) => apply discreet_gets
  | |- discreet _ (modify _) => by apply discreet_modify
  | |- discreet _ (field _ _) => apply discreet_field
  | |- discreet _ (position _) => apply discreet_position
  | |- discreet _ (ext _) => apply discreet_ext
  | |- discreet _ (ext_reply _) => apply discreet_ext_reply
  | |- discreet _ (when _ _) => apply discreet_when
  | |- discreet _ (pointer _) => unfold pointer
  | |- discreet _ (update _ _) => 
      apply discreet_update; first [by left | by right; intros ? ?; repeat split]
  | |- discreet _ (set_conn _ None) => apply discreet_unlist
  | |- discreet _ (pcapsession_change_state (Z.of_nat _) _) => apply discreet_change_slot; done
  | |- discreet _ (pcapsession_change_state _ _) => apply discreet_change_state; by (left + right)
  | |- discreet _ (match ?x with _ => _ end) => destruct x
  end.
Ltac discreet := repeat discreet_step.

(** ** The modules' code is discreet *)

Section modules.
Context `{Henv : Env}.

Lemma discreet_tested X fd : discreet X (iotests_fd_open fd).
Proof. unfold iotests_fd_open. discreet. Qed.

Lemma discreet_change_own X p n : (forall q, X q) \/ n <> PCAP_SESSION_UNUSED ->
  discreet X (change_own_state p n).
Proof. intros Hn. unfold change_own_state. discreet. by apply discreet_change_state. Qed.

Lemma discreet_open_own_monitor X p u : discreet X (open_own_monitor u p).
Proof. unfold open_own_monitor, open_monitor. discreet. Qed.

Lemma discreet_stop k p : discreet (eq p) (stop_session k p).
Proof.
  assert (Hs : forall b, discreet (eq p) (stop_or_restart p b)).
  { intros []; unfold stop_or_restart; apply discreet_change_own; by right. }
  destruct k; cbn [stop_session module_stoppers];
    unfold pcapsession_server_stop, close_server_socket, pcapsession_clientconn_stop,
      pcapsession_livecapture_stop, pcapsession_filecapture_stop, pcapsession_merger_stop,
      pcapsession_client_stop, break_own_loop, close_own_dumper, close_own_fd, close_own_monitor,
      close_idle_handle, close_own_handle;
    discreet; try apply discreet_tested; try apply Hs; apply discreet_change_own; by right.
Qed.

Lemma discreet_supervise p : discreet (eq p) (supervise p).
Proof.
  assert (Hstop : discreet (eq p) (pcapsession_stop (Z.of_nat p))).
  { unfold pcapsession_stop. discreet. apply discreet_stop. }
  assert (Hstart : discreet (eq p) (pcapsession_start (Z.of_nat p))) by (unfold pcapsession_start; discreet).
  unfold supervise, supervise_states, pcapsession_transition_session, await, supervise_output,
    flush_idle, output_monitor.
  discreet; try done; apply discreet_tested.
Qed.

(** *** Opening *)

Definition anywhere (_ : nat) : Prop := True.

Lemma discreet_get_new : discreet anywhere pcapsession_handling_get_new.
Proof.
  assert (Hf : forall n i, discreet anywhere (find_unused n i))
    by (induction n as [|n IH]; intros i; cbn [find_unused]; discreet; apply IH).
  unfold pcapsession_handling_get_new, claim_slot. discreet. apply Hf.
Qed.

Lemma discreet_claim {A} (none : A) (rest : nat -> M A) : (forall p, discreet anywhere (rest p)) ->
  discreet anywhere (slot ← pcapsession_handling_get_new;
    match slot with None => mret none | Some p => rest p end).
Proof.
  intros Hr. apply discreet_bind; [apply discreet_get_new|]. intros [p|]; [apply Hr|apply discreet_ret].
Qed.

Lemma discreet_add_own p : discreet anywhere (add_own p).
Proof. unfold add_own, pcapsession_handling_add. discreet. Qed.

Lemma discreet_init_list : discreet anywhere init_clientconnlist.
Proof.
  intros w [_ Hc]. apply wlp_wp, init_clientconnlist_wp. unfold conns_ready.
  destruct (clientconnlist_initialized w); [by apply undisturbed_same|]. split; [done|by rewrite Hc| |done].
  intros j c Hj. by apply lookup_replicate in Hj as [? _].
Qed.

Lemma open_request_claims r w : request_fits r -> sized w ->
  wp (open_request r) (fun _ w' => one_claimed w w') w.
Proof.
  intros Hfit [Hl Hc]. destruct r as [port|fd address|n|n i|n u|address m]; cbn [open_request];
    wp_step; eapply wp_mono;
    [by apply (server_open_wp same_threads)| |by apply (clientconn_open_wp same_threads)|
     |by apply (livecapture_open_wp same_threads)| |by apply (filecapture_open_wp same_threads)|
     |by apply (merger_open_wp same_threads)| |by apply (client_open_wp same_threads)|];
    intros b w' Ho; wp_step; (eapply opened_claimed; [|exact Ho]); try done.
  unfold conns_ready. by destruct (clientconnlist_initialized w).
Qed.

Lemma open_request_unlists r : discreet anywhere (open_request r).
Proof.
  destruct r; cbn [open_request]; apply discreet_bind; try (intros; apply discreet_ret);
    unfold pcapsession_server_open, pcapsession_livecapture_open, pcapsession_filecapture_open,
      pcapsession_merger_open, pcapsession_client_open;
    try (apply discreet_claim; intros p);
    unfold open_server_socket, error_return, describe_address, copy_description; discreet;
    try apply discreet_add_own; try (apply discreet_change_own; by left).
  - unfold pcapsession_clientconn_open. apply discreet_bind; [apply discreet_init_list|]. intros _.
    apply discreet_claim. intros p. unfold describe_address. discreet. apply discreet_add_own.
Qed.

Lemma open_request_undisturbed X r w : request_fits r -> sized w ->
  wlp (open_request r) (fun _ w' => undisturbed X w w') w.
Proof.
  intros Hfit Hw b w' Hr. apply undisturbed_claimed; [|by apply (open_request_unlists r w Hw b w')].
  exact (wlp_wp _ _ _ (open_request_claims r w Hfit Hw) b w' Hr).
Qed.

Lemma discreet_clientconn_open X fd address : discreet X (pcapsession_clientconn_open fd address).
Proof.
  intros w Hw r w' Hr. apply (open_request_undisturbed X (OpenConnection fd address) w I Hw (negb (r =? 0))).
  cbn [open_request]. unfold mbind, M_bind. by rewrite Hr.
Qed.

(** *** Running *)

Lemma discreet_count_packet X p h : discreet X (count_packet p h).
Proof. unfold count_packet. discreet. Qed.

Lemma discreet_offer X n : forall i, discreet X (offer n i).
Proof.
  induction n as [|n IH]; intros i; cbn [offer]; unfold client_test; discreet;
    try apply IH; apply discreet_tested.
Qed.

Lemma discreet_run_module k p pt : k <> KClientConn -> discreet (eq p) (run_module k p pt).
Proof.
  intros Hk. destruct k; [| done| | | |]; cbn [run_module];
    unfold pcapsession_server_run, server_turn, server_loop, poll_server_socket,
      pcapsession_livecapture_run,
      pcapsession_filecapture_run, filecapture_entry, filecapture_finish, filecapture_streamed,
      filecapture_iteration, pcapsession_merger_run, pcapsession_client_run, client_connected,
      enter_pcap_loop, close_own_handle, pcap_geterr;
    destruct pt; discreet; try apply discreet_open_own_monitor; try apply discreet_clientconn_open;
    apply discreet_change_own; by right.
Qed.

(** Handling packets disturbs no session. *)
Lemma discreet_handler X k p pt : handling pt = true -> discreet X (run_session k p pt).
Proof.
  intros Hpt. destruct pt; try done; cbn [run_session];
    unfold packet_continues, client_dump, merge_continues, pcap_dump; discreet;
    try apply discreet_count_packet; apply discreet_offer.
Qed.

Lemma discreet_handle_packet X k p loop h d : discreet X (handle_packet k p loop h d).
Proof.
  destruct k; cbn [handle_packet]; try apply discreet_ret;
    unfold packet_arrives, merge_arrives, untunnel_on; discreet;
    try apply discreet_count_packet; apply discreet_offer.
Qed.
End modules.

(** ** The invariant *)

Definition has_handle (p : nat) (w : world) : Prop :=
  exists s, session_list w !! p = Some s /\ s_pcap_handle s <> 0.

(** Only sessions of connections are listed, in their own slot, while they run
    or are about to be stopped, with an open dumper; and they have no thread.  A
    capture has its handle while it captures. *)
Record conns_inv (w : world) : Prop := {
  ci_listed j c : clientconnlist w !! j = Some (Some c) -> c = j /\ exists s,
    session_list w !! j = Some s /\ s_runner s = Some KClientConn /\ s_pcap_dumper s <> 0 /\
    (s_state s = PCAP_SESSION_RUNNING \/ s_state s = PCAP_SESSION_TERMINATE);
  ci_thread t th : threads w !! t = Some th -> ~ listed w (t_session th);
  ci_loop t th : threads w !! t = Some th -> is_capture (t_runner th) = true ->
    captures (t_point th) = true -> has_handle (t_session th) w }.

Lemma unlisted_none w j : (j < length (clientconnlist w))%nat -> ~ listed w j ->
  clientconnlist w !! j = Some None.
Proof.
  intros Hj Hn. destruct (lookup_lt_is_Some_2 _ _ Hj) as [[c|] Hc]; [|done]. destruct Hn. by exists c.
Qed.

Lemma undisturbed_listed X w w' j : undisturbed X w w' -> listed w' j -> listed w j.
Proof. intros Hq [c Hc]. exists c. by apply (qt_slot _ _ _ Hq). Qed.

Section invariant.
Context `{Henv : Env, !Clock}.

Lemma conns_inv_ok w : system_ok w -> conns_inv w -> conns_ok w.
Proof.
  intros Hw Hi. split; [apply Hw|]. intros j c Hj.
  destruct (ci_listed _ Hi j c Hj) as (-> & s & Hs & Hr & Hd & Hst). split; [done|]. exists s.
  destruct (ok_session _ Hw j s Hs) as [?|[Hm _]]; [states_tac|]. split; [done|].
  split; [apply Hm|done].
Qed.

(** What threads, packets and openings do to the list. *)
Lemma undisturbed_conns X w w' : conns_inv w -> evolves w w' -> undisturbed X w w' ->
  (forall j, X j -> ~ listed w j) ->
  (forall j c, clientconnlist w' !! j = Some (Some c) -> c = j /\ exists s,
    session_list w' !! j = Some s /\ s_runner s = Some KClientConn /\ s_pcap_dumper s <> 0 /\
    (s_state s = PCAP_SESSION_RUNNING \/ s_state s = PCAP_SESSION_TERMINATE)) /\
  forall t th, threads w !! t = Some th -> ~ listed w' (t_session th).
Proof.
  intros Hi Hev Hq HX. split.
  - intros j c Hj. apply (qt_slot _ _ _ Hq) in Hj as Hj0.
    destruct (ci_listed _ Hi j c Hj0) as (-> & s & Hs & Hr & Hd & Hst). split; [done|].
    destruct (ev_session _ _ Hev j s Hs) as (s' & Hs' & Hse). exists s'. split; [done|].
    destruct Hse as [[Hu _]|(Hu & Hro & Hst')]; [states_tac|].
    split; [by rewrite (sr_runner _ _ Hro)|]. split; [|destruct Hst' as [->|[_ ?]]; auto].
    assert (HnX : ~ X j) by (intros HXj; apply (HX j HXj); by exists j).
    destruct (qt_session _ _ _ Hq j s HnX Hs Hu) as (s1 & Hs1 & _ & Hd1 & _). rewrite Hs' in Hs1.
    injection Hs1 as <-. by rewrite Hd1.
  - intros t th Ht Hl. apply (ci_thread _ Hi t th Ht). by eapply undisturbed_listed.
Qed.

(** The handles of other captures. *)
Lemma undisturbed_handle X w w' t th : system_ok w -> conns_inv w -> undisturbed X w w' ->
  ~ X (t_session th) -> threads w !! t = Some th -> is_capture (t_runner th) = true ->
  captures (t_point th) = true -> has_handle (t_session th) w'.
Proof.
  intros Hw Hi Hq Hx Ht Hcap Hpt. destruct (ci_loop _ Hi t th Ht Hcap Hpt) as (s & Hs & Hh).
  destruct (ok_thread _ Hw t th Ht) as [_ (s0 & Hs0 & _ & Hb & _)]. rewrite Hs in Hs0. injection Hs0 as <-.
  destruct (qt_session _ _ _ Hq _ s Hx Hs) as (s' & Hs' & _ & _ & Hh').
  { unfold busy in Hb. states_tac. }
  exists s'. by rewrite Hh'.
Qed.

Lemma opening_inv w w' : system_ok w -> conns_inv w -> evolves w w' ->
  undisturbed (fun _ => False) w w' -> conns_inv w'.
Proof.
  intros Hw Hi Hev Hq. destruct (undisturbed_conns _ w w' Hi Hev Hq) as [Hl Ht]; [done|].
  split; [exact Hl| |]; rewrite (ev_threads _ _ Hev); [exact Ht|]. intros t th Hlk Hcap Hpt.
  apply (undisturbed_handle (fun _ => False) w w' t th); auto.
Qed.

(** The thread that goes on, and the others. *)
Lemma advance_lookup t th next w t' th' : threads (advance t th next w) !! t' = Some th' ->
  t' <> t /\ threads w !! t' = Some th' \/
  t' = t /\ exists pt, next = Some pt /\ th' = Thread (t_session th) (t_runner th) pt.
Proof.
  cbn. destruct next as [pt|]; [intros [[<- <-]|[? ?]]%lookup_insert_Some
                               |intros [? ?]%lookup_delete_Some]; eauto.
Qed.

(** Two threads have different sessions. *)
Lemma thread_sessions w t1 t2 th1 th2 : system_ok w -> threads w !! t1 = Some th1 ->
  threads w !! t2 = Some th2 -> t_session th1 = t_session th2 -> t1 = t2.
Proof.
  intros Hw H1 H2 Hs. destruct (ok_thread _ Hw _ _ H1) as [_ (s1 & Hs1 & _ & _ & <- & _)].
  destruct (ok_thread _ Hw _ _ H2) as [_ (s2 & Hs2 & _ & _ & <- & _)]. congruence.
Qed.

(** The turn of a thread that works on its own session. *)
Lemma turn_inv X t th next w w' : system_ok w -> conns_inv w -> threads w !! t = Some th ->
  evolves w w' -> undisturbed X w w' -> (forall j, X j -> j = t_session th) ->
  (forall pt, next = Some pt -> is_capture (t_runner th) = true -> captures pt = true ->
     has_handle (t_session th) w') ->
  conns_inv (advance t th next w').
Proof.
  intros Hw Hi Ht Hev Hq HX Hown. destruct (undisturbed_conns X w w' Hi Hev Hq) as [Hl Hth].
  { intros j ->%HX. by apply (ci_thread _ Hi t th). }
  split; [exact Hl| |]; intros t' th' Hlk; apply advance_lookup in Hlk as [[Hne Hlk]|(-> & pt & Hn & ->)];
    cbn [t_session t_runner t_point].
  - rewrite (ev_threads _ _ Hev) in Hlk. exact (Hth t' th' Hlk).
  - exact (Hth t th Ht).
  - rewrite (ev_threads _ _ Hev) in Hlk. intros Hcap Hpt. apply (undisturbed_handle X w w' t' th'); try done.
    intros Hx. apply Hne. by apply (thread_sessions w t' t th' th); [..|apply HX].
  - by apply Hown.
Qed.

(** The run of a connection's thread, after which it ends. *)
Lemma clientconn_run_inv t th w next w' : system_ok w -> conns_inv w ->
  threads w !! t = Some th -> t_runner th = KClientConn ->
  pcapsession_clientconn_run (t_session th) w = Ok (next, w') -> threads w' = threads w ->
  conns_inv (advance t th next w').
Proof.
  intros Hw Hi Ht Hk Hrun Hth. set (p := t_session th) in *.
  destruct (ok_table _ Hw) as [Hl Hc _ _]. destruct (ok_thread _ Hw t th Ht) as [_ (s & Hs & Hm & _ & _ & Hr)].
  assert (Hp : (p < 128)%nat) by (rewrite <- Hl; by eapply lookup_lt_Some).
  pose proof (clientconn_run_spec p s w Hs (mg_id _ _ Hm) Hp Hc) as Hspec. unfold either in Hspec.
  rewrite Hrun in Hspec. destruct Hspec as (_ & -> & s' & Hl' & Hr' & _ & Hst & Hd & Hcl).
  assert (Hother : forall j c, j <> p -> clientconnlist w' !! j = Some (Some c) ->
    clientconnlist w !! j = Some (Some c) /\ session_list w' !! j = session_list w !! j).
  { intros j c Hj Hlk. rewrite Hl', list_lookup_insert_ne by done. split; [|done].
    by rewrite Hcl, list_lookup_insert_ne in Hlk. }
  assert (Hne : forall t' th', threads (advance t th None w') !! t' = Some th' ->
    threads w !! t' = Some th' /\ t_session th' <> p).
  { intros t' th' Hlk. apply advance_lookup in Hlk as [[Hne Hlk]|(_ & pt & ? & _)]; [|done].
    rewrite Hth in Hlk. split; [done|]. intros Heq. apply Hne. by apply (thread_sessions w t' t th' th). }
  split.
  - cbn. intros j c Hj. destruct (decide (j = p)) as [->|Hjp].
    + rewrite Hcl, list_lookup_insert_eq in Hj by lia. injection Hj as <-. split; [done|]. exists s'.
      rewrite Hl', list_lookup_insert_eq by lia. split; [done|]. split; [by rewrite Hr', Hr, Hk|]. auto.
    + destruct (Hother j c Hjp Hj) as [Hj0 ->]. by apply (ci_listed _ Hi).
  - intros t' th' Hlk [c Hl1]. destruct (Hne t' th' Hlk) as [Ht' Hp'].
    destruct (Hother _ c Hp' Hl1) as [Hl0 _]. apply (ci_thread _ Hi t' th' Ht'). by exists c.
  - intros t' th' Hlk Hcap Hpt. destruct (Hne t' th' Hlk) as [Ht' Hp'].
    destruct (ci_loop _ Hi t' th' Ht' Hcap Hpt) as (s0 & Hs0 & Hh0). exists s0.
    split; [|done]. cbn. by rewrite Hl', list_lookup_insert_ne.
Qed.

(** *** A visit of a listed connection *)

Lemma wp_wlp {A} (m : M A) (Q Q' : A -> world -> Prop) w :
  wp m Q w -> wlp m Q' w -> wp m (fun a w' => Q a w' /\ Q' a w') w.
Proof. unfold wp, wlp. intros Hm Hm'. destruct (m w) as [[a w']|]; [|done]. auto. Qed.

Lemma clientconn_stop_unlists p s w : (p < 128)%nat -> s_id s = Z.of_nat p ->
  session_list w !! p = Some s -> sized w ->
  wp (pcapsession_clientconn_stop p)
    (fun _ w' => ~ listed w' p /\ is_Some (session_list w' !! p)) w.
Proof.
  intros Hp Hid Hs [Hl Hc].
  eapply wp_mono; [apply wp_wlp; [by apply (clientconn_stop_local same_threads p s Hp Hid w Hs Hc)|]|].
  - instantiate (1 := fun _ w' => ~ listed w' p). unfold pcapsession_clientconn_stop.
    apply wlp_bind. intros id w1 Hid1. unfold field in Hid1. rewrite Hs in Hid1. injection Hid1 as <- <-.
    apply wlp_bind. intros u1 w1 Hset. unfold set_conn in Hset. case_match; [|done].
    injection Hset as <- <-. rewrite Hid, Nat2Z.id. set (w1 := set_clientconnlist _ w).
    set (rest := mbind _ _). assert (Hd : discreet (eq p) rest).
    { unfold rest, close_own_dumper, close_own_fd, close_own_monitor, close_idle_handle,
        close_own_handle. discreet; try apply discreet_tested. apply discreet_change_own; by right. }
    intros u w' Hr Hli. apply (undisturbed_listed _ _ _ _ (Hd w1 ltac:(split; [done|by cbn; rewrite length_insert]) u w' Hr)) in Hli as [c Hli].
    cbn in Hli. rewrite list_lookup_insert_eq in Hli by lia. done.
  - intros _ w' [(s' & Ho & _) Hn]. split; [done|]. exists s'. by eapply only_session_lookup.
Qed.

(** Stopping a connection takes it off the list. *)
Lemma stop_unlists p s w : (p < 128)%nat -> s_id s = Z.of_nat p ->
  s_stopper s = Some KClientConn -> session_list w !! p = Some s -> sized w ->
  wp (pcapsession_stop (Z.of_nat p)) (fun _ w' => ~ listed w' p) w.
Proof.
  intros Hp Hid Hk Hs [Hl Hc]. unfold pcapsession_stop.
  wp_step. apply (wp_position _ s); [done|]. wp_step. wp_step. wp_step.
  eapply wp_mono; [by apply joined_wp|]. intros _ w1 (_ & _ & Hc1 & Hl1). rewrite Hc in Hc1.
  assert (Hs1 : session_list w1 !! p = Some (set_thread 0 s)) by (rewrite Hl1; apply list_lookup_insert_eq; lia).
  wp_step. wp_step. cbn. rewrite Hk. wp_step.
  change (stop_session KClientConn p) with (pcapsession_clientconn_stop p).
  eapply wp_mono; [apply (clientconn_stop_unlists p (set_thread 0 s)); try done|].
  - split; [by rewrite Hl1, length_insert|done].
  - intros _ w2 [Hn [s2 Hs2]]. wp_step. wp_step. wp_step; [|done].
    by eapply wp_change_state.
Qed.
(** A connection that is still as it was. *)
Definition still (s s' : session) : Prop :=
  s_runner s' = s_runner s /\ s_pcap_dumper s' = s_pcap_dumper s /\
  (s_state s' = PCAP_SESSION_RUNNING \/ s_state s' = PCAP_SESSION_TERMINATE).

Definition still_or_unlisted (p : nat) (s : session) (w : world) : Prop :=
  ~ listed w p \/ exists s', session_list w !! p = Some s' /\ still s s'.

Lemma transition_listed p s st w : (p < 128)%nat -> s_id s = Z.of_nat p ->
  s_stopper s = Some KClientConn ->
  st = PCAP_SESSION_RUNNING \/ st = PCAP_SESSION_TERMINATE \/ st = PCAP_SESSION_ABORT ->
  session_list w !! p = Some (set_state st s) -> sized w ->
  wp (pcapsession_transition_session (Z.of_nat p)) (fun _ => still_or_unlisted p s) w.
Proof.
  intros Hp Hid Hk Hst Hs [Hl Hc]. unfold pcapsession_transition_session.
  wp_step. eapply (wp_position _ _); [done|]. wp_step. wp_step. cbn [s_state set_state].
  assert (Hstop : forall n, wp (pcapsession_change_state (Z.of_nat p) n;;
    update p (set_interval_counter 0);; pcapsession_stop (Z.of_nat p)) (fun _ => still_or_unlisted p s) w).
  { intros n. wp_step. eapply wp_change_state; [done|]. wp_step. eapply wp_update; cbn.
    { by rewrite list_lookup_insert_eq by lia. }
    rewrite list_insert_insert_eq. apply (wp_mono _ (fun _ w' => ~ listed w' p)); [|by left].
    eapply (stop_unlists p); [done| | |cbn; apply list_lookup_insert_eq; lia|]; [done..|].
    split; [cbn; by rewrite length_insert|done]. }
  do 3 (wp_step; [states_tac|]). wp_step.
  { wp_step. right. exists (set_state st s). split; [done|]. split; [done|]. split; [done|].
    cbn. left. states_tac. }
  wp_step; [apply Hstop|]. wp_step; [apply Hstop|]. states_tac.
Qed.

Lemma supervise_listed p s w : system_ok w -> session_list w !! p = Some s -> managed p s ->
  s_runner s = Some KClientConn ->
  s_state s = PCAP_SESSION_RUNNING \/ s_state s = PCAP_SESSION_TERMINATE ->
  wp (supervise p) (fun _ => still_or_unlisted p s) w.
Proof.
  intros Hw Hs Hm Hr Hst. destruct (ok_table _ Hw) as [Hl Hc Hok Hout].
  pose proof (mg_stopper _ _ Hm) as Hk. rewrite Hr in Hk. pose proof (mg_id _ _ Hm) as Hid.
  assert (Hp : (p < 128)%nat) by (rewrite <- Hl; by eapply lookup_lt_Some).
  unfold supervise. wp_step. wp_step. wp_step; [states_tac|]. wp_step. wp_step. wp_step.
  set (h := session_handling_state w). eapply wp_mono; [apply wp_conj|].
  - apply (supervise_states_visited p s h); auto. states_tac.
  - apply (supervise_states_before p s); [done|]. intros w1 (st & Hcase & Ho).
    pose proof (only_session_lookup _ _ _ _ _ _ Hs Ho) as Hs1.
    apply (transition_listed p s st w1 Hp Hid Hk); [|done|].
    + destruct Hcase as [->|[->| ->] ]; [destruct Hst; auto|auto..].
    + split; [by rewrite (only_session_length _ _ _ _ _ Ho)|by rewrite (os_conns _ _ _ _ _ Ho)].
  - intros _ w1 [(s1 & Ho1 & Hv) Hstill]. pose proof (only_session_lookup _ _ _ _ _ _ Hs Ho1) as Hs1.
    assert (Hw1 : sized w1).
    { split; [by rewrite (only_session_length _ _ _ _ _ Ho1)|by rewrite (os_conns _ _ _ _ _ Ho1)]. }
    assert (Hd : discreet (eq p) (supervise_output p)) by (unfold supervise_output, flush_idle, output_monitor; discreet).
    wp_step. eapply wp_mono; [apply wp_wlp; [apply (supervise_output_wp p s1); [done| | |]|by apply Hd]|].
    + apply Hw1.
    + by apply (output_ok_later w); [apply Ho1|apply Ho1|].
    + intros Hrun. destruct Hv as [[?|[[]|(? & _)]] _]; [states_tac|done|states_tac].
    + intros _ w2 [(s2 & Ho2 & Hs2) Hq]. wp_step. destruct Hstill as [Hn|(s1' & Hs1' & Hstill)].
      * left. intros Hli. apply Hn. by eapply undisturbed_listed.
      * rewrite Hs1 in Hs1'. injection Hs1' as <-. right. exists s2.
        split; [by apply (only_session_lookup _ _ _ _ _ _ Hs1 Ho2)|]. by destruct Hs2 as [->|(_ & m & -> & _)].
Qed.

(** The threads a visit leaves were there before, or belong to a session that is
    starting. *)
Lemma visit_thread p w w' s s' t th : thread_change p w w' s s' -> threads w' !! t = Some th ->
  threads w !! t = Some th \/ t_session th = p /\ s_state s = PCAP_SESSION_START.
Proof.
  intros [Ht _ _ _ _ _|Ht _|k Hst _ _ _ Ht _]; rewrite Ht; [auto| |].
  - unfold without_thread. case_match; [auto|]. intros [_ ?]%lookup_delete_Some. auto.
  - intros [[_ <-]|[_ ?]]%lookup_insert_Some; [by right|by left].
Qed.

(** A capture that is left on has its handle. *)
Lemma visit_handle p w w' s s' t th : system_ok w -> conns_inv w -> session_list w !! p = Some s ->
  session_list w' !! p = Some s' -> (forall q, q <> p -> session_list w' !! q = session_list w !! q) ->
  thread_change p w w' s s' -> threads w' !! t = Some th -> is_capture (t_runner th) = true ->
  captures (t_point th) = true -> has_handle (t_session th) w'.
Proof.
  intros Hw Hi Hs Hs' Hother Htc Ht Hcap Hpt.
  assert (Hold : forall t th, threads w !! t = Some th -> t_session th = p -> 0 < t /\ t = s_thread s /\ busy s).
  { intros t0 th0 H0 Hp. destruct (ok_thread _ Hw t0 th0 H0) as [Hid (s0 & Hs0 & _ & Hb & Hst & _)].
    rewrite Hp, Hs in Hs0. injection Hs0 as <-. split; [lia|done]. }
  assert (Hkeep : threads w !! t = Some th -> (t_session th = p -> s_pcap_handle s' = s_pcap_handle s) ->
    has_handle (t_session th) w').
  { intros H0 Hh. destruct (ci_loop _ Hi t th H0 Hcap Hpt) as (s0 & Hs0 & Hh0).
    destruct (decide (t_session th = p)) as [Hp|Hp]; [|exists s0; by rewrite Hother].
    exists s'. rewrite Hp in *. rewrite Hs in Hs0. injection Hs0 as <-. by rewrite Hh. }
  destruct Htc as [Hth _ _ _ Hh _|Hth _|k Hst _ _ _ Hth _]; rewrite Hth in Ht.
  - by apply Hkeep.
  - unfold without_thread in Ht. destruct (Z.eqb_spec (s_thread s) 0) as [H0|H0].
    + apply Hkeep; [done|]. intros Hp. destruct (Hold t th Ht Hp). lia.
    + apply lookup_delete_Some in Ht as [Hne Ht]. apply Hkeep; [done|]. intros Hp.
      destruct (Hold t th Ht Hp) as (_ & -> & _). done.
  - apply lookup_insert_Some in Ht as [[_ <-]|[_ Ht]]; [done|]. apply Hkeep; [done|]. intros Hp.
    destruct (Hold t th Ht Hp) as (_ & _ & Hb). unfold busy in Hb. states_tac.
Qed.

Lemma supervise_inv p w : (p < 128)%nat -> system_ok w -> conns_inv w ->
  wp (supervise p) (fun _ w' => conns_inv w') w.
Proof.
  intros Hp Hw Hi. pose proof Hw as [[Hl Hc _ _] _ Hss _ _].
  destruct (lookup_lt_is_Some_2 (session_list w) p) as [s Hs]; [lia|].
  destruct (Hss p s Hs) as [Hu|[Hm Hst]].
  { unfold supervise. wp_step. wp_step. rewrite Hu. wp_step; [|states_tac]. by wp_step. }
  assert (Hvisit : wp (supervise p) (fun _ w' => listed w p -> still_or_unlisted p s w') w).
  { destruct (clientconnlist w !! p) as [[c|]|] eqn:Hcp.
    - destruct (ci_listed _ Hi p c Hcp) as (_ & s0 & Hs0 & Hr & _ & Hst0). rewrite Hs in Hs0.
      injection Hs0 as <-. eapply wp_mono; [by apply (supervise_listed p s)|by auto].
    - eapply wp_mono; [by apply (supervise_ok p w)|]. by intros _ w' _ [c Hli]; rewrite Hcp in Hli.
    - eapply wp_mono; [by apply (supervise_ok p w)|]. by intros _ w' _ [c Hli]; rewrite Hcp in Hli. }
  eapply wp_mono; [apply wp_conj; [exact Hvisit|apply wp_wlp; [apply wp_conj|by apply (discreet_supervise p w)]]|].
  - by apply (supervise_wp p s); [apply Hw|].
  - by apply (supervise_threads p s); [apply Hw|..].
  - intros counted w' (Hv & [(_ & _ & Hother & _) (_ & s' & Hs' & Htc)] & Hq). split.
    + intros j c Hj. apply (qt_slot _ _ _ Hq) in Hj as Hj0.
      destruct (ci_listed _ Hi j c Hj0) as (-> & sj & Hsj & Hr & Hd & Hstj). split; [done|].
      destruct (decide (j = p)) as [->|Hne]; [|rewrite Hother by done; by exists sj].
      rewrite Hs in Hsj. injection Hsj as <-. exists s'. split; [done|].
      destruct Hv as [Hn|(s1 & Hs1 & Hr1 & Hd1 & Hst1)]; [by exists p|destruct Hn; by exists p|].
      rewrite Hs' in Hs1. injection Hs1 as <-. by rewrite Hr1, Hd1.
    + intros t th Ht Hli. apply (undisturbed_listed _ _ _ _ Hq) in Hli.
      destruct (visit_thread _ _ _ _ _ _ _ Htc Ht) as [Ht0|[Hp0 Hstart]].
      * by apply (ci_thread _ Hi t th Ht0).
      * destruct Hli as [c Hc0]. rewrite Hp0 in Hc0.
        destruct (ci_listed _ Hi p c Hc0) as (_ & s0 & Hs0 & _ & _ & Hst0). rewrite Hs in Hs0.
        injection Hs0 as <-. states_tac.
    + intros t th. by apply (visit_handle p w w' s s').
Qed.

(** *** Every step *)

Lemma entered_loop p pt w :
  wlp (enter_pcap_loop p pt) (fun _ w' => has_handle p w') w.
Proof.
  intros r w'. unfold enter_pcap_loop, has_handle, field, mbind, M_bind.
  destruct (session_list w !! p) as [s|] eqn:Hs; [|done].
  destruct (Z.eqb_spec (s_pcap_handle s) 0); [done|]. intros [= _ <-]. by exists s.
Qed.

Ltac captured_step :=
  match goal with
  | |- wlp (enter_pcap_loop _ _) _ _ =>
      eapply wlp_mono; [apply entered_loop|by intros ? ? ? ? _ _]
  | |- wlp (mret _) _ _ => by intros ? ? [= <- <-] ? [= <-]
  | |- wlp (fail _) _ _ => by intros ? ?
  | |- wlp (mbind _ _) _ _ => apply wlp_bind; intros ? ? _
  | |- wlp (match ?x with _ => _ end) _ _ => destruct x
  end.

(** A capture that enters its loop has a handle. *)
Lemma captured_run k p pt w : is_capture k = true ->
  wlp (run_module k p pt) (fun next w' => forall pt', next = Some pt' -> captures pt' = true ->
    has_handle p w') w.
Proof.
  intros Hk. destruct k; try discriminate Hk; cbn [run_module];
    unfold pcapsession_livecapture_run, pcapsession_filecapture_run, filecapture_entry,
      filecapture_finish, filecapture_streamed, filecapture_iteration; repeat captured_step.
Qed.

(** A packet leaves a capture where it captures. *)
Lemma waiting_captures h d loop at_lock : captures (waiting h d loop at_lock) = captures loop.
Proof. by destruct at_lock as [[slot client]|]. Qed.

Lemma handling_captures k p pt w pt' w' : handling pt = true ->
  run_session k p pt w = Ok (Some pt', w') -> captures pt' = true -> captures pt = true.
Proof.
  intros Hpt Hrun Hc. destruct pt as [| | | | | |slot client h d loop|m h h' d]; try done.
  cbn [run_session] in Hrun. unfold packet_continues, mbind, M_bind in Hrun.
  destruct (client_dump client h d w) as [[u w1]|]; [|done].
  destruct (offer _ _ w1) as [[at_lock w2]|]; [|done]. injection Hrun as <- <-.
  by rewrite waiting_captures in Hc.
Qed.


(** The turn of a thread. *)
Lemma thread_turn_inv t th w w' : system_ok w -> conns_inv w -> threads w !! t = Some th ->
  thread_turn t th w w' -> conns_inv w'.
Proof.
  intros Hw Hi Ht Hturn. destruct (ok_table _ Hw) as [Hl Hc _ _].
  pose proof (thread_running w t th Hw Ht) as Hr.
  destruct Hturn as [w next w' Hrun|h d w next w' Hpt _ Hrun].
  - assert (Hev : evolves w w') by (eapply safe_evolves; [apply safe_run|done..]).
    destruct (handling (t_point th)) eqn:Hh; [|destruct (decide (t_runner th = KClientConn)) as [Hk|Hk]].
    + pose proof (discreet_handler (fun _ => False) _ (t_session th) _ Hh w ltac:(by split) next w' Hrun) as Hq.
      apply (turn_inv (fun _ => False) t th next w w'); [done..|].
      intros pt -> Hcap Hpt. apply (undisturbed_handle (fun _ => False) w w' t th); [done..| |done|done|].
      * by intros [].
      * by eapply handling_captures.
    + apply (clientconn_run_inv t th w next w'); try done; [|apply Hev].
      rewrite Hk in Hrun. by destruct (t_point th).
    + assert (Hm : run_module (t_runner th) (t_session th) (t_point th) w = Ok (next, w'))
        by (by destruct (t_point th)).
      apply (turn_inv (eq (t_session th)) t th next w w'); [done..| |by intros j <-|].
      * by apply (discreet_run_module _ _ (t_point th) Hk w ltac:(by split) next w').
      * intros pt -> Hcap Hpt. by eapply (captured_run _ _ _ _ Hcap).
  - assert (Hev : evolves w w') by (eapply safe_evolves; [apply safe_handle_packet|done..]).
    pose proof (discreet_handle_packet (fun _ => False) _ (t_session th) _ h d w ltac:(by split) next w' Hrun) as Hq.
    apply (turn_inv (fun _ => False) t th (Some next) w w'); [done..|].
    intros pt _ Hcap _. apply (undisturbed_handle (fun _ => False) w w' t th); [done..| |done|done|].
    + by intros [].
    + by destruct (t_point th).
Qed.

Lemma step_inv y y' : step y y' -> system_ok (sys_world y) -> conns_inv (sys_world y) ->
  conns_inv (sys_world y').
Proof.
  intros Hstep Hw Hi. destruct (ok_table _ Hw) as [Hl Hc _ _].
  destruct Hstep as [r w b w' sup Hfit Hrun|w sup|t th w w' sup Ht Hturn|w sup w' sup' Hsup];
    cbn [sys_world sys_supervisor] in *; [| by destruct Hi| |].
  - apply (opening_inv w); [done|done| |].
    + exact (wlp_wp _ _ _ (open_request_evolves r w Hfit Hl Hc) b w' Hrun).
    + by apply (open_request_undisturbed _ r w Hfit ltac:(by split) b w').
  - by apply (thread_turn_inv t th w).
  - destruct Hsup as [w|i c w counted w' Hi' Hrun|c w Hend|c w Hend]; [by destruct Hi| |by destruct Hi..].
    exact (wlp_wp _ _ _ (supervise_inv i w Hi' Hw Hi) counted w' Hrun).
Qed.

Lemma initial_inv y : initial y -> conns_inv (sys_world y).
Proof.
  intros (_ & Hc & Ht & _). split; rewrite ?Hc, ?Ht; [|done..].
  intros j c Hj. by apply lookup_replicate in Hj as [? _].
Qed.

Lemma reachable_inv y : reachable y -> conns_inv (sys_world y).
Proof.
  intros (y0 & H0 & Hsteps). pose proof (initial_inv y0 H0) as Hi. apply initial_ok in H0.
  induction Hsteps as [y|y1 y2 y3 Hstep _ IH]; [done|].
  apply IH; [by apply (step_ok y1)|by apply (step_inv y1); [|apply H0|]].
Qed.
End invariant.

(** ** Properties *)

Section properties.
Context `{Henv : Env, !Clock}.

(** C6: the list of connections is sound in every reachable state: whatever the
    order in which threads, packet handlers and the supervisor write to it,
    a slot on the list holds the session of a connection in its own slot, with
    an open dumper, running or about to be stopped, and no thread left. *)
Theorem connection_list_is_sound (y : system) (j c : nat) : reachable y ->
  clientconnlist (sys_world y) !! j = Some (Some c) ->
  c = j /\ exists s, session_list (sys_world y) !! j = Some s /\ managed j s /\
    s_runner s = Some KClientConn /\ s_pcap_dumper s <> 0 /\
    (s_state s = PCAP_SESSION_RUNNING \/ s_state s = PCAP_SESSION_TERMINATE) /\
    forall t th, threads (sys_world y) !! t = Some th -> t_session th <> j.
Proof.
  intros Hy Hj. pose proof (reachable_inv y Hy) as Hi. apply reachable_ok in Hy as [Hw _].
  destruct (ci_listed _ Hi j c Hj) as (-> & s & Hs & Hr & Hd & Hst). split; [done|]. exists s.
  destruct (ok_session _ Hw j s Hs) as [?|[Hm _]]; [states_tac|]. repeat (split; [done|]).
  intros t th Ht <-. apply (ci_thread _ Hi t th Ht). by eexists.
Qed.

(** What the invariants say of a thread and its session. *)
Lemma reachable_thread y t th : reachable y -> threads (sys_world y) !! t = Some th ->
  exists s, session_list (sys_world y) !! t_session th = Some s /\
    length (session_list (sys_world y)) = 128%nat /\ conns_ok (sys_world y) /\
    either (run_session (t_runner th) (t_session th) (t_point th))
      (fun _ _ => can_run (t_runner th) (t_point th) s (sys_world y))
      (~ can_run (t_runner th) (t_point th) s (sys_world y)) (sys_world y).
Proof.
  intros Hy Ht. pose proof (reachable_inv y Hy) as Hi. apply reachable_ok in Hy as [Hw _].
  destruct (ok_thread _ Hw t th Ht) as [_ (s & Hs & Hm & Hb & _)].
  pose proof (conns_inv_ok _ Hw Hi) as Hok. destruct (ok_table _ Hw) as [Hl _ _ _].
  exists s. split; [done|]. split; [done|]. split; [done|]. apply run_either; try done.
  intros Hcap Hpt. destruct (ci_loop _ Hi t th Ht Hcap Hpt) as (s0 & Hs0 & Hh). rewrite Hs in Hs0.
  by injection Hs0 as <-.
Qed.

(** C4: what can go wrong in a thread.  In every reachable state each thread has
    its session, and its next turn goes through, without a fault, just when
    [can_run] holds: unless it waits to dump on a connection or merger that was
    stopped in the meantime, could not open its dump (the error text is then
    taken from a closed or null handle), has no stream for its descriptor, is a
    live capture started again without a handle, or a file capture at a capture
    file whose path does not fit its array. *)
Theorem threads_run_unless (y : system) (t : Z) (th : thread) :
  reachable y -> threads (sys_world y) !! t = Some th ->
  exists s, session_list (sys_world y) !! t_session th = Some s /\
    ((exists next w', run_session (t_runner th) (t_session th) (t_point th) (sys_world y) =
        Ok (next, w') /\ step y (System (advance t th next w') (sys_supervisor y))) <->
     can_run (t_runner th) (t_point th) s (sys_world y)).
Proof.
  intros Hy Ht. destruct (reachable_thread y t th Hy Ht) as (s & Hs & _ & _ & Hrun). exists s.
  split; [done|]. unfold either in Hrun. split.
  - intros (next & w' & Heq & _). by rewrite Heq in Hrun.
  - intros Hcan. destruct (run_session _ _ _ _) as [[next w']|] eqn:Heq; [|done].
    exists next, w'. split; [done|]. destruct y as [w sup]. by apply step_run.
Qed.

(** C5: a packet faults only where a stop can come between.  In every reachable
    state a packet that [pcap_loop] hands to a session's thread is taken up
    without a fault, up to the lock of a connection that is on the list and has
    its dumper, the lock of the merger, or the end of the handler, just when the
    thread captures or, receiving for a merger that untunnels, can untunnel the
    packet.  And a thread that waits for the lock of a connection goes on without
    a fault as long as this connection stays on the list; [threads_run_unless]
    says what it needs when it was taken off. *)
Theorem packets_fault_only_when_stopped (y : system) (t : Z) (th : thread) :
  reachable y -> threads (sys_world y) !! t = Some th ->
  (in_pcap_loop (t_point th) = true -> can_enter (t_runner th) (sys_world y) -> forall h d,
     (exists next w', handle_packet (t_runner th) (t_session th) (t_point th) h d (sys_world y) =
        Ok (next, w') /\ taken_up (t_runner th) (t_point th) h d next w' /\
        step y (System (advance t th (Some next) w') (sys_supervisor y))) <->
     can_handle (t_runner th) (t_session th) h d (sys_world y)) /\
  (forall slot client h d loop, t_point th = Locking slot client h d loop ->
     clientconnlist (sys_world y) !! client = Some (Some client) ->
     exists next w', run_session (t_runner th) (t_session th) (t_point th) (sys_world y) =
       Ok (Some next, w') /\ step y (System (advance t th (Some next) w') (sys_supervisor y))).
Proof.
  intros Hy Ht. destruct (reachable_thread y t th Hy Ht) as (s & Hs & _ & Hok & Hrun).
  destruct y as [w sup]; cbn [sys_world sys_supervisor] in *. split.
  - intros Hpt Hcan h d.
    pose proof (handle_either (t_runner th) _ s _ h d _ Hs Hok Hpt) as Hh. unfold either in Hh. split.
    + intros (next & w' & Heq & _). rewrite Heq in Hh. apply Hh.
    + intros Hc. destruct (handle_packet _ _ _ _ _ _) as [[next w']|] eqn:Heq; [|done].
      destruct Hh as [_ Htaken]. exists next, w'. split; [done|]. split; [done|].
      by apply (step_packet t th h d w next w').
  - intros slot client h d loop Hpt Hcl. rewrite Hpt in Hrun |- *. unfold either in Hrun.
    destruct (run_session _ _ _ _) as [[next w']|] eqn:Heq.
    + assert (Hn : exists pt, next = Some pt).
      { cbn [run_session] in Heq. unfold mbind, M_bind in Heq.
        destruct (packet_continues slot client h d loop w) as [[pt w1]|]; [|done].
        injection Heq as <- _. by exists pt. }
      destruct Hn as [pt ->]. exists pt, w'. split; [done|]. apply step_run; [done|]. by rewrite Hpt.
    + destruct Hrun. cbn [can_run]. pose proof (reachable_inv _ Hy) as Hi.
      destruct (ci_listed _ Hi client client Hcl) as (_ & sc & Hsc & _ & Hd & _). by exists sc.
Qed.
End properties.

(** ** A run *)

(** Every call succeeds, with handles, descriptors and dumpers of their own
    numbers. *)
Definition live_os : Env := fun _ c => (match c with
  | Time => 100
  | PcapOpenLive _ => 20 | PcapSelectableFd _ => 6 | PcapOpenDead => 21
  | Fdopen _ _ => 30 | PcapDumpFopen _ _ => 50
  | _ => 0 end, "").
#[export] Instance live_os_clock : Clock (H := live_os).
Proof. split; intros; cbn; lia. Qed.

(** A computation that returns [a] leads to its [run_result]. *)
Ltac runs := apply run_result_ok; vm_compute; reflexivity.

Section run.
#[local] Existing Instance live_os.

(** A live capture and a connection are opened, the supervisor starts both, and
    their threads run. *)
Definition capture_opened : world := run_result (open_request (OpenLive "eth0")) initial_world.
Definition connection_opened : world :=
  run_result (open_request (OpenConnection 7 zero_addr)) capture_opened.
Definition both_supervised : world := set_handling PCAP_SESSION_RUNNING connection_opened.
Definition capture_started : world := run_result (supervise 0) both_supervised.
Definition connection_started : world := run_result (supervise 1) capture_started.
Definition capture_thread : thread := Thread 0 KLiveCapture Spawned.
Definition connection_thread : thread := Thread 1 KClientConn Spawned.
Definition capturing : world := advance 1 capture_thread (Some Capturing)
  (run_result (run_session KLiveCapture 0 Spawned) connection_started).
Definition distributing : world := advance 2 connection_thread None
  (run_result (run_session KClientConn 1 Spawned) capturing).

Lemma connection_opened_reachable : reachable (System connection_opened NotStarted).
Proof.
  assert (H1 : reachable (System capture_opened NotStarted)).
  { apply (reachable_step _ _ initial_reachable).
    refine (step_open (OpenLive "eth0") initial_world true capture_opened NotStarted _ _); [reflexivity|].
    unfold capture_opened. runs. }
  apply (reachable_step _ _ H1).
  refine (step_open (OpenConnection 7 zero_addr) capture_opened true connection_opened NotStarted I _).
  unfold connection_opened. runs.
Qed.

Lemma connection_started_reachable : reachable (System connection_started (Supervising 2 2)).
Proof.
  assert (H1 : reachable (System both_supervised (Supervising 0 0))).
  { apply (reachable_step _ _ connection_opened_reachable), step_started. }
  assert (H2 : reachable (System capture_started (Supervising 1 1))).
  { apply (reachable_step _ _ H1). refine (step_visit 0 0 both_supervised true capture_started _ _); [lia|].
    unfold capture_started. runs. }
  apply (reachable_step _ _ H2).
  refine (step_visit 1 1 capture_started true connection_started _ _); [lia|].
  unfold connection_started. runs.
Qed.

Lemma distributing_reachable : reachable (System distributing (Supervising 2 2)).
Proof.
  assert (H1 : reachable (System capturing (Supervising 2 2))).
  { apply (reachable_step _ _ connection_started_reachable). unfold capturing.
    apply (step_run 1 capture_thread connection_started); [vm_compute; reflexivity|]. runs. }
  apply (reachable_step _ _ H1). unfold distributing.
  apply (step_run 2 connection_thread capturing); [vm_compute; reflexivity|]. runs.
Qed.

Lemma connection_list_is_sound_witness :
  clientconnlist distributing !! 1%nat = Some (Some 1%nat) /\
  exists s, session_list distributing !! 1%nat = Some s /\ managed 1 s /\
    s_runner s = Some KClientConn /\ s_pcap_dumper s <> 0 /\
    (s_state s = PCAP_SESSION_RUNNING \/ s_state s = PCAP_SESSION_TERMINATE) /\
    forall t th, threads distributing !! t = Some th -> t_session th <> 1%nat.
Proof.
  split; [vm_compute; reflexivity|].
  refine (proj2 (connection_list_is_sound (System distributing (Supervising 2 2)) 1 1 _ _)).
  - apply distributing_reachable.
  - vm_compute. reflexivity.
Defined.

Lemma capturing_reachable : reachable (System capturing (Supervising 2 2)).
Proof.
  apply (reachable_step _ _ connection_started_reachable). unfold capturing.
  apply (step_run 1 capture_thread connection_started); [vm_compute; reflexivity|]. runs.
Qed.

Lemma threads_run_unless_witness :
  exists s, session_list capturing !! 1%nat = Some s /\
    ((exists next w', run_session KClientConn 1 Spawned capturing = Ok (next, w') /\
        step (System capturing (Supervising 2 2))
          (System (advance 2 connection_thread next w') (Supervising 2 2))) <->
     can_run KClientConn Spawned s capturing).
Proof.
  refine (threads_run_unless (System capturing (Supervising 2 2)) 2 connection_thread _ _).
  - apply capturing_reachable.
  - vm_compute. reflexivity.
Defined.

Lemma capture_at_1 : threads distributing !! 1 = Some (Thread 0 KLiveCapture Capturing).
Proof. vm_compute. reflexivity. Qed.

(** A packet arrives, and the capture waits for the connection. *)
Definition waiting_capture : thread :=
  Thread 0 KLiveCapture (Locking 1 1 sample_header [1; 2; 3] Capturing).
Definition offered_packet : world :=
  advance 1 (Thread 0 KLiveCapture Capturing) (Some (t_point waiting_capture))
    (run_result (handle_packet KLiveCapture 0 Capturing sample_header [1; 2; 3]) distributing).

Lemma offered_packet_reachable : reachable (System offered_packet (Supervising 2 2)).
Proof.
  apply (reachable_step _ _ distributing_reachable). unfold offered_packet.
  apply (step_packet 1 (Thread 0 KLiveCapture Capturing) sample_header [1; 2; 3]).
  - apply capture_at_1.
  - reflexivity.
  - intros Hk. discriminate Hk.
  - cbn [t_runner t_session t_point]. runs.
Qed.

Lemma waiting_at_1 : threads offered_packet !! 1 = Some waiting_capture.
Proof. vm_compute. reflexivity. Qed.

Lemma waiting_listed : clientconnlist offered_packet !! 1%nat = Some (Some 1%nat).
Proof. vm_compute. reflexivity. Qed.

Lemma packets_fault_only_when_stopped_witness :
  ((exists next w', handle_packet KLiveCapture 0 Capturing sample_header [1; 2; 3] distributing =
      Ok (next, w') /\ taken_up KLiveCapture Capturing sample_header [1; 2; 3] next w' /\
      step (System distributing (Supervising 2 2))
        (System (advance 1 (Thread 0 KLiveCapture Capturing) (Some next) w') (Supervising 2 2))) <->
    can_handle KLiveCapture 0 sample_header [1; 2; 3] distributing) /\
  exists next w', run_session KLiveCapture 0 (t_point waiting_capture) offered_packet =
      Ok (Some next, w') /\ step (System offered_packet (Supervising 2 2))
        (System (advance 1 waiting_capture (Some next) w') (Supervising 2 2)).
Proof.
  split.
  - exact (proj1 (packets_fault_only_when_stopped (System distributing (Supervising 2 2)) 1
      (Thread 0 KLiveCapture Capturing) distributing_reachable capture_at_1) eq_refl
      (fun Hk => match Hk with eq_refl => I end) sample_header [1; 2; 3]).
  - exact (proj2 (packets_fault_only_when_stopped (System offered_packet (Supervising 2 2)) 1
      waiting_capture offered_packet_reachable waiting_at_1) 1%nat 1%nat sample_header [1; 2; 3]
      Capturing eq_refl waiting_listed).
Defined.

(** *** A connection that is stopped while a packet waits for it

    A connection in slot 0 and a capture in slot 1 run; a packet arrives and finds
    the connection running and open.  Before the capture takes the connection's
    mutex, shutdown is ordered and the supervisor comes to slot 0 and stops the
    connection. *)
Definition first_connection : world :=
  run_result (open_request (OpenConnection 7 zero_addr)) initial_world.
Definition then_capture : world := run_result (open_request (OpenLive "eth0")) first_connection.
Definition two_supervised : world := set_handling PCAP_SESSION_RUNNING then_capture.
Definition two_started : world := run_result (supervise_from 2 0 0) two_supervised.
Definition one_listed : world := advance 1 (Thread 0 KClientConn Spawned) None
  (run_result (run_session KClientConn 0 Spawned) two_started).
Definition one_capturing : world := advance 2 (Thread 1 KLiveCapture Spawned) (Some Capturing)
  (run_result (run_session KLiveCapture 1 Spawned) one_listed).
Definition late_capture : thread :=
  Thread 1 KLiveCapture (Locking 0 0 sample_header [1; 2; 3] Capturing).
Definition packet_taken : world :=
  advance 2 (Thread 1 KLiveCapture Capturing) (Some (t_point late_capture))
    (run_result (handle_packet KLiveCapture 1 Capturing sample_header [1; 2; 3]) one_capturing).
Definition shutdown_ordered : world := set_handling PCAP_SESSION_TERMINATING packet_taken.
Definition others_visited : world := run_result (supervise_from 126 2 2) shutdown_ordered.
Definition connection_stopped : world := run_result (supervise 0) others_visited.

Lemma one_capturing_reachable : reachable (System one_capturing (Supervising 2 2)).
Proof.
  assert (H1 : reachable (System first_connection NotStarted)).
  { apply (reachable_step _ _ initial_reachable).
    refine (step_open (OpenConnection 7 zero_addr) initial_world true first_connection NotStarted I _).
    unfold first_connection. runs. }
  assert (H2 : reachable (System then_capture NotStarted)).
  { apply (reachable_step _ _ H1).
    refine (step_open (OpenLive "eth0") first_connection true then_capture NotStarted _ _); [reflexivity|].
    unfold then_capture. runs. }
  assert (H3 : reachable (System two_started (Supervising 2 2))).
  { apply (visits_reachable 2 0 0 two_supervised 2 two_started); [lia| |].
    - unfold two_started. runs.
    - apply (reachable_step _ _ H2), step_started. }
  assert (H4 : reachable (System one_listed (Supervising 2 2))).
  { apply (reachable_step _ _ H3). unfold one_listed.
    apply (step_run 1 (Thread 0 KClientConn Spawned) two_started); [vm_compute; reflexivity|]. runs. }
  apply (reachable_step _ _ H4). unfold one_capturing.
  apply (step_run 2 (Thread 1 KLiveCapture Spawned) one_listed); [vm_compute; reflexivity|]. runs.
Qed.

Lemma packet_taken_reachable : reachable (System packet_taken (Supervising 2 2)).
Proof.
  apply (reachable_step _ _ one_capturing_reachable). unfold packet_taken.
  apply (step_packet 2 (Thread 1 KLiveCapture Capturing) sample_header [1; 2; 3]).
  - vm_compute. reflexivity.
  - reflexivity.
  - intros Hk. discriminate Hk.
  - cbn [t_runner t_session t_point]. runs.
Qed.

Lemma connection_stopped_reachable : reachable (System connection_stopped (Supervising 1 1)).
Proof.
  assert (H1 : reachable (System others_visited (Supervising 128 2))).
  { apply (visits_reachable 126 2 2 shutdown_ordered 2 others_visited); [lia| |].
    - unfold others_visited. runs.
    - apply (reachable_step _ _ packet_taken_reachable), step_close. }
  assert (H2 : reachable (System others_visited (Supervising 0 0)))
    by (apply (reachable_step _ _ H1), step_sleep; reflexivity).
  apply (reachable_step _ _ H2). refine (step_visit 0 0 others_visited true connection_stopped _ _); [lia|].
  unfold connection_stopped. runs.
Qed.

(** The capture then writes through a null dumper. *)
Theorem stopped_while_waiting_faults : exists y t th,
  reachable y /\ threads (sys_world y) !! t = Some th /\ t_runner th = KLiveCapture /\
  run_session (t_runner th) (t_session th) (t_point th) (sys_world y) = Fault NullPointer.
Proof.
  exists (System connection_stopped (Supervising 1 1)), 2, late_capture.
  split; [apply connection_stopped_reachable|]. repeat split; vm_compute; reflexivity.
Qed.
End run.
