(* ===== verification/Accept.v ===== *)
(** * From accept to a live connection

    What becomes of a client that connects to the distributer: with a free slot
    its connection goes through the server's turn, a visit of the supervisor and
    the run of its own thread to the list of connections; with none, the server
    is lost. *)
From S2P Require Import Prelude Text Pcap Monitor Untunnel.
From S2P Require Import Sys Wp Tcp Session Handler Evolve Threads.
From S2P Require Import ClientConn Server LiveCapture FileCapture Merger Client Supervision.
From S2P Require Import System Running Connections.

Section accept.
Context `{Henv : Env}.
Implicit Types (w : world) (s : session) (p j : nat).

(** The turn of a running server whose [accept] returns a descriptor: the
    connection is opened, and what follows depends on whether it was added. *)
Lemma server_accepts p s w (Q : option point -> world -> Prop) :
  session_list w !! p = Some s -> 0 < s_fd s -> 0 <= answer w (Accept (s_fd s)) -> sized w ->
  (let fd := answer w (Accept (s_fd s)) in
   let w0 := conns_ready (set_trace (trace w ++ [(Accept (s_fd s), fd)]) w) in
   forall r w1, opened same_threads 0 (fun q r s => r = 1 /\ s = clientconn_session q fd zero_addr) w0 r w1 ->
     wp (when (r <=? 0) (ext (Close fd);; mret tt);;
         if r <=? 0 then change_own_state p PCAP_SESSION_TERMINATE;;
           if r <? 0 then mret None else server_loop p
         else server_loop p) Q w1) ->
  wp (server_turn p) Q w.
Proof.
  intros Hs Hfd Ha [Hl Hc] Hrest. unfold server_turn, poll_server_socket.
  wp_step. wp_step. wp_step.
  change (invalid_buffer (Some TCP_ERRBUF_SIZE)) with false. cbv iota.
  rewrite (proj2 (Z.leb_gt (s_fd s) 0)) by lia. wp_step. apply wp_ext.
  rewrite (proj2 (Z.ltb_ge _ 0)) by lia. wp_step. eapply wp_mono.
  - by apply (clientconn_open_wp same_threads).
  - intros r w1 Ho. specialize (Hrest r w1 Ho). wp_step. unfold wp, mbind, M_bind in Hrest |- *.
    by destruct (when (r <=? 0) _ w1) as [[u w2]|].
Qed.

(** The server when the table is full. *)
Lemma full_table_turn p s w : session_list w !! p = Some s -> s_id s = Z.of_nat p ->
  0 < s_fd s -> 0 <= answer w (Accept (s_fd s)) -> sized w -> all_used w ->
  wp (server_turn p) (fun next w' => next = None /\
    session_list w' = <[p := set_state PCAP_SESSION_TERMINATE s]> (session_list w) /\
    exists evs, calls_since w w' evs /\ closed (answer w (Accept (s_fd s))) evs) w.
Proof.
  intros Hs Hid Hfd Ha Hw Hall. apply (server_accepts p s); [done..|]. intros fd w0 r w1 Ho.
  assert (Hl0 : session_list w0 = session_list w).
  { unfold w0, conns_ready. by destruct (clientconnlist_initialized _). }
  assert (Htr : trace w0 = trace w ++ [(Accept (s_fd s), fd)]).
  { unfold w0, conns_ready. by destruct (clientconnlist_initialized _). }
  destruct Ho as [(_ & -> & ->)|(q & s' & [(sq & Hsq & Hu) _] & _)].
  2:{ rewrite Hl0 in Hsq. by apply Hall in Hsq. }
  cbn [Z.leb Z.compare when]. do 3 wp_step. wp_step. unfold change_own_state, server_loop.
  wp_step. wp_step. eapply (wp_field _ _ s); [by cbn; rewrite Hl0|]. rewrite Hid.
  eapply (wp_change_state _ _ s); [by cbn; rewrite Hl0|]. wp_step; [states_tac|].
  wp_step. eapply (wp_field _ _ (set_state PCAP_SESSION_TERMINATE s)).
  { cbn. rewrite Hl0. apply list_lookup_insert_eq. by eapply lookup_lt_Some. }
  wp_step. split; [done|]. cbn. rewrite Hl0. split; [done|]. exists [(Accept (s_fd s), fd); (Close fd, r)].
  split; [unfold calls_since; cbn; by rewrite Htr, <- (assoc_L (++))|]. exists r. set_solver.
Qed.

(** A visit of a new connection creates its thread. *)
Lemma visit_starts j fd address w : (j < 128)%nat -> sized w ->
  session_list w !! j = Some (clientconn_session j fd address) ->
  session_handling_state w = PCAP_SESSION_RUNNING ->
  (forall w fd, answer w (Poll fd) = 0) -> (forall w k q, answer w (PthreadCreate k q) = 0) ->
  wp (supervise j) (fun counted w' => counted = true /\
    threads w' !! next_thread w = Some (Thread j KClientConn Spawned) /\ sized w' /\
    exists s', session_list w' !! j = Some s' /\ s_id s' = Z.of_nat j /\ s_fd s' = fd) w.
Proof.
  intros Hj [Hl Hc] Hs Hh Hpoll Hcreate. assert (Hlj : (j < length (session_list w))%nat) by lia.
  unfold supervise, supervise_states, iotests_fd_open.
  wp_step. wp_step. wp_step; [discriminate|]. wp_step. wp_step. rewrite Hh. wp_step. wp_step. wp_step; [discriminate|].
  wp_step. wp_step. wp_step. wp_step. wp_step.
  apply (wp_mono _ (fun _ w1 => exists tr, w1 = set_trace tr w)).
  { wp_step; [|exists (trace w); by destruct w]. wp_step. wp_step. apply wp_ext. wp_step.
    rewrite Hpoll. wp_step; [discriminate|]. by eexists. }
  intros _ w1 [tr ->]. unfold pcapsession_transition_session, pcapsession_start.
  wp_step. eapply (wp_position _ _); [done|]. wp_step. wp_step. wp_step; [discriminate|].
  wp_step; [|discriminate]. wp_step. eapply wp_change_state; [done|]. wp_step. wp_step. wp_step.
  wp_step. eapply (wp_position _ _).
  { cbn. rewrite list_insert_insert_eq. apply list_lookup_insert_eq. lia. }
  wp_step. wp_step. wp_step; [discriminate|]. wp_step. wp_step.
  change (s_runner _) with (Some KClientConn). cbv iota. wp_step. apply wp_ext.
  wp_step; [rewrite Hcreate in *; discriminate|]. do 9 wp_step.
  apply (wp_mono _ (fun _ w1 => threads w1 !! next_thread w = Some (Thread j KClientConn Spawned) /\
    sized w1 /\ exists s', session_list w1 !! j = Some s' /\ s_id s' = Z.of_nat j /\ s_fd s' = fd)).
  - unfold supervise_output. wp_step. wp_step. wp_step; [discriminate|]. cbn.
    rewrite lookup_insert_eq, !list_insert_insert_eq. split; [done|].
    split; [split; cbn; by rewrite ?length_insert|]. eexists. rewrite list_lookup_insert_eq by lia. done.
  - intros _ w1 Hw1. by wp_step.
Qed.
End accept.

(** ** Properties *)

Section properties.
Context `{Henv : Env, !Clock}.

(** C14: a client that connects is served.  In a reachable state let the server
    run before [accept], session handling be running and a slot be free; let
    [accept] return a descriptor, the descriptor tests find it open, and threads,
    handles, streams and dumpers be created.  Then the server's turn adds the connection in the
    first free slot and goes on accepting, the next visit of that slot creates a
    thread, and when this thread has run, captured packets are dumped on the
    connection. *)
Theorem accepted_connection_goes_live (w : world) (v : supervisor) (t : Z) (p j : nat) (s : session) :
  reachable (System w v) -> threads w !! t = Some (Thread p KServer Accepting) ->
  session_list w !! p = Some s -> s_state s = PCAP_SESSION_RUNNING -> 0 < s_fd s ->
  session_handling_state w = PCAP_SESSION_RUNNING -> first_unused j w ->
  0 <= answer w (Accept (s_fd s)) -> (forall w fd, answer w (Poll fd) = 0) ->
  (forall w k q, answer w (PthreadCreate k q) = 0) ->
  (forall w, answer w PcapOpenDead <> 0) -> (forall w fd mode, answer w (Fdopen fd mode) <> 0) ->
  (forall w handle file, answer w (PcapDumpFopen handle file) <> 0) ->
  wp (server_turn p) (fun next w1 => next = Some Accepting /\
    wp (supervise j) (fun _ w2 =>
      threads w2 !! next_thread w = Some (Thread j KClientConn Spawned) /\
      wp (run_session KClientConn j Spawned) (fun next' w3 => next' = None /\
        exists s3, session_list w3 !! j = Some s3 /\ s_fd s3 = answer w (Accept (s_fd s)) /\
          s_pcap_dumper s3 <> 0 /\ decide_conn (fun _ => true) w3 j = Dump (s_pcap_dumper s3)) w2) w1) w.
Proof.
  intros Hy Ht Hs Hst Hfd Hh [(sj & Hsj & Hju) Hjf] Ha Hpoll Hcreate Hdead Hopen Hdump. apply reachable_ok in Hy as [Hw _].
  cbn [sys_world] in Hw.
  destruct (ok_table _ Hw) as [Hl Hc _ _]. assert (Hj : (j < 128)%nat) by (rewrite <- Hl; by eapply lookup_lt_Some).
  assert (Hpj : j <> p) by (intros ->; rewrite Hs in Hsj; injection Hsj as <-; states_tac).
  apply (server_accepts p s); [done..|by split|]. intros fd w0 r w1 Ho.
  assert (Hw0 : session_list w0 = session_list w /\ session_handling_state w0 = session_handling_state w /\
    next_thread w0 = next_thread w /\ length (clientconnlist w0) = 128%nat)
    by (unfold w0, conns_ready; by destruct (clientconnlist_initialized _)).
  destruct Hw0 as (Hl0 & Hh0 & Hn0 & Hc0).
  destruct Ho as [(Hall & _ & _)|(q & s' & [(sq & Hsq & Hqu) Hqf] & Ho & [-> ->])].
  { rewrite <- Hl0 in Hsj. by apply Hall in Hsj. }
  rewrite Hl0 in Hsq, Hqf. assert (q = j) as ->.
  { destruct (Nat.lt_trichotomy q j) as [Hlt|[->|Hlt]]; [|done|].
    - by apply Hjf in Hsq.
    - by apply Hqf in Hsj. }
  assert (Hs1 : session_list w1 !! p = Some s)
    by (rewrite (only_session_other _ j p w0 w1 _ Hpj Ho); by rewrite Hl0).
  assert (Hj1 : session_list w1 !! j = Some (clientconn_session j fd zero_addr)).
  { rewrite (os_list _ _ _ _ _ Ho), Hl0. apply list_lookup_insert_eq. lia. }
  assert (Hsz1 : sized w1).
  { split; [by rewrite (only_session_length _ _ _ _ _ Ho), Hl0|by rewrite (os_conns _ _ _ _ _ Ho)]. }
  destruct (os_frame _ _ _ _ _ Ho) as (_ & Hn1 & _).
  cbn [Z.leb Z.compare when]. unfold server_loop. do 4 wp_step. wp_step. rewrite Hst. split; [done|].
  eapply wp_mono; [apply (visit_starts j fd zero_addr w1); try done|].
  { rewrite (os_handling _ _ _ _ _ Ho). congruence. }
  intros b w2 (_ & Ht2 & [Hl2 Hc2] & s2 & Hs2 & Hid2 & Hfd2). rewrite Hn1, Hn0 in Ht2. split; [done|].
  assert (Hcan : can_run KClientConn Spawned s2 w2).
  { cbn [can_run]. cbv zeta. set (tr := monitor_asked _ _ _).
    split; [exact (Hdead (set_trace tr w2))|]. split.
    - exact (Hopen (set_trace (asked tr PcapOpenDead) w2) _ _).
    - exact (Hdump (set_trace (asked (asked tr PcapOpenDead) _) w2) _ _). }
  pose proof (clientconn_run_spec j s2 w2 Hs2 Hid2 Hj Hc2) as Hrun. unfold either in Hrun.
  change (run_session KClientConn j Spawned) with (pcapsession_clientconn_run j). unfold wp.
  destruct (pcapsession_clientconn_run j w2) as [[next' w3]|]; [|done].
  destruct Hrun as (_ & -> & s3 & Hl3 & _ & Hfd3 & Hst3 & Hd3 & Hcl). split; [done|].
  exists s3. assert (Hs3 : session_list w3 !! j = Some s3) by (rewrite Hl3; apply list_lookup_insert_eq; lia).
  split; [done|]. split; [by rewrite Hfd3, Hfd2|]. split; [done|]. unfold decide_conn.
  rewrite Hcl, Hs3, Hst3, list_lookup_insert_eq by lia. done.
Qed.

(** C15: one client too many ends the server.  When in a reachable state every
    slot is in use and [accept] returns one more connection, it is closed, but
    its refusal is taken for a failure of the server: the server's thread ends
    and its session is told to terminate.  Every other session stays as it is. *)
Theorem full_table_ends_server (w : world) (v : supervisor) (t : Z) (p : nat) (s : session) :
  reachable (System w v) -> threads w !! t = Some (Thread p KServer Accepting) ->
  session_list w !! p = Some s -> 0 < s_fd s -> 0 <= answer w (Accept (s_fd s)) -> all_used w ->
  wp (server_turn p) (fun next w' => next = None /\
    session_list w' = <[p := set_state PCAP_SESSION_TERMINATE s]> (session_list w) /\
    exists evs, calls_since w w' evs /\ closed (answer w (Accept (s_fd s))) evs) w.
Proof.
  intros Hy Ht Hs Hfd Ha Hall. apply reachable_ok in Hy as [Hw _].
  cbn [sys_world] in Hw.
  destruct (ok_table _ Hw) as [Hl Hc _ _]. destruct (ok_thread _ Hw t _ Ht) as [_ (s0 & Hs0 & Hm & _)].
  cbn in Hs0, Hm. rewrite Hs in Hs0. injection Hs0 as <-.
  apply (full_table_turn p s); try done. apply Hm.
Qed.
End properties.

(** ** A run *)

(** Every call succeeds; sockets, accepted connections and dumpers have numbers
    of their own. *)
Definition accept_os : Env := fun _ c => (match c with
  | Time => 100 | Socket => 4 | Accept _ => 9 | PcapOpenDead => 21 | Fdopen _ _ => 30
  | PcapDumpFopen _ _ => 50
  | _ => 0 end, "").
#[export] Instance accept_os_clock : Clock (H := accept_os).
Proof. split; intros; cbn; lia. Qed.

Section run.
#[local] Existing Instance accept_os.

(** A server is opened, started, and waits in [accept]. *)
Definition server_opened_world : world := run_result (open_request (OpenServer 4711)) initial_world.
Definition server_supervised : world := set_handling PCAP_SESSION_RUNNING server_opened_world.
Definition server_started : world := run_result (supervise 0) server_supervised.
Definition server_accepting : world := advance 1 (Thread 0 KServer Spawned) (Some Accepting)
  (run_result (run_session KServer 0 Spawned) server_started).
Definition accepting_session : session :=
  set_thread 1 (set_state PCAP_SESSION_RUNNING (server_session 0 4 4711)).

Lemma server_accepting_reachable : reachable (System server_accepting (Supervising 1 1)).
Proof.
  assert (H1 : reachable (System server_opened_world NotStarted)).
  { apply (reachable_step _ _ initial_reachable).
    refine (step_open (OpenServer 4711) initial_world true server_opened_world NotStarted I _).
    unfold server_opened_world. runs. }
  assert (H2 : reachable (System server_supervised (Supervising 0 0)))
    by apply (reachable_step _ _ H1), step_started.
  assert (H3 : reachable (System server_started (Supervising 1 1))).
  { apply (reachable_step _ _ H2). refine (step_visit 0 0 server_supervised true server_started _ _); [lia|].
    unfold server_started. runs. }
  apply (reachable_step _ _ H3). unfold server_accepting.
  apply (step_run 1 (Thread 0 KServer Spawned) server_started); [vm_compute; reflexivity|]. runs.
Qed.

Lemma accepted_connection_goes_live_witness :
  wp (server_turn 0) (fun next w1 => next = Some Accepting /\
    wp (supervise 1) (fun _ w2 =>
      threads w2 !! next_thread server_accepting = Some (Thread 1 KClientConn Spawned) /\
      wp (run_session KClientConn 1 Spawned) (fun next' w3 => next' = None /\
        exists s3, session_list w3 !! 1%nat = Some s3 /\ s_fd s3 = 9 /\
          s_pcap_dumper s3 <> 0 /\ decide_conn (fun _ => true) w3 1 = Dump (s_pcap_dumper s3)) w2) w1)
    server_accepting.
Proof.
  refine (accepted_connection_goes_live server_accepting (Supervising 1 1) 1 0 1 accepting_session
    _ _ _ _ _ _ _ _ _ _ _ _ _).
  - apply server_accepting_reachable.
  - vm_compute. reflexivity.
  - vm_compute. reflexivity.
  - reflexivity.
  - reflexivity.
  - vm_compute. reflexivity.
  - split; [eexists; split; vm_compute; reflexivity|].
    intros [|q] s Hq Hs; [|lia]. vm_compute in Hs. injection Hs as <-. discriminate.
  - vm_compute. discriminate.
  - reflexivity.
  - reflexivity.
  - discriminate.
  - discriminate.
  - discriminate.
Defined.

(** Connections until the table is full. *)
Fixpoint crowd (n : nat) (w : world) : world :=
  match n with
  | O => w
  | S n => crowd n (run_result (open_request (OpenConnection 9 zero_addr)) w)
  end.
Definition full_table : world := crowd 127 server_accepting.

Lemma crowd_reachable n : forall w v, reachable (System w v) -> reachable (System (crowd n w) v).
Proof.
  induction n as [|n IH]; intros w v Hy; [done|]. apply IH. pose proof Hy as Hr.
  apply reachable_ok in Hr as [Hw _]. destruct (ok_table _ Hw) as [Hl Hc _ _].
  destruct (proj1 (wp_run _ _ _) (open_request_evolves (OpenConnection 9 zero_addr) w I Hl Hc))
    as (b & w' & Hrun & _).
  apply (reachable_step _ _ Hy). unfold run_result. rewrite Hrun. exact (step_open (OpenConnection 9 zero_addr) w b w' v I Hrun).
Qed.

Lemma full_table_used : all_used full_table.
Proof.
  intros q s Hs. assert (Hall : forallb used (session_list full_table) = true)
    by (vm_compute; reflexivity).
  rewrite forallb_forall in Hall. specialize (Hall s). unfold used in Hall.
  apply list_elem_of_lookup_2, list_elem_of_In in Hs. specialize (Hall Hs).
  intros Hu. rewrite Hu in Hall. discriminate Hall.
Qed.

Lemma full_table_ends_server_witness :
  wp (server_turn 0) (fun next w' => next = None /\
    session_list w' = <[0%nat := set_state PCAP_SESSION_TERMINATE accepting_session]> (session_list full_table) /\
    exists evs, calls_since full_table w' evs /\ closed 9 evs) full_table.
Proof.
  refine (full_table_ends_server full_table (Supervising 1 1) 1 0 accepting_session _ _ _ _ _ _).
  - apply crowd_reachable, server_accepting_reachable.
  - vm_compute. reflexivity.
  - vm_compute. reflexivity.
  - reflexivity.
  - vm_compute. discriminate.
  - exact full_table_used.
Defined.
End run.
