(* ===== verification/Delivery.v ===== *)
(** * From a capture to the merged file

    The distributer and the merger are two processes; between them are a
    connection of the one, a client of the other, and the network.  What the
    network and libpcap's savefile format do is a hypothesis: a client receives
    a prefix of the packets dumped on its connection, in order ([arrives]).  The
    theorem composes the two packet handlers across it. *)
From S2P Require Import Prelude Text GtpHeader Pcap Monitor Untunnel.
From S2P Require Import Sys Wp Tcp Session Handler Evolve Threads ClientConn Merger Supervision.
From S2P Require Import System Connections.

(** ** Streams of packets *)

(** What was dumped on one dumper, in order. *)
Definition sent_on (dumper : Z) (evs : list event) : list packet :=
  omap (fun '(x, h, d) => if x =? dumper then Some (h, d) else None) (dumps evs).

(** What one of the clients received, or was merged of it. *)
Definition of_client (q : nat) (l : list (nat * packet)) : list packet :=
  omap (fun x => if decide (x.1 = q) then Some x.2 else None) l.

Lemma sent_on_app x l1 l2 : sent_on x (l1 ++ l2) = sent_on x l1 ++ sent_on x l2.
Proof. unfold sent_on. by rewrite dumps_app, omap_app. Qed.

Lemma omap_fmap_comp {A B C} (f : A -> B) (g : B -> option C) (l : list A) :
  omap g (f <$> l) = omap (fun x => g (f x)) l.
Proof. induction l as [|x l IH]; [done|]. cbn. by rewrite IH. Qed.

Lemma omap_none {A B} (f : A -> option B) (l : list A) : (forall x, x ∈ l -> f x = None) ->
  omap f l = [].
Proof.
  induction l as [|x l IH]; intros Hf; [done|]. cbn. rewrite Hf by set_solver. apply IH. set_solver.
Qed.

(** The only slot of a range with a value. *)
Lemma omap_sole {A} (f : nat -> option A) (c n : nat) (a : A) : (c < n)%nat -> f c = Some a ->
  (forall j, j <> c -> f j = None) -> omap f (seq 0 n) = [a].
Proof.
  intros Hc Ha Hn. replace n with (c + S (n - S c))%nat by lia. rewrite seq_app, omap_app. cbn.
  rewrite Ha, !omap_none; [done|..]; intros j Hj; apply elem_of_seq in Hj; apply Hn; lia.
Qed.

Lemma omap_omap {A B C} (f : A -> option B) (g : B -> option C) (l : list A) :
  omap g (omap f l) = omap (fun x => f x ≫= g) l.
Proof. induction l as [|x l IH]; [done|]. cbn. destruct (f x); cbn; by rewrite IH. Qed.

(** ** The distributer *)

(** The calls [pcap_loop] makes for the packets of a capture. *)
Fixpoint capture `{Env} (p : nat) (l : list packet) : M unit :=
  match l with
  | [] => mret tt
  | (h, d) :: l => pcapsession_clientconn_packet_handler p h d;; capture p l
  end.

Section distributer.
Context `{Henv : Env} (is_open : Z -> bool).

(** The connection in slot [c] is live, and the only one on its dumper. *)
Definition sole (w : world) (c : nat) (x : Z) : Prop :=
  decide_conn is_open w c = Dump x /\ forall j, j <> c -> decide_conn is_open w j <> Dump x.

(** What is decided for a slot after a packet was offered. *)
Lemma offered_decision h d w w' j : length (clientconnlist w) = 128%nat ->
  offered is_open h d (seq 0 128) w w' ->
  decide_conn is_open w' j = match decide_conn is_open w j with Drop => Skip | x => x end.
Proof.
  intros Hl [_ Hs Hc]. specialize (Hs j). specialize (Hc j).
  destruct (decide (j < 128)%nat) as [Hj|Hj].
  - assert (Hin : j ∈ seq 0 128) by (apply elem_of_seq; lia).
    rewrite bool_decide_true in Hs, Hc by done. unfold decide_conn in *. rewrite Hc, Hs.
    destruct (clientconnlist w !! j) as [[c|]|]; try by rewrite ?Hc.
    destruct (session_list w !! j) as [s|]; [|done].
    destruct (s_state s =? PCAP_SESSION_RUNNING) eqn:Hr; [|by rewrite Hr].
    destruct (is_open (s_fd s)) eqn:Ho; cbn; [by rewrite Hr, Ho|done].
  - unfold decide_conn in *. rewrite (lookup_ge_None_2 (clientconnlist w) j) in * by lia. by rewrite Hc.
Qed.

Lemma sole_offered h d w w' c x : length (clientconnlist w) = 128%nat ->
  offered is_open h d (seq 0 128) w w' -> sole w c x -> sole w' c x.
Proof.
  intros Hl Ho [Hc Hn]. split; [by rewrite (offered_decision _ _ _ _ _ Hl Ho), Hc|].
  intros j Hj. rewrite (offered_decision _ _ _ _ _ Hl Ho). specialize (Hn j Hj). by case_match.
Qed.

Lemma decide_counted h w p s j : session_list w !! p = Some s ->
  decide_conn is_open (set_list (<[p := counted h s]> (session_list w)) w) j = decide_conn is_open w j.
Proof.
  intros Hs. unfold decide_conn. cbn. destruct (decide (j = p)) as [->|Hne].
  - by rewrite list_lookup_insert_eq, Hs by (by eapply lookup_lt_Some).
  - by rewrite list_lookup_insert_ne.
Qed.

Lemma decide_bound w c x : length (clientconnlist w) = 128%nat -> decide_conn is_open w c = Dump x ->
  (c < 128)%nat.
Proof.
  unfold decide_conn. intros Hl. destruct (clientconnlist w !! c) eqn:Hc; [|done].
  apply lookup_lt_Some in Hc. lia.
Qed.

(** The packets of a capture are all dumped on a live connection, in order. *)
Lemma capture_wp p c x l : forall w s, (forall w fd, (answer w (Poll fd) =? 0) = is_open fd) ->
  conns_ok w -> session_list w !! p = Some s -> sole w c x ->
  wp (capture p l) (fun _ w' => exists evs, calls_since w w' evs /\
    sent_on x evs = (fun o => (o.1, captured o)) <$> l) w.
Proof.
  induction l as [|[h d] l IH]; intros w s Hpoll Hok Hs Hsole.
  { apply wp_ret. exists []. split; [unfold calls_since; by rewrite app_nil_r|done]. }
  cbn [capture]. wp_step. eapply wp_mono; [by apply (handler_offers is_open p s)|].
  intros _ w1 [Hok1 Ho]. set (w0 := set_list _ w) in Ho.
  assert (Hl0 : length (clientconnlist w0) = 128%nat) by exact (proj1 Hok).
  assert (Hsole0 : sole w0 c x).
  { destruct Hsole as [Hc Hn]. split; [by unfold w0; rewrite decide_counted|].
    intros j. unfold w0. rewrite decide_counted by done. apply Hn. }
  assert (Hs1 : is_Some (session_list w1 !! p)).
  { rewrite (of_sessions _ _ _ _ _ _ Ho p). unfold w0. cbn.
    rewrite list_lookup_insert_eq by (by eapply lookup_lt_Some).
    repeat case_match; by eexists. }
  destruct Hs1 as [s1 Hs1]. eapply wp_mono.
  - apply (IH w1 s1); [done..|]. by apply (sole_offered h d w0).
  - intros _ w2 (evs2 & Hc2 & Hsent2). destruct (of_dumps _ _ _ _ _ _ Ho) as (evs1 & Hc1 & Hd1).
    exists (evs1 ++ evs2). split; [unfold calls_since in *; by rewrite Hc2, Hc1, (assoc_L (++))|].
    assert (Hone : sent_on x evs1 = [(h, captured (h, d))]); [|by rewrite sent_on_app, Hsent2, Hone].
    unfold sent_on. rewrite Hd1, omap_fmap_comp, omap_omap.
    apply (omap_sole _ c 128 (h, captured (h, d))).
    + eapply decide_bound; [exact Hl0|apply Hsole0].
    + rewrite (proj1 Hsole0). cbn. by rewrite Z.eqb_refl.
    + intros j Hj. pose proof (proj2 Hsole0 j Hj) as Hn. destruct (decide_conn is_open w0 j); try done.
      cbn. destruct (Z.eqb_spec dumper x); [congruence|done].
Qed.
End distributer.

(** ** The network and the merger *)

(** A packet as a client receives it, for one that was dumped: the header and
    the captured octets are the same; what lies behind them in the buffer of
    libpcap is arbitrary. *)
Definition arrives (received sent : packet) : Prop :=
  received.1 = sent.1 /\ captured received = sent.2.

(** A packet of the merged file, for one that was captured. *)
Definition merged_from (untunnel : Z) (original out : packet) : Prop :=
  exists received out', received.1 = original.1 /\ captured received = captured original /\
    merged_as untunnel received.1 received.2 = Ok out' /\ out = (out'.1, captured out').

Lemma sent_on_merged dumper evs (outs : list packet) :
  dumps evs = (fun o => (dumper, o.1, captured o)) <$> outs ->
  sent_on dumper evs = (fun o => (o.1, captured o)) <$> outs.
Proof.
  intros Hd. unfold sent_on. rewrite Hd, omap_fmap_comp. clear Hd. induction outs as [|o outs IH]; [done|].
  cbn. rewrite Z.eqb_refl. by f_equal.
Qed.

(** The merged packets of a client, for those it received. *)
Lemma merged_of_client untunnel q (received : list (nat * packet)) (outs : list packet) :
  Forall2 (fun x o => merged_as untunnel x.2.1 x.2.2 = Ok o) received outs ->
  Forall2 (fun r out => exists o, merged_as untunnel r.1 r.2 = Ok o /\ out = (o.1, captured o))
    (of_client q received)
    (of_client q (zip (fst <$> received) ((fun o => (o.1, captured o)) <$> outs))).
Proof.
  unfold of_client. induction 1 as [|[p r] o received outs Hr _ IH]; [constructor|]. cbn.
  destruct (decide (p = q)); [|done]. constructor; [by exists o|done].
Qed.

Lemma merged_from_arrived untunnel (l sent received outs : list packet) :
  sent = (fun o => (o.1, captured o)) <$> l -> Forall2 arrives received sent ->
  Forall2 (fun r out => exists o, merged_as untunnel r.1 r.2 = Ok o /\ out = (o.1, captured o))
    received outs ->
  Forall2 (merged_from untunnel) l outs.
Proof.
  intros ->. revert received outs. induction l as [|o l IH]; intros received outs Ha Hm.
  - inversion Ha; subst. inversion Hm; subst. constructor.
  - inversion Ha as [|r ? received' ? [H1 H2] Ha']; subst. inversion Hm as [|? out ? outs' [o' [H3 H4]] Hm']; subst.
    constructor; [|by apply (IH received')]. exists r, o'. by repeat split.
Qed.

(** ** Properties *)

(** C7: what is captured is what is merged.  From a reachable state of the
    distributer, let a capture deliver the packets [l] while one live connection
    has the dumper [x] for itself: exactly these packets are dumped on it, as
    captured and in order.  Of these let a client of a running merger receive
    the first [k], in any interleaving with what its other clients receive: the
    packets merged from that client are these [k], each once, in the order of
    the capture, untunnelled when the merger untunnels. *)
Theorem captured_packets_are_merged (e1 e2 : Env) (clock : @Clock e1) (is_open : Z -> bool)
    (y : system) (t : Z) (th : thread) (c : nat) (x : Z) (l : list packet)
    (m : nat) (dumper untunnel : Z) (clients : list nat) (w : world) (sm : session)
    (q : nat) (received : list (nat * packet)) (outs : list packet) :
  @reachable e1 y -> threads (sys_world y) !! t = Some th ->
  (forall w fd, (@answer e1 w (Poll fd) =? 0) = is_open fd) -> sole is_open (sys_world y) c x ->
  dumper <> 0 -> merging m dumper untunnel clients w sm ->
  Forall2 (fun r o => r.1 ∈ clients /\ merged_as untunnel r.2.1 r.2.2 = Ok o) received outs ->
  wp (@capture e1 (t_session th) l) (fun _ w1 => exists sent, calls_since (sys_world y) w1 sent /\
    sent_on x sent = (fun o => (o.1, captured o)) <$> l /\
    forall k, Forall2 arrives (of_client q received) (take k (sent_on x sent)) ->
    wp (@receive e2 received) (fun _ w2 => exists merged, calls_since w w2 merged /\
      Forall2 (merged_from untunnel) (take k l)
        (of_client q (zip (fst <$> received) (sent_on dumper merged)))) w) (sys_world y).
Proof.
  intros Hy Ht Hpoll Hsole Hd Hm Hr. pose proof (reachable_inv y Hy) as Hi.
  apply reachable_ok in Hy as [Hw _]. destruct (ok_thread _ Hw t th Ht) as [_ (s & Hs & _)].
  eapply wp_mono; [apply (capture_wp is_open _ c x l _ s); [done|exact (conns_inv_ok _ Hw Hi)|done..]|].
  intros _ w1 (sent & Hcalls & Hsent). exists sent. split; [done|]. split; [done|]. intros k Ha.
  eapply wp_mono; [by apply (receive_wp m dumper untunnel clients received outs w sm)|].
  intros _ w2 (_ & _ & _ & merged & Hc2 & Hdumps). exists merged. split; [done|].
  rewrite (sent_on_merged dumper merged outs Hdumps). rewrite Hsent, <- fmap_take in Ha.
  eapply merged_from_arrived; [done|exact Ha|]. apply merged_of_client.
  eapply Forall2_impl; [exact Hr|]. by intros r o [_ ?].
Qed.

(** ** A concrete capture and merger *)

Lemma distributing_sole : sole (fun _ => true) distributing 1 50.
Proof.
  assert (Hc : clientconnlist distributing = [None; Some 1%nat] ++ replicate 126 None)
    by (vm_compute; reflexivity).
  split; [vm_compute; reflexivity|]. intros j Hj. unfold decide_conn. rewrite Hc.
  destruct j as [|[|j]]; [discriminate|lia|]. change (([None; Some 1%nat] ++ replicate 126 None) !! S (S j))
    with (replicate 126 (None : option nat) !! j).
  destruct (replicate 126 None !! j) as [o|] eqn:Ho; [|discriminate].
  apply lookup_replicate in Ho as [-> _]. discriminate.
Qed.

(** Three packets are captured; the client in slot 1 has received two of them,
    with a packet of another client in between. *)
Lemma captured_packets_are_merged_witness :
  let l := [sample_packet 1; sample_packet 2; sample_packet 3] in
  let received := [(1%nat, sample_packet 1); (2%nat, sample_packet 9); (1%nat, sample_packet 2)] in
  wp (@capture live_os 0 l) (fun _ w1 => exists sent, calls_since distributing w1 sent /\
    sent_on 50 sent = (fun o => (o.1, captured o)) <$> l /\
    forall k, Forall2 arrives (of_client 1 received) (take k (sent_on 50 sent)) ->
    wp (@receive dumping_os received) (fun _ w2 => exists merged, calls_since sample_merge w2 merged /\
      Forall2 (merged_from 0) (take k l)
        (of_client 1 (zip (fst <$> received) (sent_on 77 merged)))) sample_merge) distributing /\
  Forall2 arrives (of_client 1 received) (take 2 ((fun o => (o.1, captured o)) <$> l)).
Proof.
  intros l received. split; [|repeat constructor].
  refine (captured_packets_are_merged live_os dumping_os live_os_clock (fun _ => true)
    (System distributing (Supervising 2 2)) 1 (Thread 0 KLiveCapture Capturing) 1 50 l
    0 77 0 [1%nat; 2%nat] sample_merge sample_merger 1 received (snd <$> received) _ _ _ _ _ _ _).
  - apply distributing_reachable.
  - vm_compute. reflexivity.
  - intros w fd. reflexivity.
  - exact distributing_sole.
  - discriminate.
  - exact sample_merging.
  - repeat (constructor; [split; [set_solver|reflexivity]|]). constructor.
Defined.
