(* ===== verification/Main.v ===== *)
(** * The main programs

    [filterprograms/pcapmerger.cpp] and [filterprograms/pcapdistributer.cpp],
    cut where [main] waits: for the supervision thread to run, for the ten
    seconds before the first connections, and for supervision to end.  The
    configuration is read with [Config] through the JSON library; the licence
    test, whose code is not part of the repository, is a parameter, and so is
    what an array holds before it is written.  The registration of the signal handler
    is in [Signals]; the calls of the log are left out. *)
From S2P Require Import Prelude Text Logger GenUtils Config Pcap Monitor Untunnel Sys Wp Tcp Session Handler.
From S2P Require Import Evolve Threads ClientConn Server LiveCapture FileCapture Merger Client.
From S2P Require Import Supervision System.

(** Reading the string of an array: [strlen] has to find its end. *)
Definition c_string (buf : list ascii) : res string :=
  n ← strlen buf; mret (String.string_of_list_ascii (take n buf)).

Section main.
Context `{Henv : Env} {J : Type} `{Json J}.

(** [MagicStringTester::testString]: whether it returns a non-zero value. *)
Variable testString : string -> bool.
(** The file system and the environment variables. *)
Variables (access readable : string -> bool) (getenv : string -> option string).
(** The content of the array of a name and size before it is written. *)
Variable uninitialized : string -> Z -> list ascii.

(** ** Common parts *)

(** The checks of the arguments: the exit code, or the name of the
    configuration file. *)
Definition arguments (argv : list string) : Z + string :=
  match argv with
  | _ :: magic :: rest =>
      if testString magic then inl 254 else
      match rest with [name] => inr name | _ => inl 1 end
  | _ => inl 254
  end.

Definition read_pcap_merge_cfg_file (path : string) (st : config_state J)
    : res (Z * config_state J) :=
  '(result, st) ← read_filter_config readable (Some path) st; mret (s16 result, st).

Definition read_pcap_dist_cfg_file (path : string) (st : config_state J)
    : res (Z * config_state J) :=
  '(result, st) ← read_filter_config readable (Some path) st; mret (s16 result, st).

(** The configuration file is found, read and printed. *)
Definition read_configuration (read : string -> config_state J -> res (Z * config_state J))
    (name : string) : res (Z + config_state J) :=
  '(path, cfg_file_length) ← get_config_file_path access getenv FILENAME_MAX name;
  if cfg_file_length <=? 0 then mret (inl 1) else
  '(result, st) ← read path no_config;
  if result <=? 0 then mret (inl 1) else
  '(_, _) ← print_filter_config st (Some (uninitialized "config_str" MAX_MESSAGE_BODY_SIZE));
  mret (inr st).

(** The array of the name [array] after [get_property]. *)
Definition property (st : config_state J) (name array : string) : res (list ascii) :=
  '(_, value) ← get_property st (Some name) (Some (uninitialized array FILENAME_MAX));
  mret (default [] value).

(** [atoi] on an array. *)
Definition atoi_array (buf : list ascii) : res Z := text ← c_string buf; mret (atoi text).

(** [strip_char_from_string(..., '\\')] on an array, which always returns. *)
Definition strip_backslash (buf : list ascii) : res (list ascii) :=
  default (Fault OutOfBounds) (strip_char_from_string buf "\"%char).

(** [shutdown_ordered] is the argument and the result. *)
Definition sighandler (shutdown_ordered : bool) : M bool :=
  if shutdown_ordered then mret true else pcapsession_handling_close;; mret true.

(** Starting session handling, up to the wait: the exit code if it failed. *)
Definition start_session_handling : M (option Z) :=
  r ← pcapsession_handling_init;
  mret (match r with Some 0 => Some 1 | _ => None end).

(** The end of both programs: the exit code. *)
Definition join_supervision (shutdown_ordered : bool) : M Z :=
  r ← ext JoinSupervision;
  if negb (r =? 0) then mret 1 else sighandler shutdown_ordered;; mret 0.

(** ** The merger *)

(** [host_values[i]] or [port_values[i]]. *)
Definition slot_string (values : list ascii) (i : Z) : res string :=
  if (0 <=? i) && (i <? MAX_ADDRESSES)
  then c_string (drop (Z.to_nat (i * FILENAME_MAX)) values) else Fault OutOfBounds.

(** The loop that prints the servers, from [i] on: the strings it reads.  Slot
    64 is outside the arrays, so 65 turns are enough for any [host_length]. *)
Fixpoint print_servers (fuel : nat) (host_length : Z) (host_values port_values : list ascii)
    (i : Z) : res (list (string * string)) :=
  match fuel with
  | O => mret []
  | S fuel =>
      if i <? host_length then
        host ← slot_string host_values i;
        port ← slot_string port_values i;
        names ← print_servers fuel host_length host_values port_values (i + 1);
        mret ((host, port) :: names)
      else mret []
  end.

(** The properties of the array of servers, in an array of slots. *)
Definition server_properties (st : config_state J) (name array : string)
    : res (Z * list ascii) :=
  '(n, values) ← get_properties st (Some DISTRIBUTION_SERVER_ARRAY_PROPERTY) FILENAME_MAX
    (Some name) (Some (uninitialized array (MAX_ADDRESSES * FILENAME_MAX)));
  mret (n, default [] values).

(** What [main] keeps: the number of servers is [ms_result]. *)
Record merger_settings := MergerSettings {
  ms_untunnel : Z; ms_output : string; ms_result : Z; ms_servers : list target }.

(** The servers the configuration names; [size_t] has 64 bits. *)
Definition merger_servers (st : config_state J) : M (option (Z * list target)) :=
  '(hosts, host_values) ← lift (server_properties st HOST_PROPERTY "host_values");
  '(ports, port_values) ← lift (server_properties st PORT_PROPERTY "port_values");
  let host_length := hosts mod 2 ^ 64 in
  let port_length := ports mod 2 ^ 64 in
  if negb (host_length =? port_length) then mret None else
  names ← lift (print_servers 65 host_length host_values port_values 0);
  '(result, servers) ← address_list_from_arguments (s32 host_length) names.*1 names.*2
    (replicate 64 (Target zero_addr 0));
  mret (if result <=? 0 then None else Some (result, servers)).

(** [main] up to the start of session handling: the exit code or the settings. *)
Definition merger_configure (argv : list string) : M (Z + merger_settings) :=
  match arguments argv with
  | inl code => mret (inl code)
  | inr name =>
      st ← lift (read_configuration read_pcap_merge_cfg_file name);
      match st with
      | inl code => mret (inl code)
      | inr st =>
          untunnel_str ← lift (property st UNTUNNEL_GTP_PROPERTY "untunnel_str");
          output_path_str ← lift (property st OUTPUT_PATH_PROPERTY "output_path_str");
          untunnel ← lift (atoi_array untunnel_str);
          output_path_str ← lift (strip_backslash output_path_str);
          output ← lift (c_string output_path_str);
          servers ← merger_servers st;
          mret (match servers with
                | None => inl 1
                | Some (result, servers) => inr (MergerSettings untunnel output result servers)
                end)
      end
  end.

(** Once supervision runs: the exit code, or the merger session. *)
Definition merger_start (s : merger_settings) : M (Z + nat) :=
  merger ← pcapsession_merger_open (ms_output s) (ms_untunnel s);
  mret (match merger with None => inl 1 | Some m => inr m end).

(** The loop over the servers, for [n] more of them from [i] on. *)
Fixpoint connect_clients (n i : nat) (servers : list target) (merger : nat) : M unit :=
  match n with
  | O => mret tt
  | S n =>
      match servers !! i with
      | None => fail OutOfBounds
      | Some t => pcapsession_client_open (tg_address t) merger;; mret tt
      end;;
      connect_clients n (S i) servers merger
  end.

Definition merger_connect (s : merger_settings) (merger : nat) : M unit :=
  connect_clients (Z.to_nat (ms_result s)) 0 (ms_servers s) merger.

(** ** The distributor *)

Record distributor_settings := DistributorSettings {
  ds_location : string; ds_live : Z; ds_port : Z; ds_iterations : Z }.

Definition distributor_configure (argv : list string) : res (Z + distributor_settings) :=
  match arguments argv with
  | inl code => mret (inl code)
  | inr name =>
      st ← read_configuration read_pcap_dist_cfg_file name;
      match st with
      | inl code => mret (inl code)
      | inr st =>
          capture_location_str ← property st CAPTURE_LOCATION_PROPERTY "capture_location_str";
          port_str ← property st PORT_PROPERTY "port_str";
          live_str ← property st LIVE_CAPTURE_PROPERTY "live_str";
          iterations_str ← property st FILE_CAPTURE_ITERATIONS_PROPERTY "iterations_str";
          capture_location ← strip_backslash capture_location_str;
          live ← atoi_array live_str;
          distribution_port ← atoi_array port_str;
          iterations ← atoi_array iterations_str;
          if invalid_port distribution_port then mret (inl 1) else
          location ← c_string capture_location;
          mret (inr (DistributorSettings location live distribution_port iterations))
      end
  end.

(** Once supervision runs: the server; ten seconds later: the capture.  The exit
    code if it failed. *)
Definition distributor_listen (s : distributor_settings) : M (option Z) :=
  r ← pcapsession_server_open (ds_port s); mret (if r =? 0 then Some 1 else None).

Definition distributor_capture (s : distributor_settings) : M (option Z) :=
  if negb (ds_live s =? 0)
  then r ← pcapsession_livecapture_open (ds_location s); mret (if r =? 0 then Some 1 else None)
  else r ← pcapsession_filecapture_open (ds_location s) (ds_iterations s);
       mret (if r =? 0 then Some 1 else None).
End main.

(** ** Strings in arrays *)

Lemma string_of_chars s : String.string_of_list_ascii (chars s) = s.
Proof. apply String.string_of_list_ascii_of_string. Qed.

Lemma c_string_read buf : (length (cstring buf) < length buf)%nat ->
  c_string buf = Ok (String.string_of_list_ascii (cstring buf)).
Proof.
  intros Hl. apply cstring_split in Hl as [Hn [rest Hr]]. unfold c_string.
  assert (Hs : strlen buf = Ok (length (cstring buf)))
    by (rewrite Hr at 1; by apply strlen_app).
  rewrite Hs. cbn. rewrite Hr at 2. by rewrite take_app_length.
Qed.

Lemma c_string_holds buf s : cstring buf = chars s -> (String.length s < length buf)%nat ->
  c_string buf = Ok s.
Proof.
  intros Hc Hl. rewrite c_string_read; [by rewrite Hc, string_of_chars|].
  by rewrite Hc, chars_length.
Qed.

Lemma c_string_length buf s : c_string buf = Ok s -> (String.length s < length buf)%nat.
Proof.
  unfold c_string. intros Hs. apply res_bind_Ok in Hs as (n & Hn & Hs). injection Hs as <-.
  rewrite <- chars_length. unfold chars. rewrite String.list_ascii_of_string_of_list_ascii, length_take.
  enough (n < length buf)%nat by lia. clear - Hn. revert n Hn.
  induction buf as [|c buf IH]; intros n; cbn; [done|]. case_bool_decide; [intros [= <-]; lia|].
  intros Hn. apply res_bind_Ok in Hn as (k & Hk & Hn). injection Hn as <-. specialize (IH k Hk). lia.
Qed.

(** Whatever an array holds, reading a string of it can only run out of it. *)
Lemma c_string_fault buf : (exists s, c_string buf = Ok s) \/ c_string buf = Fault OutOfBounds.
Proof.
  unfold c_string. assert (Hs : (exists n, strlen buf = Ok n) \/ strlen buf = Fault OutOfBounds).
  { induction buf as [|c buf IH]; [by right|]. cbn. case_bool_decide; [left; by eexists|].
    destruct IH as [[n ->]| ->]; [left; by eexists|by right]. }
  destruct Hs as [[n ->]| ->]; [left; by eexists|by right].
Qed.

(** Stripping the backslashes of an array that holds [s] as JSON prints it. *)
Lemma strip_backslash_escaped buf s : plain s -> cstring buf = chars (escaped s) ->
  (String.length (escaped s) < length buf)%nat ->
  exists buf', strip_backslash buf = Ok buf' /\ c_string buf' = Ok s.
Proof.
  intros Hp Hc Hl. assert (Hlen : (length (cstring buf) < length buf)%nat)
    by (by rewrite Hc, chars_length).
  apply cstring_split in Hlen as [Hn [rest Hr]].
  destruct (strip_char_from_string_spec (cstring buf) rest "\"%char Hn)
    as (out & stale & Hrun & Hlen & Hout).
  exists (out ++ stale ++ rest). unfold strip_backslash. rewrite Hr at 1. rewrite Hrun.
  split; [done|]. assert (Hle : (length (chars s) <= length (cstring buf))%nat)
    by (rewrite Hc, <- (escaped_strip s Hp); apply length_filter).
  rewrite Hc, escaped_strip in Hout by done. apply c_string_holds; [done|].
  rewrite (assoc_L (++)), length_app, Hlen, <- chars_length. lia.
Qed.

(** ** Reading the servers *)

Section servers.
Context `{Henv : Env} {J : Type} `{JsonLaws J}.
Variables (access readable : string -> bool) (getenv : string -> option string).
Variables (testString : string -> bool) (uninitialized : string -> Z -> list ascii).
Context (Hsize : forall array n, length (uninitialized array n) = Z.to_nat n).
Implicit Types (st : config_state J) (es : list (list (string * json))).

Lemma server_properties_read st es name array : config_holds st es ->
  Forall (outer_ok DISTRIBUTION_SERVER_ARRAY_PROPERTY name) es ->
  let vs := all_strings DISTRIBUTION_SERVER_ARRAY_PROPERTY name es in
  Forall (fun v => Z.of_nat (String.length v) + 2 <= FILENAME_MAX) vs -> blen vs <= MAX_ADDRESSES ->
  exists values, server_properties uninitialized st name array =
      Ok (if bool_decide (vs = []) then -1 else blen vs, values) /\
    forall i v, vs !! i = Some v -> slot_string values (Z.of_nat i) = Ok v.
Proof.
  intros Hst Hok vs Hlen Hmax.
  destruct (get_properties_spec st es DISTRIBUTION_SERVER_ARRAY_PROPERTY name
    (Z.to_nat FILENAME_MAX) (uninitialized array (MAX_ADDRESSES * FILENAME_MAX)) Hst Hok)
    as (values & Hrun & Hl & Hv).
  - fold vs. split; [eapply Forall_impl; [exact Hlen|]; cbn; lia|].
    rewrite Hsize. unfold blen in Hmax. rewrite Z2Nat.inj_mul by done. apply Nat.mul_le_mono_r. lia.
  - fold vs. unfold MAX_ADDRESSES in Hmax. lia.
  - fold vs in Hrun, Hv. exists values. unfold server_properties.
    rewrite Z2Nat.id in Hrun by done. rewrite Hrun. split; [done|]. intros i v Hi.
    pose proof (lookup_lt_Some _ _ _ Hi) as Hlt. unfold slot_string, blen in *.
    rewrite (proj2 (Z.leb_le _ _)), (proj2 (Z.ltb_lt _ _)) by lia. cbn [andb].
    pose proof (Forall_lookup_1 _ _ _ _ Hlen Hi) as Hvl. cbn in Hvl.
    assert (Hn : NUL ∉ chars v)
      by exact (Forall_lookup_1 _ _ _ _ (all_strings_no_nul _ _ _ Hok) Hi).
    rewrite Z2Nat.inj_mul, Nat2Z.id by lia. apply c_string_holds; [by apply Hv|].
    rewrite length_drop, Hl, Hsize, Z2Nat.inj_mul by done.
    assert (i < Z.to_nat MAX_ADDRESSES)%nat by lia.
    assert (String.length v < Z.to_nat FILENAME_MAX)%nat by lia. nia.
Qed.

(** The loop over the servers reads the texts in order. *)
Lemma print_servers_ok hosts ports host_values port_values : length hosts = length ports ->
  (forall i v, hosts !! i = Some v -> slot_string host_values (Z.of_nat i) = Ok v) ->
  (forall i v, ports !! i = Some v -> slot_string port_values (Z.of_nat i) = Ok v) ->
  forall fuel k, (length hosts < k + fuel)%nat ->
  print_servers fuel (blen hosts) host_values port_values (Z.of_nat k) = Ok (drop k (zip hosts ports)).
Proof.
  intros Hl Hh Hp. induction fuel as [|fuel IH]; intros k Hk; cbn [print_servers].
  - by rewrite drop_ge by (rewrite length_zip; lia).
  - destruct (Z.ltb_spec (Z.of_nat k) (blen hosts)) as [Hlt|Hge]; unfold blen in *.
    + destruct (lookup_lt_is_Some_2 hosts k) as [h Hhk]; [lia|].
      destruct (lookup_lt_is_Some_2 ports k) as [p Hpk]; [lia|].
      rewrite (Hh _ _ Hhk), (Hp _ _ Hpk). cbn [mbind res_bind].
      replace (Z.of_nat k + 1) with (Z.of_nat (S k)) by lia. rewrite IH by lia.
      cbn [mbind res_bind]. rewrite (drop_S _ (h, p) k); [done|].
      by apply lookup_zip_Some.
    + by rewrite drop_ge by (rewrite length_zip; lia).
Qed.

(** With [host_length] beyond the arrays, the loop leaves them. *)
Lemma print_servers_leaves host_length host_values port_values : MAX_ADDRESSES < host_length ->
  forall fuel i, 0 <= i <= MAX_ADDRESSES -> MAX_ADDRESSES < i + Z.of_nat fuel ->
  print_servers fuel host_length host_values port_values i = Fault OutOfBounds.
Proof.
  intros Hlen. induction fuel as [|fuel IH]; intros i Hi Hf; [lia|]. cbn [print_servers].
  rewrite (proj2 (Z.ltb_lt _ _)) by lia. unfold slot_string.
  destruct ((0 <=? i) && (i <? MAX_ADDRESSES)) eqn:Hin; [|done].
  destruct (c_string_fault (drop (Z.to_nat (i * FILENAME_MAX)) host_values)) as [[h ->]| ->]; [|done].
  cbn [mbind res_bind].
  destruct (c_string_fault (drop (Z.to_nat (i * FILENAME_MAX)) port_values)) as [[q ->]| ->]; [|done].
  cbn [mbind res_bind]. rewrite IH; [done|lia|lia].
Qed.

(** The servers of a configuration: as many hosts as ports, each in its slot,
    with names that resolve and ports that are valid. *)
Record servers_ok (host_address : string -> Z) es : Prop := {
  so_hosts_ok : Forall (outer_ok DISTRIBUTION_SERVER_ARRAY_PROPERTY HOST_PROPERTY) es;
  so_ports_ok : Forall (outer_ok DISTRIBUTION_SERVER_ARRAY_PROPERTY PORT_PROPERTY) es;
  so_resolves w name : answer w (Gethostbyname name) = host_address name }.

Definition server_hosts es := all_strings DISTRIBUTION_SERVER_ARRAY_PROPERTY HOST_PROPERTY es.
Definition server_ports es := all_strings DISTRIBUTION_SERVER_ARRAY_PROPERTY PORT_PROPERTY es.
Definition in_slot (v : string) : Prop := Z.of_nat (String.length v) + 2 <= FILENAME_MAX.

Lemma merger_servers_wp st es host_address w : config_holds st es -> servers_ok host_address es ->
  server_hosts es <> [] -> length (server_hosts es) = length (server_ports es) ->
  blen (server_hosts es) <= MAX_ADDRESSES ->
  Forall in_slot (server_hosts es) -> Forall in_slot (server_ports es) ->
  Forall (fun a => host_address a.1 <> 0 /\ invalid_port (atoi a.2) = false)
    (zip (server_hosts es) (server_ports es)) ->
  wp (merger_servers uninitialized st) (fun r _ => exists servers,
    r = Some (blen (server_hosts es), servers) /\
    forall i a, zip (server_hosts es) (server_ports es) !! i = Some a ->
      tg_address <$> servers !! i = Some (described host_address a)) w.
Proof.
  intros Hst [Hho Hpo Hres] Hne Hlen Hmax Hhs Hps Hvalid.
  destruct (server_properties_read st es HOST_PROPERTY "host_values" Hst Hho)
    as (hv & Hhrun & Hh); [done..|].
  destruct (server_properties_read st es PORT_PROPERTY "port_values" Hst Hpo)
    as (pv & Hprun & Hp); [done|unfold server_ports, blen in *; lia|].
  fold (server_hosts es) in *. fold (server_ports es) in *.
  assert (Hpe : server_ports es <> []) by (intros E; rewrite E in Hlen; by destruct (server_hosts es)).
  rewrite bool_decide_eq_false_2 in Hhrun, Hprun by done.
  assert (Hb : blen (server_ports es) = blen (server_hosts es)) by (unfold blen; lia).
  rewrite Hb in Hprun. pose proof (blen_nonneg (server_hosts es)) as Hpos.
  unfold MAX_ADDRESSES in Hmax. unfold merger_servers.
  wp_step. eapply wp_lift; [done|]. cbv beta match. wp_step. eapply wp_lift; [done|]. cbv beta match zeta.
  rewrite Z.mod_small, Z.eqb_refl by lia. wp_step; [done|].
  pose proof (print_servers_ok _ _ hv pv Hlen Hh Hp 65 0) as Hprint.
  wp_step. eapply wp_lift; [apply Hprint; unfold blen in Hmax; lia|]. change (drop 0 ?l) with l.
  rewrite fst_zip, snd_zip by lia.
  assert (Hs32 : s32 (blen (server_hosts es)) = blen (server_hosts es))
    by (unfold s32; rewrite Z.mod_small; lia).
  rewrite Hs32. wp_step. eapply wp_mono; [apply (address_list_wp host_address); try done|].
  - rewrite length_replicate. unfold blen in Hmax. lia.
  - intros [r servers] w' (Hr & _ & Hs). cbn [fst snd] in *. subst r. wp_step. exists servers.
    rewrite (proj2 (Z.leb_gt _ _)); [done|]. unfold blen in *. destruct (server_hosts es); [done|]. cbn. lia.
Qed.

(** No servers at all: [-1] as a [size_t] is their number. *)
Lemma merger_servers_empty st es w : config_holds st es ->
  Forall (outer_ok DISTRIBUTION_SERVER_ARRAY_PROPERTY HOST_PROPERTY) es ->
  Forall (outer_ok DISTRIBUTION_SERVER_ARRAY_PROPERTY PORT_PROPERTY) es ->
  server_hosts es = [] -> server_ports es = [] ->
  merger_servers uninitialized st w = Fault OutOfBounds.
Proof.
  intros Hst Hho Hpo Hh Hp. unfold server_hosts, server_ports in *.
  destruct (server_properties_read st es HOST_PROPERTY "host_values" Hst Hho)
    as (hv & Hhrun & _); [by rewrite Hh|by rewrite Hh|].
  destruct (server_properties_read st es PORT_PROPERTY "port_values" Hst Hpo)
    as (pv & Hprun & _); [by rewrite Hp|by rewrite Hp|].
  rewrite Hh, bool_decide_eq_true_2 in Hhrun by done. rewrite Hp, bool_decide_eq_true_2 in Hprun by done.
  unfold merger_servers, mbind, M_bind, lift. rewrite Hhrun, Hprun.
  rewrite Z.eqb_refl. cbn [negb]. by rewrite print_servers_leaves.
Qed.

(** ** Reading the configuration *)

Lemma property_read st es name array s : config_holds st es ->
  first_value name es = Some (JString s) -> plain s ->
  in_slot (escaped s) ->
  exists buf, property uninitialized st name array = Ok buf /\ length buf = Z.to_nat FILENAME_MAX /\
    cstring buf = chars (escaped s).
Proof.
  intros Hst Hv Hp Hl. unfold in_slot in Hl.
  pose proof (get_property_spec st es name (uninitialized array FILENAME_MAX) Hst) as Hspec.
  rewrite Hv in Hspec. destruct (Hspec Hp) as (buf & Hrun & Hlen & Hs); [rewrite Hsize; lia|].
  exists buf. unfold property. rewrite Hrun. split; [done|]. split; [by rewrite Hlen, Hsize|done].
Qed.

Lemma atoi_array_read buf s : length buf = Z.to_nat FILENAME_MAX -> cstring buf = chars s ->
  in_slot s -> atoi_array buf = Ok (atoi s).
Proof.
  unfold in_slot. intros Hl Hs Hin. unfold atoi_array. by rewrite (c_string_holds buf s) by (done || lia).
Qed.

(** The settings a run of [main] can come to. *)
Lemma property_length st name array buf :
  property uninitialized st name array = Ok buf -> length buf = Z.to_nat FILENAME_MAX.
Proof.
  unfold property. intros Hr. apply res_bind_Ok in Hr as ([r v] & Hg & Hr).
  apply get_property_length in Hg as (b & -> & Hl). injection Hr as <-. cbn. by rewrite Hl, Hsize.
Qed.

Lemma strip_backslash_length buf buf' : strip_backslash buf = Ok buf' -> length buf' = length buf.
Proof.
  unfold strip_backslash. destruct (strip_char_from_string buf "\"%char) as [[out|]|] eqn:Hs;
    cbn; [|done..]. intros [= <-]. by apply strip_char_from_string_length in Hs.
Qed.

Definition name_fits (s : string) : Prop := Z.of_nat (String.length s) < FILENAME_MAX.

Lemma stripped_fits st name array buf buf' s :
  property uninitialized st name array = Ok buf -> strip_backslash buf = Ok buf' ->
  c_string buf' = Ok s -> name_fits s.
Proof.
  intros Hb Hs Hc. apply property_length in Hb. apply strip_backslash_length in Hs.
  apply c_string_length in Hc. unfold name_fits, FILENAME_MAX in *. lia.
Qed.

Definition settings_ok (s : merger_settings) : Prop :=
  name_fits (ms_output s) /\ 0 < ms_result s <= Z.of_nat (length (ms_servers s)).

(** Unfolding a run of the monad. *)
Lemma run_bind {A B} (m : M A) (k : A -> M B) w b w' : (m ≫= k) w = Ok (b, w') ->
  exists a w1, m w = Ok (a, w1) /\ k a w1 = Ok (b, w').
Proof. unfold mbind, M_bind. destruct (m w) as [[a w1]|]; [|done]. intros Hr. by exists a, w1. Qed.

Lemma run_lift {A} (r : res A) w a w' : lift r w = Ok (a, w') -> r = Ok a /\ w' = w.
Proof. unfold lift. destruct r; [|done]. by intros [= <- <-]. Qed.

Lemma merger_servers_length st w n servers w' :
  merger_servers uninitialized st w = Ok (Some (n, servers), w') ->
  0 < n <= Z.of_nat (length servers).
Proof.
  unfold merger_servers. intros Hr. apply run_bind in Hr as ([h hv] & w1 & _ & Hr).
  apply run_bind in Hr as ([q qv] & w2 & _ & Hr). cbv beta match zeta in Hr.
  destruct (negb _); [done|]. apply run_bind in Hr as (names & w3 & _ & Hr).
  apply run_bind in Hr as ([r out] & w4 & Ha & Hr). apply address_list_length in Ha as [Hl Hn].
  destruct (Z.leb_spec r 0); [done|]. injection Hr as <- <- _. rewrite Hl, length_replicate.
  unfold MAX_ADDRESSES in *. lia.
Qed.

Lemma merger_configure_ok argv w s w' :
  merger_configure testString access readable getenv uninitialized argv w = Ok (inr s, w') ->
  settings_ok s.
Proof.
  unfold merger_configure. destruct (arguments testString argv) as [code|name]; [done|].
  intros Hr. apply run_bind in Hr as (st & w1 & _ & Hr). destruct st as [code|st]; [done|].
  apply run_bind in Hr as (b1 & w2 & _ & Hr).
  apply run_bind in Hr as (b2 & w3 & [Hb2 _]%run_lift & Hr).
  apply run_bind in Hr as (u & w4 & _ & Hr).
  apply run_bind in Hr as (b3 & w5 & [Hb3 _]%run_lift & Hr).
  apply run_bind in Hr as (o & w6 & [Ho _]%run_lift & Hr).
  apply run_bind in Hr as (servers & w7 & Hs & Hr).
  destruct servers as [[n servers]|]; [|done]. injection Hr as <- _. split; cbn.
  - by eapply stripped_fits.
  - by eapply merger_servers_length.
Qed.

Definition distributor_settings_ok (s : distributor_settings) : Prop :=
  name_fits (ds_location s) /\ 1 <= ds_port s <= HIGHEST_IP_PORT.

Lemma distributor_configure_ok argv s :
  distributor_configure testString access readable getenv uninitialized argv = Ok (inr s) ->
  distributor_settings_ok s.
Proof.
  unfold distributor_configure. destruct (arguments testString argv) as [code|name]; [done|].
  intros Hr. apply res_bind_Ok in Hr as (st & _ & Hr). destruct st as [code|st]; [done|].
  apply res_bind_Ok in Hr as (b1 & Hb1 & Hr). do 3 (apply res_bind_Ok in Hr as (? & _ & Hr)).
  apply res_bind_Ok in Hr as (b2 & Hb2 & Hr). do 3 (apply res_bind_Ok in Hr as (? & _ & Hr)).
  destruct (invalid_port _) eqn:Hport; [done|]. apply res_bind_Ok in Hr as (o & Ho & Hr).
  injection Hr as <-. split; cbn; [by eapply stripped_fits|]. unfold invalid_port in Hport. lia.
Qed.
End servers.

(** ** The programs as runs of the system *)

Section runs.
Context `{Henv : Env, !Clock}.

Definition then_reachable (sup : supervisor) {A} (m : M A) (w : world) : Prop :=
  wp m (fun _ w' => reachable (System w' sup)) w.

Lemma open_reachable r w sup : request_fits r -> reachable (System w sup) ->
  then_reachable sup (open_request r) w.
Proof.
  intros Hfit Hy. pose proof (reachable_ok _ Hy) as [Hw _]. destruct (ok_table _ Hw) as [Hl Hc _ _].
  pose proof (open_request_evolves r w Hfit Hl Hc) as Hwp.
  apply wp_run in Hwp as (b & w' & Hrun & _). apply wp_run. exists b, w'. split; [done|].
  eapply reachable_step; [done|]. by eapply step_open.
Qed.

Lemma then_reachable_map {A B} (m : M A) (f : A -> B) sup w :
  then_reachable sup (a ← m; mret (f a)) w -> then_reachable sup m w.
Proof. unfold then_reachable, wp, mbind, M_bind. by destruct (m w) as [[a w']|]. Qed.

Lemma then_reachable_bind {A B} (m : M A) (k : A -> M B) sup w : then_reachable sup m w ->
  (forall a w', reachable (System w' sup) -> then_reachable sup (k a) w') ->
  then_reachable sup (a ← m; k a) w.
Proof. intros Hm Hk. apply wp_bind. eapply wp_mono; [exact Hm|]. intros a w'. apply Hk. Qed.

Lemma connect_clients_reachable merger servers sup : forall n i w, (i + n <= length servers)%nat ->
  reachable (System w sup) -> then_reachable sup (connect_clients n i servers merger) w.
Proof.
  induction n as [|n IH]; intros i w Hn Hy; [by apply wp_ret|]. cbn [connect_clients].
  destruct (lookup_lt_is_Some_2 servers i) as [t Ht]; [lia|]. rewrite Ht.
  apply then_reachable_bind; [|intros u w1 Hy1; apply IH; [lia|done]].
  apply then_reachable_bind; [|by intros r w1 Hy1; apply wp_ret].
  eapply then_reachable_map. by apply (open_reachable (OpenClient (tg_address t) merger)).
Qed.

Lemma phase_reachable {A B C} (m : M A) (f : A -> B) (g : A -> C) sup w :
  then_reachable sup (a ← m; mret (f a)) w -> then_reachable sup (a ← m; mret (g a)) w.
Proof.
  intros Hm. apply then_reachable_bind; [by eapply then_reachable_map|].
  intros a w' Hy. by apply wp_ret.
Qed.

Lemma merger_phases_reachable s sup w : settings_ok s -> reachable (System w sup) ->
  then_reachable sup (merger_start s) w /\
  forall merger, then_reachable sup (merger_connect s merger) w.
Proof.
  intros [Hf Hn] Hy. split.
  - eapply phase_reachable. by apply (open_reachable (OpenMerger (ms_output s) (ms_untunnel s))).
  - intros merger. apply connect_clients_reachable; [lia|done].
Qed.

Lemma distributor_phases_reachable s sup w : distributor_settings_ok s ->
  reachable (System w sup) ->
  then_reachable sup (distributor_listen s) w /\ then_reachable sup (distributor_capture s) w.
Proof.
  intros [Hf _] Hy. split; [|unfold distributor_capture; destruct (negb _)].
  - eapply phase_reachable. by apply (open_reachable (OpenServer (ds_port s))).
  - eapply phase_reachable. by apply (open_reachable (OpenLive (ds_location s))).
  - eapply phase_reachable. by apply (open_reachable (OpenFiles (ds_location s) (ds_iterations s))).
Qed.

Lemma sighandler_reachable b sup w : reachable (System w sup) ->
  then_reachable sup (sighandler b) w.
Proof.
  intros Hy. destruct b; [by apply wp_ret|]. apply then_reachable_bind.
  - apply wp_modify. eapply reachable_step; [done|apply step_close].
  - intros u w' Hy'. by apply wp_ret.
Qed.
End runs.

(** ** Properties *)

Section properties.
Context `{Henv : Env} {J : Type} `{JsonLaws J}.
Variables (testString access readable : string -> bool) (getenv : string -> option string).
Variable uninitialized : string -> Z -> list ascii.

(** C19: on a documented configuration that names as many hosts as ports, at most
    64, with texts that fit their arrays, names that resolve and valid ports,
    the merger gets past its checks with exactly the configured settings: the
    output path as it was before JSON escaped its slashes, and server [i] at the
    address of host [i] and port [i]. *)
Theorem merger_reads_its_configuration (program magic name : string) (st : config_state J)
    (es : list (list (string * json))) (untunnel output : string)
    (host_address : string -> Z) (w : world) :
  (forall array n, length (uninitialized array n) = Z.to_nat n) ->
  testString magic = false ->
  read_configuration access getenv uninitialized (read_pcap_merge_cfg_file readable) name
    = Ok (inr st) ->
  config_holds st es -> servers_ok host_address es ->
  first_value UNTUNNEL_GTP_PROPERTY es = Some (JString untunnel) ->
  first_value OUTPUT_PATH_PROPERTY es = Some (JString output) ->
  plain untunnel -> plain output -> in_slot (escaped untunnel) -> in_slot (escaped output) ->
  server_hosts es <> [] -> length (server_hosts es) = length (server_ports es) ->
  blen (server_hosts es) <= MAX_ADDRESSES ->
  Forall in_slot (server_hosts es) -> Forall in_slot (server_ports es) ->
  Forall (fun a => host_address a.1 <> 0 /\ invalid_port (atoi a.2) = false)
    (zip (server_hosts es) (server_ports es)) ->
  wp (merger_configure testString access readable getenv uninitialized [program; magic; name])
    (fun r _ => exists servers,
       r = inr (MergerSettings (atoi (escaped untunnel)) output (blen (server_hosts es)) servers) /\
       forall i a, zip (server_hosts es) (server_ports es) !! i = Some a ->
         tg_address <$> servers !! i = Some (described host_address a)) w.
Proof.
  intros Hsize Hmagic Hread Hst Hso Hu Ho Hup Hop Hus Hos Hne Hlen Hmax Hhs Hps Hvalid.
  unfold merger_configure, arguments. rewrite Hmagic, Hread. wp_step. eapply wp_lift; [done|].
  destruct (property_read uninitialized Hsize st es _ "untunnel_str" untunnel Hst Hu Hup Hus)
    as (ub & Hub & Hul & Huc).
  destruct (property_read uninitialized Hsize st es _ "output_path_str" output Hst Ho Hop Hos)
    as (ob & Hob & Hol & Hoc).
  destruct (strip_backslash_escaped ob output Hop Hoc) as (sb & Hsb & Hsc);
    [unfold in_slot in Hos; lia|].
  wp_step. eapply wp_lift; [done|]. wp_step. eapply wp_lift; [done|].
  wp_step. eapply wp_lift; [by apply (atoi_array_read ub)|]. wp_step. eapply wp_lift; [done|].
  wp_step. eapply wp_lift; [done|]. wp_step.
  eapply wp_mono; [by apply (merger_servers_wp uninitialized Hsize st es host_address)|].
  intros r w' (servers & -> & Hs). wp_step. by exists servers.
Qed.

(** C20: a configuration that names no server, like the one in [etc], is not
    rejected: the count [-1] becomes the largest [size_t], both counts agree,
    and the loop that prints the servers runs past the arrays of hosts and
    ports. *)
Theorem merger_without_servers_overruns (st : config_state J)
    (es : list (list (string * json))) (w : world) :
  (forall array n, length (uninitialized array n) = Z.to_nat n) ->
  config_holds st es ->
  Forall (outer_ok DISTRIBUTION_SERVER_ARRAY_PROPERTY HOST_PROPERTY) es ->
  Forall (outer_ok DISTRIBUTION_SERVER_ARRAY_PROPERTY PORT_PROPERTY) es ->
  server_hosts es = [] -> server_ports es = [] ->
  merger_servers uninitialized st w = Fault OutOfBounds.
Proof. intros Hsize. by apply merger_servers_empty. Qed.

(** C18: from any state the system can reach, whatever the configuration that got
    a program past its checks, the phases of both programs never fault and lead
    to states the system can reach: opening the merger, connecting its clients,
    opening the server and the capture, and the signal handler. *)
Theorem programs_run_in_the_system `{!Clock} (w : world) (sup : supervisor) :
  (forall array n, length (uninitialized array n) = Z.to_nat n) ->
  reachable (System w sup) ->
  (forall argv w0 s w1,
     merger_configure testString access readable getenv uninitialized argv w0 = Ok (inr s, w1) ->
     then_reachable sup (merger_start s) w /\
     forall merger, then_reachable sup (merger_connect s merger) w) /\
  (forall argv s,
     distributor_configure testString access readable getenv uninitialized argv = Ok (inr s) ->
     then_reachable sup (distributor_listen s) w /\
     then_reachable sup (distributor_capture s) w) /\
  forall shutdown_ordered, then_reachable sup (sighandler shutdown_ordered) w.
Proof.
  intros Hsize Hy. split; [|split].
  - intros argv w0 s w1 Hs. apply merger_phases_reachable; [|done].
    by eapply merger_configure_ok.
  - intros argv s Hs. apply distributor_phases_reachable; [|done].
    by eapply distributor_configure_ok.
  - intros b. by apply sighandler_reachable.
Qed.
End properties.

(** ** Concrete programs *)

(** The configuration of a merger of two distributors. *)
Definition merger_config : list (list (string * json)) :=
  [[("untunnel_gtp", JString "1"); ("output_path", JString "/tmp/out.pcap")];
   [("distribution_server_array",
     JArray [JObject [("host", JString "alpha"); ("port", JString "4711")];
             JObject [("host", JString "beta"); ("port", JString "80")]])]].

(** The one of [etc]: no servers. *)
Definition etc_config : list (list (string * json)) :=
  [[("untunnel_gtp", JString "1");
    ("output_path", JString "/var/opt/ericsson/eniq-analysis/merged.pcap");
    ("distribution_server_array", JArray [])]].

Definition zeroed (array : string) (n : Z) : list ascii := replicate (Z.to_nat n) NUL.
Lemma zeroed_size array n : length (zeroed array n) = Z.to_nat n.
Proof. apply length_replicate. Qed.

Definition config_files (f : string) : option json := Some (JArray (map JObject merger_config)).
Definition config_json : Json json := json_with config_files.
Definition config_json_laws : @JsonLaws json config_json := json_with_laws config_files.
#[local] Existing Instance config_json.
#[local] Existing Instance config_json_laws.

Definition merger_state : config_state json := ConfigState (config_files "") 1.

Lemma merger_config_read :
  read_configuration (fun _ => true) (fun _ => None) zeroed
    (read_pcap_merge_cfg_file (fun _ => true)) "merger.cfg" = Ok (inr merger_state).
Proof. vm_compute. reflexivity. Qed.

Lemma merger_config_holds : config_holds merger_state merger_config.
Proof. split; [discriminate|]. eexists. split; reflexivity. Qed.

Definition etc_state : config_state json := ConfigState (Some (JArray (map JObject etc_config))) 1.

Lemma etc_config_holds : config_holds etc_state etc_config.
Proof. split; [discriminate|]. eexists. split; reflexivity. Qed.

Definition sample_addresses (name : string) : Z := (sample_network [] (Gethostbyname name)).1.

Ltac outer_tac :=
  repeat apply Forall_cons_2; try apply Forall_nil_2;
  first [by left | right; eexists; split; [reflexivity|]];
  repeat apply Forall_cons_2; try apply Forall_nil_2; eexists;
  (split; [reflexivity|]); right; eexists; (split; [reflexivity|plain_tac]).

Lemma merger_config_servers : servers_ok (Henv := sample_network) sample_addresses merger_config.
Proof. split; [outer_tac|outer_tac|reflexivity]. Qed.

Lemma merger_reads_its_configuration_witness :
  wp (merger_configure (Henv := sample_network) (fun _ => false) (fun _ => true) (fun _ => true)
      (fun _ => None) zeroed ["pcapmerger"; "magic"; "merger.cfg"])
    (fun r _ => exists servers,
       r = inr (MergerSettings 1 "/tmp/out.pcap" 2 servers) /\
       forall i a, [("alpha", "4711"); ("beta", "80")] !! i = Some a ->
         tg_address <$> servers !! i = Some (described sample_addresses a)) empty_world.
Proof.
  apply (merger_reads_its_configuration (Henv := sample_network) (fun _ => false) (fun _ => true)
    (fun _ => true) (fun _ => None) zeroed "pcapmerger" "magic" "merger.cfg" merger_state
    merger_config "1" "/tmp/out.pcap" sample_addresses empty_world).
  - exact zeroed_size.
  - reflexivity.
  - exact merger_config_read.
  - exact merger_config_holds.
  - exact merger_config_servers.
  - reflexivity.
  - reflexivity.
  - plain_tac.
  - plain_tac.
  - vm_compute. discriminate.
  - vm_compute. discriminate.
  - discriminate.
  - reflexivity.
  - vm_compute. discriminate.
  - repeat apply Forall_cons_2; try apply Forall_nil_2; vm_compute; discriminate.
  - repeat apply Forall_cons_2; try apply Forall_nil_2; vm_compute; discriminate.
  - repeat apply Forall_cons_2; try apply Forall_nil_2; (split; [vm_compute; discriminate|reflexivity]).
Defined.

Lemma merger_without_servers_overruns_witness :
  merger_servers (Henv := sample_network) zeroed etc_state empty_world = Fault OutOfBounds.
Proof.
  apply (merger_without_servers_overruns (Henv := sample_network) zeroed etc_state etc_config).
  - exact zeroed_size.
  - exact etc_config_holds.
  - apply Forall_cons_2; [|apply Forall_nil_2]. right. eexists. split; [reflexivity|apply Forall_nil_2].
  - apply Forall_cons_2; [|apply Forall_nil_2]. right. eexists. split; [reflexivity|apply Forall_nil_2].
  - reflexivity.
  - reflexivity.
Defined.

Lemma programs_run_in_the_system_witness :
  let w := initial_world in
  (forall argv w0 s w1,
     merger_configure (Henv := calm_os) (fun _ => false) (fun _ => true) (fun _ => true)
       (fun _ => None) zeroed argv w0 = Ok (inr s, w1) ->
     then_reachable (Henv := calm_os) NotStarted (merger_start s) w /\
     forall merger, then_reachable (Henv := calm_os) NotStarted (merger_connect s merger) w) /\
  (forall argv s,
     distributor_configure (fun _ => false) (fun _ => true) (fun _ => true) (fun _ => None)
       zeroed argv = Ok (inr s) ->
     then_reachable (Henv := calm_os) NotStarted (distributor_listen (Henv := calm_os) s) w /\
     then_reachable (Henv := calm_os) NotStarted (distributor_capture (Henv := calm_os) s) w) /\
  forall shutdown_ordered,
    then_reachable (Henv := calm_os) NotStarted (sighandler shutdown_ordered) w.
Proof.
  apply (programs_run_in_the_system (Henv := calm_os) (fun _ => false) (fun _ => true)
    (fun _ => true) (fun _ => None) zeroed initial_world NotStarted).
  - exact zeroed_size.
  - exact initial_reachable.
Defined.

(** The distributor takes a port and rejects a number that is none. *)
Definition distributor_config (port : string) : list (list (string * json)) :=
  [[("live", JString "1"); ("capture_location", JString "en0"); ("port", JString port)]].

Example distributor_runs :
  distributor_configure (H := json_with (fun _ => Some (JArray (map JObject (distributor_config "12345")))))
    (fun _ => false) (fun _ => true) (fun _ => true) (fun _ => None) zeroed ["p"; "m"; "d.cfg"]
  = Ok (inr (DistributorSettings "en0" 1 12345 0)).
Proof. vm_compute. reflexivity. Qed.

Example distributor_rejects_port :
  distributor_configure (H := json_with (fun _ => Some (JArray (map JObject (distributor_config "70000")))))
    (fun _ => false) (fun _ => true) (fun _ => true) (fun _ => None) zeroed ["p"; "m"; "d.cfg"]
  = Ok (inl 1).
Proof. vm_compute. reflexivity. Qed.

(** The usage message asks for the configuration file alone, but with it alone
    the program prints the usage message. *)
Example usage_needs_two_arguments :
  arguments (fun _ => false) ["p"; "d.cfg"] = inl 1.
Proof. reflexivity. Qed.
